(* ===== verification/_CoqProject ===== *)
-Q . S2P
Prelude.v
GoStrings.v
Store.v
MemStore.v
SqlStore.v
SqlRefine.v
SqlSchema.v
StoreTest.v
Registry.v
Forwarder.v
RelayQueue.v
Relay.v
Nodekey.v
Webhook.v
Smtp.v
Plugin.v
Lockout.v
Reputation.v
Mailbox.v
Server.v
Controller.v
Observability.v
Config.v
Serve.v
Cli.v
Mail.v
