(* ===== verification/Prelude.v ===== *)
(** * Postbox: a verification library

    Postbox is a mail node written in Go. It keeps domains, users and webhook
    delivery jobs in a store, accepts mail over SMTP, LMTP and gRPC, filters it
    through plugins, forwards it to the node responsible for each recipient or
    to an outbound relay, and notifies agents by signed webhooks. Nodes of a
    cluster find each other through a Redis registry. This library models that
    code function by function and proves what makes it correct. File and
    function names below are those under [src/].

    ** The program's parts and the files that model them

    - [Prelude]: time, machine integers with wrap-around, errors with
      [errors.Is], results, Go maps with an unspecified iteration order
      ([MapOrder]), [sort.Slice], the shared tactics and hints.
    - [GoStrings]: the parts of [strings], [unicode/utf8], [net.SplitHostPort]
      and [net/mail] that the code uses, on byte strings; Unicode case folding
      and address parsing outside ASCII are classes ([GoUnicode], [NetMail]).
    - [Store]: [internal/store/store.go]; records, the [Store] interface as the
      class [StoreOps] with the laws [StoreLaws] its clients are proved against.
    - [MemStore]: [internal/store/memstore]; every method, and the instance of
      [StoreLaws].
    - [SqlStore]: [internal/store/sqlite] (module [Sqlite]) and
      [internal/store/sqlstore] (module [SqlStore]); every method as a statement
      on tables, under every answer of the driver. What the code leaves to the
      engine (LIKE, JSON columns, collation, the resolution of timestamps) is a
      class. [SqlRefine] relates both to [MemStore] and to each other, [SqlSchema]
      models connecting and migrating on a catalog of tables, and [StoreTest] is
      [internal/store/storetest] run against all three stores.
    - [Registry]: [internal/registry] (local, Redis) and
      [internal/relay/registry.go]; lookup, registration, heartbeat and the
      relay fallback. Redis and the JSON of route entries are classes with laws.
    - [Forwarder]: [internal/forwarder]; classification of recipients,
      forwarding with fallback to local delivery, the connection cache.
    - [RelayQueue]: [internal/relay/queue.go]; the queue, its workers and Stop as
      a step relation with free interleaving.
    - [Relay]: [internal/relay/relay.go, smtp.go, sendgrid.go, dkim.go]; the relay
      server and its backends, the RFC 5322 text.
    - [Nodekey]: [internal/nodekey] with base64, and [internal/guard] (module
      [Guard]). Ed25519 is a class with its laws.
    - [Webhook]: [internal/webhook]; retry schedule in [float64] arithmetic,
      signatures, payload, and the dispatcher with workers and sweeper.
    - [Smtp]: [internal/smtp/server.go] (module [Smtp]; sanitising in [Sanitise])
      and [lmtp.go] (module [Lmtp]); sessions as a step relation over go-smtp's
      calling order. The lockout tracker it asks is the class [AuthFailureHook].
    - [Plugin]: [internal/plugin]: [plugin.go] and the filters that look at the
      message only ([AddressFilter], [AttachmentFilter], [SecurityAgent],
      [EmailAuth]).
    - [Lockout]: [smtp_security.go] (module [SMTPSecurity], the instance of
      [AuthFailureHook]) and [redis_lockout.go] (module [RedisLockout]); the class
      [LockoutTracker] is the promise between tracker and listener, which
      [MemoryTracker] and [RedisTracker] discharge.
    - [Reputation]: [dnsbl.go], [crowdsec.go], [spam_checker.go], [antivirus.go].
    - [Mailbox]: [internal/mbxstore] and the default factory of
      [internal/server/options.go]: the mailbox service as options given to the
      mailbox library (class [MailboxLib]) over the drivers (class [Drivers]), and
      the thread resolver of [node.go].
    - [Server]: [internal/server/server.go]; the RPCs (module [Server]), the life
      cycle of the listeners ([Lifecycle]) with the RPCs that drive it ([Ports]).
    - [Controller]: [internal/server/node.go, options.go] (module [Node]):
      options, [NewController] with what it holds when it fails, what a running
      controller goes through, and [Close].
    - [Observability]: [internal/observability].
    - [Config]: [cmd/config.go, root.go] and the flags of [cmd/serve.go]: the
      records, the flag, binding and key tables, and decoding; viper is a class.
    - [Serve]: [cmd/serve.go]: the plugin chain ([Plugins], which the mailbox runs
      as the class [SendHooks] says), the outbound backend ([Outbound]), and the
      command itself with its deferred calls ([Run]).
    - [Cli]: [cmd/user.go, register.go, domain.go, smtp.go, status.go,
      discover.go]: each command as its call of the service behind the guard
      (class [Interceptors]) and the lines it prints.
    - [Mail]: [cmd/mail]: the same for the calls of the mailbox service (class
      [MailboxService]), with the dates as they are printed.

    A message takes this way through the parts: [Smtp] or gRPC hands it to the
    mailbox, which runs the chain of [Serve.Plugins] ([Plugin], [Lockout],
    [Reputation]); [Forwarder] splits its recipients by [Registry] and sends the
    others to their nodes or to [Relay], whose [RelayQueue] delivers later; the
    mailbox's events reach [Webhook]. [Controller] makes and closes all of these
    over one [Store], [Serve] makes the controller from [Config], and [Cli] calls
    [Server].

    ** How code becomes definitions

    A function that can fail returns [result]; one that changes state returns the
    new state beside its result. Whatever comes from outside (clock readings,
    random numbers, the answers of DNS, HTTP, Redis, SQL or the network, third
    party libraries) is an argument or a class; classes carry the documented
    behaviour the code relies on as laws, and each is instantiated by a concrete
    function in a witness. Error and response texts are kept as format string
    and arguments. Goroutines become steps of a relation that interleave freely,
    one step per critical section, so that invariants hold for every schedule;
    iteration over a Go map takes the order as an argument, so that results are
    proved for every order. Times are nanoseconds since Go's zero time,
    durations [int64]; integers are wrapped wherever the code could overflow.

    ** What the theorems show

    - Storage: saving a domain refines an abstract table with at most one
      default; reachable stores are well formed; listing and search are complete
      and ordered for every map order. The SQL stores implement the in-memory
      store on all calls that mean the same to both, agree with each other under
      every answer of the driver, and keep their rows well typed; migrations
      complete every earlier database and can be resumed; the conformance suite
      accepts all three.
    - Routing: what the local lookup decides; registrations are found by every
      peer; announcements last for the heartbeat's lifetime; with a relay every
      recipient has a route; claiming a domain makes [Discover] answer the node;
      a started controller is wired for its identity and its stored key.
    - Delivery: forwarding conserves recipients under every pattern of failure;
      relayed text reads back; DKIM signing sends what the inner backend would;
      the relay queue loses no accepted message, respects its limits, drains on
      Stop within a bounded number of steps, and backs off within bounds.
    - Webhooks: queue and concurrency bounds, no POST beyond the attempt limit,
      the outcome of every attempt, jittered retry times, sweeping of due jobs,
      and acceptance of signatures exactly within the allowed skew.
    - Security: whatever a client sends, mail reaches the mailbox only as a user
      the connection authenticated as; failed logins are counted and throttled;
      a host gets a bounded number of guesses with either tracker, and a lockout
      holds for its whole duration; header values cannot inject lines; the
      filters, policies and block lists let pass exactly what they promise, on
      answers no older than their caches allow; LMTP delivers what SMTP would;
      a controller never runs two listeners of a kind.
    - The node as a whole: configuration tables fit together and resolve with the
      documented precedence; the plugin chain is the configured one and refuses a
      locked-out client whatever the other plugins do; a serving node is the one
      its configuration describes; whichever step of serve fails, and after any
      history, the controller is closed once and nothing stays running.
    - The command line: what is registered is printed back, and printed metadata
      parses again, sorted and independent of map order; following the offsets
      [mail list] prints reads a whole folder and ends.

    Some theorems state where the code departs from its documentation (for
    example [Forwarder.forwarding_ping_pong], [Nodekey.restart_replaces_key],
    [EmailAuth.smtp_mail_skips_dmarc], [ServerDemo.two_nodes_claim_domain],
    [SqlRefine.sql_SaveDomain_decision], [Node.any_password_accepted],
    [Cli.commands_refused_with_token]).

    ** Bounds and fuel

    Recursion is structural almost everywhere. The scan of file extensions takes
    the length of the name as fuel, which its specification shows to be enough.
    The queue's termination is a bound on the number of steps computed from the
    state. Counters that are 32 bits wide in the code are wrapped; the lockout
    limit is assumed to be below [2^30], so that a counter cannot wrap within one
    window. Rates are rationals and spam scores exact fractions, for finite
    [float64] numbers that the code only compares. The sort of printed
    metadata takes the number of pairs as fuel, which is enough for any list.

    ** What is not modelled

    Generated protobuf code; logging, signals and
    the gRPC transport; the mailbox service, go-smtp, viper, gRPC, database and
    Redis client libraries, which are arguments or classes with the documented
    behaviour the code relies on. SQL text is modelled as what each statement
    does to its tables, not parsed. A recorded login failure is one step although
    the code uses two critical sections and an atomic counter for it. *)
From Stdlib Require Export ZArith QArith Lia.
From stdpp Require Export sorting.
From stdpp Require Export base gmap strings list fin_maps tactics.


(** ** Scope, notations and the shorthand of the development *)

Declare Scope go_scope.
Delimit Scope go_scope with go.

(** [time.Time] is the number of nanoseconds since Go's zero time (so
    [IsZero t] is [t = 0]); [time.Duration] is an [int64] number of nanoseconds. *)
Abbreviation Time := Z (only parsing).
Abbreviation Duration := Z (only parsing).

Definition Nanosecond : Duration := 1.
Definition Second : Duration := 1000000000.
Definition Minute : Duration := 60 * Second.
Definition Hour : Duration := 60 * Minute.

Definition IsZero (t : Time) : bool := (t =? 0)%Z.

(** [t.Before(u)] and [t.After(u)]. *)
Definition Before (t u : Time) : bool := (t <? u)%Z.
Definition After (t u : Time) : bool := (u <? t)%Z.

(** The Unix time in seconds of Go's zero time is [- unixToInternal]. *)
Definition unixToInternal : Z := 62135596800.

(** [t.Unix()]: whole seconds, rounded down, relative to the Unix epoch. *)
Definition Unix (t : Time) : Z := (t / Second - unixToInternal)%Z.

(** ** Machine integers *)

(** The value of an integer expression reduced to [int64], [int32] and [int16]
    ranges: Go's arithmetic wraps around. *)
Definition wrap (w : Z) (z : Z) : Z :=
  ((z + 2 ^ (w - 1)) mod 2 ^ w - 2 ^ (w - 1))%Z.

Definition wrap64 (z : Z) : Z := wrap 64 z.
Definition wrap32 (z : Z) : Z := wrap 32 z.

(** [r > 0] of a float64 rate, read as a rational. *)
Definition rate_on (r : Q) : bool := negb (Qle_bool r 0).

Definition int64_range (z : Z) : Prop := (- 2 ^ 63 <= z < 2 ^ 63)%Z.
Definition int32_range (z : Z) : Prop := (- 2 ^ 31 <= z < 2 ^ 31)%Z.

Definition minInt64 : Z := (- 2 ^ 63)%Z.
Definition maxInt64 : Z := (2 ^ 63 - 1)%Z.

Lemma wrap64_id z : int64_range z → wrap64 z = z.
Proof.
  unfold int64_range, wrap64, wrap. intros H.
  rewrite Z.mod_small; simpl Z.sub in *; simpl Z.pow in *; lia.
Qed.

Lemma wrap64_range z : int64_range (wrap64 z).
Proof.
  unfold int64_range, wrap64, wrap.
  pose proof (Z.mod_pos_bound (z + 2 ^ (64 - 1)) (2 ^ 64)) as H.
  simpl Z.sub in *; simpl Z.pow in *; lia.
Qed.

Lemma wrap64_add x y : wrap64 (wrap64 x + y) = wrap64 (x + y).
Proof.
  unfold wrap64, wrap. f_equal.
  replace ((x + 2 ^ (64 - 1)) mod 2 ^ 64 - 2 ^ (64 - 1) + y + 2 ^ (64 - 1))%Z
    with ((x + 2 ^ (64 - 1)) mod 2 ^ 64 + y)%Z by lia.
  rewrite Z.add_mod_idemp_l by done. f_equal. lia.
Qed.

Lemma wrap32_id z : int32_range z → wrap32 z = z.
Proof.
  unfold int32_range, wrap32, wrap. intros H.
  rewrite Z.mod_small; simpl Z.sub in *; simpl Z.pow in *; lia.
Qed.

(** ** Errors

    Formatted text is kept symbolic: the format string of the source with its
    arguments. [EWrap t e] is [fmt.Errorf("...%w", e)]; the sentinels are the
    package-level [errors.New] values the code compares with [errors.Is].
    [EExternal] is an error value made outside the repository. *)
Inductive code : Set :=
| InvalidArgument | NotFound | AlreadyExists | Internal | Unauthenticated
| FailedPrecondition | ResourceExhausted | Unavailable | OtherCode.

Inductive sentinel : Set :=
| ErrStoreNotFound | ErrRegistryNotFound | ErrRejectedSentinel
| ErrQueueFull | ErrSMTPAlreadyRunning | ErrSMTPNotRunning
| ErrLMTPAlreadyRunning | ErrLMTPNotRunning
| ErrAlreadyRunning | ErrNotRunning | ErrLMTPServerAlreadyRunning | ErrLMTPServerNotRunning
| ErrAuthRequired | ErrAuthUnknownMechanism.

#[global] Instance code_eq_dec : EqDecision code.
Proof. solve_decision. Defined.
#[global] Instance sentinel_eq_dec : EqDecision sentinel.
Proof. solve_decision. Defined.

Inductive error : Type :=
| ESentinel (s : sentinel)
| ERejection (plugin : string) (reason : text)
| ESMTP (smtp_code : Z) (enhanced : Z * Z * Z) (msg : string)
| EStatus (c : code) (msg : text)
| EText (msg : text)
| EWrap (msg : text) (cause : error)
| EExternal (what : string)
with text : Type :=
| Text (format : string) (args : list arg)
with arg : Type :=
| AStr (s : string)
| AInt (z : Z)
| AErr (e : error)
| AList (l : list string).

(** [errors.Is(e, s)] for a sentinel [s]: the chain of [%w] wrappings is
    followed; a [*rejection] answers for [ErrRejected] through its [Is] method. *)
Fixpoint errors_Is (e : error) (s : sentinel) : bool :=
  match e with
  | ESentinel s' => bool_decide (s' = s)
  | ERejection _ _ => bool_decide (s = ErrRejectedSentinel)
  | EWrap _ e' => errors_Is e' s
  | _ => false
  end.

(** The results of fallible functions. *)
Inductive result (A : Type) : Type :=
| Ok (a : A)
| Err (e : error).
Arguments Ok {A} a.
Arguments Err {A} e.

Definition is_ok {A} (r : result A) : bool :=
  match r with Ok _ => true | Err _ => false end.

(** [if x, err := e; err != nil { return err }; k] *)
Notation "'try' x := e 'in' k" :=
  (match e with Ok x => k | Err err => Err err end)
  (at level 10, x pattern, e at level 100, k at level 200) : go_scope.
Open Scope go_scope.

(** A guarded early return and a checked call succeed when nothing stops them. *)
Lemma guard_ok {A} (b : bool) (e : error) (k : result A) a :
  (if b then Err e else k) = Ok a ↔ b = false ∧ k = Ok a.
Proof. destruct b; naive_solver. Qed.

Lemma try_ok {A} (r : result unit) (k : result A) a :
  (try _ := r in k) = Ok a ↔ r = Ok () ∧ k = Ok a.
Proof. destruct r as [[]|]; naive_solver. Qed.

(** Every refusal of a plugin is a rejection. *)
Definition only_rejects {A} (r : result A) : Prop :=
  ∀ e, r = Err e → errors_Is e ErrRejectedSentinel = true.

Lemma only_rejects_ok {A} (a : A) : only_rejects (Ok a).
Proof. by intros e [=]. Qed.

Lemma only_rejects_guard {A} (b : bool) p t (k : result A) :
  only_rejects k → only_rejects (if b then Err (ERejection p t) else k).
Proof. destruct b; [by intros _ e [= <-]|done]. Qed.

Lemma only_rejects_try {A} (r : result unit) (k : result A) :
  only_rejects r → only_rejects k → only_rejects (try _ := r in k).
Proof. intros Hr Hk. destruct r; [done|]. intros ? [= <-]. by apply Hr. Qed.

(** ** Maps *)

(** [m[k]] on a [map[string]string]: the zero value when the key is absent. *)
Definition mget (m : gmap string string) (k : string) : string :=
  default "" (m !! k).

(** The iteration order of a Go map is unspecified: a loop [for k, v := range m]
    visits the entries in the order some [MapOrder] gives. *)
Record MapOrder := {
  range : ∀ {K V : Type} `{Countable K}, gmap K V → list (K * V);
  range_perm : ∀ {K V : Type} `{Countable K} (m : gmap K V),
    range m ≡ₚ map_to_list m }.

Definition some_order : MapOrder :=
  {| range K V _ _ m := map_to_list m; range_perm K V _ _ m := reflexivity _ |}.

(** The order that reverses another one; used to exhibit order dependence. *)
Program Definition reversed (o : MapOrder) : MapOrder :=
  {| range K V _ _ m := reverse (range o m) |}.
Next Obligation. intros. rewrite reverse_Permutation. apply range_perm. Qed.

Definition range_values (o : MapOrder) {K V} `{Countable K} (m : gmap K V) : list V :=
  (range o m).*2.

Lemma elem_of_range o {K V} `{Countable K} (m : gmap K V) k v :
  (k, v) ∈ range o m ↔ m !! k = Some v.
Proof. by rewrite (range_perm o m), elem_of_map_to_list. Qed.

Lemma elem_of_range_values o {K V} `{Countable K} (m : gmap K V) v :
  v ∈ range_values o m ↔ ∃ k, m !! k = Some v.
Proof.
  unfold range_values. rewrite list_elem_of_fmap. split.
  - intros ([k v'] & -> & Hin). exists k. by apply (elem_of_range o) in Hin.
  - intros (k & Hk). exists (k, v). split; [done | by apply (elem_of_range o)].
Qed.

Lemma length_range_values o {K V} `{Countable K} (m : gmap K V) :
  length (range_values o m) = size m.
Proof.
  unfold range_values. by rewrite length_fmap, (range_perm o m), length_map_to_list.
Qed.

Lemma range_values_fmap o {K V W} `{Countable K} (g : V → W) (m : gmap K V) :
  range_values o (g <$> m) ≡ₚ g <$> range_values o m.
Proof.
  unfold range_values. rewrite (range_perm o (g <$> m)), (range_perm o m), map_to_list_fmap.
  by rewrite <-!list_fmap_compose.
Qed.

(** ** Slices *)

(** [sort.Slice(out, less)]. The algorithm is not stable, and the slices it is
    applied to come from a map iteration of arbitrary order: a stable sort of an
    arbitrarily ordered slice has the same outcomes. *)
Fixpoint insert_by {A} (less : A → A → bool) (x : A) (l : list A) : list A :=
  match l with
  | [] => [x]
  | y :: l' => if less y x then y :: insert_by less x l' else x :: l
  end.

Definition sortSlice {A} (less : A → A → bool) (l : list A) : list A :=
  foldr (insert_by less) [] l.

Definition sorted_by {A} (less : A → A → bool) : list A → Prop :=
  StronglySorted (λ a b, less b a = false).

(** A strict weak order, as [sort.Slice] requires of [less]. *)
Class StrictWeak {A} (less : A → A → bool) : Prop := {
  less_asym : ∀ x y, less x y = true → less y x = false;
  less_negtrans : ∀ x y z, less y x = false → less z y = false → less z x = false }.

Section Sorting.
Context {A : Type} (less : A → A → bool).

Lemma insert_by_perm x l : insert_by less x l ≡ₚ x :: l.
Proof.
  induction l as [|y l IH]; simpl; [done|].
  destruct (less y x); [|done]. rewrite IH. apply Permutation_swap.
Qed.

Lemma sortSlice_perm l : sortSlice less l ≡ₚ l.
Proof.
  induction l as [|x l IH]; simpl; [done|]. by rewrite insert_by_perm, IH.
Qed.

Lemma elem_of_sortSlice x l : x ∈ sortSlice less l ↔ x ∈ l.
Proof. by rewrite sortSlice_perm. Qed.

Lemma length_sortSlice l : length (sortSlice less l) = length l.
Proof. by rewrite sortSlice_perm. Qed.

Context `{!StrictWeak less}.

Lemma insert_by_sorted x l : sorted_by less l → sorted_by less (insert_by less x l).
Proof.
  unfold sorted_by. induction 1 as [|y l Hl IH Hy]; simpl.
  - repeat constructor.
  - destruct (less y x) eqn:Hyx.
    + constructor; [done|]. rewrite list.Forall_forall in Hy |- *. intros z Hz.
      rewrite insert_by_perm in Hz. apply elem_of_cons in Hz as [->|Hz].
      * by apply less_asym.
      * by apply Hy.
    + constructor; [by constructor|]. constructor; [done|].
      rewrite list.Forall_forall in Hy |- *. intros z Hz.
      eapply less_negtrans; [exact Hyx | by apply Hy].
Qed.

Lemma sortSlice_sorted l : sorted_by less (sortSlice less l).
Proof.
  induction l as [|x l IH]; simpl; [constructor | by apply insert_by_sorted].
Qed.
End Sorting.

(** Sorting by a key. *)
#[export] Instance string_less_weak {A} (f : A → string) :
  StrictWeak (λ a b, String.ltb (f a) (f b)).
Proof.
  assert (∀ s t, String.ltb s t = negb (String.leb t s)) as Hneg.
  { intros s t. unfold String.ltb, String.leb. rewrite (String.compare_antisym t s).
    by destruct (String.compare s t). }
  split; intros *; rewrite !Hneg, ?negb_true_iff, ?negb_false_iff.
  - intros H. destruct (String.leb_total (f x) (f y)); congruence.
  - intros H1 H2. apply Is_true_true. change (String.le (f x) (f z)).
    trans (f y); by apply Is_true_true.
Qed.

#[export] Instance before_weak {A} (f : A → Time) :
  StrictWeak (λ a b, Before (f a) (f b)).
Proof. unfold Before. split; intros *; rewrite ?Z.ltb_lt, ?Z.ltb_ge; lia. Qed.

#[export] Instance after_weak {A} (f : A → Time) :
  StrictWeak (λ a b, After (f a) (f b)).
Proof. unfold After. split; intros *; rewrite ?Z.ltb_lt, ?Z.ltb_ge; lia. Qed.

(** Sorting by an order that tells the elements apart gives one result for every
    order of the input. *)
Lemma sortSlice_determined {A} (less : A → A → bool) `{!StrictWeak less} (l1 l2 : list A) :
  l1 ≡ₚ l2 → (∀ x y, x ∈ l1 → y ∈ l1 → less y x = false → less x y = false → x = y) →
  sortSlice less l1 = sortSlice less l2.
Proof.
  intros Hp Htot. eapply (StronglySorted_unique_strong (λ a b, less b a = false)).
  - intros x y Hx Hy. rewrite elem_of_sortSlice in Hx. rewrite elem_of_sortSlice, <-Hp in Hy. auto.
  - apply sortSlice_sorted, _.
  - apply sortSlice_sorted, _.
  - by rewrite !sortSlice_perm.
Qed.

Lemma sortSlice_unique {A} (f : A → string) (l1 l2 : list A) :
  l1 ≡ₚ l2 → (∀ x y, x ∈ l1 → y ∈ l1 → f x = f y → x = y) →
  sortSlice (λ a b, String.ltb (f a) (f b)) l1 = sortSlice (λ a b, String.ltb (f a) (f b)) l2.
Proof.
  intros Hp Hinj. apply (sortSlice_determined _); [done|]. intros x y Hx Hy H1 H2. apply Hinj; [done..|].
  unfold String.ltb in *. rewrite String.compare_antisym in H2.
  destruct (String.compare (f y) (f x)) eqn:E; try done.
  symmetry. by apply String.compare_eq_iff in E.
Qed.

Lemma fmap_inj_elem {A B} (f : A → B) (l : list A) x y :
  NoDup (f <$> l) → x ∈ l → y ∈ l → f x = f y → x = y.
Proof.
  induction l as [|z l IH]; [by intros _ ?%elem_of_nil|]. rewrite fmap_cons, !elem_of_cons.
  intros [Hz Hnd]%list.NoDup_cons [->|Hx] [->|Hy] Hf; auto.
  - exfalso. apply Hz. rewrite Hf. by apply list_elem_of_fmap_2.
  - exfalso. apply Hz. rewrite <-Hf. by apply list_elem_of_fmap_2.
Qed.

Lemma sortSlice_fmap {A B} (g : A → B) (less1 : A → A → bool) (less2 : B → B → bool) l :
  (∀ x y, less2 (g x) (g y) = less1 x y) →
  g <$> sortSlice less1 l = sortSlice less2 (g <$> l).
Proof.
  intros Hl. induction l as [|x l IH]; [done|]. rewrite fmap_cons. unfold sortSlice in *.
  simpl. rewrite <-IH. fold (sortSlice less1 l). generalize (sortSlice less1 l). clear IH l. intros l.
  induction l as [|y l IH]; [done|]. simpl. rewrite Hl. destruct (less1 y x); [|done].
  simpl. f_equal. apply IH.
Qed.

Lemma sortSlice_ext {A} (less1 less2 : A → A → bool) l :
  (∀ x y, less1 x y = less2 x y) → sortSlice less1 l = sortSlice less2 l.
Proof.
  intros Hl. etrans; [symmetry; apply list_fmap_id|].
  rewrite (sortSlice_fmap id less1 less2) by done. by rewrite list_fmap_id.
Qed.

Lemma filter_fmap_list {A B} (g : A → B) (p : B → bool) (l : list A) :
  filter (λ y, p y = true) (g <$> l) = g <$> filter (λ x, p (g x) = true) l.
Proof.
  induction l as [|x l IH]; [done|]. rewrite fmap_cons, !filter_cons, IH. by case_decide.
Qed.

Lemma filter_all {A} (p : A → bool) (l : list A) :
  (∀ x, p x = true) → filter (λ x, p x = true) l = l.
Proof.
  intros Hp. induction l as [|x l IH]; [done|]. by rewrite filter_cons, decide_True, IH.
Qed.

Lemma filter_ext_bool {A} (p q : A → bool) (l : list A) :
  (∀ x, x ∈ l → p x = q x) → filter (λ x, p x = true) l = filter (λ x, q x = true) l.
Proof.
  induction l as [|x l IH]; [done|]. intros Hpq. rewrite !filter_cons, IH by set_solver.
  by rewrite (Hpq x) by set_solver.
Qed.

Lemma filter_at_most_one {A} (p : A → bool) (l : list A) : NoDup l →
  (∀ x y, x ∈ l → y ∈ l → p x = true → p y = true → x = y) →
  (length (filter (λ x, p x = true) l) <= 1)%nat.
Proof.
  intros Hnd Hone.
  assert (∀ x, x ∈ filter (λ x, p x = true) l → x ∈ l ∧ p x = true) as Hin
    by (intros x [? ?]%list_elem_of_filter; done).
  apply (list.NoDup_filter (λ x, p x = true)) in Hnd.
  destruct (filter _ l) as [|x [|y r]]; simpl; [lia..|]. exfalso.
  apply list.NoDup_cons in Hnd as [Hx _]. apply Hx.
  rewrite (Hone x y); [by apply elem_of_cons; left|apply Hin; set_solver..].
Qed.

(** [out[:limit]] when [limit > 0 && len(out) > limit]. *)
Definition limit_slice {A} (limit : Z) (l : list A) : list A :=
  if (0 <? limit)%Z && (limit <? Z.of_nat (length l))%Z
  then take (Z.to_nat limit) l else l.

(** ** Tactics and hints *)

(** Case analysis on every boolean test, [decide] and [match] of the goal. *)
Ltac go_cases :=
  repeat (case_bool_decide || case_decide || case_match); simplify_eq/=; try done.

(** Turn the boolean tests of the context into propositions. *)
Ltac go_bools :=
  repeat match goal with
  | H : _ && _ = true |- _ => apply andb_true_iff in H as [? ?]
  | H : _ && _ = false |- _ => apply andb_false_iff in H
  | H : _ || _ = false |- _ => apply orb_false_iff in H as [? ?]
  | H : _ || _ = true |- _ => apply orb_true_iff in H
  | H : negb _ = true |- _ => apply negb_true_iff in H
  | H : negb _ = false |- _ => apply negb_false_iff in H
  | H : bool_decide _ = true |- _ => apply bool_decide_eq_true in H
  | H : bool_decide _ = false |- _ => apply bool_decide_eq_false in H
  | H : (_ <? _)%Z = true |- _ => apply Z.ltb_lt in H
  | H : (_ <? _)%Z = false |- _ => apply Z.ltb_ge in H
  | H : (_ <=? _)%Z = true |- _ => apply Z.leb_le in H
  | H : (_ <=? _)%Z = false |- _ => apply Z.leb_gt in H
  | H : (_ =? _)%Z = true |- _ => apply Z.eqb_eq in H
  | H : (_ =? _)%Z = false |- _ => apply Z.eqb_neq in H
  end.

Create HintDb postbox.
Create Rewrite HintDb postbox.
#[export] Hint Resolve sortSlice_sorted wrap64_range : postbox.
#[export] Hint Resolve only_rejects_ok only_rejects_guard only_rejects_try : postbox.
#[export] Hint Rewrite @elem_of_sortSlice @length_sortSlice @elem_of_range_values
  @length_range_values : postbox.
