(* ===== verification/GoStrings.v ===== *)
(** * The parts of Go's string library the program uses

    Go strings are byte strings: here [string], a list of 8-bit characters.
    The file models [strings] (searching, splitting, trimming, case folding),
    the UTF-8 decoding of [for _, r := range s] with [strings.Builder.WriteRune],
    and [net.SplitHostPort]. Unicode case tables and the RFC 5322 address parser
    are parameters ([GoUnicode], [NetMail]): nothing is assumed of them. *)
From S2P Require Import Prelude.
From Stdlib Require Import Ascii.

(** ** Bytes *)

Definition byte_of (c : ascii) : Z := Z.of_N (N_of_ascii c).
Definition of_byte (z : Z) : ascii := ascii_of_N (Z.to_N z).

Lemma byte_of_range c : (0 <= byte_of c < 256)%Z.
Proof.
  unfold byte_of. pose proof (N_ascii_bounded c). lia.
Qed.

Lemma byte_of_of_byte z : (0 <= z < 256)%Z → byte_of (of_byte z) = z.
Proof.
  intros H. unfold byte_of, of_byte. rewrite N_ascii_embedding; lia.
Qed.

Lemma of_byte_byte_of c : of_byte (byte_of c) = c.
Proof. unfold byte_of, of_byte. rewrite N2Z.id. apply ascii_N_embedding. Qed.

(** [len(s)] *)
Fixpoint len (s : string) : Z :=
  match s with "" => 0 | String _ s' => 1 + len s' end%Z.

(** The bytes of a string that satisfy a test, in order. *)
Fixpoint filter_bytes (p : Z → bool) (s : string) : string :=
  match s with
  | "" => ""
  | String c s' => if p (byte_of c) then String c (filter_bytes p s') else filter_bytes p s'
  end.

Fixpoint all_bytes (p : Z → bool) (s : string) : bool :=
  match s with "" => true | String c s' => p (byte_of c) && all_bytes p s' end.

(** [s[:n]] for [0 <= n]. *)
Fixpoint take_bytes (n : nat) (s : string) : string :=
  match n, s with
  | S n', String c s' => String c (take_bytes n' s')
  | _, _ => ""
  end.

(** All that [io.LimitReader(r, n)] gives of a text. *)
Fixpoint limit_bytes (n : Z) (s : string) : string :=
  match s with
  | "" => ""
  | String c s' => if (n <=? 0)%Z then "" else String c (limit_bytes (n - 1) s')
  end.

Lemma len_nonneg s : (0 <= len s)%Z.
Proof. induction s; simpl; lia. Qed.

Lemma len_app s t : len (s +:+ t) = (len s + len t)%Z.
Proof. induction s as [|c s IH]; [done|]. change ((1 + len (s +:+ t)) = 1 + len s + len t)%Z. lia. Qed.

Lemma len_zero s : len s = 0%Z ↔ s = "".
Proof. destruct s; simpl; [done|]. pose proof (len_nonneg s). split; [lia|done]. Qed.

Lemma len_take_bytes n s : (len (take_bytes n s) <= Z.of_nat n)%Z.
Proof. revert s. induction n as [|n IH]; intros [|c s]; simpl; try lia. specialize (IH s). lia. Qed.

Lemma all_bytes_app p s t : all_bytes p (s +:+ t) = all_bytes p s && all_bytes p t.
Proof.
  induction s as [|c s IH]; [done|].
  change (p (byte_of c) && all_bytes p (s +:+ t) = p (byte_of c) && all_bytes p s && all_bytes p t).
  by rewrite IH, andb_assoc.
Qed.

Lemma all_bytes_take p n s : all_bytes p s = true → all_bytes p (take_bytes n s) = true.
Proof.
  revert s. induction n as [|n IH]; intros [|c s]; simpl; try done.
  rewrite !andb_true_iff. naive_solver.
Qed.

Lemma all_bytes_filter p s : all_bytes p (filter_bytes p s) = true.
Proof.
  induction s as [|c s IH]; simpl; [done|]. destruct (p (byte_of c)) eqn:E; simpl; [|done].
  by rewrite E.
Qed.

Lemma app_assoc_string (s t u : string) : (s +:+ t) +:+ u = s +:+ t +:+ u.
Proof. induction s as [|c s IH]; [done|]. change (String c ((s +:+ t) +:+ u) = String c (s +:+ t +:+ u)). by f_equal. Qed.

Lemma app_nil_string (s : string) : s +:+ "" = s.
Proof. induction s as [|c s IH]; [done|]. change (String c (s +:+ "") = String c s). by f_equal. Qed.

(** ** Searching *)

(** [strings.HasPrefix(s, p)] *)
Fixpoint HasPrefix (s p : string) : bool :=
  match p, s with
  | "", _ => true
  | String a p', String b s' => bool_decide (a = b) && HasPrefix s' p'
  | _, "" => false
  end.

(** [strings.TrimPrefix(s, p)] *)
Fixpoint drop_bytes (n : nat) (s : string) : string :=
  match n, s with
  | 0%nat, _ => s
  | S n', String _ s' => drop_bytes n' s'
  | _, "" => ""
  end.
Definition TrimPrefix (s p : string) : string :=
  if HasPrefix s p then drop_bytes (String.length p) s else s.

(** [strings.Contains(s, sub)] *)
Fixpoint Contains (s sub : string) : bool :=
  HasPrefix s sub || match s with "" => false | String _ s' => Contains s' sub end.

(** [strings.Cut] at a one-byte separator: the parts before and after its first
    occurrence. [strings.Index(s, sep)] followed by slicing, [strings.SplitN(s,
    sep, 2)] and [strings.IndexByte] are written with it. *)
Fixpoint CutByte (sep : ascii) (s : string) : option (string * string) :=
  match s with
  | "" => None
  | String c s' =>
      if bool_decide (c = sep) then Some ("", s')
      else match CutByte sep s' with
           | Some (b, a) => Some (String c b, a)
           | None => None
           end
  end.

(** The same for the last occurrence ([strings.LastIndex], [LastIndexByte]). *)
Fixpoint CutLastByte (sep : ascii) (s : string) : option (string * string) :=
  match s with
  | "" => None
  | String c s' =>
      match CutLastByte sep s' with
      | Some (b, a) => Some (String c b, a)
      | None => if bool_decide (c = sep) then Some ("", s') else None
      end
  end.

Definition ContainsByte (sep : ascii) (s : string) : bool :=
  match CutByte sep s with Some _ => true | None => false end.

(** [strings.Split(s, sep)] for a one-byte separator. *)
Fixpoint SplitByte (sep : ascii) (s : string) : list string :=
  match s with
  | "" => [""]
  | String c s' =>
      if bool_decide (c = sep) then "" :: SplitByte sep s'
      else match SplitByte sep s' with
           | w :: ws => String c w :: ws
           | [] => [String c ""]
           end
  end.

Lemma CutByte_Some sep s b a : CutByte sep s = Some (b, a) → s = b +:+ String sep a ∧ CutByte sep b = None.
Proof.
  revert b. induction s as [|c s IH]; intros b; simpl; [done|].
  case_bool_decide as Hc; [by intros [= <- <-]; subst|].
  destruct (CutByte sep s) as [[b' a']|]; [|done]. intros [= <- <-].
  destruct (IH b' eq_refl) as [-> Hb']. split; [done|]. simpl.
  rewrite bool_decide_eq_false_2 by done. by rewrite Hb'.
Qed.

Lemma CutByte_app sep b a : CutByte sep b = None → CutByte sep (b +:+ String sep a) = Some (b, a).
Proof.
  induction b as [|c b IH]; simpl; intros H.
  - change (CutByte sep (String sep a) = Some ("", a)). simpl. by rewrite bool_decide_eq_true_2.
  - change (CutByte sep (String c (b +:+ String sep a)) = Some (String c b, a)). simpl.
    case_bool_decide; [done|]. destruct (CutByte sep b) as [[]|]; [done|]. by rewrite IH.
Qed.

Lemma CutLastByte_Some sep s b a :
  CutLastByte sep s = Some (b, a) → s = b +:+ String sep a ∧ CutByte sep a = None.
Proof.
  revert b. induction s as [|c s IH]; intros b; simpl; [done|].
  destruct (CutLastByte sep s) as [[b' a']|] eqn:E.
  - intros [= <- <-]. destruct (IH b' eq_refl) as [-> ?]. done.
  - case_bool_decide as Hc; [|done]. intros [= <- <-]. subst. split; [done|].
    clear IH. induction s as [|d s IH]; [done|]. simpl in *.
    destruct (CutLastByte sep s) as [[]|]; [done|]. case_bool_decide; [done|]. by rewrite IH.
Qed.

Lemma CutLastByte_None sep s : CutLastByte sep s = None ↔ CutByte sep s = None.
Proof.
  induction s as [|c s IH]; simpl; [done|].
  destruct (CutLastByte sep s) as [[]|], (CutByte sep s) as [[]|]; case_bool_decide; naive_solver.
Qed.

Lemma CutLastByte_app sep b a : CutByte sep a = None → CutLastByte sep (b +:+ String sep a) = Some (b, a).
Proof.
  intros Ha. induction b as [|c b IH].
  - change (CutLastByte sep (String sep a) = Some ("", a)). simpl.
    apply CutLastByte_None in Ha as ->. by rewrite bool_decide_eq_true_2.
  - change (CutLastByte sep (String c (b +:+ String sep a)) = Some (String c b, a)). simpl. by rewrite IH.
Qed.

(** ** Case *)

Local Open Scope Z_scope.

Definition isASCII (s : string) : bool := all_bytes (λ b, b <? 128)%Z s.

Definition lower_byte (b : Z) : Z := if (65 <=? b) && (b <=? 90) then b + 32 else b.
Definition lower_char (c : ascii) : ascii := of_byte (lower_byte (byte_of c)).

Fixpoint ascii_lower (s : string) : string :=
  match s with "" => "" | String c s' => String (lower_char c) (ascii_lower s') end.

(** What [strings.ToLower] and [strings.EqualFold] do from the first non-ASCII
    byte on: the Unicode case tables. *)
Class GoUnicode := {
  unicode_ToLower : string → string;
  unicode_EqualFold : string → string → bool;
  unicode_TrimSpace : string → string }.

(** An instance that leaves non-ASCII text alone. *)
Definition ascii_only : GoUnicode :=
  {| unicode_ToLower s := s; unicode_EqualFold s t := bool_decide (s = t);
     unicode_TrimSpace s := s |}.

Section Case.
Context `{GoUnicode}.

(** [strings.ToLower(s)] *)
Definition ToLower (s : string) : string :=
  if isASCII s then ascii_lower s else unicode_ToLower s.

(** [strings.EqualFold(s, t)] *)
Fixpoint EqualFold (s t : string) : bool :=
  match s, t with
  | "", "" => true
  | String a s', String b t' =>
      if (128 <=? byte_of a) || (128 <=? byte_of b) then unicode_EqualFold s t
      else (lower_byte (byte_of a) =? lower_byte (byte_of b)) && EqualFold s' t'
  | _, _ => false
  end%Z.

Lemma ToLower_ascii s : isASCII s = true → ToLower s = ascii_lower s.
Proof. unfold ToLower. by intros ->. Qed.

(** On ASCII text, folding equality is equality of the lower-cased strings. *)
Lemma EqualFold_ascii s t : isASCII s = true → isASCII t = true →
  EqualFold s t = bool_decide (ascii_lower s = ascii_lower t).
Proof.
  revert t. induction s as [|a s IH]; intros [|b t]; simpl; try done.
  intros [Ha Hs]%andb_true_iff [Hb Ht]%andb_true_iff.
  apply Z.ltb_lt in Ha, Hb. rewrite !(proj2 (Z.leb_gt _ _)) by done. simpl.
  rewrite (IH t) by done. unfold lower_char.
  assert (∀ c, (0 <= lower_byte (byte_of c) < 256)%Z) as Hr.
  { intros c. pose proof (byte_of_range c). unfold lower_byte.
    destruct (_ && _) eqn:E; go_bools; lia. }
  destruct (_ =? _)%Z eqn:E; simpl; go_bools.
  - rewrite E. apply bool_decide_ext. split; [by intros -> | by intros [= ?]].
  - rewrite bool_decide_eq_false_2; [done|]. intros [= Hc _].
    apply (f_equal byte_of) in Hc. rewrite !byte_of_of_byte in Hc; auto.
Qed.
End Case.

(** ** Trimming *)

(** [strings.TrimRight(s, cutset)] for an ASCII cutset. *)
Fixpoint TrimRight (cut : Z → bool) (s : string) : string :=
  match s with
  | "" => ""
  | String c s' =>
      match TrimRight cut s' with
      | "" => if cut (byte_of c) then "" else String c ""
      | r => String c r
      end
  end.

(** [strings.TrimSpace(s)]: on ASCII text the white space is [\t\n\v\f\r] and blank. *)
Definition is_space (b : Z) : bool := ((9 <=? b) && (b <=? 13)) || (b =? 32).

Fixpoint TrimLeft (cut : Z → bool) (s : string) : string :=
  match s with
  | "" => ""
  | String c s' => if cut (byte_of c) then TrimLeft cut s' else s
  end.

Definition TrimSpace {GU : GoUnicode} (s : string) : string :=
  if isASCII s then TrimRight is_space (TrimLeft is_space s) else unicode_TrimSpace s.

Definition is_crlf (b : Z) : bool := (b =? 13) || (b =? 10).

Lemma TrimRight_spec cut s :
  ∃ t, s = TrimRight cut s +:+ t ∧ all_bytes cut t = true.
Proof.
  induction s as [|c s (t & Hs & Ht)]; [by exists ""|]. simpl.
  destruct (TrimRight cut s) as [|d r] eqn:E.
  - destruct (cut (byte_of c)) eqn:Hc.
    + exists (String c s). split; [done|]. simpl. rewrite Hc. by rewrite Hs.
    + exists s. split; [done|]. by rewrite Hs.
  - exists t. split; [|done]. change (String c s = String c (String d r +:+ t)). by f_equal.
Qed.

(** ** UTF-8 *)

Definition RuneError : Z := 0xFFFD.

Definition cont (b : Z) : bool := (0x80 <=? b) && (b <=? 0xBF).
Definition between (lo hi b : Z) : bool := (lo <=? b) && (b <=? hi).

(** The second byte accepted after a three- or four-byte lead byte. *)
Definition second_ok (b0 b1 : Z) : bool :=
  if b0 =? 0xE0 then between 0xA0 0xBF b1
  else if b0 =? 0xED then between 0x80 0x9F b1
  else if b0 =? 0xF0 then between 0x90 0xBF b1
  else if b0 =? 0xF4 then between 0x80 0x8F b1
  else cont b1.

(** The runes [for _, r := range s] yields: an ill-formed byte gives
    [RuneError] and advances by one. *)
Fixpoint runes (s : string) : list Z :=
  match s with
  | "" => []
  | String c0 s1 =>
      let b0 := byte_of c0 in
      if b0 <? 0x80 then b0 :: runes s1
      else match s1 with
      | "" => [RuneError]
      | String c1 s2 =>
          let b1 := byte_of c1 in
          if between 0xC2 0xDF b0 && cont b1
          then ((b0 - 0xC0) * 0x40 + (b1 - 0x80)) :: runes s2
          else match s2 with
          | "" => RuneError :: runes s1
          | String c2 s3 =>
              let b2 := byte_of c2 in
              if between 0xE0 0xEF b0 && second_ok b0 b1 && cont b2
              then ((b0 - 0xE0) * 0x1000 + (b1 - 0x80) * 0x40 + (b2 - 0x80)) :: runes s3
              else match s3 with
              | "" => RuneError :: runes s1
              | String c3 s4 =>
                  let b3 := byte_of c3 in
                  if between 0xF0 0xF4 b0 && second_ok b0 b1 && cont b2 && cont b3
                  then ((b0 - 0xF0) * 0x40000 + (b1 - 0x80) * 0x1000
                        + (b2 - 0x80) * 0x40 + (b3 - 0x80)) :: runes s4
                  else RuneError :: runes s1
              end
          end
      end
  end%Z.

(** [b.WriteRune(r)] for a rune in range (negative runes do not arise). *)
Definition encode_rune (r : Z) : string :=
  if r <? 0x80 then String (of_byte r) ""
  else if r <? 0x800 then
    String (of_byte (0xC0 + r / 0x40)) (String (of_byte (0x80 + r mod 0x40)) "")
  else if r <? 0x10000 then
    String (of_byte (0xE0 + r / 0x1000)) (String (of_byte (0x80 + (r / 0x40) mod 0x40))
      (String (of_byte (0x80 + r mod 0x40)) ""))
  else
    String (of_byte (0xF0 + r / 0x40000)) (String (of_byte (0x80 + (r / 0x1000) mod 0x40))
      (String (of_byte (0x80 + (r / 0x40) mod 0x40)) (String (of_byte (0x80 + r mod 0x40)) "")))%Z.

Definition write_runes (l : list Z) : string :=
  foldr (λ r acc, encode_rune r +:+ acc) "" l.

(** The runes that pass a test, written to a [strings.Builder]. *)
Definition filter_runes (p : Z → bool) (s : string) : string :=
  write_runes (filter (λ r, p r = true) (runes s)).

(** One iteration of the loop over runes: an ASCII byte is its own rune, and any
    other rune consumes non-ASCII bytes only and is itself not ASCII. *)
Definition multibyte (r : Z) (pre : string) : Prop :=
  0x80 <= r < 0x110000 ∧ pre ≠ "" ∧ all_bytes (λ b, 0x80 <=? b) pre = true.

Ltac multibyte_tac :=
  match goal with |- multibyte _ ?p => unfold multibyte end; unfold RuneError;
  repeat split; try done; simpl; rewrite ?andb_true_iff, ?Z.leb_le; unfold second_ok, between, cont in *;
  repeat case_match; go_bools; simplify_eq; repeat split; try lia.

Lemma runes_step c s :
  (byte_of c < 0x80 ∧ runes (String c s) = byte_of c :: runes s) ∨
  ∃ r pre rest, 0x80 <= byte_of c ∧ String c s = pre +:+ rest ∧ multibyte r pre ∧
    runes (String c s) = r :: runes rest.
Proof.
  destruct (byte_of c <? 0x80) eqn:H0.
  { left. apply Z.ltb_lt in H0 as H0'. split; [done|]. simpl. by rewrite H0. }
  right. pose proof (byte_of_range c). simpl. rewrite H0. apply Z.ltb_ge in H0.
  assert (multibyte RuneError (String c "")) as Herr by multibyte_tac.
  destruct s as [|c1 s2].
  { exists RuneError, (String c ""), "". done. }
  pose proof (byte_of_range c1).
  destruct (between 0xC2 0xDF (byte_of c) && cont (byte_of c1)) eqn:Hd2.
  { eexists _, (String c (String c1 "")), s2. split_and!; [done|done| |done]. multibyte_tac. }
  destruct s2 as [|c2 s3].
  { exists RuneError, (String c ""), (String c1 ""). done. }
  pose proof (byte_of_range c2).
  destruct (between 0xE0 0xEF (byte_of c) && second_ok (byte_of c) (byte_of c1) && cont (byte_of c2)) eqn:Hd3.
  { eexists _, (String c (String c1 (String c2 ""))), s3. split_and!; [done|done| |done]. multibyte_tac. }
  destruct s3 as [|c3 s4].
  { exists RuneError, (String c ""), (String c1 (String c2 "")). done. }
  pose proof (byte_of_range c3).
  destruct (between 0xF0 0xF4 (byte_of c) && second_ok (byte_of c) (byte_of c1)
            && cont (byte_of c2) && cont (byte_of c3)) eqn:Hd4.
  { eexists _, (String c (String c1 (String c2 (String c3 "")))), s4.
    split_and!; [done|done| |done]. multibyte_tac. }
  exists RuneError, (String c ""), (String c1 (String c2 (String c3 s4))). done.
Qed.

Lemma runes_ind (P : string → list Z → Prop) :
  P "" [] →
  (∀ c s l, byte_of c < 0x80 → P s l → P (String c s) (byte_of c :: l)) →
  (∀ r pre rest l, multibyte r pre → P rest l → P (pre +:+ rest) (r :: l)) →
  ∀ s, P s (runes s).
Proof.
  intros Hnil Hascii Hmulti s. remember (Z.to_nat (len s)) as n eqn:Hn.
  revert s Hn. induction n as [n IH] using lt_wf_ind. intros [|c s] Hn; [done|].
  pose proof (len_nonneg s) as Hlen. simpl in Hn.
  destruct (runes_step c s) as [[Hc ->]|(r & pre & rest & Hc & Heq & Hm & ->)].
  - apply Hascii; [done|]. eapply (IH (Z.to_nat (len s))); [lia | done].
  - rewrite Heq. apply Hmulti; [done|]. eapply (IH (Z.to_nat (len rest))); [|done].
    apply (f_equal len) in Heq. rewrite len_app in Heq. simpl in Heq.
    destruct Hm as (_ & Hpre & _). rewrite <-len_zero in Hpre.
    pose proof (len_nonneg pre). pose proof (len_nonneg rest). lia.
Qed.

Lemma encode_rune_ascii c : byte_of c < 0x80 → encode_rune (byte_of c) = String c "".
Proof.
  intros H. unfold encode_rune. rewrite (proj2 (Z.ltb_lt _ _) H). by rewrite of_byte_byte_of.
Qed.

Lemma encode_rune_multi r : 0x80 <= r < 0x110000 → all_bytes (λ b, 0x80 <=? b) (encode_rune r) = true.
Proof.
  intros H. unfold encode_rune. rewrite (proj2 (Z.ltb_ge _ _)) by lia.
  assert (∀ x, 0 <= x mod 0x40 < 0x40) as Hm by (intros; apply Z.mod_pos_bound; lia).
  assert (∀ x, of_byte (0x80 + x mod 0x40) = of_byte (0x80 + x mod 0x40) ∧
     byte_of (of_byte (0x80 + x mod 0x40)) = 0x80 + x mod 0x40) as Hb.
  { intros x. split; [done|]. specialize (Hm x). apply byte_of_of_byte. lia. }
  pose proof (Hm r). pose proof (Hm (r / 0x40)). pose proof (Hm (r / 0x1000)).
  destruct (r <? 0x800) eqn:E1; [|destruct (r <? 0x10000) eqn:E2]; go_bools; simpl;
    rewrite ?(proj2 (Hb _)), ?byte_of_of_byte; rewrite ?andb_true_iff, ?Z.leb_le;
    repeat split; try lia;
    try (pose proof (Z.div_le_lower_bound r 0x40 0); pose proof (Z.div_lt_upper_bound r 0x40 0x20); lia);
    try (pose proof (Z.div_le_lower_bound r 0x1000 0); pose proof (Z.div_lt_upper_bound r 0x1000 0x10); lia);
    try (pose proof (Z.div_le_lower_bound r 0x40000 0); pose proof (Z.div_lt_upper_bound r 0x40000 5); lia).
Qed.

Lemma filter_bytes_app p s t : filter_bytes p (s +:+ t) = filter_bytes p s +:+ filter_bytes p t.
Proof.
  induction s as [|c s IH]; [done|]. change (String c s +:+ t) with (String c (s +:+ t)). simpl.
  rewrite IH. by destruct (p (byte_of c)).
Qed.

Lemma filter_bytes_none p q s : (∀ b, q b = true → p b = false) →
  all_bytes q s = true → filter_bytes p s = "".
Proof.
  intros Hpq. induction s as [|c s IH]; simpl; [done|].
  intros [Hc Hs]%andb_true_iff. by rewrite Hpq, IH.
Qed.

(** A test that rejects every non-ASCII rune can be applied byte by byte. *)
Lemma filter_runes_bytes p s :
  (∀ r, 0x80 <= r → p r = false) → filter_runes p s = filter_bytes p s.
Proof.
  intros Hp. unfold filter_runes. pattern s, (runes s). apply runes_ind; clear s.
  - done.
  - intros c s l Hc IH. rewrite filter_cons. simpl. destruct (p (byte_of c)) eqn:E; case_decide; try done.
    simpl. rewrite encode_rune_ascii by done. change (String c (write_runes (filter (λ r, p r = true) l)) = String c (filter_bytes p s)).
    by rewrite IH.
  - intros r pre rest l (Hr & _ & Hpre) IH. rewrite filter_cons. rewrite Hp by lia. simpl.
    rewrite filter_bytes_app, IH.
    rewrite (filter_bytes_none p (λ b, 0x80 <=? b) pre); [done| |done].
    intros b Hb%Z.leb_le. apply Hp. lia.
Qed.

Lemma forallb_runes_bytes p s :
  (∀ r, 0x80 <= r → p r = false) → forallb p (runes s) = all_bytes p s.
Proof.
  intros Hp. pattern s, (runes s). apply runes_ind; clear s; [done| |].
  - intros c s l Hc IH. simpl. by rewrite IH.
  - intros r pre rest l (Hr & Hne & Hpre) IH. simpl. rewrite Hp by lia. simpl.
    rewrite all_bytes_app. destruct pre as [|c pre]; [done|]. simpl in *.
    apply andb_true_iff in Hpre as [Hc%Z.leb_le _]. by rewrite Hp.
Qed.

(** What survives a rune filter consists of accepted ASCII bytes and non-ASCII
    bytes. *)
Lemma filter_runes_all p q s :
  (∀ r, p r = true → r < 0x80 → q r = true) → (∀ b, 0x80 <= b → q b = true) →
  all_bytes q (filter_runes p s) = true.
Proof.
  intros Hlow Hhigh. unfold filter_runes. pattern s, (runes s). apply runes_ind; clear s; [done| |].
  - intros c s l Hc IH. rewrite filter_cons. case_decide as Hp; [|done]. simpl.
    rewrite all_bytes_app, IH, encode_rune_ascii by done. simpl. by rewrite Hlow.
  - intros r pre rest l (Hr & _ & _) IH. rewrite filter_cons. case_decide as Hp; [|done]. simpl.
    rewrite all_bytes_app, IH, andb_true_r. apply encode_rune_multi in Hr.
    revert Hr. generalize (encode_rune r). intros e. induction e as [|c e IHe]; simpl; [done|].
    rewrite !andb_true_iff, Z.leb_le. naive_solver.
Qed.

(** ** net.SplitHostPort and net/mail *)

(** [net.SplitHostPort]: [None] is an [AddrError]. *)
Definition SplitHostPort (hostport : string) : option (string * string) :=
  match CutLastByte ":" hostport with
  | None => None                                   (* missing port *)
  | Some (pre, port) =>
      match hostport with
      | String "[" inner =>
          match CutByte "]" hostport with
          | None => None                           (* missing ']' *)
          | Some (upto, after) =>
              if bool_decide (pre = upto +:+ "]") then
                let host := drop_bytes 1 upto in
                if ContainsByte "[" inner || ContainsByte "]" after then None
                else Some (host, port)
              else None                            (* missing port, too many colons *)
          end
      | _ =>
          if ContainsByte ":" pre || ContainsByte "[" hostport || ContainsByte "]" hostport
          then None else Some (pre, port)
      end
  end.

(** [mail.ParseAddress(s)]: the [Address] field of the parsed address. *)
Class NetMail := { ParseAddress : string → option string }.

(** An instance for bare addresses: what has an ["@"] parses to itself. *)
Definition bare_addresses : NetMail :=
  {| ParseAddress s := if ContainsByte "@" s then Some s else None |}.

Example SplitHostPort_v4 : SplitHostPort "10.0.0.1:25" = Some ("10.0.0.1", "25").
Proof. reflexivity. Qed.
Example SplitHostPort_v6 : SplitHostPort "[::1]:2525" = Some ("::1", "2525").
Proof. reflexivity. Qed.
Example SplitHostPort_bare_v6 : SplitHostPort "::1" = None.
Proof. reflexivity. Qed.
Example SplitHostPort_no_port : SplitHostPort "[::1]" = None.
Proof. reflexivity. Qed.
