(* ===== verification/Store.v ===== *)
(** * The store: node, domain, user and delivery-job records

    Models [internal/store/store.go]: the record types, the [Store] interface as
    a class of operations on an abstract state, and the two predicates shared by
    the implementations, [UserMatchesFilters] and [IsValidMetaKey]. *)
From S2P Require Import Prelude GoStrings.
Local Open Scope Z_scope.

(** ** Records *)

Record Node := MkNode {
  ID : string;
  PrivateKeyB64 : string;
  PublicKeyB64 : string }.

Record Domain := MkDomain {
  Name : string;
  NodeID : string;
  IsDefault : bool }.

Record User := MkUser {
  Email : string;
  UType : string;
  UPublicKeyB64 : string;
  Metadata : gmap string string;
  CreatedAt : Time }.

Inductive DeliveryStatus : Set :=
| DeliveryPending | DeliveryDelivered | DeliveryFailed | DeliveryDead.

#[export] Instance DeliveryStatus_eq_dec : EqDecision DeliveryStatus.
Proof. solve_decision. Defined.

Record DeliveryJob := MkJob {
  MessageID : string;
  RecipientID : string;
  EndpointURL : string;
  Status : DeliveryStatus;
  Attempts : Z;
  MaxAttempts : Z;
  LastError : text;
  NextRetryAt : Time;
  DeliveredAt : option Time;
  JCreatedAt : Time;
  JUpdatedAt : Time }.

Definition no_text : text := Text "" [].

Definition job_key (j : DeliveryJob) : string * string := (MessageID j, RecipientID j).

(** [store.User{}] and [store.Domain{}], the zero values. *)
Definition zero_user : User := MkUser "" "" "" ∅ 0.

(** ** Predicates *)

(** Does one filter entry hold of the user? *)
Definition matches_filter (u : User) (k v : string) : bool :=
  if bool_decide (k = "type") then Contains (UType u) v
  else Contains (mget (Metadata u) k) v.

(** [UserMatchesFilters(u, filters)], for an iteration order of the filter map. *)
Definition UserMatchesFilters (o : MapOrder) (u : User) (filters : gmap string string) : bool :=
  forallb (λ kv, matches_filter u kv.1 kv.2) (range o filters).

Definition valid_key_rune (c : Z) : bool :=
  ((97 <=? c) && (c <=? 122)) || ((65 <=? c) && (c <=? 90)) ||
  ((48 <=? c) && (c <=? 57)) || (c =? 95) || (c =? 45).

(** [IsValidMetaKey(k)] *)
Definition IsValidMetaKey (k : string) : bool :=
  negb (bool_decide (k = "")) && forallb valid_key_rune (runes k).

(** ** The [Store] interface

    A store implementation is a state with the operations of the Go interface;
    [now] is what [time.Now().UTC()] returns during the call, [o] the order in
    which the maps are iterated. A failed operation returns the error together
    with the state it leaves. *)
Class StoreOps (S : Type) := {
  SaveNode : Node → S → result unit * S;
  GetNode : string → S → result Node;
  SaveDomain : Domain → S → result unit * S;
  GetDomain : string → S → result Domain;
  GetDefaultDomain : MapOrder → S → result Domain;
  ListDomains : MapOrder → S → result (list Domain);
  CountDomains : S → result Z;
  SaveUser : Time → User → S → result unit * S;
  GetUser : string → S → result User;
  ListUsers : MapOrder → S → result (list User);
  SearchUsers : MapOrder → gmap string string → S → result (list User);
  CountUsers : S → result Z;
  SaveDeliveryJob : Time → DeliveryJob → S → result unit * S;
  UpdateDeliveryJob : Time → DeliveryJob → S → result unit * S;
  GetDeliveryJob : string → string → S → result DeliveryJob;
  ListPendingDeliveryJobs : MapOrder → Time → Z → S → result (list DeliveryJob);
  ListDeliveryJobsByRecipient :
    MapOrder → string → option DeliveryStatus → S → result (list DeliveryJob) }.

Definition ErrNotFound : error := ESentinel ErrStoreNotFound.

(** What the rest of the program relies on: reads find what was saved, and only
    that. [storable] is the metadata the implementation keeps as it is: any map
    in memory, maps of valid UTF-8 text in the SQL stores. *)
Class StoreLaws (S : Type) {SO : StoreOps S} := {
  storable : gmap string string → Prop;
  save_node_get : ∀ n s s', SaveNode n s = (Ok (), s') → PrivateKeyB64 n ≠ "" →
    PublicKeyB64 n ≠ "" → GetNode (ID n) s' = Ok n;
  save_user_get : ∀ now u s s', storable (Metadata u) → SaveUser now u s = (Ok (), s') →
    ∃ created, GetUser (Email u) s' =
      Ok (MkUser (Email u) (UType u) (UPublicKeyB64 u) (Metadata u) created);
  save_user_frame : ∀ now u s s' e, SaveUser now u s = (Ok (), s') → e ≠ Email u →
    GetUser e s' = GetUser e s;
  save_user_domains : ∀ now u s r s', SaveUser now u s = (r, s') →
    ∀ n, GetDomain n s' = GetDomain n s;
  save_user_fails : ∀ now u s e s', SaveUser now u s = (Err e, s') → s' = s;
  save_domain_get : ∀ d s s', SaveDomain d s = (Ok (), s') → GetDomain (Name d) s' = Ok d;
  save_domain_users : ∀ d s r s', SaveDomain d s = (r, s') →
    ∀ e, GetUser e s' = GetUser e s;
  save_domain_fails : ∀ d s e s', SaveDomain d s = (Err e, s') → s' = s;
  save_domain_frame : ∀ d s s' n, SaveDomain d s = (Ok (), s') → n ≠ Name d →
    NodeID <$> (match GetDomain n s' with Ok x => Some x | _ => None end) =
    NodeID <$> (match GetDomain n s with Ok x => Some x | _ => None end);
  get_domain_error : ∀ n s err, GetDomain n s = Err err → err = ErrNotFound }.

(** ** Calls as data

    A call of an interface method, its reply, and the run of a sequence of calls,
    each at its own clock reading. *)
Inductive call : Type :=
| CSaveNode (n : Node) | CGetNode (id : string)
| CSaveDomain (d : Domain) | CGetDomain (name : string)
| CGetDefaultDomain | CListDomains | CCountDomains
| CSaveUser (u : User) | CGetUser (email : string)
| CListUsers | CSearchUsers (filters : gmap string string) | CCountUsers
| CSaveJob (j : DeliveryJob) | CUpdateJob (j : DeliveryJob)
| CGetJob (message recipient : string) | CListPending (before : Time) (limit : Z)
| CListByRecipient (recipient : string) (status : option DeliveryStatus).

Inductive reply : Type :=
| RUnit | RNode (n : Node) | RDomain (d : Domain) | RDomains (l : list Domain)
| RCount (n : Z) | RUser (u : User) | RUsers (l : list User)
| RJob (j : DeliveryJob) | RJobs (l : list DeliveryJob).

Definition result_map {A B} (f : A → B) (r : result A) : result B :=
  match r with Ok a => Ok (f a) | Err e => Err e end.

Definition run_call {S} {SO : StoreOps S} (o : MapOrder) (now : Time) (c : call) (s : S)
    : result reply * S :=
  let wrote (rs : result unit * S) := (result_map (λ _, RUnit) rs.1, rs.2) in
  match c with
  | CSaveNode n => wrote (SaveNode n s)
  | CGetNode id => (result_map RNode (GetNode id s), s)
  | CSaveDomain d => wrote (SaveDomain d s)
  | CGetDomain name => (result_map RDomain (GetDomain name s), s)
  | CGetDefaultDomain => (result_map RDomain (GetDefaultDomain o s), s)
  | CListDomains => (result_map RDomains (ListDomains o s), s)
  | CCountDomains => (result_map RCount (CountDomains s), s)
  | CSaveUser u => wrote (SaveUser now u s)
  | CGetUser email => (result_map RUser (GetUser email s), s)
  | CListUsers => (result_map RUsers (ListUsers o s), s)
  | CSearchUsers filters => (result_map RUsers (SearchUsers o filters s), s)
  | CCountUsers => (result_map RCount (CountUsers s), s)
  | CSaveJob j => wrote (SaveDeliveryJob now j s)
  | CUpdateJob j => wrote (UpdateDeliveryJob now j s)
  | CGetJob message recipient => (result_map RJob (GetDeliveryJob message recipient s), s)
  | CListPending before limit => (result_map RJobs (ListPendingDeliveryJobs o before limit s), s)
  | CListByRecipient recipient status =>
      (result_map RJobs (ListDeliveryJobsByRecipient o recipient status s), s)
  end.

Fixpoint run_calls {S} {SO : StoreOps S} (o : MapOrder) (cs : list (Time * call)) (s : S)
    : list (result reply) * S :=
  match cs with
  | [] => ([], s)
  | (now, c) :: cs' =>
      let '(r, s1) := run_call o now c s in
      let '(rs, s2) := run_calls o cs' s1 in
      (r :: rs, s2)
  end.

(** Two answers a client of the interface cannot tell apart: the same value, or
    two errors of which both or neither are [ErrNotFound]. *)
Definition agree {A} (r1 r2 : result A) : Prop :=
  match r1, r2 with
  | Ok a, Ok b => a = b
  | Err e1, Err e2 => errors_Is e1 ErrStoreNotFound = errors_Is e2 ErrStoreNotFound
  | _, _ => False
  end.

#[export] Instance agree_equiv {A} : Equivalence (@agree A).
Proof.
  split; [intros [a|e]|intros [a|e] [b|f]|intros [a|e] [b|f] [c|g]]; simpl; try done; congruence.
Qed.

(** A write and its repetition on another state agree. *)
Definition agree_write {A S} (x y : result A * S) : Prop := agree x.1 y.1 ∧ x.2 = y.2.

(** ** Lemmas *)

Lemma valid_key_rune_ascii r : 0x80 <= r → valid_key_rune r = false.
Proof.
  intros H. unfold valid_key_rune.
  rewrite !orb_false_iff, !andb_false_iff, !Z.leb_gt, !Z.eqb_neq. lia.
Qed.

(** The rune loop of [IsValidMetaKey] decides a property of the bytes. *)
Lemma IsValidMetaKey_bytes k :
  IsValidMetaKey k = true ↔ k ≠ "" ∧ all_bytes valid_key_rune k = true.
Proof.
  unfold IsValidMetaKey.
  rewrite andb_true_iff, forallb_runes_bytes by apply valid_key_rune_ascii.
  by rewrite negb_true_iff, bool_decide_eq_false.
Qed.

(** Whatever the iteration order, the filters are a conjunction. *)
Lemma UserMatchesFilters_spec o u filters :
  UserMatchesFilters o u filters = true ↔
  ∀ k v, filters !! k = Some v → matches_filter u k v = true.
Proof.
  unfold UserMatchesFilters. rewrite forallb_forall. setoid_rewrite <-list_elem_of_In. split.
  - intros H k v Hk. apply (H (k, v)). by apply (elem_of_range o).
  - intros H [k v] Hkv. apply H. by apply (elem_of_range o) in Hkv.
Qed.

Lemma agree_map {A B} (f : A → B) r1 r2 : agree r1 r2 → agree (result_map f r1) (result_map f r2).
Proof. destruct r1, r2; simpl; naive_solver. Qed.

#[export] Hint Resolve agree_map : postbox.
