(* ===== verification/MemStore.v ===== *)
(** * The in-memory store

    Models [internal/store/memstore/memstore.go]: four maps under a
    read/write lock. Every method holds the lock for its whole access, so a
    method is one atomic step on the record [Store]; concurrent callers
    interleave whole operations, which [reachable] ranges over. *)
From S2P Require Import Prelude GoStrings.
From S2P Require Import Store.
Local Open Scope Z_scope.

Module MemStore.

(** ** State *)

Record Store := MkStore {
  nodes : gmap string Node;
  domains : gmap string Domain;
  users : gmap string User;
  deliveryJobs : gmap (string * string) DeliveryJob }.

Definition New : Store := MkStore ∅ ∅ ∅ ∅.

Definition errInvalid (s : string) : error := EText (Text "memstore: " [AStr s]).

(** [nonempty_or a b]: [a] unless it is the empty string. *)
Definition nonempty_or (a b : string) : string := if bool_decide (a = "") then b else a.

(** ** Nodes *)

Definition SaveNode (n : Node) (s : Store) : result unit * Store :=
  if bool_decide (ID n = "") then (Err (errInvalid "node id is required"), s)
  else
    let n' := match nodes s !! ID n with
              | Some existing =>
                  MkNode (ID n) (nonempty_or (PrivateKeyB64 n) (PrivateKeyB64 existing))
                    (nonempty_or (PublicKeyB64 n) (PublicKeyB64 existing))
              | None => n
              end in
    (Ok (), MkStore (<[ID n := n']> (nodes s)) (domains s) (users s) (deliveryJobs s)).

Definition GetNode (id : string) (s : Store) : result Node :=
  match nodes s !! id with Some n => Ok n | None => Err ErrNotFound end.

(** ** Domains *)

(** The loop that clears the default flag of every domain but [name]. *)
Definition clear_default (name k : string) (existing : Domain) : Domain :=
  if IsDefault existing && negb (bool_decide (k = name))
  then MkDomain (Name existing) (NodeID existing) false else existing.

Definition SaveDomain (d : Domain) (s : Store) : result unit * Store :=
  if bool_decide (Name d = "") then (Err (errInvalid "domain name is required"), s)
  else
    let ds := if IsDefault d
              then map_imap (λ k e, Some (clear_default (Name d) k e)) (domains s)
              else domains s in
    (Ok (), MkStore (nodes s) (<[Name d := d]> ds) (users s) (deliveryJobs s)).

Definition GetDomain (name : string) (s : Store) : result Domain :=
  match domains s !! name with Some d => Ok d | None => Err ErrNotFound end.

(** The first default domain the iteration meets. *)
Definition GetDefaultDomain (o : MapOrder) (s : Store) : result Domain :=
  match filter (λ d, IsDefault d = true) (range_values o (domains s)) with
  | d :: _ => Ok d
  | [] => Err ErrNotFound
  end.

Definition ListDomains (o : MapOrder) (s : Store) : result (list Domain) :=
  Ok (sortSlice (λ a b, String.ltb (Name a) (Name b)) (range_values o (domains s))).

Definition CountDomains (s : Store) : result Z := Ok (Z.of_nat (size (domains s))).

(** ** Users *)

Definition SaveUser (u : User) (s : Store) : result unit * Store :=
  if bool_decide (Email u = "") then (Err (errInvalid "user email is required"), s)
  else
    let u' := match users s !! Email u with
              | Some existing =>
                  if negb (IsZero (CreatedAt existing))
                  then MkUser (Email u) (UType u) (UPublicKeyB64 u) (Metadata u) (CreatedAt existing)
                  else u
              | None => u
              end in
    (Ok (), MkStore (nodes s) (domains s) (<[Email u := u']> (users s)) (deliveryJobs s)).

Definition GetUser (email : string) (s : Store) : result User :=
  match users s !! email with Some u => Ok u | None => Err ErrNotFound end.

Definition by_email (a b : User) : bool := String.ltb (Email a) (Email b).

Definition ListUsers (o : MapOrder) (s : Store) : result (list User) :=
  Ok (sortSlice by_email (range_values o (users s))).

Definition SearchUsers (o : MapOrder) (filters : gmap string string) (s : Store)
    : result (list User) :=
  Ok (sortSlice by_email
        (filter (λ u, UserMatchesFilters o u filters = true) (range_values o (users s)))).

Definition CountUsers (s : Store) : result Z := Ok (Z.of_nat (size (users s))).

(** ** Webhook delivery jobs *)

Definition with_jobs (s : Store) (js : gmap (string * string) DeliveryJob) : Store :=
  MkStore (nodes s) (domains s) (users s) js.

Definition SaveDeliveryJob (now : Time) (job : DeliveryJob) (s : Store) : result unit * Store :=
  let job' := MkJob (MessageID job) (RecipientID job) (EndpointURL job) (Status job)
                (Attempts job) (if MaxAttempts job =? 0 then 5 else MaxAttempts job)
                (LastError job) (NextRetryAt job) (DeliveredAt job)
                (if IsZero (JCreatedAt job) then now else JCreatedAt job)
                (if IsZero (JUpdatedAt job) then now else JUpdatedAt job) in
  match deliveryJobs s !! job_key job with
  | Some _ => (Ok (), s)
  | None => (Ok (), with_jobs s (<[job_key job := job']> (deliveryJobs s)))
  end.

(** The fields [UpdateDeliveryJob] copies onto the stored job. *)
Definition update_job (now : Time) (job existing : DeliveryJob) : DeliveryJob :=
  MkJob (MessageID existing) (RecipientID existing) (EndpointURL existing)
    (Status job) (Attempts job) (MaxAttempts existing)
    (LastError job) (NextRetryAt job) (DeliveredAt job) (JCreatedAt existing) now.

Definition UpdateDeliveryJob (now : Time) (job : DeliveryJob) (s : Store) : result unit * Store :=
  match deliveryJobs s !! job_key job with
  | None => (Err ErrNotFound, s)
  | Some existing =>
      (Ok (), with_jobs s (<[job_key job := update_job now job existing]> (deliveryJobs s)))
  end.

Definition GetDeliveryJob (messageID recipientID : string) (s : Store) : result DeliveryJob :=
  match deliveryJobs s !! (messageID, recipientID) with
  | Some j => Ok j
  | None => Err ErrNotFound
  end.

(** Pending or failed, and due. *)
Definition due (before : Time) (j : DeliveryJob) : bool :=
  (bool_decide (Status j = DeliveryPending) || bool_decide (Status j = DeliveryFailed)) &&
  negb (After (NextRetryAt j) before).

Definition ListPendingDeliveryJobs (o : MapOrder) (before : Time) (limit : Z) (s : Store)
    : result (list DeliveryJob) :=
  Ok (limit_slice limit
        (sortSlice (λ a b, Before (NextRetryAt a) (NextRetryAt b))
           (filter (λ j, due before j = true) (range_values o (deliveryJobs s))))).

Definition job_of (recipientID : string) (status : option DeliveryStatus) (j : DeliveryJob) : bool :=
  bool_decide (RecipientID j = recipientID) &&
  match status with None => true | Some st => bool_decide (Status j = st) end.

Definition ListDeliveryJobsByRecipient (o : MapOrder) (recipientID : string)
    (status : option DeliveryStatus) (s : Store) : result (list DeliveryJob) :=
  Ok (sortSlice (λ a b, After (JCreatedAt a) (JCreatedAt b))
        (filter (λ j, job_of recipientID status j = true) (range_values o (deliveryJobs s)))).

(** ** The implementation of the interface *)

#[export] Instance ops : StoreOps Store := {|
  Store.SaveNode := SaveNode; Store.GetNode := GetNode;
  Store.SaveDomain := SaveDomain; Store.GetDomain := GetDomain;
  Store.GetDefaultDomain := GetDefaultDomain; Store.ListDomains := ListDomains;
  Store.CountDomains := CountDomains;
  Store.SaveUser _ := SaveUser; Store.GetUser := GetUser;
  Store.ListUsers := ListUsers; Store.SearchUsers := SearchUsers;
  Store.CountUsers := CountUsers;
  Store.SaveDeliveryJob := SaveDeliveryJob; Store.UpdateDeliveryJob := UpdateDeliveryJob;
  Store.GetDeliveryJob := GetDeliveryJob;
  Store.ListPendingDeliveryJobs := ListPendingDeliveryJobs;
  Store.ListDeliveryJobsByRecipient := ListDeliveryJobsByRecipient |}.

(** ** Invariant *)

(** Each record is filed under its own key, and at most one domain is the
    default one. *)
Record wf (s : Store) : Prop := {
  wf_nodes : map_Forall (λ k n, ID n = k) (nodes s);
  wf_domains : map_Forall (λ k d, Name d = k) (domains s);
  wf_users : map_Forall (λ k u, Email u = k) (users s);
  wf_jobs : map_Forall (λ k j, job_key j = k) (deliveryJobs s);
  wf_default : ∀ k1 k2 d1 d2, domains s !! k1 = Some d1 → domains s !! k2 = Some d2 →
    IsDefault d1 = true → IsDefault d2 = true → k1 = k2 }.

Inductive step : Store → Store → Prop :=
| step_node n s : step s (SaveNode n s).2
| step_domain d s : step s (SaveDomain d s).2
| step_user u s : step s (SaveUser u s).2
| step_save_job now j s : step s (SaveDeliveryJob now j s).2
| step_update_job now j s : step s (UpdateDeliveryJob now j s).2.

Definition reachable : Store → Prop := rtc step New.

(** ** Lemmas *)

Lemma lookup_cleared name (ds : gmap string Domain) k :
  map_imap (λ k e, Some (clear_default name k e)) ds !! k = clear_default name k <$> ds !! k.
Proof. rewrite map_lookup_imap. by destruct (ds !! k). Qed.

Lemma clear_default_name name k d : Name (clear_default name k d) = Name d.
Proof. unfold clear_default. by destruct (_ && _). Qed.

Lemma clear_default_node name k d : NodeID (clear_default name k d) = NodeID d.
Proof. unfold clear_default. by destruct (_ && _). Qed.

Lemma clear_default_flag name k d : k ≠ name → IsDefault (clear_default name k d) = false.
Proof.
  intros Hk. unfold clear_default. rewrite bool_decide_eq_false_2 by done.
  destruct (IsDefault d) eqn:E; [done|]. simpl. done.
Qed.

(** The domain map after a successful [SaveDomain]. *)
Lemma SaveDomain_lookup d s k : Name d ≠ "" →
  domains (SaveDomain d s).2 !! k =
    if decide (Name d = k) then Some d
    else if IsDefault d then clear_default (Name d) k <$> domains s !! k else domains s !! k.
Proof.
  intros Hd. unfold SaveDomain. rewrite bool_decide_eq_false_2 by done. simpl.
  rewrite lookup_insert. case_decide; [done|]. destruct (IsDefault d); [|done].
  apply lookup_cleared.
Qed.

Lemma wf_new : wf New.
Proof. split; try apply map_Forall_empty. simpl. intros k1 k2 d1 d2 H. by rewrite lookup_empty in H. Qed.

Lemma wf_SaveNode n s : wf s → wf (SaveNode n s).2.
Proof.
  intros [Hn Hd Hu Hj Hdef]. unfold SaveNode. case_bool_decide; [done|]. split; simpl; try done.
  apply map_Forall_insert_2; [|done]. by case_match.
Qed.

Lemma wf_SaveUser u s : wf s → wf (SaveUser u s).2.
Proof.
  intros [Hn Hd Hu Hj Hdef]. unfold SaveUser. case_bool_decide; [done|]. split; simpl; try done.
  apply map_Forall_insert_2; [|done]. case_match; [|done]. by case_match.
Qed.

Lemma wf_SaveDeliveryJob now j s : wf s → wf (SaveDeliveryJob now j s).2.
Proof.
  intros Hwf. unfold SaveDeliveryJob. case_match; [done|]. destruct Hwf. split; simpl; try done.
  by apply map_Forall_insert_2.
Qed.

Lemma wf_UpdateDeliveryJob now j s : wf s → wf (UpdateDeliveryJob now j s).2.
Proof.
  intros Hwf. unfold UpdateDeliveryJob. case_match eqn:E; [|done].
  destruct Hwf as [Hn Hd Hu Hj Hdef]. split; simpl; try done.
  apply map_Forall_insert_2; [|done]. apply (Hj _ _ E).
Qed.

Lemma wf_SaveDomain d s : wf s → wf (SaveDomain d s).2.
Proof.
  intros [Hn Hd Hu Hj Hdef]. destruct (decide (Name d = "")) as [He|He].
  { unfold SaveDomain. by rewrite bool_decide_eq_true_2. }
  pose proof (λ k, SaveDomain_lookup d s k He) as Hl.
  split.
  1,3,4: unfold SaveDomain; by rewrite bool_decide_eq_false_2.
  - intros k e. rewrite Hl. case_decide; [by intros [= <-]|].
    destruct (IsDefault d); [|by apply Hd].
    rewrite fmap_Some. intros (e' & He' & ->). rewrite clear_default_name. by apply Hd.
  - assert (∀ k e, domains (SaveDomain d s).2 !! k = Some e → IsDefault e = true →
      Name d = k ∨ (Name d ≠ k ∧ domains s !! k = Some e ∧ IsDefault d = false)) as Hcase.
    { intros k e. rewrite Hl. case_decide; [by left|]. destruct (IsDefault d); [|by right].
      rewrite fmap_Some. intros (e' & _ & ->). by rewrite clear_default_flag. }
    intros k1 k2 d1 d2 H1 H2 D1 D2.
    destruct (Hcase k1 d1 H1 D1) as [<-|(N1 & L1 & E1)], (Hcase k2 d2 H2 D2) as [<-|(N2 & L2 & E2)];
      try done; [| |by eauto].
    + rewrite Hl, decide_True in H1 by done. congruence.
    + rewrite Hl, decide_True in H2 by done. congruence.
Qed.

#[local] Hint Resolve wf_new wf_SaveNode wf_SaveUser wf_SaveDeliveryJob
  wf_UpdateDeliveryJob wf_SaveDomain : postbox.

Lemma wf_step s s' : step s s' → wf s → wf s'.
Proof. destruct 1; auto with postbox. Qed.

Lemma wf_reachable s : reachable s → wf s.
Proof.
  intros H. assert (wf New) as H0 by auto with postbox. revert H0.
  unfold reachable in H. induction H; eauto using wf_step.
Qed.

(** The result of sorting the values of a map filed under distinct keys does
    not depend on the iteration order. *)
Lemma sorted_values_unique {V} (f : V → string) (m : gmap string V) (P : V → Prop)
    `{!∀ v, Decision (P v)} o1 o2 :
  map_Forall (λ k v, f v = k) m →
  sortSlice (λ a b, String.ltb (f a) (f b)) (filter P (range_values o1 m)) =
  sortSlice (λ a b, String.ltb (f a) (f b)) (filter P (range_values o2 m)).
Proof.
  intros Hm. apply sortSlice_unique.
  - unfold range_values. by rewrite !range_perm.
  - intros x y [_ (k & Hx)%elem_of_range_values]%list_elem_of_filter
      [_ (k' & Hy)%elem_of_range_values]%list_elem_of_filter Hf.
    rewrite (Hm _ _ Hx), (Hm _ _ Hy) in Hf. congruence.
Qed.

Lemma filter_true {A} (l : list A) : filter (λ _, True) l = l.
Proof. induction l as [|x l IH]; [done|]. rewrite filter_cons, decide_True by done. by rewrite IH. Qed.

Lemma elem_of_limit_slice {A} n (l : list A) x : x ∈ limit_slice n l → x ∈ l.
Proof.
  unfold limit_slice. case_match; [|done]. intros Hx.
  rewrite <-(take_drop (Z.to_nat n) l). apply elem_of_app. by left.
Qed.

Lemma limit_slice_take {A} n (l : list A) :
  ∃ r, l = limit_slice n l ++ r ∧ (0 < n → Z.of_nat (length (limit_slice n l)) <= n) ∧
    (r ≠ [] → 0 < n ∧ Z.of_nat (length (limit_slice n l)) = n).
Proof.
  unfold limit_slice. destruct (0 <? n) eqn:E1; [destruct (n <? _) eqn:E2|]; go_bools; simpl.
  - exists (drop (Z.to_nat n) l). rewrite take_drop, length_take. split_and!; [done|lia|lia].
  - exists []. rewrite app_nil_r. split_and!; [done|lia|done].
  - exists []. rewrite app_nil_r. split_and!; [done|lia|done].
Qed.

Lemma default_values s o d : wf s →
  d ∈ filter (λ d, IsDefault d = true) (range_values o (domains s)) ↔
  domains s !! Name d = Some d ∧ IsDefault d = true.
Proof.
  intros Hwf. rewrite list_elem_of_filter, elem_of_range_values. split.
  - intros (Hd & k & Hk). by assert (Name d = k) as -> by apply (wf_domains _ Hwf _ _ Hk).
  - naive_solver.
Qed.

(** [GetDefaultDomain] finds the domain flagged as default, if there is one. *)
Lemma GetDefaultDomain_Ok o s d : wf s →
  GetDefaultDomain o s = Ok d ↔ domains s !! Name d = Some d ∧ IsDefault d = true.
Proof.
  intros Hwf. pose proof (default_values s o) as Hv. unfold GetDefaultDomain.
  destruct (filter _ _) as [|d' l]; split.
  - done.
  - intros H%Hv; [|done]. by apply elem_of_nil in H.
  - intros [= <-]. apply Hv; [done|]. apply elem_of_cons. by left.
  - intros [Hd Hf]. destruct (Hv d' Hwf) as [[Hd' Hf'] _]; [apply elem_of_cons; by left|].
    f_equal. assert (Name d = Name d') as Hn by by eapply (wf_default _ Hwf).
    rewrite Hn in Hd. congruence.
Qed.

Lemma GetDefaultDomain_Err o s e : wf s → GetDefaultDomain o s = Err e →
  e = ErrNotFound ∧ ∀ d, domains s !! Name d = Some d → IsDefault d = false.
Proof.
  intros Hwf. pose proof (λ d, GetDefaultDomain_Ok o s d Hwf) as Hok.
  intros He. split.
  - unfold GetDefaultDomain in He. case_match; naive_solver.
  - intros d Hd. destruct (IsDefault d) eqn:E; [|done].
    rewrite (proj2 (Hok d)) in He by done. done.
Qed.

Lemma GetDefaultDomain_order o1 o2 s : wf s → GetDefaultDomain o1 s = GetDefaultDomain o2 s.
Proof.
  intros Hwf. destruct (GetDefaultDomain o1 s) as [d|e] eqn:E1.
  - symmetry. apply GetDefaultDomain_Ok; [done|]. by apply (GetDefaultDomain_Ok o1).
  - destruct (GetDefaultDomain o2 s) as [d|e'] eqn:E2.
    + apply GetDefaultDomain_Ok in E2 as [Hd Hf]; [|done].
      apply GetDefaultDomain_Err in E1 as [_ E1]; [|done]. by rewrite E1 in Hf.
    + apply GetDefaultDomain_Err in E1 as [-> _]; [|done].
      by apply GetDefaultDomain_Err in E2 as [-> _].
Qed.

(** The in-memory store satisfies what the interface promises. *)
#[export] Instance laws : StoreLaws Store.
Proof.
  exists (λ _, True); simpl.
  - intros [id k p] s s'. unfold SaveNode, GetNode, nonempty_or. case_bool_decide; [done|].
    intros [= <-] Hk Hp. simpl in *. rewrite lookup_insert_eq.
    by destruct (nodes s !! id); rewrite ?bool_decide_eq_false_2 by done.
  - intros _ u s s' _. unfold SaveUser, GetUser. case_bool_decide; [done|]. intros [= <-]. simpl.
    rewrite lookup_insert_eq. repeat case_match; destruct u; eauto.
  - intros _ u s s' e. unfold SaveUser, GetUser. case_bool_decide; [done|]. intros [= <-] He. simpl.
    by rewrite lookup_insert_ne.
  - intros _ u s r s'. unfold SaveUser. case_bool_decide; by intros [= _ <-].
  - intros _ u s e s'. unfold SaveUser. case_bool_decide; [|done]. by intros [= _ <-].
  - intros d s s' Hs. destruct (decide (Name d = "")) as [Hn|Hn].
    { unfold SaveDomain in Hs. by rewrite bool_decide_eq_true_2 in Hs. }
    unfold GetDomain. replace s' with (SaveDomain d s).2 by by rewrite Hs.
    by rewrite SaveDomain_lookup, decide_True.
  - intros d s r s'. unfold SaveDomain. case_bool_decide; by intros [= _ <-].
  - intros d s e s'. unfold SaveDomain. case_bool_decide; [|done]. by intros [= _ <-].
  - intros d s s' n Hs Hn. destruct (decide (Name d = "")) as [He|He].
    { unfold SaveDomain in Hs. by rewrite bool_decide_eq_true_2 in Hs. }
    unfold GetDomain. replace s' with (SaveDomain d s).2 by by rewrite Hs.
    rewrite SaveDomain_lookup, decide_False by done.
    destruct (IsDefault d); [|done]. destruct (domains s !! n); simpl; [|done].
    by rewrite clear_default_node.
  - intros n s err. unfold GetDomain. case_match; by intros [= <-].
Defined.

(** ** Abstract specification of the domain table

    Ownership of names, and at most one default name. *)
Record DomainTable := {
  owner : gmap string string;
  deflt : option string }.

Definition abstract (s : Store) : DomainTable := {|
  owner := NodeID <$> domains s;
  deflt := match GetDefaultDomain some_order s with Ok d => Some (Name d) | Err _ => None end |}.

Definition spec_save (d : Domain) (t : DomainTable) : DomainTable := {|
  owner := <[Name d := NodeID d]> (owner t);
  deflt := if IsDefault d then Some (Name d)
           else if bool_decide (deflt t = Some (Name d)) then None else deflt t |}.

Lemma abstract_deflt s name : wf s →
  deflt (abstract s) = Some name ↔ ∃ d, domains s !! name = Some d ∧ IsDefault d = true.
Proof.
  intros Hwf. simpl. destruct (GetDefaultDomain some_order s) as [d|e] eqn:E.
  - apply GetDefaultDomain_Ok in E as [Hd Hf]; [|done]. split.
    + intros [= <-]. eauto.
    + intros (d' & Hd' & Hf'). f_equal. by eapply (wf_default _ Hwf).
  - apply GetDefaultDomain_Err in E as [_ E]; [|done]. split; [done|].
    intros (d & Hd & Hf). assert (Name d = name) as Hn by apply (wf_domains _ Hwf _ _ Hd).
    subst name. by rewrite E in Hf.
Qed.

(** ** Properties *)

(** C24. Invariant over every interleaving of operations: in each state the
    store can reach, records are filed under their own keys and at most one
    domain is the default, so the domain [GetDefaultDomain] returns does not
    depend on the (random) order in which Go iterates over the map. *)
Theorem reachable_one_default s : reachable s →
  wf s ∧ ∀ o1 o2, GetDefaultDomain o1 s = GetDefaultDomain o2 s.
Proof. intros H%wf_reachable. split; [done|]. intros. by apply GetDefaultDomain_order. Qed.

(** C5. Refinement: [SaveDomain] on the map of records implements the abstract
    table (an owner per name, at most one default): it claims the name, moves
    the default when asked to, drops it when the default domain itself is saved
    as non-default, and leaves every other owner alone. *)
Theorem SaveDomain_refines d s : wf s → Name d ≠ "" →
  (SaveDomain d s).1 = Ok () ∧ abstract (SaveDomain d s).2 = spec_save d (abstract s).
Proof.
  intros Hwf Hn. split; [unfold SaveDomain; by rewrite bool_decide_eq_false_2|].
  pose proof (wf_SaveDomain d s Hwf) as Hwf'.
  pose proof (λ k, SaveDomain_lookup d s k Hn) as Hl.
  assert (owner (abstract (SaveDomain d s).2) = owner (spec_save d (abstract s))) as Ho.
  { apply map_eq. intros k. simpl. rewrite lookup_fmap, Hl, lookup_insert, lookup_fmap.
    case_decide; [done|]. destruct (IsDefault d); [|done].
    destruct (domains s !! k); simpl; [|done]. by rewrite clear_default_node. }
  assert (deflt (abstract (SaveDomain d s).2) = deflt (spec_save d (abstract s))) as Hd.
  2:{ destruct (abstract (SaveDomain d s).2), (spec_save d (abstract s)). simpl in *. by subst. }
  apply option_eq. intros k. rewrite abstract_deflt, Hl by done. simpl deflt.
  assert (Hs := λ k, abstract_deflt s k Hwf). simpl deflt in Hs.
  destruct (decide (Name d = k)) as [<-|Hk].
  - destruct (IsDefault d) eqn:E; [split; eauto|].
    split; [intros (? & [= <-] & ?); congruence|]. by case_bool_decide.
  - destruct (IsDefault d) eqn:E.
    + split; [|by intros [= ?]]. intros (e & He & Hf).
      apply fmap_Some in He as (e' & _ & ->). by rewrite clear_default_flag in Hf.
    + rewrite <-Hs. case_bool_decide as Hb; [|done]. rewrite Hb. split; [by intros [= ?] | done].
Qed.

(** C28. [ListUsers] returns every registered user exactly once, in increasing
    order of email, whatever the iteration order of the map; [SearchUsers]
    returns the sub-list of those that satisfy every filter. *)
Theorem ListUsers_SearchUsers_spec s filters : reachable s →
  ∃ l, (∀ o, ListUsers o s = Ok l) ∧ sorted_by by_email l ∧ NoDup l ∧
    (∀ u, u ∈ l ↔ GetUser (Email u) s = Ok u) ∧
    (∀ o, ∃ r, SearchUsers o filters s = Ok r ∧ sorted_by by_email r ∧
       ∀ u, u ∈ r ↔ u ∈ l ∧ ∀ k v, filters !! k = Some v → matches_filter u k v = true).
Proof.
  intros Hwf%wf_reachable.
  assert (∀ o u, u ∈ range_values o (users s) ↔ users s !! Email u = Some u) as Hin.
  { intros o u. rewrite elem_of_range_values. split; [|naive_solver].
    intros (k & Hk). by assert (Email u = k) as -> by apply (wf_users _ Hwf _ _ Hk). }
  exists (sortSlice by_email (range_values some_order (users s))). split_and!.
  - intros o. unfold ListUsers. f_equal.
    rewrite <-(filter_true (range_values o _)), <-(filter_true (range_values some_order _)).
    apply (sorted_values_unique Email). apply (wf_users _ Hwf).
  - apply sortSlice_sorted, _.
  - rewrite sortSlice_perm. unfold range_values. apply NoDup_fmap_2_strong.
    + intros [k1 u1] [k2 u2] H1%elem_of_range H2%elem_of_range. simpl. intros <-.
      f_equal. by rewrite <-(wf_users _ Hwf _ _ H1), <-(wf_users _ Hwf _ _ H2).
    + rewrite range_perm. apply NoDup_map_to_list.
  - intros u. rewrite elem_of_sortSlice, Hin. unfold GetUser. destruct (users s !! _); naive_solver.
  - intros o. eexists. split; [done|]. split; [apply sortSlice_sorted, _|].
    intros u. rewrite !elem_of_sortSlice, list_elem_of_filter, !Hin, UserMatchesFilters_spec. tauto.
Qed.

Lemma ListPending_facts o before limit s :
  ∃ l, ListPendingDeliveryJobs o before limit s = Ok l ∧
    (∀ j, j ∈ l → (∃ k, deliveryJobs s !! k = Some j) ∧ due before j = true) ∧
    sorted_by (λ a b, Before (NextRetryAt a) (NextRetryAt b)) l ∧
    (0 < limit → Z.of_nat (length l) <= limit) ∧
    (∀ k j, deliveryJobs s !! k = Some j → due before j = true →
       j ∈ l ∨ (0 < limit ∧ Z.of_nat (length l) = limit ∧
                 ∀ j', j' ∈ l → NextRetryAt j' <= NextRetryAt j)).
Proof.
  unfold ListPendingDeliveryJobs.
  set (sorted := sortSlice _ _). destruct (limit_slice_take limit sorted) as (r & Hr & Hlen & Hnil).
  assert (∀ j, j ∈ sorted ↔ due before j = true ∧ ∃ k, deliveryJobs s !! k = Some j) as Hin.
  { intros j. unfold sorted. by rewrite elem_of_sortSlice, list_elem_of_filter, elem_of_range_values. }
  assert (sorted_by (λ a b, Before (NextRetryAt a) (NextRetryAt b)) sorted) as Hs
    by apply sortSlice_sorted, _.
  exists (limit_slice limit sorted). split_and!; [done| | |done|].
  - intros j Hj%elem_of_limit_slice. by apply Hin in Hj as [??].
  - rewrite Hr in Hs. by apply StronglySorted_app_1_l in Hs.
  - intros k j Hk Hd. assert (j ∈ sorted) as Hj by (apply Hin; eauto).
    rewrite Hr in Hj, Hs. apply elem_of_app in Hj as [Hj|Hj]; [by left|]. right.
    destruct Hnil as [? ?]; [intros ->; by apply elem_of_nil in Hj|]. split_and!; [done..|].
    intros j' Hj'. eapply (StronglySorted_app_1_elem_of _ _ _ j' j) in Hs; [|done|done].
    unfold Before in Hs. go_bools. lia.
Qed.

(** The sweeper's query: [ListPendingDeliveryJobs] returns only pending or
    failed jobs that are due, in order of their retry time, at most [limit] of
    them when a limit is given, and leaves out a due job only when the limit is
    reached, in which case every job returned is at least as overdue. *)
Theorem ListPendingDeliveryJobs_spec o before limit s :
  ∃ l, ListPendingDeliveryJobs o before limit s = Ok l ∧
    (∀ j, j ∈ l → (∃ k, deliveryJobs s !! k = Some j) ∧ due before j = true) ∧
    sorted_by (λ a b, Before (NextRetryAt a) (NextRetryAt b)) l ∧
    (0 < limit → Z.of_nat (length l) <= limit) ∧
    (∀ k j, deliveryJobs s !! k = Some j → due before j = true →
       j ∈ l ∨ (0 < limit ∧ Z.of_nat (length l) = limit ∧
                 ∀ j', j' ∈ l → NextRetryAt j' <= NextRetryAt j)).
Proof. apply ListPending_facts. Qed.

(** Delivery jobs are written once: [SaveDeliveryJob] fills the defaults and
    stores the job when its (message, recipient) pair is new, and changes nothing
    when it is known; [UpdateDeliveryJob] fails with [ErrNotFound], changing
    nothing, for an unknown pair, and otherwise replaces exactly status,
    attempts, last error, retry time, delivery time and update time. *)
Theorem delivery_job_writes now j s :
  (SaveDeliveryJob now j s).1 = Ok () ∧
  match deliveryJobs s !! job_key j with
  | Some old =>
      (SaveDeliveryJob now j s).2 = s ∧
      UpdateDeliveryJob now j s = (Ok (), with_jobs s (<[job_key j := update_job now j old]> (deliveryJobs s)))
  | None =>
      (∃ j', GetDeliveryJob (MessageID j) (RecipientID j) (SaveDeliveryJob now j s).2 = Ok j' ∧
         job_key j' = job_key j ∧ Status j' = Status j ∧ Attempts j' = Attempts j ∧
         MaxAttempts j' ≠ 0 ∧ (now ≠ 0 → JCreatedAt j' ≠ 0)) ∧
      UpdateDeliveryJob now j s = (Err ErrNotFound, s)
  end.
Proof.
  unfold SaveDeliveryJob, UpdateDeliveryJob, GetDeliveryJob.
  destruct (deliveryJobs s !! job_key j) as [old|] eqn:E; simpl; split; try done.
  split; [|done]. unfold job_key in *. rewrite lookup_insert_eq. eexists. split; [done|]. simpl.
  unfold IsZero. repeat case_match; go_bools; split_and!; try done; lia.
Qed.

(** ** Witnesses *)

Definition demo_domains : Store :=
  (SaveDomain (MkDomain "b.org" "n1" true) (SaveDomain (MkDomain "a.org" "n1" true) New).2).2.

Definition demo : Store :=
  (SaveUser (MkUser "bob@a.org" "agent" "" {["skills" := "web-search,ocr"]} 7)
    (SaveUser (MkUser "amy@a.org" "human" "" ∅ 5) demo_domains).2).2.

Lemma reachable_demo_domains : reachable demo_domains.
Proof. eapply rtc_l; [apply step_domain|]. eapply rtc_l; [apply step_domain|]. apply rtc_refl. Qed.

Lemma reachable_demo : reachable demo.
Proof.
  unfold reachable. trans demo_domains; [apply reachable_demo_domains|].
  eapply rtc_l; [apply step_user|]. eapply rtc_l; [apply step_user|]. apply rtc_refl.
Qed.

Lemma reachable_one_default_witness :
  GetDefaultDomain some_order demo_domains = Ok (MkDomain "b.org" "n1" true) ∧
  GetDefaultDomain some_order demo_domains = GetDefaultDomain (reversed some_order) demo_domains.
Proof.
  split; [reflexivity|].
  apply (reachable_one_default demo_domains). apply reachable_demo_domains.
Defined.

Lemma SaveDomain_refines_witness :
  deflt (abstract (SaveDomain (MkDomain "b.org" "n2" false) demo_domains).2) = None ∧
  abstract (SaveDomain (MkDomain "b.org" "n2" false) demo_domains).2 =
    spec_save (MkDomain "b.org" "n2" false) (abstract demo_domains).
Proof.
  split; [reflexivity|].
  apply (SaveDomain_refines (MkDomain "b.org" "n2" false) demo_domains); [|done].
  apply wf_reachable, reachable_demo_domains.
Defined.

Lemma ListUsers_SearchUsers_witness :
  (Email <$> (match SearchUsers some_order {["skills" := "web"]} demo with Ok l => l | Err _ => [] end)
     = ["bob@a.org"]) ∧
  ∃ l, (∀ o, ListUsers o demo = Ok l) ∧ NoDup l.
Proof.
  split; [reflexivity|].
  destruct (ListUsers_SearchUsers_spec demo ∅ reachable_demo) as (l & Hl & _ & Hn & _). eauto.
Defined.

End MemStore.
