(* ===== verification/SqlStore.v ===== *)
(** * The SQL stores

    Models [internal/store/sqlite/store.go] (module [Sqlite]) and
    [internal/store/sqlstore/store.go] (module [SqlStore], PostgreSQL). The SQL
    statements of both are read as operations on four tables filed by primary
    key; what the database engine decides (LIKE, JSON columns, the collation and
    the resolution of timestamps) is the class [Engine]. The driver's answer to a
    statement is an argument of each method: the statement may be done, may fail,
    or may be done although the answer is lost. Every method issues one
    statement, so concurrent calls interleave whole methods. *)
From Stdlib Require Import Ascii.
From S2P Require Import Prelude GoStrings.
From S2P Require Import Store.
Local Open Scope Z_scope.

(** ** The engine *)

(** What the stores leave to the database and to [encoding/json]: [like s p] is
    [s LIKE p]; [Marshal] and [Unmarshal] are [json.Marshal] and
    [json.Unmarshal] on a [map[string]string]; [json_column] is the text read
    back from a JSON column after a text was written; [json_get] is
    [json_extract(column, '$.k')] or [column->>'k'], [None] for NULL;
    [time_column] is the time kept by a TIMESTAMP column; [collate] is the strict
    order of ORDER BY on text; [unique_violation] is the error for a row that
    breaks a unique index. *)
Class Engine := {
  like : string → string → bool;
  Marshal : gmap string string → string;
  Unmarshal : string → result (gmap string string);
  json_column : string → string;
  json_get : string → string → option string;
  time_column : Time → Time;
  collate : string → string → bool;
  unique_violation : error }.

(** A LIKE pattern without wildcards and escapes. *)
Definition plain_char (b : Z) : bool := negb ((b =? 37) || (b =? 95) || (b =? 92)).
Definition plain (v : string) : bool := all_bytes plain_char v.

(** The documented behaviour relied on. [fold] is the case folding LIKE applies
    (ASCII letters in SQLite, none in PostgreSQL); [storable] are the maps that
    survive JSON: those of valid UTF-8 text. *)
Class EngineLaws {E : Engine} := {
  fold : string → string;
  storable_meta : gmap string string → Prop;
  like_plain : ∀ s v, plain v = true →
    like s ("%" +:+ v +:+ "%") = Contains (fold s) (fold v);
  decodes : ∀ m, is_ok (Unmarshal (json_column (Marshal m))) = true;
  decode_storable : ∀ m, storable_meta m → Unmarshal (json_column (Marshal m)) = Ok m;
  json_get_storable : ∀ m k, storable_meta m → IsValidMetaKey k = true →
    json_get (json_column (Marshal m)) k = m !! k;
  collate_weak : StrictWeak collate;
  collate_total : ∀ s t, collate s t = false → collate t s = false → s = t;
  time_column_mono : ∀ t u, t <= u → time_column t <= time_column u;
  unmarshal_not_found : ∀ t e, Unmarshal t = Err e → errors_Is e ErrStoreNotFound = false;
  violation_not_found : errors_Is unique_violation ErrStoreNotFound = false }.

(** The driver's answer to one statement. *)
Inductive answer : Type :=
| Done
| Failed (e : error)
| Lost (e : error).

(** ** Tables *)

(** [is_default] is INTEGER in SQLite and BOOLEAN in PostgreSQL; both hold 0 or 1. *)
Record domain_row := MkDomainRow {
  d_name : string;
  d_node_id : string;
  d_is_default : Z }.

Record user_row := MkUserRow {
  u_email : string;
  u_type : string;
  u_public_key : string;
  u_metadata : string;
  u_created_at : Time }.

(** The rows of [nodes] and [webhook_delivery_jobs] hold the fields of the Go
    structs, the status as its text. *)
Record db := MkDb {
  t_nodes : gmap string Node;
  t_domains : gmap string domain_row;
  t_users : gmap string user_row;
  t_jobs : gmap (string * string) DeliveryJob }.

Definition empty_db : db := MkDb ∅ ∅ ∅ ∅.

(** ** Statements *)

Section Statements.
Context {E : Engine}.

(** [ExecContext]: the statement's effect under the driver's answer. *)
Definition exec (a : answer) (stmt : db → result db) (s : db) : result unit * db :=
  match a, stmt s with
  | Failed e, _ => (Err e, s)
  | _, Err e => (Err e, s)
  | Done, Ok s' => (Ok (), s')
  | Lost e, Ok s' => (Err e, s')
  end.

(** [QueryContext] with the iteration over the rows and [rows.Err()]. *)
Definition query {A} (a : answer) (rows : A) : result A :=
  match a with Done => Ok rows | Failed e | Lost e => Err e end.

(** [QueryRowContext(...).Scan(...)]: [sql.ErrNoRows] is [NoRows]. *)
Inductive scanned (A : Type) : Type :=
| Row (r : A)
| NoRows
| RowError (e : error).
Arguments Row {A} r.
Arguments NoRows {A}.
Arguments RowError {A} e.

Definition query_row {A} (a : answer) (row : option A) : scanned A :=
  match a with
  | Done => match row with Some r => Row r | None => NoRows end
  | Failed e | Lost e => RowError e
  end.

(** INSERT INTO nodes ... ON CONFLICT(id) DO UPDATE SET each key to the new
    one unless that is empty. *)
Definition upsert_node (id private public : string) (s : db) : result db :=
  let row := match t_nodes s !! id with
             | Some old =>
                 MkNode id (if negb (bool_decide (private = "")) then private else PrivateKeyB64 old)
                   (if negb (bool_decide (public = "")) then public else PublicKeyB64 old)
             | None => MkNode id private public
             end in
  Ok (MkDb (<[id := row]> (t_nodes s)) (t_domains s) (t_users s) (t_jobs s)).

(** Is another row the default one? The partial unique index
    [idx_domains_default] covers the rows with [is_default] 1. *)
Definition other_default (name : string) (s : db) : bool :=
  existsb (λ kr, negb (bool_decide (kr.1 = name)) && (d_is_default kr.2 =? 1))
    (map_to_list (t_domains s)).

(** INSERT INTO domains ... ON CONFLICT(name) DO UPDATE, under the index. *)
Definition upsert_domain (name node_id : string) (is_default : Z) (s : db) : result db :=
  if (is_default =? 1) && other_default name s then Err unique_violation
  else Ok (MkDb (t_nodes s) (<[name := MkDomainRow name node_id is_default]> (t_domains s))
             (t_users s) (t_jobs s)).

(** INSERT INTO users ... ON CONFLICT(email) DO UPDATE of all columns but
    [created_at]. *)
Definition upsert_user (email type public meta : string) (created : Time) (s : db) : result db :=
  let row := match t_users s !! email with
             | Some old => MkUserRow email type public (json_column meta) (u_created_at old)
             | None => MkUserRow email type public (json_column meta) (time_column created)
             end in
  Ok (MkDb (t_nodes s) (t_domains s) (<[email := row]> (t_users s)) (t_jobs s)).

(** The row written for a job. *)
Definition job_row (j : DeliveryJob) : DeliveryJob :=
  MkJob (MessageID j) (RecipientID j) (EndpointURL j) (Status j) (Attempts j) (MaxAttempts j)
    (LastError j) (time_column (NextRetryAt j)) (time_column <$> DeliveredAt j)
    (time_column (JCreatedAt j)) (time_column (JUpdatedAt j)).

(** INSERT INTO webhook_delivery_jobs ... ON CONFLICT DO NOTHING. *)
Definition insert_job (j : DeliveryJob) (s : db) : result db :=
  match t_jobs s !! job_key j with
  | Some _ => Ok s
  | None => Ok (MkDb (t_nodes s) (t_domains s) (t_users s) (<[job_key j := job_row j]> (t_jobs s)))
  end.

(** UPDATE webhook_delivery_jobs SET ... WHERE message_id = ? AND recipient_id = ?;
    no row is no error. *)
Definition update_job_row (j : DeliveryJob) (s : db) : result db :=
  match t_jobs s !! job_key j with
  | Some old =>
      let row := MkJob (MessageID old) (RecipientID old) (EndpointURL old) (Status j)
                   (Attempts j) (MaxAttempts old) (LastError j) (time_column (NextRetryAt j))
                   (time_column <$> DeliveredAt j) (JCreatedAt old)
                   (time_column (JUpdatedAt j)) in
      Ok (MkDb (t_nodes s) (t_domains s) (t_users s) (<[job_key j := row]> (t_jobs s)))
  | None => Ok s
  end.

(** SELECT ... WHERE [p] ORDER BY a column; rows with equal keys come in the
    order the engine finds them. *)
Definition select_by {K V} `{Countable K} (o : MapOrder) (less : V → V → bool)
    (p : V → bool) (t : gmap K V) : list V :=
  sortSlice less (filter (λ r, p r = true) (range_values o t)).

Definition all_rows {V} (_ : V) : bool := true.

(** WHERE status IN ('pending', 'failed') AND next_retry_at <= ? *)
Definition pending_row (before : Time) (j : DeliveryJob) : bool :=
  (bool_decide (Status j = DeliveryPending) || bool_decide (Status j = DeliveryFailed)) &&
  (NextRetryAt j <=? time_column before).

Definition by_next_retry (a b : DeliveryJob) : bool := Before (NextRetryAt a) (NextRetryAt b).

(** LIMIT ? *)
Definition sql_limit {A} (n : Z) (l : list A) : list A := take (Z.to_nat n) l.

Definition by_name (a b : domain_row) : bool := collate (d_name a) (d_name b).
Definition by_email_row (a b : user_row) : bool := collate (u_email a) (u_email b).
End Statements.

Arguments Row {A} r.
Arguments NoRows {A}.
Arguments RowError {A} e.

(** ** [internal/store/sqlite] *)

Module Sqlite.
Section Sqlite.
Context {E : Engine}.

Definition errText (s : string) : error := EText (Text ("sqlite: " +:+ s) []).
Definition wrapErr (s : string) (e : error) : error := EWrap (Text ("sqlite: " +:+ s +:+ ": %w") []) e.

Definition SaveNode (a : answer) (n : Node) (s : db) : result unit * db :=
  if bool_decide (ID n = "") then (Err (errText "node id is required"), s)
  else exec a (upsert_node (ID n) (PrivateKeyB64 n) (PublicKeyB64 n)) s.

Definition GetNode (a : answer) (id : string) (s : db) : result Node :=
  match query_row a (t_nodes s !! id) with
  | NoRows => Err ErrNotFound
  | RowError e => Err (wrapErr "get node" e)
  | Row n => Ok n
  end.

Definition SaveDomain (a : answer) (d : Domain) (s : db) : result unit * db :=
  let isDefault := if IsDefault d then 1 else 0 in
  exec a (upsert_domain (Name d) (NodeID d) isDefault) s.

(** [Scan] into a [store.Domain] and an [int], then [isDefault != 0]. *)
Definition scanDomain (r : domain_row) : Domain :=
  MkDomain (d_name r) (d_node_id r) (negb (d_is_default r =? 0)).

Definition scan_domain (r : scanned domain_row) : result Domain :=
  match r with
  | NoRows => Err ErrNotFound
  | RowError e => Err e
  | Row d => Ok (scanDomain d)
  end.

Definition GetDomain (a : answer) (name : string) (s : db) : result Domain :=
  scan_domain (query_row a (t_domains s !! name)).

(** WHERE is_default = 1 LIMIT 1 *)
Definition GetDefaultDomain (o : MapOrder) (a : answer) (s : db) : result Domain :=
  scan_domain (query_row a
    (head (filter (λ r, d_is_default r = 1) (range_values o (t_domains s))))).

Definition ListDomains (o : MapOrder) (a : answer) (s : db) : result (list Domain) :=
  try rows := query a (select_by o by_name all_rows (t_domains s)) in
  Ok (scanDomain <$> rows).

Definition CountDomains (a : answer) (s : db) : result Z :=
  query a (Z.of_nat (size (t_domains s))).

Definition SaveUser (now : Time) (a : answer) (u : User) (s : db) : result unit * db :=
  let meta := Marshal (Metadata u) in
  let createdAt := if IsZero (CreatedAt u) then now else CreatedAt u in
  exec a (upsert_user (Email u) (UType u) (UPublicKeyB64 u) meta createdAt) s.

(** One row into a [store.User]; the metadata column is decoded. *)
Definition scanUser (r : user_row) : result User :=
  match Unmarshal (u_metadata r) with
  | Ok m => Ok (MkUser (u_email r) (u_type r) (u_public_key r) m (u_created_at r))
  | Err e => Err (wrapErr "unmarshal metadata" e)
  end.

Definition GetUser (a : answer) (email : string) (s : db) : result User :=
  match query_row a (t_users s !! email) with
  | NoRows => Err ErrNotFound
  | RowError e => Err e
  | Row r => scanUser r
  end.

(** The loop over the rows stops at the first that does not decode. *)
Fixpoint scanUsers (rows : list user_row) : result (list User) :=
  match rows with
  | [] => Ok []
  | r :: rows' => try u := scanUser r in try us := scanUsers rows' in Ok (u :: us)
  end.

Definition ListUsers (o : MapOrder) (a : answer) (s : db) : result (list User) :=
  try rows := query a (select_by o by_email_row all_rows (t_users s)) in scanUsers rows.

(** The WHERE clauses of [SearchUsers]; each [?] takes the next argument. *)
Inductive clause :=
| TypeLike
| MetaLike (k : string).

(** The loop over the sorted keys: clauses and arguments in step. *)
Fixpoint build (filters : gmap string string) (keys : list string) : list clause * list string :=
  match keys with
  | [] => ([], [])
  | k :: keys' =>
      let '(clauses, args) := build filters keys' in
      let arg := "%" +:+ mget filters k +:+ "%" in
      if bool_decide (k = "type") then (TypeLike :: clauses, arg :: args)
      else if IsValidMetaKey k then (MetaLike k :: clauses, arg :: args)
      else (clauses, args)
  end.

Definition sorted_keys (o : MapOrder) (filters : gmap string string) : list string :=
  sortSlice (λ a b, String.ltb a b) ((range o filters).*1).

(** One clause on one row; LIKE on NULL is not true. *)
Definition clause_holds (r : user_row) (c : clause) (arg : string) : bool :=
  match c with
  | TypeLike => like (u_type r) arg
  | MetaLike k => match json_get (u_metadata r) k with Some v => like v arg | None => false end
  end.

Definition where_holds (clauses : list clause) (args : list string) (r : user_row) : bool :=
  forallb (λ ca, clause_holds r ca.1 ca.2) (zip clauses args).

Definition SearchUsers (o : MapOrder) (a : answer) (filters : gmap string string) (s : db)
    : result (list User) :=
  if bool_decide (size filters = 0%nat) then ListUsers o a s
  else
    let '(clauses, args) := build filters (sorted_keys o filters) in
    match clauses with
    | [] => ListUsers o a s
    | _ =>
        try rows := query a (select_by o by_email_row (where_holds clauses args) (t_users s)) in
        scanUsers rows
    end.

Definition CountUsers (a : answer) (s : db) : result Z := query a (Z.of_nat (size (t_users s))).

Definition SaveDeliveryJob (now : Time) (a : answer) (job : DeliveryJob) (s : db) : result unit * db :=
  let job' := MkJob (MessageID job) (RecipientID job) (EndpointURL job) (Status job)
                (Attempts job) (if MaxAttempts job =? 0 then 5 else MaxAttempts job)
                (LastError job) (NextRetryAt job) (DeliveredAt job)
                (if IsZero (JCreatedAt job) then now else JCreatedAt job)
                (if IsZero (JUpdatedAt job) then now else JUpdatedAt job) in
  exec a (insert_job job') s.

Definition UpdateDeliveryJob (now : Time) (a : answer) (job : DeliveryJob) (s : db) : result unit * db :=
  let job' := MkJob (MessageID job) (RecipientID job) (EndpointURL job) (Status job)
                (Attempts job) (MaxAttempts job) (LastError job) (NextRetryAt job)
                (DeliveredAt job) (JCreatedAt job) now in
  exec a (update_job_row job') s.

Definition GetDeliveryJob (a : answer) (messageID recipientID : string) (s : db) : result DeliveryJob :=
  match query_row a (t_jobs s !! (messageID, recipientID)) with
  | NoRows => Err ErrNotFound
  | RowError e => Err (wrapErr "get delivery job" e)
  | Row j => Ok j
  end.

Definition ListPendingDeliveryJobs (o : MapOrder) (a : answer) (before : Time) (limit : Z) (s : db)
    : result (list DeliveryJob) :=
  let rows := select_by o by_next_retry (pending_row before) (t_jobs s) in
  if 0 <? limit then query a (sql_limit limit rows) else query a rows.

Definition ListDeliveryJobsByRecipient (o : MapOrder) (a : answer) (recipientID : string)
    (status : option DeliveryStatus) (s : db) : result (list DeliveryJob) :=
  let newest a b := After (JCreatedAt a) (JCreatedAt b) in
  match status with
  | None => query a (select_by o newest (λ j, bool_decide (RecipientID j = recipientID)) (t_jobs s))
  | Some st =>
      query a (select_by o newest
        (λ j, bool_decide (RecipientID j = recipientID) && bool_decide (Status j = st)) (t_jobs s))
  end.

End Sqlite.
End Sqlite.

(** ** [internal/store/sqlstore] *)

Module SqlStore.
Section SqlStore.
Context {E : Engine}.

Definition errText (s : string) : error := EText (Text ("sqlstore: " +:+ s) []).
Definition wrapErr (s : string) (e : error) : error := EWrap (Text ("sqlstore: " +:+ s +:+ ": %w") []) e.

Definition SaveNode (a : answer) (n : Node) (s : db) : result unit * db :=
  if bool_decide (ID n = "") then (Err (errText "node id is required"), s)
  else
    match exec a (upsert_node (ID n) (PrivateKeyB64 n) (PublicKeyB64 n)) s with
    | (Err e, s') => (Err (wrapErr "save node" e), s')
    | r => r
    end.

Definition GetNode (a : answer) (id : string) (s : db) : result Node :=
  match query_row a (t_nodes s !! id) with
  | NoRows => Err ErrNotFound
  | RowError e => Err (wrapErr "get node" e)
  | Row n => Ok n
  end.

Definition SaveDomain (a : answer) (d : Domain) (s : db) : result unit * db :=
  exec a (upsert_domain (Name d) (NodeID d) (Z.b2z (IsDefault d))) s.

(** [Scan] of the BOOLEAN column into [IsDefault]. *)
Definition scanDomain (r : domain_row) : Domain :=
  MkDomain (d_name r) (d_node_id r) (negb (d_is_default r =? 0)).

Definition scan_domain (r : scanned domain_row) : result Domain :=
  match r with
  | NoRows => Err ErrNotFound
  | RowError e => Err e
  | Row d => Ok (scanDomain d)
  end.

Definition GetDomain (a : answer) (name : string) (s : db) : result Domain :=
  scan_domain (query_row a (t_domains s !! name)).

(** WHERE is_default = 1 LIMIT 1 *)
Definition GetDefaultDomain (o : MapOrder) (a : answer) (s : db) : result Domain :=
  scan_domain (query_row a
    (head (filter (λ r, d_is_default r = 1) (range_values o (t_domains s))))).

Definition ListDomains (o : MapOrder) (a : answer) (s : db) : result (list Domain) :=
  try rows := query a (select_by o by_name all_rows (t_domains s)) in
  Ok (scanDomain <$> rows).

Definition CountDomains (a : answer) (s : db) : result Z :=
  query a (Z.of_nat (size (t_domains s))).

Definition SaveUser (now : Time) (a : answer) (u : User) (s : db) : result unit * db :=
  let meta := Marshal (Metadata u) in
  let createdAt := if IsZero (CreatedAt u) then now else CreatedAt u in
  exec a (upsert_user (Email u) (UType u) (UPublicKeyB64 u) meta createdAt) s.

(** One row into a [store.User]; the metadata column is decoded. *)
Definition scanUser (r : user_row) : result User :=
  match Unmarshal (u_metadata r) with
  | Ok m => Ok (MkUser (u_email r) (u_type r) (u_public_key r) m (u_created_at r))
  | Err e => Err (wrapErr "unmarshal metadata" e)
  end.

Definition GetUser (a : answer) (email : string) (s : db) : result User :=
  match query_row a (t_users s !! email) with
  | NoRows => Err ErrNotFound
  | RowError e => Err e
  | Row r => scanUser r
  end.

(** The loop over the rows stops at the first that does not decode. *)
Fixpoint scanUserRows (rows : list user_row) : result (list User) :=
  match rows with
  | [] => Ok []
  | r :: rows' => try u := scanUser r in try us := scanUserRows rows' in Ok (u :: us)
  end.

Definition ListUsers (o : MapOrder) (a : answer) (s : db) : result (list User) :=
  try rows := query a (select_by o by_email_row all_rows (t_users s)) in scanUserRows rows.

(** The WHERE clauses of [SearchUsers] with the number of their placeholder. *)
Inductive clause :=
| TypeLike (n : Z)
| MetaLike (k : string) (n : Z).

(** One turn of the loop over the sorted keys; [n := len(args) + 1]. *)
Definition add_clause (filters : gmap string string) (st : list clause * list string) (k : string)
    : list clause * list string :=
  let '(clauses, args) := st in
  let n := Z.of_nat (length args) + 1 in
  let arg := "%" +:+ mget filters k +:+ "%" in
  if bool_decide (k = "type") then (clauses ++ [TypeLike n], args ++ [arg])
  else if IsValidMetaKey k then (clauses ++ [MetaLike k n], args ++ [arg])
  else st.

Definition build (filters : gmap string string) (keys : list string) : list clause * list string :=
  foldl (add_clause filters) ([], []) keys.

Definition sorted_keys (o : MapOrder) (filters : gmap string string) : list string :=
  sortSlice (λ a b, String.ltb a b) ((range o filters).*1).

Definition placeholder (c : clause) : Z := match c with TypeLike n | MetaLike _ n => n end.

(** The argument bound to [$n]. *)
Definition bound_arg (args : list string) (n : Z) : option string :=
  if 1 <=? n then args !! Z.to_nat (n - 1) else None.

Definition clause_holds (args : list string) (r : user_row) (c : clause) : bool :=
  match bound_arg args (placeholder c) with
  | None => false
  | Some arg =>
      match c with
      | TypeLike _ => like (u_type r) arg
      | MetaLike k _ => match json_get (u_metadata r) k with Some v => like v arg | None => false end
      end
  end.

Definition where_holds (clauses : list clause) (args : list string) (r : user_row) : bool :=
  forallb (clause_holds args r) clauses.

(** The server prepares a statement when its placeholders are [$1] to [$m] and
    [m] arguments come with it. *)
Definition prepares (clauses : list clause) (args : list string) : bool :=
  bool_decide ((placeholder <$> clauses) = (Z.of_nat <$> seq 1 (length args))).

Definition bind_error : error := EExternal "pq: wrong number of parameters".

Definition SearchUsers (o : MapOrder) (a : answer) (filters : gmap string string) (s : db)
    : result (list User) :=
  if bool_decide (size filters = 0%nat) then ListUsers o a s
  else
    let '(clauses, args) := build filters (sorted_keys o filters) in
    match clauses with
    | [] => ListUsers o a s
    | _ =>
        if prepares clauses args then
          try rows := query a (select_by o by_email_row (where_holds clauses args) (t_users s)) in
          scanUserRows rows
        else Err bind_error
    end.

Definition CountUsers (a : answer) (s : db) : result Z := query a (Z.of_nat (size (t_users s))).

Definition SaveDeliveryJob (now : Time) (a : answer) (job : DeliveryJob) (s : db) : result unit * db :=
  let job' := MkJob (MessageID job) (RecipientID job) (EndpointURL job) (Status job)
                (Attempts job) (if MaxAttempts job =? 0 then 5 else MaxAttempts job)
                (LastError job) (NextRetryAt job) (DeliveredAt job)
                (if IsZero (JCreatedAt job) then now else JCreatedAt job)
                (if IsZero (JUpdatedAt job) then now else JUpdatedAt job) in
  exec a (insert_job job') s.

Definition UpdateDeliveryJob (now : Time) (a : answer) (job : DeliveryJob) (s : db) : result unit * db :=
  let job' := MkJob (MessageID job) (RecipientID job) (EndpointURL job) (Status job)
                (Attempts job) (MaxAttempts job) (LastError job) (NextRetryAt job)
                (DeliveredAt job) (JCreatedAt job) now in
  exec a (update_job_row job') s.

Definition GetDeliveryJob (a : answer) (messageID recipientID : string) (s : db) : result DeliveryJob :=
  match query_row a (t_jobs s !! (messageID, recipientID)) with
  | NoRows => Err ErrNotFound
  | RowError e => Err (wrapErr "get delivery job" e)
  | Row j => Ok j
  end.

Definition ListPendingDeliveryJobs (o : MapOrder) (a : answer) (before : Time) (limit : Z) (s : db)
    : result (list DeliveryJob) :=
  let rows := select_by o by_next_retry (pending_row before) (t_jobs s) in
  if 0 <? limit then query a (sql_limit limit rows) else query a rows.

Definition ListDeliveryJobsByRecipient (o : MapOrder) (a : answer) (recipientID : string)
    (status : option DeliveryStatus) (s : db) : result (list DeliveryJob) :=
  let newest a b := After (JCreatedAt a) (JCreatedAt b) in
  match status with
  | None => query a (select_by o newest (λ j, bool_decide (RecipientID j = recipientID)) (t_jobs s))
  | Some st =>
      query a (select_by o newest
        (λ j, bool_decide (RecipientID j = recipientID) && bool_decide (Status j = st)) (t_jobs s))
  end.

End SqlStore.
End SqlStore.

(** ** The two stores as implementations of the interface *)

Section Ops.
Context {E : Engine}.

Definition sqlite_ops (a : answer) : StoreOps db := {|
  Store.SaveNode := Sqlite.SaveNode a; Store.GetNode := Sqlite.GetNode a;
  Store.SaveDomain := Sqlite.SaveDomain a; Store.GetDomain := Sqlite.GetDomain a;
  Store.GetDefaultDomain o := Sqlite.GetDefaultDomain o a;
  Store.ListDomains o := Sqlite.ListDomains o a;
  Store.CountDomains := Sqlite.CountDomains a;
  Store.SaveUser now := Sqlite.SaveUser now a; Store.GetUser := Sqlite.GetUser a;
  Store.ListUsers o := Sqlite.ListUsers o a;
  Store.SearchUsers o := Sqlite.SearchUsers o a; Store.CountUsers := Sqlite.CountUsers a;
  Store.SaveDeliveryJob now := Sqlite.SaveDeliveryJob now a;
  Store.UpdateDeliveryJob now := Sqlite.UpdateDeliveryJob now a;
  Store.GetDeliveryJob := Sqlite.GetDeliveryJob a;
  Store.ListPendingDeliveryJobs o := Sqlite.ListPendingDeliveryJobs o a;
  Store.ListDeliveryJobsByRecipient o := Sqlite.ListDeliveryJobsByRecipient o a |}.

Definition postgres_ops (a : answer) : StoreOps db := {|
  Store.SaveNode := SqlStore.SaveNode a; Store.GetNode := SqlStore.GetNode a;
  Store.SaveDomain := SqlStore.SaveDomain a; Store.GetDomain := SqlStore.GetDomain a;
  Store.GetDefaultDomain o := SqlStore.GetDefaultDomain o a;
  Store.ListDomains o := SqlStore.ListDomains o a;
  Store.CountDomains := SqlStore.CountDomains a;
  Store.SaveUser now := SqlStore.SaveUser now a; Store.GetUser := SqlStore.GetUser a;
  Store.ListUsers o := SqlStore.ListUsers o a;
  Store.SearchUsers o := SqlStore.SearchUsers o a; Store.CountUsers := SqlStore.CountUsers a;
  Store.SaveDeliveryJob now := SqlStore.SaveDeliveryJob now a;
  Store.UpdateDeliveryJob now := SqlStore.UpdateDeliveryJob now a;
  Store.GetDeliveryJob := SqlStore.GetDeliveryJob a;
  Store.ListPendingDeliveryJobs o := SqlStore.ListPendingDeliveryJobs o a;
  Store.ListDeliveryJobsByRecipient o := SqlStore.ListDeliveryJobsByRecipient o a |}.

(** A sequence of calls, each with its clock reading and the driver's answer. *)
Fixpoint run_answers (ops : answer → StoreOps db) (o : MapOrder)
    (cs : list (Time * answer * call)) (s : db) : list (result reply) * db :=
  match cs with
  | [] => ([], s)
  | (now, a, c) :: cs' =>
      let '(r, s1) := run_call (SO := ops a) o now c s in
      let '(rs, s2) := run_answers ops o cs' s1 in
      (r :: rs, s2)
  end.
End Ops.

(** ** The search query *)

Section Search.
Context {E : Engine}.

(** What one filter asks of a row; a key that is no valid metadata key asks
    nothing. *)
Definition key_holds (filters : gmap string string) (r : user_row) (k : string) : bool :=
  let arg := "%" +:+ mget filters k +:+ "%" in
  if bool_decide (k = "type") then like (u_type r) arg
  else if IsValidMetaKey k then
    match json_get (u_metadata r) k with Some v => like v arg | None => false end
  else true.

Lemma sqlite_where filters keys r :
  Sqlite.where_holds (Sqlite.build filters keys).1 (Sqlite.build filters keys).2 r =
  forallb (key_holds filters r) keys.
Proof.
  unfold Sqlite.where_holds. induction keys as [|k keys IH]; [done|]. simpl.
  rewrite <-IH. destruct (Sqlite.build filters keys) as [cs args]. unfold key_holds.
  case_bool_decide; [done|]. by destruct (IsValidMetaKey k).
Qed.

(** The clauses of one store with the placeholder numbers of the other. *)
Fixpoint numbered (n : nat) (cs : list Sqlite.clause) : list SqlStore.clause :=
  match cs with
  | [] => []
  | Sqlite.TypeLike :: cs' => SqlStore.TypeLike (Z.of_nat n) :: numbered (S n) cs'
  | Sqlite.MetaLike k :: cs' => SqlStore.MetaLike k (Z.of_nat n) :: numbered (S n) cs'
  end.

Lemma build_lengths filters keys :
  length (Sqlite.build filters keys).1 = length (Sqlite.build filters keys).2.
Proof.
  induction keys as [|k keys IH]; [done|]. simpl.
  destruct (Sqlite.build filters keys) as [cs args]. case_bool_decide; simpl in *; [by f_equal|].
  destruct (IsValidMetaKey k); simpl; congruence.
Qed.

Lemma postgres_build filters keys cs args :
  foldl (SqlStore.add_clause filters) (cs, args) keys =
  (cs ++ numbered (S (length args)) (Sqlite.build filters keys).1,
   args ++ (Sqlite.build filters keys).2).
Proof.
  revert cs args. induction keys as [|k keys IH]; intros cs args; simpl; [by rewrite !app_nil_r|].
  replace (Z.of_nat (length args) + 1) with (Z.of_nat (S (length args))) by lia.
  destruct (Sqlite.build filters keys) as [cs' args'].
  case_bool_decide; [|destruct (IsValidMetaKey k)]; rewrite IH; [..|done]; simpl;
    by rewrite length_app, Nat.add_1_r, <-!app_assoc.
Qed.

Lemma numbered_placeholders n cs :
  SqlStore.placeholder <$> numbered n cs = Z.of_nat <$> seq n (length cs).
Proof. revert n. induction cs as [|[] cs IH]; intros n; simpl; [done|..]; by rewrite IH. Qed.

Lemma numbered_where pre args cs r : length cs = length args →
  SqlStore.where_holds (numbered (S (length pre)) cs) (pre ++ args) r = Sqlite.where_holds cs args r.
Proof.
  unfold SqlStore.where_holds, Sqlite.where_holds. revert pre args.
  induction cs as [|c cs IH]; intros pre [|arg args] Hl; simplify_eq/=; [done|].
  assert (SqlStore.bound_arg (pre ++ arg :: args) (Z.of_nat (S (length pre))) = Some arg) as Hb.
  { unfold SqlStore.bound_arg. rewrite (proj2 (Z.leb_le _ _)) by lia.
    replace (Z.to_nat _) with (length pre) by lia. by apply list_lookup_middle. }
  specialize (IH (pre ++ [arg]) args Hl). rewrite length_app, Nat.add_1_r, <-app_assoc in IH.
  destruct c; simpl; rewrite <-IH; unfold SqlStore.clause_holds at 1; simpl; by rewrite Hb.
Qed.

(** The statement the PostgreSQL store sends is well-formed and selects what the
    SQLite one selects. *)
Lemma postgres_query filters keys :
  let '(cs, args) := SqlStore.build filters keys in
  SqlStore.prepares cs args = true ∧ (cs = [] ↔ (Sqlite.build filters keys).1 = []) ∧
  ∀ r, SqlStore.where_holds cs args r = forallb (key_holds filters r) keys.
Proof.
  unfold SqlStore.build. rewrite postgres_build. simpl. pose proof (build_lengths filters keys) as Hl.
  split_and!.
  - unfold SqlStore.prepares. apply bool_decide_eq_true. by rewrite numbered_placeholders, Hl.
  - destruct (Sqlite.build filters keys).1 as [|[] ?]; simpl; split; done.
  - intros r. rewrite <-sqlite_where. by apply (numbered_where []).
Qed.

Lemma select_by_ext {K V} `{Countable K} o less (p q : V → bool) (t : gmap K V) :
  (∀ r, p r = q r) → select_by o less p t = select_by o less q t.
Proof.
  intros Hpq. unfold select_by. f_equal. by apply filter_ext_bool.
Qed.

(** [SearchUsers] without its shortcuts: the rows on which every key of the
    filters holds. *)
Definition search (o : MapOrder) (filters : gmap string string) (s : db) : list user_row :=
  select_by o by_email_row (λ r, forallb (key_holds filters r) (Sqlite.sorted_keys o filters)) (t_users s).

Lemma empty_filters o (filters : gmap string string) :
  size filters = 0%nat → Sqlite.sorted_keys o filters = [].
Proof.
  intros ->%map_size_empty_inv. unfold Sqlite.sorted_keys.
  assert (range o (∅ : gmap string string) = []) as ->; [|done].
  apply Permutation_nil_r. by rewrite range_perm, map_to_list_empty.
Qed.

Lemma no_clauses filters keys r :
  (Sqlite.build filters keys).1 = [] → forallb (key_holds filters r) keys = true.
Proof. intros Hb. rewrite <-sqlite_where, Hb. done. Qed.

Lemma sqlite_SearchUsers o a filters s :
  Sqlite.SearchUsers o a filters s =
  (try rows := query a (search o filters s) in Sqlite.scanUsers rows).
Proof.
  unfold Sqlite.SearchUsers, search.
  set (keys := Sqlite.sorted_keys o filters). case_bool_decide as Hs.
  { unfold keys. rewrite (empty_filters o _ Hs). done. }
  pose proof (sqlite_where filters keys) as Hw. pose proof (no_clauses filters keys) as Hn.
  destruct (Sqlite.build filters keys) as [[|c cs] args]; simpl in *.
  - unfold Sqlite.ListUsers. by rewrite (select_by_ext _ _ all_rows _ _ (λ r, eq_sym (Hn r eq_refl))).
  - by rewrite (select_by_ext _ _ _ _ _ Hw).
Qed.

Lemma postgres_SearchUsers o a filters s :
  SqlStore.SearchUsers o a filters s =
  (try rows := query a (search o filters s) in SqlStore.scanUserRows rows).
Proof.
  unfold SqlStore.SearchUsers, search. change (SqlStore.sorted_keys o filters) with (Sqlite.sorted_keys o filters).
  set (keys := Sqlite.sorted_keys o filters). case_bool_decide as Hs.
  { unfold keys. rewrite (empty_filters o _ Hs). done. }
  pose proof (postgres_query filters keys) as Hq. pose proof (no_clauses filters keys) as Hn.
  destruct (SqlStore.build filters keys) as [cs args]. destruct Hq as (Hp & Hnil & Hw).
  rewrite Hp. destruct cs as [|c cs].
  - unfold SqlStore.ListUsers.
    by rewrite (select_by_ext _ _ all_rows _ _ (λ r, eq_sym (Hn r (proj1 Hnil eq_refl)))).
  - by rewrite (select_by_ext _ _ _ _ _ Hw).
Qed.
End Search.

(** ** The two stores agree *)

Section Agreement.
Context {E : Engine}.

Lemma scanUser_agree r : agree (Sqlite.scanUser r) (SqlStore.scanUser r).
Proof. unfold Sqlite.scanUser, SqlStore.scanUser. by destruct (Unmarshal _). Qed.

Lemma scanUsers_agree rows : agree (Sqlite.scanUsers rows) (SqlStore.scanUserRows rows).
Proof.
  induction rows as [|r rows IH]; simpl; [done|]. pose proof (scanUser_agree r) as Hr.
  destruct (Sqlite.scanUser r), (SqlStore.scanUser r); simpl in *; try done. subst.
  destruct (Sqlite.scanUsers rows), (SqlStore.scanUserRows rows); simpl in *; try done. by subst.
Qed.

Lemma query_agree {A B} a (rows : A) (f g : A → result B) :
  (∀ x, agree (f x) (g x)) →
  agree (try x := query a rows in f x) (try x := query a rows in g x).
Proof. intros Hfg. by destruct a; simpl. Qed.

#[local] Hint Resolve query_agree scanUsers_agree scanUser_agree : postbox.

(** One call, whatever the driver answers. *)
Lemma call_agree o now a c s :
  agree (run_call (SO := sqlite_ops a) o now c s).1 (run_call (SO := postgres_ops a) o now c s).1 ∧
  (run_call (SO := sqlite_ops a) o now c s).2 = (run_call (SO := postgres_ops a) o now c s).2.
Proof.
  destruct c; simpl; try done; split; try done; try (apply agree_map).
  - unfold Sqlite.SaveNode, SqlStore.SaveNode. case_bool_decide; simpl; [done|].
    unfold exec. by destruct a.
  - unfold Sqlite.SaveNode, SqlStore.SaveNode. case_bool_decide; simpl; [done|].
    unfold exec. by destruct a.
  - unfold Sqlite.GetNode, SqlStore.GetNode. by destruct a, (t_nodes s !! _).
  - unfold Sqlite.GetUser, SqlStore.GetUser. destruct a, (t_users s !! _); simpl; auto with postbox.
  - unfold Sqlite.ListUsers, SqlStore.ListUsers. auto with postbox.
  - rewrite sqlite_SearchUsers, postgres_SearchUsers. auto with postbox.
  - unfold Sqlite.GetDeliveryJob, SqlStore.GetDeliveryJob. by destruct a, (t_jobs s !! _).
Qed.

Lemma run_agree o cs s :
  Forall2 agree (run_answers sqlite_ops o cs s).1 (run_answers postgres_ops o cs s).1 ∧
  (run_answers sqlite_ops o cs s).2 = (run_answers postgres_ops o cs s).2.
Proof.
  revert s. induction cs as [|[[now a] c] cs IH]; intros s; [by split|]. simpl.
  destruct (call_agree o now a c s) as [Hr Hs].
  destruct (run_call (SO := sqlite_ops a) o now c s) as [r1 s1],
    (run_call (SO := postgres_ops a) o now c s) as [r2 s2]. simpl in *. subst s2.
  destruct (IH s1) as [Hrs Hss].
  destruct (run_answers sqlite_ops o cs s1), (run_answers postgres_ops o cs s1). simpl in *.
  split; [by constructor | done].
Qed.
End Agreement.
