(* ===== verification/SqlRefine.v ===== *)
(** * What the SQL stores promise

    The theorems on the stores of [SqlStore]: a simulation of the in-memory
    store, the invariant of the databases they can reach, their error behaviour,
    the laws of the store interface, searching and the default domain, and a
    concrete engine for the witnesses. *)
From Stdlib Require Import Ascii.
From S2P Require Import Prelude GoStrings.
From S2P Require Import Store MemStore SqlStore.
Local Open Scope Z_scope.

(** ** The SQL stores against the in-memory store *)

Section Simulation.
Context {E : Engine} {EL : EngineLaws}.

(** The databases of this section compare text byte by byte (SQLite's BINARY
    collation, PostgreSQL's "C"). *)
Hypothesis byte_collation : ∀ s t, collate s t = String.ltb s t.

Definition domain_to_row (d : Domain) : domain_row :=
  MkDomainRow (Name d) (NodeID d) (Z.b2z (IsDefault d)).

Definition user_to_row (u : User) : user_row :=
  MkUserRow (Email u) (UType u) (UPublicKeyB64 u) (json_column (Marshal (Metadata u))) (CreatedAt u).

(** The tables hold what the maps hold. *)
Record represents (s : db) (m : MemStore.Store) : Prop := {
  rep_nodes : t_nodes s = MemStore.nodes m;
  rep_domains : t_domains s = domain_to_row <$> MemStore.domains m;
  rep_users : t_users s = user_to_row <$> MemStore.users m;
  rep_jobs : t_jobs s = MemStore.deliveryJobs m;
  rep_wf : MemStore.wf m;
  rep_meta : map_Forall (λ _ u, storable_meta (Metadata u) ∧ CreatedAt u ≠ 0) (MemStore.users m) }.

Definition attribute (u : User) (k : string) : string :=
  if bool_decide (k = "type") then UType u else mget (Metadata u) k.

Definition exact_time (t : Time) : Prop := time_column t = t.

(** When does a call mean the same to both kinds of store? Domains and users
    have names, at most one default domain is asked for, metadata survives JSON,
    times survive the column, an updated job exists, and a search uses known
    keys and plain values whose case does not matter. *)
Definition shared (now : Time) (c : call) (m : MemStore.Store) : Prop :=
  match c with
  | CSaveDomain d => Name d ≠ "" ∧
      (IsDefault d = true → ∀ k x, MemStore.domains m !! k = Some x → IsDefault x = true → k = Name d)
  | CSaveUser u => Email u ≠ "" ∧ storable_meta (Metadata u) ∧ CreatedAt u ≠ 0 ∧ exact_time (CreatedAt u)
  | CSearchUsers f => ∀ k v, f !! k = Some v → plain v = true ∧ fold v = v ∧
      (k = "type" ∨ (IsValidMetaKey k = true ∧ v ≠ "")) ∧
      ∀ e u, MemStore.users m !! e = Some u → fold (attribute u k) = attribute u k
  | CSaveJob j => exact_time (NextRetryAt j) ∧ exact_time (JCreatedAt j) ∧ exact_time (JUpdatedAt j) ∧
      exact_time now ∧ time_column <$> DeliveredAt j = DeliveredAt j
  | CUpdateJob j => is_Some (MemStore.deliveryJobs m !! job_key j) ∧ exact_time (NextRetryAt j) ∧
      exact_time now ∧ time_column <$> DeliveredAt j = DeliveredAt j
  | CListPending before _ => exact_time before
  | _ => True
  end.

Lemma represents_empty : represents empty_db MemStore.New.
Proof.
  by split.
Qed.

Lemma scan_domain_to_row d : Sqlite.scanDomain (domain_to_row d) = d.
Proof. destruct d as [n i []]; reflexivity. Qed.

Lemma scan_user_to_row u : storable_meta (Metadata u) → Sqlite.scanUser (user_to_row u) = Ok u.
Proof. intros Hm. unfold Sqlite.scanUser. simpl. rewrite decode_storable by done. by destruct u. Qed.

Lemma scan_users_to_row us : Forall (λ u, storable_meta (Metadata u)) us →
  Sqlite.scanUsers (user_to_row <$> us) = Ok us.
Proof.
  induction 1 as [|u us Hu _ IH]; [done|]. cbn [fmap list_fmap Sqlite.scanUsers].
  by rewrite scan_user_to_row, IH by done.
Qed.

(** Selecting rows that stand for the values of a map, sorted by their key. *)
Lemma select_rows {V R} (g : V → R) (f : V → string) (fr : R → string) o (p : R → bool) (m : gmap string V) :
  (∀ v, fr (g v) = f v) → map_Forall (λ k v, f v = k) m →
  select_by o (λ a b, collate (fr a) (fr b)) p (g <$> m) =
  g <$> sortSlice (λ a b, String.ltb (f a) (f b)) (filter (λ v, p (g v) = true) (range_values o m)).
Proof.
  intros Hg Hm. rewrite (sortSlice_fmap g _ (λ a b, String.ltb (fr a) (fr b)))
    by (intros; by rewrite !Hg).
  unfold select_by. rewrite (sortSlice_ext _ (λ a b, String.ltb (fr a) (fr b))) by done.
  apply sortSlice_unique.
  - by rewrite range_values_fmap, filter_fmap_list.
  - intros x y [_ (k & Hx)%elem_of_range_values]%list_elem_of_filter
      [_ (k' & Hy)%elem_of_range_values]%list_elem_of_filter Hf.
    apply lookup_fmap_Some in Hx as (v & <- & Hv), Hy as (w & <- & Hw).
    rewrite !Hg, (Hm _ _ Hv), (Hm _ _ Hw) in Hf. congruence.
Qed.

(** What [ListUsers] and [SearchUsers] read. *)
Lemma scan_selected o p s m : represents s m →
  Sqlite.scanUsers (select_by o by_email_row p (t_users s)) =
  Ok (sortSlice MemStore.by_email
        (filter (λ u, p (user_to_row u) = true) (range_values o (MemStore.users m)))).
Proof.
  intros R. rewrite (rep_users _ _ R). unfold by_email_row.
  rewrite (select_rows user_to_row Email u_email) by (done || apply (MemStore.wf_users _ (rep_wf _ _ R))).
  apply scan_users_to_row. rewrite list.Forall_forall. intros u.
  rewrite elem_of_sortSlice, list_elem_of_filter, elem_of_range_values. intros (_ & k & Hk).
  by apply (rep_meta _ _ R) in Hk as [? _].
Qed.

Lemma key_holds_shared u k f :
  storable_meta (Metadata u) → is_Some (f !! k) →
  (∀ v, f !! k = Some v → plain v = true ∧ fold v = v ∧
     (k = "type" ∨ (IsValidMetaKey k = true ∧ v ≠ "")) ∧ fold (attribute u k) = attribute u k) →
  key_holds f (user_to_row u) k = matches_filter u k (mget f k).
Proof.
  intros Hm [v Hv] Hsh. destruct (Hsh v Hv) as (Hp & Hf & Hk & Ha).
  unfold key_holds, matches_filter, mget, attribute in *. rewrite Hv. simpl.
  case_bool_decide as Ht; [by rewrite like_plain, Ha, Hf|].
  destruct Hk as [?|[Hk Hne]]; [done|]. rewrite Hk. rewrite json_get_storable by done.
  unfold mget in *. destruct (Metadata u !! k) as [x|]; simpl in *; [by rewrite like_plain, Ha, Hf|].
  by destruct v.
Qed.

Lemma elem_of_sorted_keys o (f : gmap string string) k :
  k ∈ Sqlite.sorted_keys o f ↔ is_Some (f !! k).
Proof.
  unfold Sqlite.sorted_keys. rewrite elem_of_sortSlice, list_elem_of_fmap. split.
  - intros ([k' v] & -> & Hkv). apply (elem_of_range o) in Hkv. by eexists.
  - intros [v Hv]. exists (k, v). split; [done|]. by apply (elem_of_range o).
Qed.

Lemma forallb_elem {A} (p : A → bool) l : forallb p l = true ↔ ∀ x, x ∈ l → p x = true.
Proof. rewrite forallb_forall. by setoid_rewrite <-list_elem_of_In. Qed.

(** A shared search finds the users the in-memory store finds. *)
Lemma search_matches o f s m e u : represents s m → (∃ now, shared now (CSearchUsers f) m) →
  MemStore.users m !! e = Some u →
  forallb (key_holds f (user_to_row u)) (Sqlite.sorted_keys o f) = UserMatchesFilters o u f.
Proof.
  intros R [now Hsh] Hu. apply eq_bool_prop_intro. rewrite !Is_true_true, forallb_elem, UserMatchesFilters_spec.
  assert (∀ k, is_Some (f !! k) → key_holds f (user_to_row u) k = matches_filter u k (mget f k)) as Hkey.
  { intros k Hk. apply key_holds_shared; [by apply (rep_meta _ _ R e)|done|].
    intros v Hv. destruct (Hsh k v Hv) as (?&?&?&Ha). eauto. }
  split.
  - intros H k v Hv. specialize (H k). rewrite elem_of_sorted_keys, Hkey in H by eauto.
    unfold mget in H. rewrite Hv in H. by apply H.
  - intros H k Hk%elem_of_sorted_keys. rewrite Hkey by done. destruct Hk as [v Hv].
    unfold mget. rewrite Hv. by apply H.
Qed.

(** *** One call *)

Abbreviation sql_call o now c s := (run_call (SO := sqlite_ops Done) o now c s).
Abbreviation mem_call o now c m := (run_call (SO := MemStore.ops) o now c m).

(** Replies a client cannot tell apart, from states that still correspond. *)
Definition in_step (x : result reply * db) (y : result reply * MemStore.Store) : Prop :=
  agree x.1 y.1 ∧ represents x.2 y.2.

Lemma step_nodes o now n s m : represents s m →
  in_step (sql_call o now (CSaveNode n) s) (mem_call o now (CSaveNode n) m).
Proof.
  intros R. unfold in_step. simpl. unfold Sqlite.SaveNode, MemStore.SaveNode.
  pose proof (MemStore.wf_SaveNode n m (rep_wf _ _ R)) as Hwf. unfold MemStore.SaveNode in Hwf.
  case_bool_decide; simpl; [done|]. split; [done|]. destruct R. split; simpl; try done.
  rewrite rep_nodes0. f_equal.
  destruct (MemStore.nodes m !! ID n) as [old|]; [|by destruct n].
  unfold MemStore.nonempty_or. by repeat case_bool_decide.
Qed.

Lemma other_default_false name s m : represents s m →
  (∀ k x, MemStore.domains m !! k = Some x → IsDefault x = true → k = name) →
  other_default name s = false.
Proof.
  intros R Hd. unfold other_default. apply not_true_iff_false. rewrite existsb_exists.
  intros ([k r] & Hin & Hp). apply list_elem_of_In, elem_of_map_to_list in Hin. simpl in *.
  rewrite (rep_domains _ _ R) in Hin. apply lookup_fmap_Some in Hin as (d & <- & Hk).
  go_bools. simpl in *. destruct (IsDefault d) eqn:Hx; simpl in *; [|lia]. eauto.
Qed.

Lemma step_domain o now d s m : represents s m → shared now (CSaveDomain d) m →
  in_step (sql_call o now (CSaveDomain d) s) (mem_call o now (CSaveDomain d) m).
Proof.
  intros R [Hn Hd]. unfold in_step. simpl. unfold Sqlite.SaveDomain, upsert_domain.
  pose proof (MemStore.wf_SaveDomain d m (rep_wf _ _ R)) as Hwf.
  pose proof (λ k, MemStore.SaveDomain_lookup d m k Hn) as Hl.
  assert (MemStore.domains (MemStore.SaveDomain d m).2 = <[Name d := d]> (MemStore.domains m)) as Hds.
  { apply map_eq. intros k. rewrite Hl, lookup_insert. case_decide; [done|].
    destruct (IsDefault d) eqn:Hx; [|done]. destruct (MemStore.domains m !! k) as [x|] eqn:Hk; [|done].
    simpl. unfold MemStore.clear_default. destruct (IsDefault x) eqn:Hf; [|done].
    by rewrite (Hd eq_refl k x Hk Hf) in *. }
  assert (((if IsDefault d then 1 else 0) =? 1) = IsDefault d) as -> by by destruct (IsDefault d).
  assert (IsDefault d && other_default (Name d) s = false) as ->.
  { destruct (IsDefault d) eqn:Hx; [|done]. eapply other_default_false; eauto. }
  unfold MemStore.SaveDomain in *. rewrite bool_decide_eq_false_2 in * by done. simpl in *.
  split; [done|]. destruct R. split; simpl; try done.
  by rewrite Hds, fmap_insert, rep_domains0.
Qed.

Lemma step_user o now u s m : represents s m → shared now (CSaveUser u) m →
  in_step (sql_call o now (CSaveUser u) s) (mem_call o now (CSaveUser u) m).
Proof.
  intros R (He & Hm & Hc & Ht). unfold in_step. simpl. unfold Sqlite.SaveUser, MemStore.SaveUser.
  pose proof (MemStore.wf_SaveUser u m (rep_wf _ _ R)) as Hwf. unfold MemStore.SaveUser in Hwf.
  rewrite bool_decide_eq_false_2 in * by done. unfold IsZero in *.
  rewrite (proj2 (Z.eqb_neq (CreatedAt u) 0)) by done. simpl in *. split; [done|].
  destruct R as [Rn Rd Ru Rj Rw Rm]. split; simpl; try done.
  - rewrite fmap_insert, Ru, lookup_fmap. f_equal.
    destruct (MemStore.users m !! Email u) as [old|] eqn:Hx; simpl; [|by rewrite Ht].
    apply Rm in Hx as [_ Hold]. by rewrite (proj2 (Z.eqb_neq (CreatedAt old) 0)).
  - apply map_Forall_insert_2; [|done].
    destruct (MemStore.users m !! Email u) as [old|] eqn:Hx; [|done].
    apply Rm in Hx as [_ Hold]. by rewrite (proj2 (Z.eqb_neq (CreatedAt old) 0)).
Qed.

Lemma step_save_job o now j s m : represents s m → shared now (CSaveJob j) m →
  in_step (sql_call o now (CSaveJob j) s) (mem_call o now (CSaveJob j) m).
Proof.
  intros R (Hn & Hc & Hu & Hnow & Hd). unfold in_step. simpl.
  pose proof (MemStore.wf_SaveDeliveryJob now j m (rep_wf _ _ R)) as Hwf.
  unfold Sqlite.SaveDeliveryJob, MemStore.SaveDeliveryJob, insert_job in *.
  unfold job_key in *. simpl in *. rewrite (rep_jobs _ _ R).
  destruct (MemStore.deliveryJobs m !! _) eqn:Hx; simpl in *; [done|]. split; [done|].
  destruct R as [Rn Rd Ru Rj Rw Rm]. split; simpl; try done. unfold job_row. simpl.
  rewrite Hn, Hd. unfold exact_time in *. by repeat case_match; rewrite ?Hc, ?Hu, ?Hnow.
Qed.

Lemma step_update_job o now j s m : represents s m → shared now (CUpdateJob j) m →
  in_step (sql_call o now (CUpdateJob j) s) (mem_call o now (CUpdateJob j) m).
Proof.
  intros R ([old Hold] & Hn & Hnow & Hd). unfold in_step. simpl.
  pose proof (MemStore.wf_UpdateDeliveryJob now j m (rep_wf _ _ R)) as Hwf.
  unfold Sqlite.UpdateDeliveryJob, MemStore.UpdateDeliveryJob, update_job_row in *.
  unfold job_key in *. simpl in *. rewrite (rep_jobs _ _ R), Hold in *. simpl in *. split; [done|].
  destruct R as [Rn Rd Ru Rj Rw Rm]. split; simpl; try done.
  unfold MemStore.update_job. by rewrite Hn, Hnow, Hd.
Qed.

Lemma get_default o s m : represents s m →
  agree (Sqlite.GetDefaultDomain o Done s) (MemStore.GetDefaultDomain o m).
Proof.
  intros R. unfold Sqlite.GetDefaultDomain.
  set (l := filter _ _).
  assert (∀ r, r ∈ l ↔ ∃ d, r = domain_to_row d ∧ MemStore.domains m !! Name d = Some d ∧ IsDefault d = true) as Hl.
  { intros r. unfold l. rewrite list_elem_of_filter, elem_of_range_values, (rep_domains _ _ R). split.
    - intros (Hr & k & (d & <- & Hk)%lookup_fmap_Some). exists d. simpl in Hr.
      assert (Name d = k) as -> by apply (MemStore.wf_domains _ (rep_wf _ _ R) _ _ Hk).
      by destruct (IsDefault d).
    - intros (d & -> & Hd & Hf). simpl. rewrite Hf. split; [done|]. exists (Name d).
      by rewrite lookup_fmap, Hd. }
  destruct (MemStore.GetDefaultDomain o m) as [d|e] eqn:Hx.
  - apply MemStore.GetDefaultDomain_Ok in Hx as [Hd Hf]; [|apply R].
    assert (l ≠ []) as Hne. { intros Hnil. apply (elem_of_nil (domain_to_row d)). rewrite <-Hnil. apply Hl. eauto. }
    destruct l as [|r l']; [done|]. simpl.
    destruct (proj1 (Hl r)) as (d' & -> & Hd' & Hf'); [apply elem_of_cons; by left|].
    rewrite scan_domain_to_row. assert (Name d = Name d') as Hn by (eapply (MemStore.wf_default _ (rep_wf _ _ R)); eauto).
    congruence.
  - apply MemStore.GetDefaultDomain_Err in Hx as [-> Hno]; [|apply R].
    destruct l as [|r l']; [done|]. exfalso.
    destruct (proj1 (Hl r)) as (d & -> & Hd & Hf); [apply elem_of_cons; by left|].
    by rewrite (Hno _ Hd) in Hf.
Qed.

Lemma sql_limit_slice {A} n (l : list A) : 0 < n → sql_limit n l = limit_slice n l.
Proof.
  intros Hn. unfold sql_limit, limit_slice. rewrite (proj2 (Z.ltb_lt _ _) Hn). simpl.
  destruct (n <? _) eqn:Hx; [done|]. apply Z.ltb_ge in Hx. apply take_ge. lia.
Qed.

Lemma call_in_step o now c s m : represents s m → shared now c m →
  in_step (sql_call o now c s) (mem_call o now c m).
Proof.
  intros R Hsh. destruct c; auto using step_nodes, step_domain, step_user, step_save_job, step_update_job;
    split; try done; simpl; try apply agree_map.
  - unfold Sqlite.GetNode, MemStore.GetNode, query_row. rewrite (rep_nodes _ _ R). by destruct (MemStore.nodes m !! _).
  - unfold Sqlite.GetDomain, MemStore.GetDomain. rewrite (rep_domains _ _ R), lookup_fmap.
    destruct (MemStore.domains m !! name); simpl; [apply scan_domain_to_row | done].
  - by apply get_default.
  - unfold Sqlite.ListDomains, MemStore.ListDomains. simpl. rewrite (rep_domains _ _ R).
    unfold by_name. rewrite (select_rows domain_to_row Name d_name)
      by (done || apply (MemStore.wf_domains _ (rep_wf _ _ R))).
    rewrite filter_all by done. rewrite <-list_fmap_compose.
    rewrite (list_fmap_ext _ id) by (intros; apply scan_domain_to_row). by rewrite list_fmap_id.
  - f_equal. unfold Sqlite.CountDomains. simpl. by rewrite (rep_domains _ _ R), map_size_fmap.
  - unfold Sqlite.GetUser, MemStore.GetUser. rewrite (rep_users _ _ R), lookup_fmap.
    destruct (MemStore.users m !! email) as [u|] eqn:Hx; simpl; [|done].
    rewrite scan_user_to_row; [done|]. by apply (rep_meta _ _ R) in Hx as [? _].
  - unfold Sqlite.ListUsers. simpl. rewrite (scan_selected _ _ _ m) by done. simpl.
    by rewrite filter_all.
  - rewrite sqlite_SearchUsers. simpl. unfold search. rewrite (scan_selected _ _ _ m) by done. simpl.
    do 2 f_equal. apply filter_ext_bool. intros u (e & Hu)%elem_of_range_values.
    by apply (search_matches o filters s m e u); eauto.
  - f_equal. unfold Sqlite.CountUsers. simpl. by rewrite (rep_users _ _ R), map_size_fmap.
  - unfold Sqlite.GetDeliveryJob, MemStore.GetDeliveryJob. rewrite (rep_jobs _ _ R).
    by destruct (MemStore.deliveryJobs m !! _).
  - unfold Sqlite.ListPendingDeliveryJobs, MemStore.ListPendingDeliveryJobs. rewrite (rep_jobs _ _ R).
    rewrite (select_by_ext _ _ _ (MemStore.due before)).
    2:{ intros j. unfold pending_row, MemStore.due, After. rewrite Hsh. by rewrite Z.leb_antisym. }
    destruct (0 <? limit) eqn:El; simpl.
    + apply Z.ltb_lt in El. by rewrite sql_limit_slice.
    + unfold limit_slice. by rewrite El.
  - unfold Sqlite.ListDeliveryJobsByRecipient, MemStore.ListDeliveryJobsByRecipient. rewrite (rep_jobs _ _ R).
    destruct status as [st|]; simpl; unfold select_by; [done|]. do 2 f_equal.
    apply filter_ext_bool. intros j _. unfold MemStore.job_of. by rewrite andb_true_r.
Qed.

(** *** Sequences of calls *)

Fixpoint shared_calls (o : MapOrder) (cs : list (Time * call)) (m : MemStore.Store) : Prop :=
  match cs with
  | [] => True
  | (now, c) :: cs' => shared now c m ∧ shared_calls o cs' (mem_call o now c m).2
  end.

(** The calls as the driver carries them out. *)
Definition all_done (cs : list (Time * call)) : list (Time * answer * call) :=
  (λ nc, (nc.1, Done, nc.2)) <$> cs.

Lemma run_in_step o cs s m : represents s m → shared_calls o cs m →
  Forall2 agree (run_answers sqlite_ops o (all_done cs) s).1 (run_calls (SO := MemStore.ops) o cs m).1 ∧
  represents (run_answers sqlite_ops o (all_done cs) s).2 (run_calls (SO := MemStore.ops) o cs m).2.
Proof.
  revert s m. induction cs as [|[now c] cs IH]; intros s m R Hsh; [by split; [constructor|]|].
  destruct Hsh as [Hc Hcs]. pose proof (call_in_step o now c s m R Hc) as [Hr R'].
  cbn [all_done fmap list_fmap run_answers run_calls fst snd] in *. fold (all_done cs).
  destruct (run_call o now c s) as [r s1], (run_call (SO := MemStore.ops) o now c m) as [r' m1].
  simpl in *. destruct (IH s1 m1 R' Hcs) as [Hrs Rs].
  fold (all_done cs) in *.
  destruct (run_answers sqlite_ops o (all_done cs) s1), (run_calls o cs m1). simpl in *.
  split; [by constructor | done].
Qed.
End Simulation.

(** ** Reachable databases *)

Section Reachable.
Context {E : Engine}.

(** Any call of either store on the database, whatever the driver answers. *)
Inductive db_step : db → db → Prop :=
| step_sqlite o now a c s : db_step s (run_call (SO := sqlite_ops a) o now c s).2
| step_postgres o now a c s : db_step s (run_call (SO := postgres_ops a) o now c s).2.

Definition reachable : db → Prop := rtc db_step empty_db.

Record db_wf (s : db) : Prop := {
  dwf_nodes : map_Forall (λ k n, ID n = k ∧ k ≠ "") (t_nodes s);
  dwf_domains : map_Forall (λ k r, d_name r = k ∧ (d_is_default r = 0 ∨ d_is_default r = 1)) (t_domains s);
  dwf_users : map_Forall (λ k r, u_email r = k ∧ ∃ m, u_metadata r = json_column (Marshal m)) (t_users s);
  dwf_jobs : map_Forall (λ k j, job_key j = k ∧ MaxAttempts j ≠ 0) (t_jobs s);
  dwf_default : ∀ k1 k2 r1 r2, t_domains s !! k1 = Some r1 → t_domains s !! k2 = Some r2 →
    d_is_default r1 = 1 → d_is_default r2 = 1 → k1 = k2 }.

(** A statement keeps the tables well formed under every answer if it does when
    it is carried out. *)
Lemma exec_wf a stmt s : db_wf s → (∀ s', stmt s = Ok s' → db_wf s') → db_wf (exec a stmt s).2.
Proof. intros Hs Hst. unfold exec. destruct a, (stmt s) eqn:Hx; simpl; auto. Qed.

Lemma upsert_node_wf id p q s s' : id ≠ "" → db_wf s → upsert_node id p q s = Ok s' → db_wf s'.
Proof.
  intros Hid [H1 H2 H3 H4 H5] [= <-]. split; simpl; try done.
  apply map_Forall_insert_2; [|done]. by destruct (t_nodes s !! id).
Qed.

Lemma upsert_domain_wf n i d s s' : d = 0 ∨ d = 1 → db_wf s → upsert_domain n i d s = Ok s' → db_wf s'.
Proof.
  intros Hd [H1 H2 H3 H4 H5]. unfold upsert_domain. destruct (_ && _) eqn:Hx; [done|]. intros [= <-].
  split; simpl; try done; [by apply map_Forall_insert_2|].
  assert (∀ k r, k ≠ n → t_domains s !! k = Some r → d_is_default r = 1 → d = 1 → False) as Hother.
  { intros k r Hk Hl Hr ->. simpl in Hx. apply not_true_iff_false in Hx. apply Hx.
    unfold other_default. apply existsb_exists. exists (k, r).
    rewrite <-list_elem_of_In, elem_of_map_to_list. split; [done|]. simpl.
    by rewrite bool_decide_eq_false_2, Hr by done. }
  intros k1 k2 r1 r2. rewrite !lookup_insert. repeat case_decide; subst; try done.
  - intros [= <-] Hl Hr1 Hr2. simpl in Hr1. exfalso. eauto.
  - intros Hl [= <-] Hr1 Hr2. simpl in Hr2. exfalso. eauto.
  - apply H5.
Qed.

Lemma upsert_user_wf e t p m c s s' : db_wf s → upsert_user e t p (Marshal m) c s = Ok s' → db_wf s'.
Proof.
  intros [H1 H2 H3 H4 H5] [= <-]. split; simpl; try done.
  apply map_Forall_insert_2; [|done]. destruct (t_users s !! e); simpl; eauto.
Qed.

Lemma insert_job_wf j s s' : MaxAttempts j ≠ 0 → db_wf s → insert_job j s = Ok s' → db_wf s'.
Proof.
  intros Hm [H1 H2 H3 H4 H5]. unfold insert_job. destruct (t_jobs s !! job_key j); intros [= <-].
  - by split.
  - split; simpl; try done. by apply map_Forall_insert_2.
Qed.

Lemma update_job_wf j s s' : db_wf s → update_job_row j s = Ok s' → db_wf s'.
Proof.
  intros [H1 H2 H3 H4 H5]. unfold update_job_row.
  destruct (t_jobs s !! job_key j) as [old|] eqn:Hx; intros [= <-]; [|by split].
  split; simpl; try done. apply map_Forall_insert_2; [|done]. apply (H4 _ _ Hx).
Qed.

Lemma sqlite_call_wf o now a c s : db_wf s → db_wf (run_call (SO := sqlite_ops a) o now c s).2.
Proof.
  intros Hwf. destruct c; try done; simpl.
  - unfold Sqlite.SaveNode. case_bool_decide; [done|]. apply exec_wf; eauto using upsert_node_wf.
  - apply exec_wf; [done|]. intros s'. apply upsert_domain_wf; [|done]. destruct (IsDefault d); auto.
  - apply exec_wf; eauto using upsert_user_wf.
  - apply exec_wf; [done|]. intros s'. apply insert_job_wf; [|done]. simpl. destruct (_ =? 0) eqn:Hx; go_bools; lia.
  - apply exec_wf; eauto using update_job_wf.
Qed.

Lemma reachable_db_wf s : reachable s → db_wf s.
Proof.
  assert (db_wf empty_db) as H0 by (split; try done; apply map_Forall_empty).
  unfold reachable. intros H. revert H0. induction H as [|x y z Hxy _ IH]; [done|]. intros Hx. apply IH.
  destruct Hxy as [o now a c s|o now a c s]; [by apply sqlite_call_wf|].
  rewrite <-(proj2 (call_agree o now a c s)). by apply sqlite_call_wf.
Qed.

Context {EL : EngineLaws}.

Lemma scanUsers_ok rows : (∀ r, r ∈ rows → ∃ m, u_metadata r = json_column (Marshal m)) →
  ∃ us, Sqlite.scanUsers rows = Ok us ∧ Email <$> us = u_email <$> rows.
Proof.
  induction rows as [|r rows IH]; intros Hr; [by exists []|].
  destruct IH as (us & Hus & He); [intros; apply Hr; by apply elem_of_cons; right|].
  destruct (Hr r) as [m Hm]; [apply elem_of_cons; by left|].
  cbn [Sqlite.scanUsers]. rewrite Hus. unfold Sqlite.scanUser. rewrite Hm. pose proof (decodes m) as Hd.
  destruct (Unmarshal _) as [x|]; [|done]. eexists. split; [done|]. by rewrite !fmap_cons, He.
Qed.
End Reachable.

(** ** Errors *)

Section Errors.
Context {E : Engine} {EL : EngineLaws}.

(** The calls that look for a row that is not there. *)
Definition missing (c : call) (s : db) : Prop :=
  match c with
  | CGetNode id => t_nodes s !! id = None
  | CGetDomain name => t_domains s !! name = None
  | CGetDefaultDomain => ∀ k r, t_domains s !! k = Some r → d_is_default r ≠ 1
  | CGetUser email => t_users s !! email = None
  | CGetJob message recipient => t_jobs s !! (message, recipient) = None
  | _ => False
  end.

(** The calls that are refused although the driver works. *)
Definition refused (c : call) (s : db) : Prop :=
  match c with
  | CSaveNode n => ID n = ""
  | CSaveDomain d => IsDefault d = true ∧ other_default (Name d) s = true
  | _ => missing c s
  end.

Lemma sqlite_failed o now c s e :
  ∃ e', run_call (SO := sqlite_ops (Failed e)) o now c s = (Err e', s) ∧
    (errors_Is e ErrStoreNotFound = false → errors_Is e' ErrStoreNotFound = false).
Proof.
  destruct c; simpl; try by eexists.
  - unfold Sqlite.SaveNode. case_bool_decide; by eexists.
  - unfold Sqlite.SearchUsers. case_bool_decide; [by eexists|].
    destruct (Sqlite.build _ _) as [[|] ?]; by eexists.
  - unfold Sqlite.ListPendingDeliveryJobs. destruct (0 <? limit); by eexists.
  - unfold Sqlite.ListDeliveryJobsByRecipient. destruct status; by eexists.
Qed.

Lemma exec_lost e stmt s :
  ∃ e', (result_map (λ _, RUnit) (exec (Lost e) stmt s).1, (exec (Lost e) stmt s).2) =
    (Err e', (exec Done stmt s).2).
Proof. unfold exec. destruct (stmt s); by eexists. Qed.

Lemma sqlite_lost o now c s e :
  ∃ e', run_call (SO := sqlite_ops (Lost e)) o now c s =
    (Err e', (run_call (SO := sqlite_ops Done) o now c s).2).
Proof.
  destruct c; simpl; try by eexists.
  - unfold Sqlite.SaveNode. case_bool_decide; by eexists.
  - apply (exec_lost e (upsert_domain _ _ _)).
  - unfold Sqlite.SearchUsers. case_bool_decide; [by eexists|].
    destruct (Sqlite.build _ _) as [[|] ?]; by eexists.
  - apply (exec_lost e (insert_job _)).
  - apply (exec_lost e (update_job_row _)).
  - unfold Sqlite.ListPendingDeliveryJobs. destruct (0 <? limit); by eexists.
  - unfold Sqlite.ListDeliveryJobsByRecipient. destruct status; by eexists.
Qed.

(** The reply of a call the driver carries out: an error exactly when the call
    is refused, [ErrNotFound] exactly when the row is missing. *)
Definition reply_ok (c : call) (s : db) (r : result reply) : Prop :=
  match r with
  | Ok _ => ¬ refused c s
  | Err e => refused c s ∧ (errors_Is e ErrStoreNotFound = true ↔ missing c s)
  end.

Lemma selected_row o less p s r :
  r ∈ select_by (V := user_row) o less p (t_users s) → ∃ k, t_users s !! k = Some r.
Proof. unfold select_by. rewrite elem_of_sortSlice, list_elem_of_filter, elem_of_range_values. tauto. Qed.

Lemma scan_selected_ok o less p s : db_wf s →
  ∃ us, Sqlite.scanUsers (select_by o less p (t_users s)) = Ok us ∧
    Email <$> us = u_email <$> select_by o less p (t_users s).
Proof.
  intros Hwf. apply scanUsers_ok. intros r [k Hk]%selected_row. by apply (dwf_users _ Hwf) in Hk as [_ ?].
Qed.

Lemma default_row o s :
  match head (filter (λ r, d_is_default r = 1) (range_values o (t_domains s))) with
  | Some r => d_is_default r = 1 ∧ ∃ k, t_domains s !! k = Some r
  | None => missing CGetDefaultDomain s
  end.
Proof.
  destruct (filter _ _) as [|r l] eqn:Hx; simpl.
  - intros k r Hk Hr. apply (elem_of_nil r). rewrite <-Hx. apply list_elem_of_filter.
    rewrite elem_of_range_values. eauto.
  - assert (r ∈ filter (λ r, d_is_default r = 1) (range_values o (t_domains s))) as Hr
      by (rewrite Hx; apply elem_of_cons; by left).
    by apply list_elem_of_filter in Hr as [? ?%elem_of_range_values].
Qed.

Lemma sqlite_done o now c s : db_wf s →
  reply_ok c s (run_call (SO := sqlite_ops Done) o now c s).1.
Proof.
  intros Hwf. unfold reply_ok. destruct c; simpl; try by (intros []).
  - unfold Sqlite.SaveNode. case_bool_decide; simpl; [split; [done|]; split; done|done].
  - unfold Sqlite.GetNode. simpl. destruct (t_nodes s !! id); simpl; [done|]. by split.
  - unfold Sqlite.SaveDomain, exec, upsert_domain. destruct (IsDefault d); simpl; [|by intros []].
    destruct (other_default _ _); simpl; [|by intros []].
    split; [done|]. by rewrite violation_not_found.
  - unfold Sqlite.GetDomain. simpl. destruct (t_domains s !! name); simpl; [done|]. by split.
  - unfold Sqlite.GetDefaultDomain. simpl. pose proof (default_row o s) as Hr.
    destruct (head _) as [r|]; simpl; [|by split]. destruct Hr as (Hr & k & Hk). intros Hm. by apply (Hm k r).
  - unfold Sqlite.GetUser. simpl. destruct (t_users s !! email) as [r|] eqn:Hx; simpl; [|by split].
    apply (dwf_users _ Hwf) in Hx as [_ [m Hm]]. unfold Sqlite.scanUser. rewrite Hm.
    pose proof (decodes m). by destruct (Unmarshal _).
  - unfold Sqlite.ListUsers. simpl. destruct (scan_selected_ok o by_email_row all_rows s Hwf) as (us & -> & _).
    by intros [].
  - rewrite sqlite_SearchUsers. simpl. unfold search. edestruct scan_selected_ok as (us & -> & _); [done|].
    by intros [].
  - unfold Sqlite.SaveDeliveryJob, exec, insert_job. destruct (t_jobs s !! _); by intros [].
  - unfold Sqlite.UpdateDeliveryJob, exec, update_job_row. destruct (t_jobs s !! _); by intros [].
  - unfold Sqlite.GetDeliveryJob. simpl. destruct (t_jobs s !! _); simpl; [done|]. by split.
  - unfold Sqlite.ListPendingDeliveryJobs. destruct (0 <? limit); by intros [].
  - unfold Sqlite.ListDeliveryJobsByRecipient. destruct status; by intros [].
Qed.

Lemma reply_ok_agree c s r1 r2 : agree r1 r2 → reply_ok c s r1 → reply_ok c s r2.
Proof. destruct r1, r2; simpl; try done. by intros ->. Qed.

(** C19. Errors of the SQL stores, for every call of either store on a database
    they can reach: when the driver fails, the call returns an error other than
    [ErrNotFound] and changes nothing; when the driver's answer is lost, the
    call returns an error and has the effect of the call carried out; when the
    driver works, the call fails exactly if it is refused (a node without ID, a
    second default domain, a row that is not there), and the error is
    [ErrNotFound] exactly if the row is not there. *)
Theorem sql_errors ops o now c s e :
  ops = sqlite_ops ∨ ops = postgres_ops → reachable s → errors_Is e ErrStoreNotFound = false →
  (∃ e', run_call (SO := ops (Failed e)) o now c s = (Err e', s) ∧ errors_Is e' ErrStoreNotFound = false) ∧
  (∃ e', run_call (SO := ops (Lost e)) o now c s = (Err e', (run_call (SO := ops Done) o now c s).2)) ∧
  reply_ok c s (run_call (SO := ops Done) o now c s).1.
Proof.
  intros Hops Hs%reachable_db_wf He.
  destruct (sqlite_failed o now c s e) as (e1 & H1 & Hn1), (sqlite_lost o now c s e) as (e2 & H2).
  pose proof (sqlite_done o now c s Hs) as H3. destruct Hops as [->| ->]; [split_and!; [exists e1; auto|by exists e2|done]|].
  pose proof (call_agree o now (Failed e) c s) as [A1 B1].
  pose proof (call_agree o now (Lost e) c s) as [A2 B2].
  pose proof (call_agree o now Done c s) as [A3 B3].
  rewrite H1 in A1, B1. rewrite H2 in A2, B2. simpl in *. split_and!; [| |by eapply reply_ok_agree].
  - destruct (run_call (SO := postgres_ops (Failed e)) o now c s) as [[|e'] s1]; simpl in *; [done|].
    subst. exists e'. split; [done|]. rewrite <-A1. auto.
  - destruct (run_call (SO := postgres_ops (Lost e)) o now c s) as [[|e'] s1]; simpl in *; [done|].
    exists e'. by rewrite <-B2, B3.
Qed.
End Errors.

(** ** The interface's laws *)

Section Laws.
Context {E : Engine} {EL : EngineLaws}.

Lemma exec_done stmt s s' : exec Done stmt s = (Ok (), s') → stmt s = Ok s'.
Proof. unfold exec. destruct (stmt s); by intros [= <-]. Qed.

Lemma upsert_user_get e t p m c s s' : storable_meta m → upsert_user e t p (Marshal m) c s = Ok s' →
  ∃ created, Sqlite.GetUser Done e s' = Ok (MkUser e t p m created).
Proof.
  intros Hm [= <-]. unfold Sqlite.GetUser. simpl. rewrite lookup_insert_eq.
  destruct (t_users s !! e); unfold Sqlite.scanUser; simpl; rewrite decode_storable by done; eauto.
Qed.

(** What the clients of the store interface are proved against holds of the
    SQLite store. *)
#[export] Instance sqlite_laws : StoreLaws (SO := sqlite_ops Done) db.
Proof.
  exists storable_meta; cbv [sqlite_ops Store.SaveNode Store.GetNode Store.SaveUser Store.GetUser
    Store.SaveDomain Store.GetDomain].
  - intros [id k p] s s'. unfold Sqlite.SaveNode. simpl. case_bool_decide; [done|].
    simpl. intros [= <-] Hk Hp. unfold Sqlite.GetNode. simpl. rewrite lookup_insert_eq.
    by destruct (t_nodes s !! id); rewrite ?bool_decide_eq_false_2 by done.
  - intros now u s s' Hm Hs%exec_done. by eapply upsert_user_get.
  - intros now u s s' e [= <-]%exec_done He. unfold Sqlite.GetUser. simpl. by rewrite lookup_insert_ne.
  - by intros now u s r s' [= _ <-].
  - by intros now u s e s' [= ].
  - intros [n i def] s s'. unfold Sqlite.SaveDomain. intros Hs%exec_done. revert Hs.
    unfold upsert_domain. destruct (_ && _); intros [= <-]. unfold Sqlite.GetDomain. simpl.
    rewrite lookup_insert_eq. by destruct def.
  - intros d s r s'. unfold Sqlite.SaveDomain, exec, upsert_domain. by destruct (_ && _); intros [= _ <-].
  - intros d s e s'. unfold Sqlite.SaveDomain, exec, upsert_domain. by destruct (_ && _); intros [= _ <-].
  - intros d s s' n Hs%exec_done Hn. revert Hs. unfold upsert_domain.
    destruct (_ && _); intros [= <-]. unfold Sqlite.GetDomain. simpl. by rewrite lookup_insert_ne.
  - intros n s e. unfold Sqlite.GetDomain. simpl. destruct (t_domains s !! n); by intros [= <-].
Defined.
End Laws.

(** ** Properties *)

Section Properties.
Context {E : Engine} {EL : EngineLaws}.


(** C4. Refinement: both SQL stores implement the in-memory store. From empty
    stores, any sequence of calls that mean the same to both (no second default
    domain, metadata that survives JSON, times the columns keep, updates of
    known jobs, searches by known keys for plain values whose case does not
    matter) gets the same replies, and the tables go on standing for the maps. *)
Theorem sql_refines_memstore o cs :
  (∀ s t, collate s t = String.ltb s t) → shared_calls o cs MemStore.New →
  let mem := run_calls (SO := MemStore.ops) o cs MemStore.New in
  let sql := run_answers sqlite_ops o (all_done cs) empty_db in
  let pg := run_answers postgres_ops o (all_done cs) empty_db in
  Forall2 agree sql.1 mem.1 ∧ Forall2 agree pg.1 mem.1 ∧ represents sql.2 mem.2 ∧ pg.2 = sql.2.
Proof.
  intros Hb Hsh mem sql pg. destruct (run_in_step Hb o cs _ _ represents_empty Hsh) as [Hr R].
  destruct (run_agree o (all_done cs) empty_db) as [Ha Hs]. fold mem sql pg in Hr, R, Ha, Hs.
  split_and!; [done| |done|done]. clear R Hs. revert Hr. clearbody mem sql pg.
  destruct mem as [lm m], sql as [ls s], pg as [lp p]. simpl in *. revert lm.
  induction Ha as [|x y lx ly Hxy _ IH]; intros lm; inversion 1; subst; constructor; [|by apply IH].
  etrans; [symmetry; exact Hxy | done].
Qed.

Lemma listed_default o s less : db_wf s →
  (length (filter (λ d, IsDefault d = true)
     (Sqlite.scanDomain <$> sortSlice less (range_values o (t_domains s)))) <= 1)%nat.
Proof.
  intros Hwf. rewrite (sortSlice_perm less). unfold range_values.
  rewrite <-list_fmap_compose, (filter_fmap_list (Sqlite.scanDomain ∘ snd) IsDefault), length_fmap.
  apply (filter_at_most_one (λ kr, IsDefault ((Sqlite.scanDomain ∘ snd) kr))).
  { rewrite range_perm. apply NoDup_map_to_list. }
  assert (∀ k r, (k, r) ∈ range o (t_domains s) → IsDefault (Sqlite.scanDomain r) = true →
    t_domains s !! k = Some r ∧ d_is_default r = 1) as Hd.
  { intros k r Hk%elem_of_range Hr. split; [done|].
    destruct (dwf_domains _ Hwf _ _ Hk) as [_ [Hz|]]; [|done]. simpl in Hr. by rewrite Hz in Hr. }
  intros [k1 r1] [k2 r2] Hk1 Hk2 Hf1 Hf2. simpl in *.
  destruct (Hd _ _ Hk1 Hf1) as [L1 D1], (Hd _ _ Hk2 Hf2) as [L2 D2].
  assert (k1 = k2) as <- by (eapply (dwf_default _ Hwf); eauto). congruence.
Qed.

(** C35. Rows are well typed: in every database the SQL stores can reach, under
    any interleaving of their calls and any answers of the driver, records are
    filed under their own keys, flags are booleans, at most one domain is the
    default, and every row scans back into a Go value, so that listing the users
    and the domains never fails and returns one value per row. *)
Theorem sql_rows_typed s o : reachable s →
  db_wf s ∧
  (∃ us, Sqlite.ListUsers o Done s = Ok us ∧ length us = size (t_users s)) ∧
  (∃ ds, Sqlite.ListDomains o Done s = Ok ds ∧ length ds = size (t_domains s) ∧
     (length (filter (λ d, IsDefault d = true) ds) <= 1)%nat).
Proof.
  intros Hwf%reachable_db_wf. split; [done|]. split.
  - unfold Sqlite.ListUsers. simpl.
    destruct (scan_selected_ok o by_email_row all_rows s Hwf) as (us & Hus & He).
    exists us. split; [done|]. rewrite <-(length_fmap Email us), He, length_fmap. unfold select_by.
    by rewrite length_sortSlice, filter_all, length_range_values.
  - unfold Sqlite.ListDomains, select_by. simpl. rewrite filter_all by done. eexists. split; [done|].
    rewrite length_fmap, length_sortSlice, length_range_values. split; [done|].
    by apply listed_default.
Qed.

(** The metadata of every user came through [SaveUser] as text JSON keeps. *)
Definition clean (s : db) : Prop :=
  map_Forall (λ _ r, ∃ m, storable_meta m ∧ u_metadata r = json_column (Marshal m)) (t_users s).

(** What one filter asks of a user in the SQL stores. *)
Definition sql_matches (u : User) (k v : string) : Prop :=
  if bool_decide (k = "type") then Contains (fold (UType u)) (fold v) = true
  else IsValidMetaKey k = true →
    ∃ x, Metadata u !! k = Some x ∧ Contains (fold x) (fold v) = true.

Lemma scanned_users s rows : clean s → (∀ r, r ∈ rows → ∃ k, t_users s !! k = Some r) →
  ∃ us, Sqlite.scanUsers rows = Ok us ∧ Forall2 (λ r u, Sqlite.scanUser r = Ok u) rows us.
Proof.
  intros Hc. induction rows as [|r rows IH]; intros Hr; [exists []; by repeat constructor|].
  destruct IH as (us & Hus & Hf); [intros; apply Hr; by apply elem_of_cons; right|].
  destruct (Hr r) as [k Hk]; [apply elem_of_cons; by left|].
  apply Hc in Hk as (m & Hm & Hrm). cbn [Sqlite.scanUsers]. rewrite Hus.
  assert (∃ u, Sqlite.scanUser r = Ok u) as [u Hu].
  { unfold Sqlite.scanUser. rewrite Hrm, decode_storable by done. eauto. }
  rewrite Hu. exists (u :: us). by repeat constructor.
Qed.

Lemma scanUser_email r u : Sqlite.scanUser r = Ok u → Email u = u_email r.
Proof. unfold Sqlite.scanUser. destruct (Unmarshal _); by intros [= <-]. Qed.

Abbreviation scanned_as := (Forall2 (λ r u, Sqlite.scanUser r = Ok u)).

Lemma scanned_elem rows us : scanned_as rows us →
  ∀ u, u ∈ us ↔ ∃ r, r ∈ rows ∧ Sqlite.scanUser r = Ok u.
Proof.
  induction 1 as [|r u rows us Hr _ IH]; intros x; [set_solver|].
  rewrite elem_of_cons, IH. setoid_rewrite elem_of_cons. split.
  - intros [->|(r' & ? & ?)]; eauto.
  - intros (r' & [->|?] & Hx); [left; congruence|eauto].
Qed.

Lemma scanned_sorted rows us : scanned_as rows us →
  StronglySorted (λ a b, by_email_row b a = false) rows →
  StronglySorted (λ a b, collate (Email b) (Email a) = false) us.
Proof.
  induction 1 as [|r u rows us Hr Hrs IH]; intros Hs; [constructor|].
  apply StronglySorted_inv in Hs as [Hs Hall]. constructor; [by apply IH|].
  apply list.Forall_forall. intros x (r' & Hr' & Hx)%(scanned_elem _ _ Hrs).
  rewrite (scanUser_email _ _ Hr), (scanUser_email _ _ Hx).
  by apply (proj1 (list.Forall_forall _ _) Hall).
Qed.

Lemma key_holds_matches f r u k v m :
  storable_meta m → u_metadata r = json_column (Marshal m) → Sqlite.scanUser r = Ok u →
  f !! k = Some v → plain v = true → key_holds f r k = true ↔ sql_matches u k v.
Proof.
  intros Hm Hr Hu Hf Hp. unfold Sqlite.scanUser in Hu. rewrite Hr, decode_storable in Hu by done.
  injection Hu as <-. unfold key_holds, sql_matches, mget. rewrite Hf. simpl.
  case_bool_decide; [by rewrite like_plain|].
  destruct (IsValidMetaKey k) eqn:Hk; [|by split]. rewrite Hr, json_get_storable by done.
  destruct (m !! k) as [x|]; simpl; [|split; [done|by intros (? & [=] & _)]].
  rewrite like_plain by done. split; [eauto|]. by intros (? & [= <-] & ?).
Qed.

(** C36. Searching by SQL: on users whose metadata survived JSON, [SearchUsers]
    with plain values returns, ordered by email, exactly the stored users that
    satisfy every filter: the type or the metadata value contains the given text
    after the engine's case folding, a missing metadata key matches nothing (not
    even the empty text), and a key that is not a valid metadata key is
    ignored. *)
Theorem sql_search_spec o f s : reachable s → clean s →
  (∀ k v, f !! k = Some v → plain v = true) →
  ∃ us, Sqlite.SearchUsers o Done f s = Ok us ∧ SqlStore.SearchUsers o Done f s = Ok us ∧
    StronglySorted (λ a b, collate (Email b) (Email a) = false) us ∧
    ∀ u, u ∈ us ↔ Sqlite.GetUser Done (Email u) s = Ok u ∧ ∀ k v, f !! k = Some v → sql_matches u k v.
Proof.
  intros Hwf%reachable_db_wf Hc Hp.
  assert (∀ r, r ∈ search o f s ↔ (∃ k, t_users s !! k = Some r) ∧
    forallb (key_holds f r) (Sqlite.sorted_keys o f) = true) as Hin.
  { intros r. unfold search, select_by. rewrite elem_of_sortSlice, list_elem_of_filter, elem_of_range_values. tauto. }
  destruct (scanned_users s (search o f s) Hc) as (us & Hus & Hf2); [intros r Hr; by apply Hin|].
  exists us. pose proof (scanUsers_agree (search o f s)) as Hag. rewrite Hus in Hag.
  rewrite sqlite_SearchUsers, postgres_SearchUsers. simpl. split; [done|].
  split; [by destruct (SqlStore.scanUserRows _); simpl in Hag; subst|].
  split.
  - apply (scanned_sorted _ _ Hf2). pose proof collate_weak as [Ha Hn]. apply sortSlice_sorted.
    split; unfold by_email_row; intros; eauto.
  - pose proof (scanned_elem _ _ Hf2) as Hmem.
    intros u. rewrite Hmem. unfold Sqlite.GetUser. simpl. split.
    + intros (r & [[k Hk] Hall]%Hin & Hu). rewrite (scanUser_email _ _ Hu).
      destruct (dwf_users _ Hwf _ _ Hk) as [-> _]. rewrite Hk. split; [done|].
      intros k' v Hv. destruct (Hc _ _ Hk) as (m & Hm & Hr).
      apply (key_holds_matches f r u k' v m); eauto. rewrite forallb_elem in Hall.
      apply Hall, elem_of_sorted_keys. eauto.
    + destruct (t_users s !! Email u) as [r|] eqn:Hk; [|by intros [[=] _]]. intros [Hu Hall].
      exists r. split; [|done]. apply Hin. split; [by eexists|]. apply forallb_elem.
      intros k' [v Hv]%elem_of_sorted_keys. destruct (Hc _ _ Hk) as (m & Hm & Hr).
      apply (key_holds_matches f r u k' v m); eauto.
Qed.

(** The default domain in SQL: while another domain is the default one,
    saving a domain as the default is refused with the unique index's error and
    changes nothing (the in-memory store standing for the same data accepts it
    and moves the default); in every other case the domain is stored as given
    and no other row changes. *)
Theorem sql_SaveDomain_decision ops o now d s m :
  ops = sqlite_ops ∨ ops = postgres_ops → represents s m →
  let result := run_call (SO := ops Done) o now (CSaveDomain d) s in
  (IsDefault d = true ∧ (∃ k x, k ≠ Name d ∧ MemStore.domains m !! k = Some x ∧ IsDefault x = true) →
     result = (Err unique_violation, s) ∧
     (Name d ≠ "" → MemStore.GetDefaultDomain o (MemStore.SaveDomain d m).2 = Ok d)) ∧
  (¬ (IsDefault d = true ∧ (∃ k x, k ≠ Name d ∧ MemStore.domains m !! k = Some x ∧ IsDefault x = true)) →
     result.1 = Ok RUnit ∧ t_domains result.2 = <[Name d := domain_to_row d]> (t_domains s)).
Proof.
  intros Hops R result.
  assert (result = run_call (SO := sqlite_ops Done) o now (CSaveDomain d) s) as Hres by by destruct Hops as [->| ->].
  clearbody result. subst result. clear Hops. simpl. unfold Sqlite.SaveDomain, exec, upsert_domain.
  assert (other_default (Name d) s = true ↔
    ∃ k x, k ≠ Name d ∧ MemStore.domains m !! k = Some x ∧ IsDefault x = true) as Hod.
  { unfold other_default. rewrite existsb_exists. setoid_rewrite <-list_elem_of_In.
    split.
    - intros ([k r] & Hin & Hp). apply elem_of_map_to_list in Hin.
      rewrite (rep_domains _ _ R) in Hin. apply lookup_fmap_Some in Hin as (x & <- & Hk).
      go_bools. simpl in *. exists k, x. split_and!; [done..|]. by destruct (IsDefault x).
    - intros (k & x & Hk & Hx & Hf). exists (k, domain_to_row x). rewrite elem_of_map_to_list.
      rewrite (rep_domains _ _ R), lookup_fmap, Hx. split; [done|]. simpl.
      by rewrite bool_decide_eq_false_2, Hf. }
  rewrite <-Hod. destruct (IsDefault d) eqn:Hd; simpl.
  - destruct (other_default (Name d) s); simpl.
    + split; [|intros H; by destruct H]. intros _. split; [done|]. intros Hn.
      apply MemStore.GetDefaultDomain_Ok; [apply MemStore.wf_SaveDomain, R|].
      by rewrite MemStore.SaveDomain_lookup, decide_True.
    + split; [by intros [_ [=]]|]. intros _. unfold domain_to_row. by rewrite Hd.
  - split; [by intros [[=] _]|]. intros _. unfold domain_to_row. by rewrite Hd.
Qed.
End Properties.

(** ** A concrete engine

    LIKE with the wildcards [%] and [_], case-sensitive; JSON texts are the binary
    digits of stdpp's encoding of the map; text compares byte by byte. *)
Module DemoEngine.

Fixpoint like_match (p : string) : string → bool :=
  match p with
  | "" => λ s, bool_decide (s = "")
  | String c p' =>
      let rest := like_match p' in
      if byte_of c =? 37 then
        fix any (s : string) : bool :=
          rest s || match s with "" => false | String _ s' => any s' end
      else λ s, match s with
                | "" => false
                | String d s' => ((byte_of c =? 95) || bool_decide (c = d)) && rest s'
                end
  end.

Fixpoint digits (p : positive) : string :=
  match p with
  | xH => ""
  | xO p' => String "0"%char (digits p')
  | xI p' => String "1"%char (digits p')
  end.

Fixpoint undigits (s : string) : positive :=
  match s with
  | "" => xH
  | String c s' => if bool_decide (c = "1"%char) then xI (undigits s') else xO (undigits s')
  end.

Lemma undigits_digits p : undigits (digits p) = p.
Proof. induction p as [p IH|p IH|]; simpl; by rewrite ?IH. Qed.

Definition json_map (s : string) : option (gmap string string) := decode (undigits s).

#[export] Instance engine : Engine := {|
  like s p := like_match p s;
  Marshal m := digits (encode m);
  Unmarshal s := match json_map s with Some m => Ok m | None => Err (EExternal "json") end;
  json_column s := s;
  json_get s k := match json_map s with Some m => m !! k | None => None end;
  time_column t := t;
  collate := String.ltb;
  unique_violation := EExternal "UNIQUE constraint failed: domains.is_default" |}.

Lemma json_map_encode (m : gmap string string) : json_map (digits (encode m)) = Some m.
Proof. unfold json_map. by rewrite undigits_digits, decode_encode. Qed.

(** A plain pattern closed by [%] matches the texts it is a prefix of. *)
Lemma like_prefix v s : plain v = true → like_match (v +:+ "%") s = HasPrefix s v.
Proof.
  revert s. induction v as [|c v IH]; intros s Hp.
  - by destruct s as [|d s]; simpl; [|induction s].
  - unfold plain in *. simpl in Hp. apply andb_true_iff in Hp as [Hc Hp].
    unfold plain_char in Hc. rewrite negb_true_iff, !orb_false_iff in Hc. destruct Hc as [[Hc1 Hc2] Hc3].
    change (String c v +:+ "%") with (String c (v +:+ "%")). cbn [like_match].
    rewrite Hc1, Hc2. destruct s as [|d s]; [done|]. simpl. rewrite IH by done. done.
Qed.

Lemma like_contains v s : plain v = true → like_match ("%" +:+ v +:+ "%") s = Contains s v.
Proof.
  intros Hp. change ("%" +:+ v +:+ "%") with (String "%"%char (v +:+ "%")). cbn [like_match].
  change (byte_of "%"%char =? 37) with true. cbn iota.
  induction s as [|d s IH]; cbn [Contains]; rewrite like_prefix by done; [done|].
  f_equal. apply IH.
Qed.

#[export] Instance engine_laws : EngineLaws.
Proof.
  exists id (λ _, True); simpl.
  - intros s v Hp. by apply like_contains.
  - intros m. by rewrite json_map_encode.
  - intros m _. by rewrite json_map_encode.
  - intros m k _ _. by rewrite json_map_encode.
  - apply (string_less_weak id).
  - intros s t. unfold String.ltb. rewrite String.compare_antisym.
    destruct (String.compare t s) eqn:Hx; simpl; try done. intros _ _. symmetry. by apply String.compare_eq_iff.
  - done.
  - intros t e. destruct (json_map t); [done|]. by intros [= <-].
  - done.
Defined.

End DemoEngine.

(** ** Witnesses *)

Import DemoEngine.

Definition demo_job : DeliveryJob :=
  MkJob "m1" "bob@a.org" "https://x" DeliveryPending 0 0 no_text 20 None 0 0.

Definition demo_calls : list (Time * call) := [
  (10, CSaveDomain (MkDomain "a.org" "n1" true));
  (11, CSaveUser (MkUser "bob@a.org" "agent" "key" {["skills" := "web-search"]} 7));
  (12, CSearchUsers {["skills" := "web"]});
  (13, CSaveJob demo_job);
  (14, CListPending 30 1);
  (15, CGetDefaultDomain)].

Definition demo_db : db := (run_answers sqlite_ops some_order (all_done demo_calls) empty_db).2.

Lemma demo_shared : shared_calls some_order demo_calls MemStore.New.
Proof.
  cbn [demo_calls shared_calls shared]. split_and!; try done; try (by vm_compute).
  intros k v [<- <-]%lookup_singleton_Some. split_and!; [done|done|right; done|done].
Qed.

Lemma run_reachable cs s : reachable s → reachable (run_answers sqlite_ops some_order cs s).2.
Proof.
  revert s. induction cs as [|[[now a] c] cs IH]; intros s Hs; [done|]. cbn [run_answers].
  pose proof (step_sqlite some_order now a c s) as Hstep.
  destruct (run_call (SO := sqlite_ops a) some_order now c s) as [r s1]. simpl in Hstep.
  specialize (IH s1). destruct (run_answers sqlite_ops some_order cs s1). simpl in *. apply IH.
  by eapply rtc_r.
Qed.

Lemma demo_db_reachable : reachable demo_db.
Proof. apply run_reachable, rtc_refl. Qed.

Lemma sql_refines_memstore_witness :
  (run_answers postgres_ops some_order (all_done demo_calls) empty_db).1 !! 2%nat =
    Some (Ok (RUsers [MkUser "bob@a.org" "agent" "key" {["skills" := "web-search"]} 7])) ∧
  Forall2 agree (run_answers postgres_ops some_order (all_done demo_calls) empty_db).1
    (run_calls (SO := MemStore.ops) some_order demo_calls MemStore.New).1.
Proof.
  split; [vm_compute; reflexivity|].
  apply (sql_refines_memstore some_order demo_calls); [reflexivity | exact demo_shared].
Defined.

Lemma sql_errors_witness :
  ∃ e', run_call (SO := postgres_ops (Lost (EExternal "broken pipe"))) some_order 0
          (CSaveNode (MkNode "n2" "k" "p")) demo_db =
        (Err e', (run_call (SO := postgres_ops Done) some_order 0 (CSaveNode (MkNode "n2" "k" "p")) demo_db).2).
Proof.
  apply (sql_errors postgres_ops some_order 0 (CSaveNode (MkNode "n2" "k" "p")) demo_db (EExternal "broken pipe"));
    [by right | exact demo_db_reachable | reflexivity].
Defined.

Lemma sql_rows_typed_witness :
  size (t_users demo_db) = 1%nat ∧
  ∃ us, Sqlite.ListUsers some_order Done demo_db = Ok us ∧ length us = size (t_users demo_db).
Proof.
  split; [vm_compute; reflexivity|]. apply (sql_rows_typed demo_db some_order). exact demo_db_reachable.
Defined.

Lemma demo_clean : clean demo_db.
Proof.
  unfold clean.
  assert (t_users demo_db = {["bob@a.org" := MkUserRow "bob@a.org" "agent" "key"
      (Marshal {["skills" := "web-search"]}) 7]}) as -> by (vm_compute; reflexivity).
  apply map_Forall_singleton. exists {["skills" := "web-search"]}. split; [exact I|reflexivity].
Qed.

Lemma sql_search_spec_witness :
  ∃ us, Sqlite.SearchUsers some_order Done {["skills" := "search"]} demo_db = Ok us ∧
    SqlStore.SearchUsers some_order Done {["skills" := "search"]} demo_db = Ok us.
Proof.
  assert (∀ k v, ({["skills" := "search"]} : gmap string string) !! k = Some v → plain v = true) as Hp.
  { intros k v [_ <-]%lookup_singleton_Some. reflexivity. }
  pose proof (sql_search_spec some_order _ demo_db demo_db_reachable demo_clean Hp) as (us & H1 & H2 & _).
  exists us. exact (conj H1 H2).
Defined.

Lemma demo_represents :
  represents demo_db (run_calls (SO := MemStore.ops) some_order demo_calls MemStore.New).2.
Proof.
  apply (run_in_step (E := engine)); [by intros s t | apply represents_empty | exact demo_shared].
Qed.

Lemma sql_SaveDomain_decision_witness :
  run_call (SO := postgres_ops Done) some_order 0 (CSaveDomain (MkDomain "b.org" "n1" true)) demo_db =
    (Err unique_violation, demo_db).
Proof.
  apply (sql_SaveDomain_decision postgres_ops some_order 0 (MkDomain "b.org" "n1" true) demo_db _
    (or_intror eq_refl) demo_represents).
  split; [reflexivity|]. exists "a.org", (MkDomain "a.org" "n1" true).
  split_and!; [discriminate|vm_compute; reflexivity|reflexivity].
Defined.

(** Differences between the stores. An update of an unknown job is an error in
    memory and none in SQL; the SQL stores accept a domain without a name; a
    filter by an invalid key finds nobody in memory and everybody in SQL; the
    wildcards of LIKE act in SQL. *)
Example stores_differ :
  (MemStore.UpdateDeliveryJob 0 demo_job MemStore.New).1 = Err ErrNotFound ∧
  (Sqlite.UpdateDeliveryJob 0 Done demo_job empty_db).1 = Ok () ∧
  is_ok (MemStore.SaveDomain (MkDomain "" "n1" false) MemStore.New).1 = false ∧
  is_ok (Sqlite.SaveDomain Done (MkDomain "" "n1" false) empty_db).1 = true ∧
  (let found (r : result (list User)) := match r with Ok l => length l | Err _ => 0%nat end in
   let mem := (run_calls (SO := MemStore.ops) some_order demo_calls MemStore.New).2 in
   found (MemStore.SearchUsers some_order {["a b" := "x"]} mem) = 0%nat ∧
   found (Sqlite.SearchUsers some_order Done {["a b" := "x"]} demo_db) = 1%nat ∧
   found (MemStore.SearchUsers some_order {["skills" := "web_s"]} mem) = 0%nat ∧
   found (Sqlite.SearchUsers some_order Done {["skills" := "web_s"]} demo_db) = 1%nat).
Proof. vm_compute. tauto. Qed.
