(* ===== verification/SqlSchema.v ===== *)
(** * Connecting to a SQL database and migrating it

    Models [Connect], [migrate] and [Close] of [internal/store/sqlite] and
    [internal/store/sqlstore] with their schemas. A catalog maps a table to its
    columns; statements act on it as SQL defines them, and each may fail in the
    driver. *)
From S2P Require Import Prelude GoStrings.
From S2P Require Import SqlStore.
Local Open Scope Z_scope.

(** ** Data definition statements *)

Abbreviation catalog := (gmap string (list string)).

Inductive ddl : Type :=
| CreateTable (table : string) (columns : list string)
| CreateIndex (table : string) (columns : list string)
| AddColumn (table column : string)
| AddColumnIfNotExists (table column : string)
| DropTable (table : string).

Definition has_columns (columns existing : list string) : bool :=
  forallb (λ c, bool_decide (c ∈ existing)) columns.

Definition add_column (existing : list string) (t c : string) (cat : catalog) : catalog :=
  <[t := existing ++ [c]]> cat.

(** CREATE TABLE and CREATE INDEX carry IF NOT EXISTS, DROP TABLE IF EXISTS. *)
Definition exec_ddl (stmt : ddl) (cat : catalog) : result catalog :=
  match stmt with
  | CreateTable t columns =>
      match cat !! t with Some _ => Ok cat | None => Ok (<[t := columns]> cat) end
  | CreateIndex t columns =>
      match cat !! t with
      | Some existing => if has_columns columns existing then Ok cat
                         else Err (EExternal "no such column")
      | None => Err (EExternal "no such table")
      end
  | AddColumn t c =>
      match cat !! t with
      | Some existing => if bool_decide (c ∈ existing)
                         then Err (EExternal ("duplicate column name: " +:+ c))
                         else Ok (add_column existing t c cat)
      | None => Err (EExternal "no such table")
      end
  | AddColumnIfNotExists t c =>
      match cat !! t with
      | Some existing => if bool_decide (c ∈ existing) then Ok cat
                         else Ok (add_column existing t c cat)
      | None => Err (EExternal "relation does not exist")
      end
  | DropTable t => Ok (delete t cat)
  end.

(** [err.Error()] of a driver error. *)
Definition error_text (e : error) : string :=
  match e with EExternal what => what | _ => "" end.

(** The schema and the migrations of both packages: the same tables; SQLite has
    no ADD COLUMN IF NOT EXISTS. *)
Definition nodes_columns := ["id"; "private_key"; "public_key"].
Definition domains_columns := ["name"; "node_id"; "is_default"].
Definition users_columns := ["email"; "type"; "public_key"; "metadata"; "created_at"].
Definition jobs_columns := ["message_id"; "recipient_id"; "endpoint_url"; "status"; "attempts";
  "max_attempts"; "last_error"; "next_retry_at"; "delivered_at"; "created_at"; "updated_at"].

Section Migrate.
(** What the driver does to the [i]-th statement of a call: [Some e] fails it. *)
Variable fault : nat → option error.

Definition run_ddl (i : nat) (stmt : ddl) (cat : catalog) : result catalog :=
  match fault i with Some e => Err e | None => exec_ddl stmt cat end.

(** One [ExecContext] with several statements: it stops at the first failure and
    keeps what was done before. *)
Fixpoint exec_script (i : nat) (stmts : list ddl) (cat : catalog) : result unit * catalog :=
  match stmts with
  | [] => (Ok (), cat)
  | stmt :: rest =>
      match run_ddl i stmt cat with
      | Err e => (Err e, cat)
      | Ok cat' => exec_script (S i) rest cat'
      end
  end.
End Migrate.

(** ** [internal/store/sqlite] *)

Module SqliteSchema.

Definition schema : list ddl := [
  CreateTable "nodes" nodes_columns;
  CreateTable "domains" domains_columns;
  CreateIndex "domains" ["is_default"];
  CreateTable "users" users_columns;
  CreateTable "webhook_delivery_jobs" jobs_columns;
  CreateIndex "webhook_delivery_jobs" ["next_retry_at"; "status"]].

Definition migrations : list ddl := [
  AddColumn "nodes" "private_key"; AddColumn "nodes" "public_key";
  AddColumn "users" "public_key"; AddColumn "users" "type";
  DropTable "agents"].

(** The loop of [migrate]: "duplicate column name" errors are passed over. *)
Fixpoint apply_migrations (fault : nat → option error) (i : nat) (ms : list ddl) (cat : catalog)
    : result unit * catalog :=
  match ms with
  | [] => (Ok (), cat)
  | m :: rest =>
      match run_ddl fault i m cat with
      | Ok cat' => apply_migrations fault (S i) rest cat'
      | Err err => if Contains (error_text err) "duplicate column name"
                   then apply_migrations fault (S i) rest cat
                   else (Err err, cat)
      end
  end.

Definition migrate (fault : nat → option error) (cat : catalog) : result unit * catalog :=
  match exec_script fault 0 schema cat with
  | (Err err, cat') => (Err err, cat')
  | (Ok _, cat') => apply_migrations fault (length schema) migrations cat'
  end.

(** A handle: is [s.db] set? *)
Definition Connect (dsn : string) (opened pinged : result unit) (fault : nat → option error)
    (db : bool) (cat : catalog) : result unit * bool * catalog :=
  match opened with
  | Err err => (Err (EWrap (Text "sqlite: open %q: %w" [AStr dsn]) err), db, cat)
  | Ok _ =>
      match pinged with
      | Err err => (Err (EWrap (Text "sqlite: ping: %w" []) err), db, cat)
      | Ok _ => let '(r, cat') := migrate fault cat in (r, true, cat')
      end
  end.

(** [Close]: [closed] is what [db.Close] returns. *)
Definition Close (closed : result unit) (db : bool) : result unit := if db then closed else Ok ().

End SqliteSchema.

(** ** [internal/store/sqlstore] *)

Module PostgresSchema.

Definition schema : list ddl := [
  CreateTable "nodes" nodes_columns;
  CreateTable "domains" domains_columns;
  CreateIndex "domains" ["is_default"];
  CreateTable "users" users_columns;
  CreateTable "webhook_delivery_jobs" jobs_columns;
  CreateIndex "webhook_delivery_jobs" ["next_retry_at"; "status"]].

Definition migrations : list ddl := [
  AddColumnIfNotExists "nodes" "private_key"; AddColumnIfNotExists "nodes" "public_key";
  AddColumnIfNotExists "users" "public_key"; AddColumnIfNotExists "users" "type";
  DropTable "agents"].

Definition migrate (fault : nat → option error) (cat : catalog) : result unit * catalog :=
  match exec_script fault 0 schema cat with
  | (Err err, cat') => (Err err, cat')
  | (Ok _, cat') => exec_script fault (length schema) migrations cat'
  end.

(** [s.db] is set before the ping, and a handle made by [NewFromDB] has one. *)
Definition Connect (opened pinged : result unit) (fault : nat → option error)
    (db : bool) (cat : catalog) : result unit * bool * catalog :=
  match (if db then Ok () else opened) with
  | Err err => (Err (EWrap (Text "sqlstore: open: %w" []) err), db, cat)
  | Ok _ =>
      match pinged with
      | Err err => (Err (EWrap (Text "sqlstore: ping: %w" []) err), true, cat)
      | Ok _ => let '(r, cat') := migrate fault cat in (r, true, cat')
      end
  end.

Definition Close (closed : result unit) (db : bool) : result unit := if db then closed else Ok ().

End PostgresSchema.

(** ** Properties *)

Definition no_fault : nat → option error := λ _, None.

(** A database of any earlier version: tables that exist have the columns they
    were first created with. *)
Definition first_columns (t : string) : list string :=
  if bool_decide (t = "nodes") then ["id"]
  else if bool_decide (t = "domains") then domains_columns
  else if bool_decide (t = "users") then ["email"; "metadata"; "created_at"]
  else if bool_decide (t = "webhook_delivery_jobs") then jobs_columns
  else [].

Definition legacy (cat : catalog) : Prop := map_Forall (λ t cs, first_columns t ⊆ cs) cat.

(** Every column the statements of the stores name is there. *)
Definition complete (cat : catalog) : Prop :=
  (∃ cs, cat !! "nodes" = Some cs ∧ nodes_columns ⊆ cs) ∧
  (∃ cs, cat !! "domains" = Some cs ∧ domains_columns ⊆ cs) ∧
  (∃ cs, cat !! "users" = Some cs ∧ users_columns ⊆ cs) ∧
  (∃ cs, cat !! "webhook_delivery_jobs" = Some cs ∧ jobs_columns ⊆ cs).

(** *** What both migrations come to *)

Definition add_missing (c : string) (cs : list string) : list string :=
  if bool_decide (c ∈ cs) then cs else cs ++ [c].

Definition migrated_columns (t : string) (old : option (list string)) : option (list string) :=
  if bool_decide (t = "agents") then None
  else if bool_decide (t = "nodes") then
    Some (add_missing "public_key" (add_missing "private_key" (default nodes_columns old)))
  else if bool_decide (t = "users") then
    Some (add_missing "type" (add_missing "public_key" (default users_columns old)))
  else if bool_decide (t = "domains") then Some (default domains_columns old)
  else if bool_decide (t = "webhook_delivery_jobs") then Some (default jobs_columns old)
  else old.

Definition with_table (t : string) (cs : list string) (cat : catalog) : catalog :=
  <[t := default cs (cat !! t)]> cat.

Lemma create_table t cs cat : exec_ddl (CreateTable t cs) cat = Ok (with_table t cs cat).
Proof.
  simpl. unfold with_table. destruct (cat !! t) eqn:E; simpl; [|done]. by rewrite insert_id.
Qed.

Lemma create_index t cs cat existing : cat !! t = Some existing → cs ⊆ existing →
  exec_ddl (CreateIndex t cs) cat = Ok cat.
Proof.
  intros E Hs. simpl. rewrite E. assert (has_columns cs existing = true) as ->; [|done].
  apply forallb_forall. intros c Hc%list_elem_of_In. apply bool_decide_eq_true. by apply Hs.
Qed.

Lemma add_column_if t c cat existing : cat !! t = Some existing →
  exec_ddl (AddColumnIfNotExists t c) cat = Ok (<[t := add_missing c existing]> cat).
Proof.
  intros E. simpl. rewrite E. unfold add_missing, add_column. case_bool_decide; [|done].
  by rewrite insert_id.
Qed.

(** SQLite's ALTER TABLE, when "duplicate column name" is passed over. *)
Lemma add_column_sqlite i t c rest cat existing : cat !! t = Some existing →
  SqliteSchema.apply_migrations no_fault i (AddColumn t c :: rest) cat =
  SqliteSchema.apply_migrations no_fault (S i) rest (<[t := add_missing c existing]> cat).
Proof.
  intros E. cbn [SqliteSchema.apply_migrations]. unfold run_ddl. simpl. rewrite E.
  unfold add_missing, add_column. case_bool_decide; [|done]. by rewrite insert_id.
Qed.

Lemma exec_script_cons i stmt rest cat cat' : exec_ddl stmt cat = Ok cat' →
  exec_script no_fault i (stmt :: rest) cat = exec_script no_fault (S i) rest cat'.
Proof. intros E. cbn [exec_script]. unfold run_ddl. simpl. by rewrite E. Qed.

(** The four tables after the schema, which only adds what is missing. *)
Definition with_tables (cat : catalog) : catalog :=
  with_table "webhook_delivery_jobs" jobs_columns (with_table "users" users_columns
    (with_table "domains" domains_columns (with_table "nodes" nodes_columns cat))).

Lemma default_legacy (t : string) (cs cols : list string) (cat : catalog) : legacy cat →
  cs ⊆ first_columns t → first_columns t ⊆ cols → cs ⊆ default cols (cat !! t).
Proof.
  intros Hl H1 H2. destruct (cat !! t) as [x|] eqn:E; simpl; [|set_solver].
  specialize (Hl _ _ E). simpl in Hl. set_solver.
Qed.

#[local] Ltac table_lookup :=
  unfold with_tables, with_table; repeat (rewrite lookup_insert_eq || rewrite lookup_insert_ne by done).

Lemma schema_done cat : legacy cat →
  exec_script no_fault 0 SqliteSchema.schema cat = (Ok (), with_tables cat).
Proof.
  intros Hl. unfold SqliteSchema.schema.
  rewrite (exec_script_cons _ _ _ _ _ (create_table _ _ _)), (exec_script_cons _ _ _ _ _ (create_table _ _ _)).
  erewrite exec_script_cons.
  2:{ eapply create_index; [by table_lookup|].
      apply (default_legacy "domains"); [done|vm_compute; set_solver..]. }
  rewrite (exec_script_cons _ _ _ _ _ (create_table _ _ _)), (exec_script_cons _ _ _ _ _ (create_table _ _ _)).
  erewrite exec_script_cons; [reflexivity|].
  eapply create_index; [by table_lookup|].
  apply (default_legacy "webhook_delivery_jobs"); [done|vm_compute; set_solver..].
Qed.

(** The columns of the two altered tables, step by step. *)
Definition with_columns (cat : catalog) : catalog :=
  let n := default nodes_columns (cat !! "nodes") in
  let u := default users_columns (cat !! "users") in
  delete "agents"
    (<["users" := add_missing "type" (add_missing "public_key" u)]>
       (<["users" := add_missing "public_key" u]>
          (<["nodes" := add_missing "public_key" (add_missing "private_key" n)]>
             (<["nodes" := add_missing "private_key" n]> (with_tables cat))))).

Lemma sqlite_migrate cat : legacy cat → SqliteSchema.migrate no_fault cat = (Ok (), with_columns cat).
Proof.
  intros Hl. unfold SqliteSchema.migrate. rewrite schema_done by done.
  unfold SqliteSchema.migrations, with_columns, with_tables.
  do 4 (erewrite add_column_sqlite; [|by table_lookup]). done.
Qed.

Lemma postgres_migrate cat : legacy cat → PostgresSchema.migrate no_fault cat = (Ok (), with_columns cat).
Proof.
  intros Hl. unfold PostgresSchema.migrate. change PostgresSchema.schema with SqliteSchema.schema.
  rewrite schema_done by done. unfold PostgresSchema.migrations, with_columns, with_tables.
  do 4 (erewrite exec_script_cons; [|apply add_column_if; by table_lookup]). done.
Qed.

Lemma with_columns_lookup cat t : with_columns cat !! t = migrated_columns t (cat !! t).
Proof.
  unfold migrated_columns, with_columns, with_tables. repeat case_bool_decide; subst;
    rewrite ?lookup_delete_eq, ?lookup_delete_ne by done; try done; table_lookup; done.
Qed.

(** *** Statements only add *)

Definition grows (cat cat' : catalog) : Prop :=
  ∀ t cs, t ≠ "agents" → cat !! t = Some cs → ∃ new, cat' !! t = Some (cs ++ new).

Lemma grows_refl cat : grows cat cat.
Proof. intros t cs _ Ht. exists []. by rewrite app_nil_r. Qed.

Lemma grows_trans c1 c2 c3 : grows c1 c2 → grows c2 c3 → grows c1 c3.
Proof.
  intros H1 H2 t cs Ht Hc. destruct (H1 t cs Ht Hc) as [n1 Hn1].
  destruct (H2 t _ Ht Hn1) as [n2 Hn2]. exists (n1 ++ n2). by rewrite app_assoc.
Qed.

(** The statements of the two packages: tables are created with their first
    columns at least, and only [agents] is dropped. *)
Definition safe_stmt (stmt : ddl) : bool :=
  match stmt with
  | CreateTable t cs => has_columns (first_columns t) cs
  | DropTable t => bool_decide (t = "agents")
  | _ => true
  end.

Lemma grow_column t old c cat : cat !! t = Some old → legacy cat →
  legacy (add_column old t c cat) ∧ grows cat (add_column old t c cat).
Proof.
  intros E Hl. unfold add_column. split.
  - apply map_Forall_insert_2; [|done]. specialize (Hl _ _ E). simpl in Hl. set_solver.
  - intros t' cs _ Hc. rewrite lookup_insert. case_decide; subst.
    + rewrite E in Hc. injection Hc as <-. by exists [c].
    + exists []. by rewrite app_nil_r.
Qed.

Lemma exec_ddl_safe stmt cat cat' : safe_stmt stmt = true → exec_ddl stmt cat = Ok cat' →
  legacy cat → legacy cat' ∧ grows cat cat'.
Proof.
  intros Hs He Hl. destruct stmt as [t cs|t cs|t c|t c|t]; simpl in *.
  - destruct (cat !! t) eqn:E; injection He as <-; [by split; [|apply grows_refl]|]. split.
    + apply map_Forall_insert_2; [|done]. intros c Hc. unfold has_columns in Hs.
      rewrite forallb_forall in Hs. apply list_elem_of_In, Hs, bool_decide_eq_true in Hc. done.
    + intros t' cs' _ Hc. rewrite lookup_insert_ne by congruence. exists []. by rewrite app_nil_r.
  - destruct (cat !! t); [|done]. destruct (has_columns cs _); [|done]. injection He as <-.
    by split; [|apply grows_refl].
  - destruct (cat !! t) eqn:E; [|done]. case_bool_decide; [done|]. injection He as <-. by apply grow_column.
  - destruct (cat !! t) eqn:E; [|done]. case_bool_decide; injection He as <-; [|by apply grow_column].
    by split; [|apply grows_refl].
  - injection He as <-. go_bools. subst. split; [by apply map_Forall_delete|].
    intros t cs Ht Hc. rewrite lookup_delete_ne by done. exists []. by rewrite app_nil_r.
Qed.

Lemma run_ddl_safe fault i stmt cat cat' : safe_stmt stmt = true → run_ddl fault i stmt cat = Ok cat' →
  legacy cat → legacy cat' ∧ grows cat cat'.
Proof. unfold run_ddl. destruct (fault i); [done|]. apply exec_ddl_safe. Qed.

Lemma exec_script_safe fault i stmts cat : forallb safe_stmt stmts = true → legacy cat →
  legacy (exec_script fault i stmts cat).2 ∧ grows cat (exec_script fault i stmts cat).2.
Proof.
  revert i cat. induction stmts as [|stmt rest IH]; intros i cat Hs Hl; [by split; [|apply grows_refl]|].
  simpl in *. apply andb_true_iff in Hs as [Hs1 Hs2].
  destruct (run_ddl fault i stmt cat) as [cat'|e] eqn:E; [|by split; [|apply grows_refl]].
  destruct (run_ddl_safe _ _ _ _ _ Hs1 E Hl) as [Hl' Hg]. destruct (IH (S i) cat' Hs2 Hl').
  split; [done|]. by eapply grows_trans.
Qed.

Lemma apply_migrations_safe fault i ms cat : forallb safe_stmt ms = true → legacy cat →
  legacy (SqliteSchema.apply_migrations fault i ms cat).2 ∧
  grows cat (SqliteSchema.apply_migrations fault i ms cat).2.
Proof.
  revert i cat. induction ms as [|m rest IH]; intros i cat Hs Hl; [by split; [|apply grows_refl]|].
  simpl in *. apply andb_true_iff in Hs as [Hs1 Hs2].
  destruct (run_ddl fault i m cat) as [cat'|e] eqn:E.
  - destruct (run_ddl_safe _ _ _ _ _ Hs1 E Hl) as [Hl' Hg]. destruct (IH (S i) cat' Hs2 Hl').
    split; [done|]. by eapply grows_trans.
  - destruct (Contains _ _); [by apply IH|]. by split; [|apply grows_refl].
Qed.

Lemma migrate_safe fault cat : legacy cat →
  (legacy (SqliteSchema.migrate fault cat).2 ∧ grows cat (SqliteSchema.migrate fault cat).2) ∧
  (legacy (PostgresSchema.migrate fault cat).2 ∧ grows cat (PostgresSchema.migrate fault cat).2).
Proof.
  intros Hl. destruct (exec_script_safe fault 0 SqliteSchema.schema cat eq_refl Hl) as [H1 H2].
  unfold SqliteSchema.migrate, PostgresSchema.migrate. change PostgresSchema.schema with SqliteSchema.schema.
  destruct (exec_script fault 0 SqliteSchema.schema cat) as [[[]|e] cat1]; simpl in *; [|done].
  destruct (apply_migrations_safe fault 6 SqliteSchema.migrations cat1 eq_refl H1).
  destruct (exec_script_safe fault 6 PostgresSchema.migrations cat1 eq_refl H1).
  split; (split; [done|]); by eapply grows_trans.
Qed.

Lemma add_missing_in c cs : c ∈ add_missing c cs.
Proof. unfold add_missing. case_bool_decide; set_solver. Qed.

Lemma add_missing_sub c cs : cs ⊆ add_missing c cs.
Proof. unfold add_missing. case_bool_decide; set_solver. Qed.

Lemma add_missing_id c cs : c ∈ cs → add_missing c cs = cs.
Proof. intros Hc. unfold add_missing. by rewrite bool_decide_eq_true_2. Qed.

Lemma complete_with_columns cat : legacy cat → complete (with_columns cat).
Proof.
  intros Hl. unfold complete. rewrite !with_columns_lookup. unfold migrated_columns. simpl.
  pose proof (default_legacy "nodes" ["id"] nodes_columns cat Hl) as Hn.
  pose proof (default_legacy "users" ["email"; "metadata"; "created_at"] users_columns cat Hl) as Hu.
  pose proof (default_legacy "domains" domains_columns domains_columns cat Hl) as Hd.
  pose proof (default_legacy "webhook_delivery_jobs" jobs_columns jobs_columns cat Hl) as Hj.
  specialize (Hn ltac:(done) ltac:(vm_compute; set_solver)).
  specialize (Hu ltac:(done) ltac:(vm_compute; set_solver)).
  specialize (Hd ltac:(done) ltac:(done)). specialize (Hj ltac:(done) ltac:(done)).
  split_and!; eexists; (split; [reflexivity|]); try done.
  - intros c. set (l := add_missing "private_key" _).
    pose proof (add_missing_sub "public_key" l). pose proof (add_missing_in "public_key" l).
    pose proof (add_missing_sub "private_key" (default nodes_columns (cat !! "nodes"))).
    pose proof (add_missing_in "private_key" (default nodes_columns (cat !! "nodes"))).
    unfold nodes_columns at 1. set_solver.
  - intros c. set (l := add_missing "public_key" _).
    pose proof (add_missing_sub "type" l). pose proof (add_missing_in "type" l).
    pose proof (add_missing_sub "public_key" (default users_columns (cat !! "users"))).
    pose proof (add_missing_in "public_key" (default users_columns (cat !! "users"))).
    unfold users_columns at 1. set_solver.
Qed.

Lemma with_columns_idem cat : legacy cat → with_columns (with_columns cat) = with_columns cat.
Proof.
  intros Hl. destruct (complete_with_columns cat Hl) as ((n & Hn & Hn') & _ & (u & Hu & Hu') & _).
  apply map_eq. intros t. rewrite with_columns_lookup.
  destruct (with_columns cat !! t) as [cs|] eqn:E.
  - unfold migrated_columns. repeat case_bool_decide; subst; try done.
    + by rewrite with_columns_lookup in E.
    + assert (cs = n) as -> by congruence. simpl.
      by rewrite (add_missing_id "private_key"), (add_missing_id "public_key") by (apply Hn'; unfold nodes_columns; set_solver).
    + assert (cs = u) as -> by congruence. simpl.
      by rewrite (add_missing_id "public_key"), (add_missing_id "type") by (apply Hu'; unfold users_columns; set_solver).
  - rewrite with_columns_lookup in E. unfold migrated_columns in *. repeat case_bool_decide; done.
Qed.

(** C25. Migrations: on a database of any earlier version both stores end with
    every column their statements name; migrating again changes nothing; no
    migration, also one the driver fails part of the way, takes a column from a
    table (other than dropping [agents]), and after a failure it can be run
    again and completes. *)
Theorem migrate_spec cat fault : legacy cat →
  (∃ cat', SqliteSchema.migrate no_fault cat = (Ok (), cat') ∧
     PostgresSchema.migrate no_fault cat = (Ok (), cat') ∧ complete cat' ∧
     SqliteSchema.migrate no_fault cat' = (Ok (), cat') ∧
     PostgresSchema.migrate no_fault cat' = (Ok (), cat')) ∧
  ∀ migrate, migrate = SqliteSchema.migrate ∨ migrate = PostgresSchema.migrate →
    grows cat (migrate fault cat).2 ∧
    ∃ cat', migrate no_fault (migrate fault cat).2 = (Ok (), cat') ∧ complete cat'.
Proof.
  intros Hl. split.
  - exists (with_columns cat).
    assert (legacy (with_columns cat)) as Hl'.
    { pose proof (migrate_safe no_fault cat Hl) as [[H _] _]. by rewrite sqlite_migrate in H. }
    rewrite !sqlite_migrate, !postgres_migrate, with_columns_idem by done.
    split_and!; auto using complete_with_columns.
  - destruct (migrate_safe fault cat Hl) as [[H1 G1] [H2 G2]].
    intros migrate [->| ->]; (split; [done|]); eexists;
      (split; [by apply sqlite_migrate || by apply postgres_migrate | by apply complete_with_columns]).
Qed.

(** A database of the first version: bare node and user tables and the agents
    table that was dropped later; the driver fails the second migration. *)
Definition first_version : catalog :=
  <["nodes" := ["id"]]> (<["users" := ["email"; "metadata"; "created_at"]]> {["agents" := ["id"]]}).

Definition second_migration_fails (i : nat) : option error :=
  if bool_decide (i = 7%nat) then Some (EExternal "database is locked") else None.

Lemma first_version_legacy : legacy first_version.
Proof.
  apply map_Forall_insert_2; [by change (["id"] ⊆ ["id"])|].
  apply map_Forall_insert_2; [|apply map_Forall_singleton; by apply list_subseteq_nil].
  by change (["email"; "metadata"; "created_at"] ⊆ ["email"; "metadata"; "created_at"]).
Qed.

Lemma migrate_spec_witness :
  (SqliteSchema.migrate second_migration_fails first_version).1 = Err (EExternal "database is locked") ∧
  ∃ cat', SqliteSchema.migrate no_fault (SqliteSchema.migrate second_migration_fails first_version).2 =
            (Ok (), cat') ∧ complete cat'.
Proof.
  split; [vm_compute; reflexivity|].
  apply (migrate_spec first_version second_migration_fails first_version_legacy). by left.
Defined.
