(* ===== verification/StoreTest.v ===== *)
(** * The conformance suite of the stores

    Models [internal/store/storetest/storetest.go]. A test makes a fixed sequence
    of calls and checks each reply, stopping at the first that is not as it
    should be; it is the list of its calls with their checks. *)
From S2P Require Import Prelude GoStrings.
From S2P Require Import Store MemStore SqlStore SqlRefine.
Local Open Scope Z_scope.

(** ** Tests *)

(** A call with the check on its reply ([t.Fatalf] when it fails). *)
Definition check : Type := result reply → bool.
Definition test : Type := list (call * check).

Definition no_error : check := λ r, is_ok r.
Definition any_error : check := λ r, negb (is_ok r).
Definition not_found : check :=
  λ r, match r with Err e => errors_Is e ErrStoreNotFound | Ok _ => false end.

Definition node (p : Node → bool) : check := λ r, match r with Ok (RNode n) => p n | _ => false end.
Definition domain (p : Domain → bool) : check := λ r, match r with Ok (RDomain d) => p d | _ => false end.
Definition domains (p : list Domain → bool) : check := λ r, match r with Ok (RDomains l) => p l | _ => false end.
Definition user (p : User → bool) : check := λ r, match r with Ok (RUser u) => p u | _ => false end.
Definition users (p : list User → bool) : check := λ r, match r with Ok (RUsers l) => p l | _ => false end.
Definition job (p : DeliveryJob → bool) : check := λ r, match r with Ok (RJob j) => p j | _ => false end.
Definition jobs (p : list DeliveryJob → bool) : check := λ r, match r with Ok (RJobs l) => p l | _ => false end.
Definition count (n : Z) : check := λ r, match r with Ok (RCount m) => m =? n | _ => false end.

Definition eqs (s t : string) : bool := bool_decide (s = t).
Definition len_is {A} (n : nat) (l : list A) : bool := bool_decide (length l = n).

(** [users[i].Email], for an index within the slice. *)
Definition email_at (l : list User) (i : nat) (e : string) : bool :=
  match l !! i with Some u => eqs (Email u) e | None => false end.
Definition name_at (l : list Domain) (i : nat) (n : string) : bool :=
  match l !! i with Some d => eqs (Name d) n | None => false end.

(** A user literal of the suite, which sets some of the fields. *)
Definition plain_user (email typ : string) (meta : gmap string string) : User :=
  MkUser email typ "" meta 0.

Definition saves (us : list User) : test := (λ u, (CSaveUser u, no_error)) <$> us.
Definition saves_jobs (js : list DeliveryJob) : test := (λ j, (CSaveJob j, no_error)) <$> js.

Section Suite.
(** [time.Now().UTC().Truncate(time.Second)] in the tests of delivery jobs. *)
Variable now : Time.

Definition testNodeRoundTrip : test := [
  (CSaveNode (MkNode "node-1" "" ""), no_error);
  (CGetNode "node-1", node (λ n, eqs (ID n) "node-1"));
  (CGetNode "missing", not_found)].

Definition testDomainRoundTrip : test := [
  (CSaveDomain (MkDomain "example.com" "node-1" false), no_error);
  (CGetDomain "example.com", domain (λ d,
     eqs (Name d) "example.com" && eqs (NodeID d) "node-1" && eqb (IsDefault d) false))].

Definition testDomainNotFound : test := [(CGetDomain "nope.com", not_found)].

Definition testDefaultDomain : test := [
  (CGetDefaultDomain, not_found);
  (CSaveDomain (MkDomain "alpha.com" "n" true), no_error);
  (CGetDefaultDomain, domain (λ d, eqs (Name d) "alpha.com" && IsDefault d))].

Definition testListDomains : test :=
  ((λ name, (CSaveDomain (MkDomain name "n" false), no_error)) <$> ["b.com"; "a.com"; "c.com"]) ++
  [(CListDomains, domains (λ l, len_is 3 l && name_at l 0 "a.com" && name_at l 2 "c.com"))].

Definition testDomainCount : test := [
  (CCountDomains, count 0);
  (CSaveDomain (MkDomain "x.com" "n" false), no_error);
  (CCountDomains, count 1)].

(** [time.Date(2026, 1, 2, 3, 4, 5, 0, time.UTC)] *)
Definition created : Time := (1767323045 + unixToInternal) * Second.

Definition testUserRoundTrip : test := [
  (CSaveUser (MkUser "alice@x.com" "" "" ∅ created), no_error);
  (CGetUser "alice@x.com", user (λ u, eqs (Email u) "alice@x.com" && (CreatedAt u =? created)))].

Definition testUserPublicKeyRoundTrip : test := [
  (CSaveUser (MkUser "bot@x.com" "" "dGVzdGtleQ==" ∅ 0), no_error);
  (CGetUser "bot@x.com", user (λ u, eqs (UPublicKeyB64 u) "dGVzdGtleQ=="))].

Definition testUserTypeRoundTrip : test := [
  (CSaveUser (plain_user "agent@x.com" "agent" ∅), no_error);
  (CGetUser "agent@x.com", user (λ u, eqs (UType u) "agent"))].

Definition testUserMetadataRoundTrip : test := [
  (CSaveUser (plain_user "bob@x.com" "" (<["role" := "admin"]> {["team" := "ops"]})), no_error);
  (CGetUser "bob@x.com", user (λ u,
     eqs (mget (Metadata u) "role") "admin" && eqs (mget (Metadata u) "team") "ops"))].

Definition testUserNotFound : test := [(CGetUser "ghost@x.com", not_found)].

Definition testUserCount : test := [
  (CCountUsers, count 0);
  (CSaveUser (plain_user "u@x.com" "" ∅), no_error);
  (CCountUsers, count 1)].

Definition testUserList : test :=
  saves ((λ e, plain_user e "" ∅) <$> ["c@x.com"; "a@x.com"; "b@x.com"]) ++
  [(CListUsers, users (λ l, len_is 3 l && email_at l 0 "a@x.com" && email_at l 2 "c@x.com"))].

Definition testUserSearchByType : test :=
  saves [plain_user "a@x.com" "agent" ∅; plain_user "b@x.com" "agent" ∅; plain_user "c@x.com" "human" ∅] ++
  [(CSearchUsers {["type" := "agent"]}, users (len_is 2));
   (CSearchUsers {["type" := "human"]}, users (λ l, len_is 1 l && email_at l 0 "c@x.com"))].

Definition testUserSearchByMetadata : test :=
  saves [plain_user "a@x.com" "agent" {["model" := "claude"]};
         plain_user "b@x.com" "agent" {["model" := "gpt"]}; plain_user "c@x.com" "human" ∅] ++
  [(CSearchUsers {["model" := "claude"]}, users (λ l, len_is 1 l && email_at l 0 "a@x.com"));
   (CSearchUsers (<["type" := "agent"]> {["model" := "gpt"]}),
     users (λ l, len_is 1 l && email_at l 0 "b@x.com"))].

Definition testUserSearchSkillsContains : test :=
  saves [plain_user "a@x.com" "" {["skills" := "web-search,image-gen"]};
         plain_user "b@x.com" "" {["skills" := "image-gen"]};
         plain_user "c@x.com" "" {["skills" := "code-review"]}] ++
  [(CSearchUsers {["skills" := "image-gen"]}, users (len_is 2));
   (CSearchUsers {["skills" := "web-search"]}, users (λ l, len_is 1 l && email_at l 0 "a@x.com"))].

Definition testUserSearchEmpty : test :=
  saves ((λ e, plain_user e "" ∅) <$> ["a@x.com"; "b@x.com"]) ++
  [(CSearchUsers ∅, users (len_is 2))].

Definition testSaveNodeIdempotent : test :=
  replicate 3 (CSaveNode (MkNode "node-id" "" ""), no_error).

Definition testSaveNodeRequiresID : test := [(CSaveNode (MkNode "" "" ""), any_error)].

Definition testDeliveryJobRoundTrip : test := [
  (CSaveJob (MkJob "msg-1" "alice@example.com" "https://example.com/webhook" DeliveryPending 0 5
     no_text now None now 0), no_error);
  (CGetJob "msg-1" "alice@example.com", job (λ j,
     eqs (MessageID j) "msg-1" && eqs (RecipientID j) "alice@example.com" &&
     eqs (EndpointURL j) "https://example.com/webhook" && bool_decide (Status j = DeliveryPending)))].

Definition testDeliveryJobUpdate : test := [
  (CSaveJob (MkJob "msg-2" "bob@example.com" "https://example.com/webhook" DeliveryPending 0 3
     no_text now None now 0), no_error);
  (CUpdateJob (MkJob "msg-2" "bob@example.com" "" DeliveryDelivered 1 0
     no_text 0 (Some (now + Minute)) 0 0), no_error);
  (CGetJob "msg-2" "bob@example.com", job (λ j,
     bool_decide (Status j = DeliveryDelivered) && (Attempts j =? 1) &&
     match DeliveredAt j with Some _ => true | None => false end))].

Definition testDeliveryJobNotFound : test := [(CGetJob "nonexistent-msg" "nobody@example.com", not_found)].

Definition pending_job (id : string) (status : DeliveryStatus) (retry : Time) : DeliveryJob :=
  MkJob id "r@example.com" "" status 0 0 no_text retry None now 0.

Definition testDeliveryJobListPending : test :=
  let past := now - Hour in
  let future := now + Hour in
  saves_jobs [pending_job "msg-a" DeliveryPending past;
              pending_job "msg-b" DeliveryFailed (past + 30 * Minute);
              pending_job "msg-c" DeliveryPending future] ++
  [(CListPending now 10, jobs (λ l, len_is 2 l &&
      match l with
      | a :: b :: _ => Before (NextRetryAt a) (NextRetryAt b) || (NextRetryAt a =? NextRetryAt b)
      | _ => false
      end));
   (CListPending now 1, jobs (len_is 1))].

Definition testDeliveryJobListByRecipient : test :=
  saves_jobs [MkJob "msg-1" "alice@example.com" "" DeliveryPending 0 0 no_text now None now 0;
              MkJob "msg-2" "alice@example.com" "" DeliveryPending 0 0 no_text now None (now - Minute) 0;
              MkJob "msg-3" "bob@example.com" "" DeliveryPending 0 0 no_text now None now 0] ++
  [(CListByRecipient "alice@example.com" None, jobs (λ l, len_is 2 l &&
      forallb (λ j, eqs (RecipientID j) "alice@example.com") l));
   (CListByRecipient "alice@example.com" (Some DeliveryDelivered), jobs (len_is 0));
   (CListByRecipient "alice@example.com" None, jobs (len_is 2))].

(** [Run]: every case on a fresh store. *)
Definition cases : list (string * test) := [
  ("NodeRoundTrip", testNodeRoundTrip); ("DomainRoundTrip", testDomainRoundTrip);
  ("DomainNotFound", testDomainNotFound); ("DefaultDomain", testDefaultDomain);
  ("ListDomains", testListDomains); ("DomainCount", testDomainCount);
  ("UserRoundTrip", testUserRoundTrip); ("UserPublicKeyRoundTrip", testUserPublicKeyRoundTrip);
  ("UserTypeRoundTrip", testUserTypeRoundTrip); ("UserMetadataRoundTrip", testUserMetadataRoundTrip);
  ("UserNotFound", testUserNotFound); ("UserCount", testUserCount); ("UserList", testUserList);
  ("UserSearchByType", testUserSearchByType); ("UserSearchByMetadata", testUserSearchByMetadata);
  ("UserSearchSkillsContains", testUserSearchSkillsContains); ("UserSearchEmpty", testUserSearchEmpty);
  ("SaveNodeIdempotent", testSaveNodeIdempotent); ("SaveNodeRequiresID", testSaveNodeRequiresID);
  ("DeliveryJobRoundTrip", testDeliveryJobRoundTrip); ("DeliveryJobUpdate", testDeliveryJobUpdate);
  ("DeliveryJobNotFound", testDeliveryJobNotFound); ("DeliveryJobListPending", testDeliveryJobListPending);
  ("DeliveryJobListByRecipient", testDeliveryJobListByRecipient)].

(** ** Running the suite *)

(** A test on a store: the calls in order while the checks hold. *)
Fixpoint run_test {S} {SO : StoreOps S} (o : MapOrder) (t : test) (s : S) : bool :=
  match t with
  | [] => true
  | (c, ok) :: t' => let '(r, s') := run_call o now c s in ok r && run_test o t' s'
  end.

(** The names of the cases that fail. *)
Definition Run {S} {SO : StoreOps S} (o : MapOrder) (fresh : S) : list string :=
  (filter (λ c : string * test, run_test o c.2 fresh = false) cases).*1.

End Suite.

(** ** The order of map iteration *)

(** No two jobs of a listing have the same sort key. *)
Definition tie_free (c : call) (m : MemStore.Store) : bool :=
  let rows (p : DeliveryJob → bool) := filter (λ j, p j = true) (range_values some_order (MemStore.deliveryJobs m)) in
  match c with
  | CListPending before _ => bool_decide (NoDup (NextRetryAt <$> rows (MemStore.due before)))
  | CListByRecipient recipient status =>
      bool_decide (NoDup (JCreatedAt <$> rows (MemStore.job_of recipient status)))
  | _ => true
  end.

Lemma filter_values_perm o1 o2 {V} (p : V → bool) {K} `{Countable K} (m : gmap K V) :
  filter (λ v, p v = true) (range_values o1 m) ≡ₚ filter (λ v, p v = true) (range_values o2 m).
Proof. unfold range_values. by rewrite !range_perm. Qed.

Lemma job_sort_order (f : DeliveryJob → Time) less `{!StrictWeak less} (o : MapOrder) (p : DeliveryJob → bool) (m : gmap (string * string) DeliveryJob) :
  (∀ a b, less a b = false → less b a = false → f a = f b) →
  NoDup (f <$> filter (λ j, p j = true) (range_values some_order m)) →
  sortSlice less (filter (λ j, p j = true) (range_values o m)) =
  sortSlice less (filter (λ j, p j = true) (range_values some_order m)).
Proof.
  intros Hf Hnd. symmetry. apply (sortSlice_determined _); [apply filter_values_perm|].
  intros x y Hx Hy H1 H2. eapply fmap_inj_elem; eauto.
Qed.

Lemma call_order o now c m : MemStore.wf m → tie_free c m = true →
  run_call (SO := MemStore.ops) o now c m = run_call (SO := MemStore.ops) some_order now c m.
Proof.
  intros Hwf Ht. destruct c; try done; simpl in *; do 2 f_equal.
  - by apply MemStore.GetDefaultDomain_order.
  - unfold MemStore.ListDomains. f_equal.
    rewrite <-(MemStore.filter_true (range_values o _)), <-(MemStore.filter_true (range_values some_order _)).
    apply (MemStore.sorted_values_unique Name), Hwf.
  - unfold MemStore.ListUsers. f_equal.
    rewrite <-(MemStore.filter_true (range_values o _)), <-(MemStore.filter_true (range_values some_order _)).
    apply (MemStore.sorted_values_unique Email), Hwf.
  - unfold MemStore.SearchUsers. f_equal.
    rewrite (filter_ext_bool (λ u, UserMatchesFilters o u filters) (λ u, UserMatchesFilters some_order u filters)).
    { apply (MemStore.sorted_values_unique Email), Hwf. }
    intros u _. apply eq_bool_prop_intro. by rewrite !Is_true_true, !UserMatchesFilters_spec.
  - unfold MemStore.ListPendingDeliveryJobs. apply bool_decide_eq_true in Ht. do 2 f_equal.
    apply (job_sort_order NextRetryAt); [apply _| |done]. unfold Before. intros a b. lia.
  - unfold MemStore.ListDeliveryJobsByRecipient. apply bool_decide_eq_true in Ht. f_equal.
    apply (job_sort_order JCreatedAt); [apply _| |done]. unfold After. intros a b. lia.
Qed.

Fixpoint tie_free_test (now : Time) (t : test) (m : MemStore.Store) : bool :=
  match t with
  | [] => true
  | (c, _) :: t' => tie_free c m && tie_free_test now t' (run_call (SO := MemStore.ops) some_order now c m).2
  end.

Lemma wf_call o now c m : MemStore.wf m → MemStore.wf (run_call (SO := MemStore.ops) o now c m).2.
Proof.
  intros Hwf. destruct c; simpl; auto using MemStore.wf_SaveNode, MemStore.wf_SaveDomain,
    MemStore.wf_SaveUser, MemStore.wf_SaveDeliveryJob, MemStore.wf_UpdateDeliveryJob.
Qed.

Lemma run_test_order o now t m : MemStore.wf m → tie_free_test now t m = true →
  run_test now (SO := MemStore.ops) o t m = run_test now (SO := MemStore.ops) some_order t m.
Proof.
  revert m. induction t as [|[c ok] t IH]; intros m Hwf Ht; [done|]. simpl in *.
  apply andb_true_iff in Ht as [Hc Ht]. rewrite (call_order o) by done.
  pose proof (wf_call some_order now c m Hwf) as Hwf'.
  destruct (run_call some_order now c m) as [r m']. f_equal. by apply IH.
Qed.

(** The clock of the runs below: 2026-01-02 03:04:05 UTC. *)
Definition clock : Time := created.

Lemma suite_tie_free : forallb (λ c, tie_free_test clock c.2 MemStore.New) (cases clock) = true.
Proof. vm_compute. reflexivity. Qed.

Lemma Run_order o : Run clock (SO := MemStore.ops) o MemStore.New = Run clock (SO := MemStore.ops) some_order MemStore.New.
Proof.
  unfold Run. f_equal. pose proof suite_tie_free as Ht. rewrite forallb_elem in Ht.
  induction (cases clock) as [|c cs IH]; [done|]. rewrite !filter_cons, IH by (intros; apply Ht; set_solver).
  by rewrite (run_test_order o) by (apply MemStore.wf_new || (apply Ht; set_solver)).
Qed.

