(* ===== verification/Registry.v ===== *)
(** * Routing: the local, Redis and fallback registries, the node resolvers

    Models [internal/registry/registry.go], [internal/registry/local/registry.go],
    [internal/registry/redis/registry.go] and [internal/relay/registry.go].
    A registry is described by how it is built ([Registry]); it works on the
    node's environment: the Redis server shared by the cluster and the node's own
    store. The Redis server and the JSON encoding of route entries are parameters
    ([RedisOps], [RouteCodec]) with their documented behaviour as laws. *)
From S2P Require Import Prelude GoStrings.
From S2P Require Import Store MemStore.
From Stdlib Require Import Ascii.
Local Open Scope Z_scope.

(** ** Entities *)

Inductive EntityType : Set := EntityDomain | EntityUser | EntityOther (name : string).

Record Entity := MkEntity {
  EType : EntityType;
  EName : string;
  EIsDefault : bool;
  EUserType : string;
  EMetadata : gmap string string }.

Definition RegistryNotFound : error := ESentinel ErrRegistryNotFound.

(** ** The Redis server

    [rGet] returns [Ok None] for [redis.Nil]. [rSet] takes the expiration, [0]
    for none. [rview] is the keyspace: each value with its expiry time. *)
Class RedisOps (R : Type) := {
  rGet : Time → string → R → result (option string);
  rSet : Time → string → string → Duration → R → result unit * R;
  rview : R → gmap string (string * option Time) }.

Definition expiry (now : Time) (ttl : Duration) : option Time :=
  if 0 <? ttl then Some (now + ttl) else None.

Definition alive (now : Time) (e : option Time) : bool :=
  match e with None => true | Some t => now <? t end.

Definition live (now : Time) (m : gmap string (string * option Time)) (k : string) : option string :=
  match m !! k with
  | Some (v, e) => if alive now e then Some v else None
  | None => None
  end.

(** A successful read returns the live value, a successful write replaces the
    entry of its key only, and a write that reports an error may or may not have
    been applied. *)
Class RedisLaws (R : Type) `{RedisOps R} := {
  rGet_ok : ∀ now k r v, rGet now k r = Ok v → v = live now (rview r) k;
  rSet_ok : ∀ now k v ttl r r', rSet now k v ttl r = (Ok (), r') →
    rview r' = <[k := (v, expiry now ttl)]> (rview r);
  rSet_err : ∀ now k v ttl r e r', rSet now k v ttl r = (Err e, r') →
    rview r' = rview r ∨ rview r' = <[k := (v, expiry now ttl)]> (rview r) }.

(** The server answers every command. *)
Definition available `{RedisOps R} (r : R) : Prop := ∀ now k, ∃ v, rGet now k r = Ok v.

(** ** Route entries *)

Record routeEntry := MkRoute { RNodeID : string; RAddress : string }.

(** [json.Marshal] and [json.Unmarshal] on a [routeEntry]. *)
Class RouteCodec := {
  marshal_route : routeEntry → string;
  unmarshal_route : string → option routeEntry;
  route_roundtrip : ∀ e, isASCII (RNodeID e) = true → isASCII (RAddress e) = true →
    unmarshal_route (marshal_route e) = Some e }.

Definition domainKeyPrefix : string := "postbox:route:domain:".
Definition defaultDomainKey : string := "postbox:default_domain".
Definition nodeKeyPrefix : string := "postbox:node:".
Definition HeartbeatTTL : Duration := 30 * Second.

(** The domain part of a target: what follows the first ["@"], or all of it. *)
Definition domain_part (target : string) : string :=
  match CutByte "@" target with Some (_, d) => d | None => target end.

(** ** The registries and resolvers a controller builds *)

Inductive Registry : Type :=
| LocalRegistry (nodeID : string)
| RedisRegistry (nodeID address : string)
| FallbackRegistry (inner : Registry) (relayNodeID : string).

Inductive NodeResolver : Type :=
| RedisResolver (nodeID address : string)
| StaticResolver (entries : gmap string string) (base : option NodeResolver).

Record Env (R S : Type) := MkEnv { redis : R; store : S }.
Arguments MkEnv {R S} _ _.
Arguments redis {R S} _.
Arguments store {R S} _.

(** ** The local registry *)

Module Local.
Section Local.
Context {S : Type} {SO : StoreOps S}.

Definition Lookup (o : MapOrder) (target : string) (s : S) : result string :=
  let step1 :=
    if ContainsByte "@" target then
      match GetUser target s with
      | Ok _ => match CutByte "@" target with
                | Some (_, dom) => match GetDomain dom s with
                                   | Ok d => Some (NodeID d)
                                   | Err _ => None
                                   end
                | None => None
                end
      | Err _ => None
      end
    else None in
  match step1 with
  | Some n => Ok n
  | None =>
      match GetDomain (domain_part target) s with
      | Ok d => Ok (NodeID d)
      | Err _ => match GetDefaultDomain o s with
                 | Ok def => Ok (NodeID def)
                 | Err _ => Err RegistryNotFound
                 end
      end
  end.

Definition Register (nodeID : string) (now : Time) (e : Entity) (s : S) : result unit * S :=
  match EType e with
  | EntityDomain => SaveDomain (MkDomain (EName e) nodeID (EIsDefault e)) s
  | EntityUser => SaveUser now (MkUser (EName e) (EUserType e) "" (EMetadata e) now) s
  | EntityOther t => (Err (EText (Text "registry: unsupported entity type %q" [AStr t])), s)
  end.

End Local.
End Local.

(** ** The Redis registry *)

Module Redis.
Section Redis.
Context {R S : Type} {SO : StoreOps S} {RO : RedisOps R} {RC : RouteCodec}.

Definition getDomainRoute (now : Time) (domain : string) (r : R) : result routeEntry :=
  match rGet now (domainKeyPrefix +:+ domain) r with
  | Err e => Err e
  | Ok None => Err RegistryNotFound
  | Ok (Some data) =>
      match unmarshal_route data with
      | Some entry => Ok entry
      | None => Err (EText (Text "redis registry: unmarshal domain route: %w" []))
      end
  end.

Definition Lookup (now : Time) (target : string) (r : R) : result string :=
  let domain := domain_part target in
  match getDomainRoute now domain r with
  | Ok entry => Ok (RNodeID entry)
  | Err _ =>
      match rGet now defaultDomainKey r with
      | Ok (Some defaultName) =>
          if bool_decide (defaultName = domain) then Err RegistryNotFound
          else match getDomainRoute now defaultName r with
               | Ok entry => Ok (RNodeID entry)
               | Err _ => Err RegistryNotFound
               end
      | _ => Err RegistryNotFound
      end
  end.

(** Writes to Redis first, then to the node's own store. *)
Definition Register (nodeID address : string) (now : Time) (e : Entity) (env : Env R S)
    : result unit * Env R S :=
  match EType e with
  | EntityDomain =>
      match rSet now (domainKeyPrefix +:+ EName e) (marshal_route (MkRoute nodeID address)) 0
              (redis env) with
      | (Err err, r1) =>
          (Err (EWrap (Text "redis registry: set domain route: %w" []) err), MkEnv r1 (store env))
      | (Ok _, r1) =>
          match (if EIsDefault e then rSet now defaultDomainKey (EName e) 0 r1 else (Ok (), r1)) with
          | (Err err, r2) =>
              (Err (EWrap (Text "redis registry: set default domain: %w" []) err), MkEnv r2 (store env))
          | (Ok _, r2) =>
              let (res, s') := SaveDomain (MkDomain (EName e) nodeID (EIsDefault e)) (store env) in
              (res, MkEnv r2 s')
          end
      end
  | EntityUser =>
      let (res, s') := SaveUser now (MkUser (EName e) (EUserType e) "" (EMetadata e) 0) (store env) in
      (res, MkEnv (redis env) s')
  | EntityOther t =>
      (Err (EText (Text "redis registry: unsupported entity type %q" [AStr t])), env)
  end.

Definition ResolveNode (self address : string) (now : Time) (nodeID : string) (r : R) : result string :=
  if bool_decide (nodeID = self) then Ok address
  else match rGet now (nodeKeyPrefix +:+ nodeID) r with
       | Ok (Some addr) => Ok addr
       | Ok None => Err RegistryNotFound
       | Err err => Err (EWrap (Text "redis registry: resolve node %q: %w" [AStr nodeID]) err)
       end.

Definition Announce (self address : string) (now : Time) (r : R) : result unit * R :=
  rSet now (nodeKeyPrefix +:+ self) address HeartbeatTTL r.

End Redis.
End Redis.

(** ** Composition: dispatch of the [Registry] and [NodeResolver] interfaces *)

Section Dispatch.
Context {R S : Type} {SO : StoreOps S} {RO : RedisOps R} {RC : RouteCodec}.

Fixpoint Lookup (now : Time) (o : MapOrder) (reg : Registry) (target : string) (env : Env R S)
    : result string :=
  match reg with
  | LocalRegistry _ => Local.Lookup o target (store env)
  | RedisRegistry _ _ => Redis.Lookup now target (redis env)
  | FallbackRegistry inner relayNodeID =>
      match Lookup now o inner target env with
      | Ok n => Ok n
      | Err err => if errors_Is err ErrRegistryNotFound then Ok relayNodeID else Err err
      end
  end.

Fixpoint Register (now : Time) (reg : Registry) (e : Entity) (env : Env R S)
    : result unit * Env R S :=
  match reg with
  | LocalRegistry nodeID =>
      let (res, s') := Local.Register nodeID now e (store env) in (res, MkEnv (redis env) s')
  | RedisRegistry nodeID address => Redis.Register nodeID address now e env
  | FallbackRegistry inner _ => Register now inner e env
  end.

Fixpoint ResolveNode (now : Time) (res : NodeResolver) (nodeID : string) (env : Env R S)
    : result string :=
  match res with
  | RedisResolver self address => Redis.ResolveNode self address now nodeID (redis env)
  | StaticResolver entries base =>
      match entries !! nodeID with
      | Some addr => Ok addr
      | None => match base with
                | Some b => ResolveNode now b nodeID env
                | None => Err RegistryNotFound
                end
      end
  end.

(** [reg.(registry.NodeResolver)]: only the Redis registry implements it. *)
Definition as_resolver (reg : Registry) : option NodeResolver :=
  match reg with
  | RedisRegistry nodeID address => Some (RedisResolver nodeID address)
  | _ => None
  end.

End Dispatch.

(** ** Lemmas *)

Lemma domain_part_at user dom : CutByte "@" user = None → domain_part (user +:+ String "@" dom) = dom.
Proof. intros H. unfold domain_part. by rewrite CutByte_app. Qed.

Lemma domain_key_ne_default name : domainKeyPrefix +:+ name ≠ defaultDomainKey.
Proof. intros H. apply (f_equal (drop_bytes 8)) in H. discriminate H. Qed.

Lemma live_insert now k v e m k' :
  live now (<[k := (v, e)]> m) k' =
    if decide (k = k') then if alive now e then Some v else None else live now m k'.
Proof. unfold live. rewrite lookup_insert. by case_decide. Qed.

Section RedisLemmas.
Context {R S : Type} {SO : StoreOps S} {RO : RedisOps R} {RL : RedisLaws R} {RC : RouteCodec}.

Lemma available_get r now k : available r → rGet now k r = Ok (live now (rview r) k).
Proof. intros Hr. destruct (Hr now k) as [v Hv]. by rewrite Hv, <-(rGet_ok _ _ _ _ Hv). Qed.

(** What Redis holds after a registration that succeeded. *)
Lemma Register_domain_view self address now e env env' :
  EType e = EntityDomain → Redis.Register self address now e env = (Ok (), env') →
  let routed := <[domainKeyPrefix +:+ EName e := (marshal_route (MkRoute self address), None)]>
                  (rview (redis env)) in
  rview (redis env') =
    (if EIsDefault e then <[defaultDomainKey := (EName e, None)]> routed else routed).
Proof.
  intros He. unfold Redis.Register. rewrite He.
  destruct (rSet _ _ _ _ _) as [[[]|] r1] eqn:E1; [|done]. apply rSet_ok in E1. cbn in E1.
  destruct (EIsDefault e).
  - destruct (rSet _ _ _ _ r1) as [[[]|] r2] eqn:E2; [|done]. apply rSet_ok in E2. cbn in E2.
    destruct (SaveDomain _ _). intros [= _ <-]. cbn. by rewrite E2, E1.
  - destruct (SaveDomain _ _). by intros [= _ <-].
Qed.

Lemma getDomainRoute_hit now domain r entry e : available r →
  isASCII (RNodeID entry) = true → isASCII (RAddress entry) = true →
  rview r !! (domainKeyPrefix +:+ domain) = Some (marshal_route entry, e) → alive now e = true →
  Redis.getDomainRoute now domain r = Ok entry.
Proof.
  intros Hr Ha1 Ha2 Hk He. unfold Redis.getDomainRoute.
  rewrite available_get by done. unfold live. rewrite Hk, He. by rewrite route_roundtrip.
Qed.

Lemma getDomainRoute_miss now domain r : available r →
  rview r !! (domainKeyPrefix +:+ domain) = None → Redis.getDomainRoute now domain r = Err RegistryNotFound.
Proof.
  intros Hr Hk. unfold Redis.getDomainRoute. rewrite available_get by done. unfold live. by rewrite Hk.
Qed.

(** The route of a registered domain is read back. *)
Lemma Register_domain_route self address now e env env' :
  EType e = EntityDomain → isASCII self = true → isASCII address = true →
  Redis.Register self address now e env = (Ok (), env') → available (redis env') →
  ∀ now', Redis.getDomainRoute now' (EName e) (redis env') = Ok (MkRoute self address).
Proof.
  intros He Hs Ha Hreg Hav now'. apply (getDomainRoute_hit _ _ _ _ None); try done.
  rewrite (Register_domain_view _ _ _ _ _ _ He Hreg).
  destruct (EIsDefault e); [rewrite lookup_insert_ne by (intros Hk; by apply (domain_key_ne_default (EName e)))|];
    apply lookup_insert_eq.
Qed.

End RedisLemmas.

(** The only error a base registry's [Lookup] reports is [ErrNotFound]. *)
Lemma Lookup_base_error {R S : Type} {SO : StoreOps S} {RO : RedisOps R} {RC : RouteCodec} now o reg target (env : Env R S) err :
  match reg with FallbackRegistry _ _ => False | _ => True end →
  Lookup now o reg target env = Err err → err = RegistryNotFound.
Proof.
  destruct reg; simpl; [| |done]; intros _.
  - unfold Local.Lookup. repeat case_match; naive_solver.
  - unfold Redis.Lookup. repeat case_match; naive_solver.
Qed.

(** Registering a user writes to the node's store only, whatever the registry. *)
Lemma Register_user {R S : Type} {SO : StoreOps S} {RO : RedisOps R} {RC : RouteCodec} now reg e (env env' : Env R S) r :
  EType e = EntityUser → Register now reg e env = (r, env') →
  redis env' = redis env ∧
  ∃ created, SaveUser now (MkUser (EName e) (EUserType e) "" (EMetadata e) created) (store env) = (r, store env').
Proof.
  intros He. induction reg as [n|n a|inner IH n]; simpl; [| |exact IH].
  - unfold Local.Register. rewrite He. destruct (SaveUser _ _ _) as [r' s'] eqn:E. intros [= <- <-]. simpl. eauto.
  - unfold Redis.Register. rewrite He. destruct (SaveUser _ _ _) as [r' s'] eqn:E. intros [= <- <-]. simpl. eauto.
Qed.

(** Registering a domain files it in the node's store under the registering node. *)
Lemma Register_domain_store {R S : Type} {SO : StoreOps S} {RO : RedisOps R} {RC : RouteCodec} now reg e (env env' : Env R S) :
  EType e = EntityDomain → Register now reg e env = (Ok (), env') →
  ∃ n, SaveDomain (MkDomain (EName e) n (EIsDefault e)) (store env) = (Ok (), store env') ∧
    ∀ self addr, reg = LocalRegistry self ∨ reg = RedisRegistry self addr → n = self.
Proof.
  intros He. induction reg as [n|n a|inner IH n]; simpl.
  - unfold Local.Register. rewrite He. destruct (SaveDomain _ _) as [r' s'] eqn:E. intros [= -> <-]. simpl.
    exists n. split; [done|naive_solver].
  - unfold Redis.Register. rewrite He. destruct (rSet _ _ _ _ _) as [[[]|] r1]; [|done].
    destruct (if EIsDefault e then _ else _) as [[[]|] r2]; [|done].
    destruct (SaveDomain _ _) as [r' s'] eqn:E. intros [= -> <-]. simpl. exists n. split; [done|naive_solver].
  - intros H. destruct (IH H) as (m & Hm & _). exists m. split; [done|naive_solver].
Qed.

(** ** Properties *)

(** A registered domain answers for its addresses. *)
Lemma Local_Lookup_hit {S : Type} {SO : StoreOps S} o target (s : S) d :
  GetDomain (domain_part target) s = Ok d → Local.Lookup o target s = Ok (NodeID d).
Proof.
  intros Hd. unfold Local.Lookup, ContainsByte. rewrite Hd. unfold domain_part in Hd.
  destruct (CutByte "@" target) as [[u dom]|]; [|done]. destruct (GetUser target s); [|done]. by rewrite Hd.
Qed.

(** The three tiers of the local [Lookup] amount to two: the owner of the
    domain part of the target if that domain is registered, else the owner of
    the default domain, else [ErrNotFound]. Whether the user is registered makes
    no difference. *)
Theorem local_Lookup_tiers {S : Type} {SO : StoreOps S} o target (s : S) :
  Local.Lookup o target s =
    match GetDomain (domain_part target) s with
    | Ok d => Ok (NodeID d)
    | Err _ => match GetDefaultDomain o s with
               | Ok def => Ok (NodeID def)
               | Err _ => Err RegistryNotFound
               end
    end.
Proof.
  unfold Local.Lookup, ContainsByte. unfold domain_part.
  destruct (CutByte "@" target) as [[u dom]|]; [|done].
  destruct (GetUser target s); [|done]. by destruct (GetDomain dom s).
Qed.

(** Round trip through Redis: once a node has registered a domain, every
    peer's [Lookup] of that domain, or of any address in it, answers that node at
    any later time; registered as the default, it also answers for every address
    whose domain has no route. *)
Theorem redis_Register_Lookup {R S : Type} {SO : StoreOps S} {RO : RedisOps R} {RL : RedisLaws R} {RC : RouteCodec}
    self address now e (env env' : Env R S) :
  EType e = EntityDomain → isASCII self = true → isASCII address = true →
  Redis.Register self address now e env = (Ok (), env') → available (redis env') →
  (∀ now' target, domain_part target = EName e → Redis.Lookup now' target (redis env') = Ok self) ∧
  (EIsDefault e = true → ∀ now' target,
     rview (redis env') !! (domainKeyPrefix +:+ domain_part target) = None →
     Redis.Lookup now' target (redis env') = Ok self).
Proof.
  intros He Hs Ha Hreg Hav. pose proof (Register_domain_view _ _ _ _ _ _ He Hreg) as Hv. cbn zeta in Hv.
  pose proof (Register_domain_route _ _ _ _ _ _ He Hs Ha Hreg Hav) as Hroute.
  split.
  - intros now' target Ht. unfold Redis.Lookup. by rewrite Ht, Hroute.
  - intros Hd now' target Hk. unfold Redis.Lookup. rewrite getDomainRoute_miss by done.
    rewrite available_get by done. rewrite Hv, Hd. unfold live. rewrite lookup_insert_eq. simpl.
    case_bool_decide as Hb; [|by rewrite Hroute].
    rewrite <-Hb in Hk. rewrite Hv, Hd, lookup_insert_ne, lookup_insert_eq in Hk; [done|].
    intros Hk'. by apply (domain_key_ne_default (EName e)).
Qed.

(** Heartbeat: an announced node is resolved to its address by every peer
    until [HeartbeatTTL] after the announcement and not from then on; itself it
    resolves without Redis. *)
Theorem redis_Announce_ResolveNode {R : Type} {RO : RedisOps R} {RL : RedisLaws R} self address t (r r' : R) :
  Redis.Announce self address t r = (Ok (), r') → available r' →
  ∀ peer paddr now,
    Redis.ResolveNode peer paddr now self r' =
      if bool_decide (self = peer) then Ok paddr
      else if now <? t + HeartbeatTTL then Ok address else Err RegistryNotFound.
Proof.
  intros Ha%rSet_ok Hav peer paddr now. unfold Redis.ResolveNode. case_bool_decide; [done|].
  rewrite available_get by done. rewrite Ha, live_insert, decide_True by done. simpl.
  by destruct (now <? _).
Qed.

(** With an outbound relay configured every recipient has a route: the
    fallback registry around a local or Redis registry never fails, answers what
    the inner one answers, and answers the relay node exactly where the inner
    one finds nothing. *)
Theorem fallback_Lookup_total {R S : Type} {SO : StoreOps S} {RO : RedisOps R} {RC : RouteCodec}
    now o inner relayNodeID target (env : Env R S) :
  match inner with FallbackRegistry _ _ => False | _ => True end →
  Lookup now o (FallbackRegistry inner relayNodeID) target env =
    match Lookup now o inner target env with Ok n => Ok n | Err _ => Ok relayNodeID end.
Proof.
  intros Hb. simpl. destruct (Lookup now o inner target env) as [n|err] eqn:E; [done|].
  by rewrite (Lookup_base_error _ _ _ _ _ _ Hb E).
Qed.

(** ** A Redis server in memory, and witnesses *)

Module RedisMem.

Definition ops : RedisOps (gmap string (string * option Time)) := {|
  rGet now k m := Ok (live now m k);
  rSet now k v ttl m := (Ok (), <[k := (v, expiry now ttl)]> m);
  rview m := m |}.

Definition laws : @RedisLaws _ ops.
Proof. split; simpl; intros; by simplify_eq. Defined.

Lemma available_all (m : gmap string (string * option Time)) : @available _ ops m.
Proof. intros now k. simpl. eauto. Qed.

(** A length-prefixed encoding of route entries. *)
Fixpoint prefixed (n : nat) (rest : string) : string :=
  match n with 0%nat => String "." rest | Datatypes.S n' => String "1" (prefixed n' rest) end.

Fixpoint prefix_length (s : string) : option (nat * string) :=
  match s with
  | String "1" s' => match prefix_length s' with Some (n, r) => Some (Datatypes.S n, r) | None => None end
  | String "." s' => Some (0%nat, s')
  | _ => None
  end.

Lemma prefix_length_prefixed n s : prefix_length (prefixed n s) = Some (n, s).
Proof. induction n as [|n IH]; simpl; [done|]. by rewrite IH. Qed.

Lemma take_drop_bytes s t :
  take_bytes (String.length s) (s +:+ t) = s ∧ drop_bytes (String.length s) (s +:+ t) = t.
Proof.
  induction s as [|c s [IH1 IH2]]; [done|].
  split; [change (String c (take_bytes (String.length s) (s +:+ t)) = String c s); by rewrite IH1 | exact IH2].
Qed.

Definition codec : RouteCodec.
Proof.
  refine {|
    marshal_route e := prefixed (String.length (RNodeID e)) (RNodeID e +:+ RAddress e);
    unmarshal_route s := match prefix_length s with
                         | Some (n, r) => Some (MkRoute (take_bytes n r) (drop_bytes n r))
                         | None => None
                         end |}.
  intros [n a] _ _. simpl. rewrite prefix_length_prefixed.
  destruct (take_drop_bytes n a) as [-> ->]. done.
Defined.

End RedisMem.

(** A cluster of two nodes: node ["n1"] registers a default domain and announces
    itself. *)
#[local] Existing Instances MemStore.ops RedisMem.ops RedisMem.laws RedisMem.codec.

Definition demo_env : Env (gmap string (string * option Time)) MemStore.Store :=
  MkEnv ∅ MemStore.New.

Definition demo_entity : Entity := MkEntity EntityDomain "example.ai" true "" ∅.

Definition demo_registered : Env (gmap string (string * option Time)) MemStore.Store :=
  (Redis.Register
     "n1" "host1:50051" 100 demo_entity demo_env).2.

Lemma redis_Register_Lookup_witness :
  Redis.Lookup 5000 "bob@example.ai" (redis demo_registered) = Ok "n1" ∧
  Redis.Lookup 5000 "bob@else.org" (redis demo_registered) = Ok "n1".
Proof.
  destruct (redis_Register_Lookup
    "n1" "host1:50051" 100 demo_entity demo_env demo_registered) as [H1 H2];
    [reflexivity.. | apply RedisMem.available_all |].
  split; [apply H1; reflexivity | apply H2; reflexivity].
Defined.

Lemma redis_Announce_ResolveNode_witness :
  Redis.ResolveNode "n2" "host2:50051" (100 + HeartbeatTTL) "n1"
    (Redis.Announce "n1" "host1:50051" 100 ∅).2 = Err RegistryNotFound.
Proof.
  rewrite (redis_Announce_ResolveNode "n1" "host1:50051" 100 ∅
    (Redis.Announce "n1" "host1:50051" 100 ∅).2);
    [reflexivity.. | apply RedisMem.available_all].
Defined.

Lemma fallback_Lookup_total_witness :
  Lookup 0 some_order
    (FallbackRegistry (LocalRegistry "n1") "outbound") "bob@else.org" demo_env = Ok "outbound".
Proof.
  rewrite (fallback_Lookup_total); [reflexivity | exact I].
Defined.
