(* ===== verification/Forwarder.v ===== *)
(** * The forwarding interceptor

    Models [internal/forwarder/forwarder.go]: classification of the recipients of
    a [SendMessage] call, forwarding to the owning nodes over pooled connections,
    and local delivery of the rest. What the node does to the outside (dialing,
    remote calls, the local handler) is a history of calls with their outcomes;
    the outcome of the next call is given by [net], an arbitrary function of the
    history, so every behaviour of the network is covered. *)
From S2P Require Import Prelude GoStrings.
Local Open Scope Z_scope.

(** The fields of [mailboxpb.SendMessageRequest] the program reads or writes. *)
Record SendMessageRequest := MkReq {
  UserId : string;
  RecipientIds : list string;
  DeliverTo : list string;
  Subject : string;
  Body : string;
  Headers : gmap string string }.

Definition with_RecipientIds (l : list string) (r : SendMessageRequest) : SendMessageRequest :=
  MkReq (UserId r) l (DeliverTo r) (Subject r) (Body r) (Headers r).

Definition with_DeliverTo (l : list string) (r : SendMessageRequest) : SendMessageRequest :=
  MkReq (UserId r) (RecipientIds r) l (Subject r) (Body r) (Headers r).

(** [status.Code(err)] *)
Definition status_Code (e : error) : code :=
  match e with EStatus c _ => c | _ => OtherCode end.

Definition sendMessageMethod : string := "/mailbox.v1.MailboxService/SendMessage".

Module Forwarder.

(** Effects of the node, in order, each with its outcome. *)
Inductive Call : Type :=
| CDial (addr : string)
| CClose (addr : string)
| CSend (addr : string) (req : SendMessageRequest)
| CLocal (req : SendMessageRequest).

(** A node: its ID and the two routing functions ([reg.Lookup] and
    [resolver.ResolveNode]) as they answer during the call. *)
Record Forwarder := MkForwarder {
  nodeID : string;
  Lookup : string → result string;
  ResolveNode : string → result string }.

(** The connection pool and the history of effects. *)
Record State := MkState {
  conns : gset string;
  history : list (Call * result unit) }.

Section Forwarder.
Variable net : list (Call * result unit) → Call → result unit.

(** Perform an effect. *)
Definition call (c : Call) (st : State) : result unit * State :=
  let res := net (history st) c in
  (res, MkState (conns st) (history st ++ [(c, res)])).

Definition dial (addr : string) (st : State) : result unit * State :=
  if bool_decide (addr ∈ conns st) then (Ok (), st)
  else match call (CDial addr) st with
       | (Err e, st') => (Err e, st')
       | (Ok _, st') => (Ok (), MkState ({[addr]} ∪ conns st') (history st'))
       end.

Definition evict (addr : string) (st : State) : State :=
  if bool_decide (addr ∈ conns st) then
    let st' := (call (CClose addr) st).2 in
    MkState (conns st' ∖ {[addr]}) (history st')
  else st.

Definition forward (req : SendMessageRequest) (addr : string) (recipients : list string)
    (st : State) : result unit * State :=
  match dial addr st with
  | (Err e, st1) => (Err (EWrap (Text "dial %s: %w" [AStr addr]) e), st1)
  | (Ok _, st1) =>
      let fwd := with_DeliverTo recipients req in
      match call (CSend addr fwd) st1 with
      | (Err e, st2) =>
          let st3 := if bool_decide (status_Code e = Unavailable) then evict addr st2 else st2 in
          (Err (EWrap (Text "forward to %s: %w" [AStr addr]) e), st3)
      | (Ok _, st2) => (Ok (), st2)
      end
  end.

(** One recipient of the classification loop. *)
Definition classify1 (f : Forwarder) (acc : gmap string (list string) * list string)
    (recipID : string) : gmap string (list string) * list string :=
  let '(remoteByAddr, localRecipients) := acc in
  match Lookup f recipID with
  | Err _ => (remoteByAddr, localRecipients ++ [recipID])
  | Ok owner =>
      if bool_decide (owner = nodeID f) then (remoteByAddr, localRecipients ++ [recipID])
      else match ResolveNode f owner with
           | Err _ => (remoteByAddr, localRecipients ++ [recipID])
           | Ok addr =>
               (<[addr := default [] (remoteByAddr !! addr) ++ [recipID]]> remoteByAddr,
                localRecipients)
           end
  end.

Definition classify (f : Forwarder) (recips : list string)
    : gmap string (list string) * list string :=
  foldl (classify1 f) (∅, []) recips.

(** One remote node of the forwarding loop: its recipients fall back to local
    delivery when forwarding fails. *)
Definition forward1 (req : SendMessageRequest) (acc : list string * State)
    (remote : string * list string) : list string * State :=
  let '(localRecipients, st) := acc in
  match forward req remote.1 remote.2 st with
  | (Ok _, st') => (localRecipients, st')
  | (Err _, st') => (localRecipients ++ remote.2, st')
  end.

Definition handle (o : MapOrder) (f : Forwarder) (req : SendMessageRequest) (st : State)
    : result unit * State :=
  let '(remoteByAddr, localRecipients0) := classify f (RecipientIds req) in
  let '(localRecipients, st1) :=
    foldl (forward1 req) (localRecipients0, st) (range o remoteByAddr) in
  match localRecipients with
  | [] => (Ok (), st1)                       (* a synthetic response *)
  | _ => call (CLocal (with_RecipientIds localRecipients req)) st1
  end.

(** The unary interceptor: other methods go straight to the handler. *)
Definition Interceptor (o : MapOrder) (f : Forwarder) (FullMethod : string)
    (req : SendMessageRequest) (st : State) : result unit * State :=
  if negb (bool_decide (FullMethod = sendMessageMethod)) then call (CLocal req) st
  else handle o f req st.

(** Closes every pooled connection. *)
Definition Close (o : MapOrder) (st : State) : State :=
  foldl (λ st e, let st' := (call (CClose e.1) st).2 in
                 MkState (conns st' ∖ {[e.1]}) (history st'))
    st (range o (gset_to_gmap () (conns st))).

(** ** Lemmas *)

(** Closing leaves the pool empty. *)
Lemma Close_conns o st : conns (Close o st) = ∅.
Proof.
  unfold Close. set (l := range o _).
  assert (∀ a, a ∈ conns st → a ∈ l.*1) as Hl.
  { intros a Ha. apply list_elem_of_fmap. exists (a, ()). split; [done|]. apply elem_of_range.
    by apply lookup_gset_to_gmap_Some. }
  clearbody l. revert st Hl. induction l as [|[a []] l IH]; intros st Hl; simpl.
  - apply set_eq. intros a. split; [intros Ha; apply Hl in Ha; by apply elem_of_nil in Ha|set_solver].
  - apply IH. simpl. intros b Hb. apply elem_of_difference in Hb as [Hb Hne].
    apply Hl in Hb. simpl in Hb. set_solver.
Qed.


(** The recipients an entry of the history delivers to. *)
Definition delivered (e : Call * result unit) : list string :=
  match e with
  | (CSend _ r, Ok _) => DeliverTo r
  | (CLocal r, _) => RecipientIds r
  | _ => []
  end.

Definition delivered_all (h : list (Call * result unit)) : list string := h ≫= delivered.

Lemma delivered_all_app h1 h2 : delivered_all (h1 ++ h2) = delivered_all h1 ++ delivered_all h2.
Proof. apply bind_app. Qed.

Lemma delivered_all_one e : delivered_all [e] = delivered e.
Proof. unfold delivered_all. simpl. apply app_nil_r. Qed.

(** [extends st st' l]: from [st] to [st'] the history grew by entries that
    delivered to [l]. *)
Definition extends (st st' : State) (l : list string) : Prop :=
  ∃ new, history st' = history st ++ new ∧ delivered_all new = l.

Lemma extends_refl st st' : history st' = history st → extends st st' [].
Proof. intros Hh. exists []. by rewrite Hh, app_nil_r. Qed.

Lemma extends_trans st1 st2 st3 l1 l2 :
  extends st1 st2 l1 → extends st2 st3 l2 → extends st1 st3 (l1 ++ l2).
Proof.
  intros (n1 & H1 & <-) (n2 & H2 & <-). exists (n1 ++ n2).
  by rewrite H2, H1, app_assoc, delivered_all_app.
Qed.

Lemma extends_call c st : extends st (call c st).2 (delivered (c, (call c st).1)).
Proof. eexists. split; [done|]. apply delivered_all_one. Qed.

Lemma extends_dial addr st : extends st (dial addr st).2 [].
Proof.
  unfold dial. case_bool_decide; [by apply extends_refl|].
  pose proof (extends_call (CDial addr) st) as Hc. by destruct (call (CDial addr) st) as [[]?].
Qed.

Lemma extends_evict addr st : extends st (evict addr st) [].
Proof.
  unfold evict. case_bool_decide; [|by apply extends_refl]. apply (extends_call (CClose addr) st).
Qed.

(** A forward delivers to its recipients if it succeeds and to nobody else. *)
Lemma extends_forward req addr recipients st :
  extends st (forward req addr recipients st).2
    (if is_ok (forward req addr recipients st).1 then recipients else []).
Proof.
  unfold forward. pose proof (extends_dial addr st) as Hd.
  destruct (dial addr st) as [[[]|e] st1]; [|done]. simpl in Hd.
  pose proof (extends_call (CSend addr (with_DeliverTo recipients req)) st1) as Hc.
  destruct (call _ st1) as [[[]|e] st2]; simpl in *.
  - by eapply (extends_trans _ _ _ [] recipients).
  - case_bool_decide; [|by eapply (extends_trans _ _ _ [] [])].
    eapply (extends_trans _ _ _ [] []); [done|].
    eapply (extends_trans _ _ _ [] []); [done|]. apply extends_evict.
Qed.

(** Recipients grouped under an address, all groups together. *)
Definition grouped (m : gmap string (list string)) : list string :=
  (map_to_list m).*2 ≫= id.

Lemma grouped_insert m addr r :
  grouped (<[addr := default [] (m !! addr) ++ [r]]> m) ≡ₚ grouped m ++ [r].
Proof.
  unfold grouped. destruct (m !! addr) as [l|] eqn:E; simpl.
  - rewrite <-(map_to_list_delete m addr l E).
    rewrite <-(map_to_list_delete (<[addr := l ++ [r]]> m) addr (l ++ [r]))
      by apply lookup_insert_eq.
    rewrite delete_insert_eq. simpl. solve_Permutation.
  - rewrite map_to_list_insert by done. simpl. solve_Permutation.
Qed.

#[local] Arguments classify1 : simpl never.
#[local] Arguments forward1 : simpl never.

Lemma classify_perm f recips m l :
  let r := foldl (classify1 f) (m, l) recips in
  grouped r.1 ++ r.2 ≡ₚ grouped m ++ l ++ recips.
Proof.
  revert m l. induction recips as [|x recips IH]; intros m l; simpl; [by rewrite app_nil_r|].
  assert (grouped (classify1 f (m, l) x).1 ++ (classify1 f (m, l) x).2 ≡ₚ grouped m ++ l ++ [x]) as Hx.
  { unfold classify1. repeat case_match; simpl; [done| |done..].
    rewrite grouped_insert. solve_Permutation. }
  destruct (classify1 f (m, l) x) as [m' l']. rewrite IH. simpl in Hx.
  rewrite (app_assoc (grouped m')), Hx. solve_Permutation.
Qed.

(** Every group holds recipients of a remote node with that address. *)
Definition routed (f : Forwarder) (addr r : string) : Prop :=
  ∃ owner, Lookup f r = Ok owner ∧ owner ≠ nodeID f ∧ ResolveNode f owner = Ok addr.

Lemma classify_routed f recips m l :
  (∀ addr rs r, m !! addr = Some rs → r ∈ rs → routed f addr r) →
  ∀ addr rs r, (foldl (classify1 f) (m, l) recips).1 !! addr = Some rs → r ∈ rs → routed f addr r.
Proof.
  revert m l. induction recips as [|x recips IH]; intros m l Hm; simpl; [done|].
  destruct (classify1 f (m, l) x) as [m' l'] eqn:E. apply IH. revert E. unfold classify1.
  destruct (Lookup f x) as [owner|] eqn:HL; [|by intros [= <- <-]].
  case_bool_decide; [by intros [= <- <-]|].
  destruct (ResolveNode f owner) as [a|] eqn:HR; [|by intros [= <- <-]]. intros [= <- <-].
  intros addr rs r. rewrite lookup_insert. case_decide; [|by apply Hm]. subst. intros [= <-].
  rewrite elem_of_app, list_elem_of_singleton. intros [Hr| ->]; [|by exists owner].
  destruct (m !! addr) as [rs|] eqn:Em; [by eapply Hm|]. by apply elem_of_nil in Hr.
Qed.

Lemma classify_nonempty f recips m l :
  (∀ addr rs, m !! addr = Some rs → rs ≠ []) →
  ∀ addr rs, (foldl (classify1 f) (m, l) recips).1 !! addr = Some rs → rs ≠ [].
Proof.
  revert m l. induction recips as [|x recips IH]; intros m l Hm; simpl; [done|].
  destruct (classify1 f (m, l) x) as [m' l'] eqn:E. apply IH. revert E. unfold classify1.
  repeat case_match; intros [= <- <-]; try done.
  intros addr rs. rewrite lookup_insert. destruct (decide _); [|by apply Hm]. intros [= <-].
  by destruct (default [] _).
Qed.

(** A recipient that routes to a remote address is in that address' group. *)
Lemma classify_complete f recips m l addr r :
  routed f addr r → (r ∈ recips ∨ ∃ rs, m !! addr = Some rs ∧ r ∈ rs) →
  ∃ rs, (foldl (classify1 f) (m, l) recips).1 !! addr = Some rs ∧ r ∈ rs.
Proof.
  intros (owner & HL & Hne & HR). revert m l.
  induction recips as [|x recips IH]; intros m l; simpl.
  { intros [Hr|Hr]; [by apply elem_of_nil in Hr | done]. }
  rewrite elem_of_cons. intros [[<-|Hr]|(rs & Hm & Hr)].
  - assert (classify1 f (m, l) r = (<[addr := default [] (m !! addr) ++ [r]]> m, l)) as ->
      by (unfold classify1; by rewrite HL, bool_decide_eq_false_2, HR).
    apply IH. right.
    eexists. rewrite lookup_insert_eq. split; [done|]. rewrite elem_of_app. right. by left.
  - destruct (classify1 _ _ _). apply IH. by left.
  - destruct (classify1 f (m, l) x) as [m' l'] eqn:E. apply IH. right. revert E. unfold classify1.
    destruct (Lookup f x); [|intros [= <- <-]; eauto]. case_bool_decide; [intros [= <- <-]; eauto|].
    destruct (ResolveNode f a) as [a'|]; [|intros [= <- <-]; eauto]. intros [= <- <-].
    destruct (decide (a' = addr)) as [->|]; [|exists rs; by rewrite lookup_insert_ne].
    exists (rs ++ [x]). rewrite lookup_insert_eq, Hm. split; [done|]. rewrite elem_of_app. by left.
Qed.

Lemma forward_all req rems l st :
  let r := foldl (forward1 req) (l, st) rems in
  ∃ sent, extends st r.2 sent ∧ sent ++ r.1 ≡ₚ l ++ (rems.*2 ≫= id).
Proof.
  revert l st. induction rems as [|[addr rs] rems IH]; intros l st; simpl.
  { exists []. split; [by apply extends_refl|]. by rewrite app_nil_r. }
  unfold forward1 at 2 4. simpl. pose proof (extends_forward req addr rs st) as Hf.
  destruct (forward req addr rs st) as [res st1]. simpl in Hf.
  destruct res as [[]|e]; simpl in *.
  - destruct (IH l st1) as (sent & He & Hp). exists (rs ++ sent). split; [by eapply extends_trans|].
    rewrite <-(app_assoc rs), Hp. solve_Permutation.
  - destruct (IH (l ++ rs) st1) as (sent & He & Hp). exists sent.
    split; [by eapply (extends_trans _ _ _ [] sent)|]. rewrite Hp. solve_Permutation.
Qed.

(** What a remote call of the node looks like: the request itself, restricted to
    recipients that route to the called address. *)
Definition call_ok (f : Forwarder) (req : SendMessageRequest) (e : Call * result unit) : Prop :=
  match e.1 with
  | CSend a r => ∃ rs, r = with_DeliverTo rs req ∧ rs ≠ [] ∧ ∀ x, x ∈ rs → routed f a x
  | _ => True
  end.

Definition reachable_addr (addr : string) : Prop := ∀ h, net h (CDial addr) = Ok ().

Lemma dial_history addr st : ∃ new, history (dial addr st).2 = history st ++ new ∧
  (∀ e, e ∈ new → e.1 = CDial addr) ∧ (reachable_addr addr → (dial addr st).1 = Ok ()).
Proof.
  unfold dial. case_bool_decide.
  { exists []. rewrite app_nil_r. split_and!; [done| |done]. intros e He. by apply elem_of_nil in He. }
  set (res := net (history st) (CDial addr)). exists [(CDial addr, res)].
  assert (∀ e, e ∈ [(CDial addr, res)] → e.1 = CDial addr) as He.
  { intros e He. apply list_elem_of_singleton in He. by subst e. }
  unfold call. fold res. destruct res as [[]|] eqn:E; split_and!; try done.
  intros Hr. specialize (Hr (history st)). unfold res in E. congruence.
Qed.

Lemma forward_history f req addr rs st :
  rs ≠ [] → (∀ x, x ∈ rs → routed f addr x) →
  ∃ new, history (forward req addr rs st).2 = history st ++ new ∧ Forall (call_ok f req) new ∧
    (reachable_addr addr → ∃ res, (CSend addr (with_DeliverTo rs req), res) ∈ new).
Proof.
  intros Hne Hrs. unfold forward. destruct (dial_history addr st) as (n1 & H1 & Hd & Hr).
  assert (Forall (call_ok f req) n1) as Hn1.
  { apply list.Forall_forall. intros e He. unfold call_ok. by rewrite (Hd e He). }
  destruct (dial addr st) as [[[]|e] st1]; simpl in *.
  2:{ exists n1. split_and!; [done|done|]. intros Ha. by apply Hr in Ha. }
  set (c := CSend addr (with_DeliverTo rs req)). set (res := net (history st1) c).
  assert (call_ok f req (c, res)) as Hc by (exists rs; done).
  assert (∀ n3, Forall (call_ok f req) n3 →
    Forall (call_ok f req) (n1 ++ (c, res) :: n3)) as Hall
    by (intros; apply Forall_app; split; [done|]; by constructor).
  assert (∀ n3, (c, res) ∈ n1 ++ (c, res) :: n3) as Hin
    by (intros; rewrite elem_of_app, elem_of_cons; auto).
  assert (history st1 ++ [(c, res)] = history st ++ n1 ++ [(c, res)]) as Hh by by rewrite H1, <-app_assoc.
  destruct res as [[]|e] eqn:Eres; simpl.
  { exists (n1 ++ [(c, Ok ())]). split_and!; [by rewrite <-Hh|apply Hall; constructor|eauto]. }
  unfold evict. repeat case_bool_decide; simpl.
  2,3: exists (n1 ++ [(c, Err e)]); split_and!; [by rewrite <-Hh|apply Hall; constructor|eauto].
  eexists (n1 ++ [(c, Err e); (CClose addr, _)]).
  split_and!; [|apply Hall; by repeat constructor|eauto].
  rewrite H1, <-!app_assoc. done.
Qed.

Lemma forward_all_history f req rems l st :
  (∀ addr rs, (addr, rs) ∈ rems → rs ≠ []) →
  (∀ addr rs x, (addr, rs) ∈ rems → x ∈ rs → routed f addr x) →
  let r := foldl (forward1 req) (l, st) rems in
  ∃ new, history r.2 = history st ++ new ∧ Forall (call_ok f req) new ∧
    ∀ addr rs, (addr, rs) ∈ rems → reachable_addr addr →
      ∃ res, (CSend addr (with_DeliverTo rs req), res) ∈ new.
Proof.
  revert l st. induction rems as [|[a rs] rems IH]; intros l st Hne Hrems; simpl.
  { exists []. rewrite app_nil_r. split_and!; [done|done|]. intros ?? He. by apply elem_of_nil in He. }
  destruct (forward_history f req a rs st) as (n1 & H1 & Ho1 & Hs1).
  { eapply Hne. by left. }
  { intros x. apply Hrems. by left. }
  assert (∃ l', forward1 req (l, st) (a, rs) = (l', (forward req a rs st).2)) as [l' ->].
  { unfold forward1. simpl. destruct (forward req a rs st) as [[[]|]]; eauto. }
  destruct (IH l' (forward req a rs st).2) as (n2 & H2 & Ho2 & Hs2).
  { intros addr rs' Hin. eapply Hne. by right. }
  { intros addr rs' x Hin. apply Hrems. by right. }
  exists (n1 ++ n2). split_and!.
  - by rewrite H2, H1, app_assoc.
  - by apply Forall_app.
  - intros addr rs'. rewrite elem_of_cons. intros [[= -> ->]|Hin] Hr.
    + destruct (Hs1 Hr) as [res ?]. exists res. apply elem_of_app. by left.
    + destruct (Hs2 _ _ Hin Hr) as [res ?]. exists res. apply elem_of_app. by right.
Qed.

(** The remote calls [handle] makes, and that it makes one for every routed
    recipient whose node can be dialed. *)
Lemma handle_history o f req st :
  ∃ new, history (handle o f req st).2 = history st ++ new ∧ Forall (call_ok f req) new ∧
    ∀ addr x, x ∈ RecipientIds req → routed f addr x → reachable_addr addr →
      ∃ rs res, x ∈ rs ∧ (CSend addr (with_DeliverTo rs req), res) ∈ new.
Proof.
  unfold handle, classify.
  pose proof (classify_routed f (RecipientIds req) ∅ []) as Hro.
  pose proof (classify_nonempty f (RecipientIds req) ∅ []) as Hno.
  pose proof (λ addr x, classify_complete f (RecipientIds req) ∅ [] addr x) as Hco.
  destruct (foldl (classify1 f) (∅, []) (RecipientIds req)) as [m l0]. simpl in *.
  destruct (forward_all_history f req (range o m) l0 st) as (new & Hn & Hok & Hs).
  { intros addr rs Hin%elem_of_range. by eapply Hno. }
  { intros addr rs x Hin%elem_of_range Hx. by eapply Hro. }
  destruct (foldl (forward1 req) (l0, st) (range o m)) as [l st1]. simpl in *.
  assert (∃ last, history (match l with [] => (Ok (), st1)
      | _ => call (CLocal (with_RecipientIds l req)) st1 end).2 = history st ++ new ++ last ∧
      Forall (call_ok f req) last) as (last & Hl & Hlok).
  { destruct l; [exists []; by rewrite app_nil_r|]. eexists [_]. simpl.
    rewrite Hn, <-app_assoc. split; [done|]. by repeat constructor. }
  exists (new ++ last). split_and!; [done|by apply Forall_app|].
  intros addr x Hx Hrx Hr. destruct (Hco addr x Hrx) as (rs & Hm & Hxrs); [by left|].
  destruct (Hs addr rs) as [res Hin]; [by apply elem_of_range|done|].
  exists rs, res. split; [done|]. rewrite elem_of_app. by left.
Qed.

(** ** Properties *)

(** C2. No recipient is lost or served twice by a node: whatever the registry,
    the resolver and the network answer, the recipients of the request are,
    counted with multiplicity, exactly those of the remote calls that succeeded
    and those given to the local handler. *)
Theorem handle_conserves_recipients o f req st :
  ∃ new, history (handle o f req st).2 = history st ++ new ∧
    delivered_all new ≡ₚ RecipientIds req.
Proof.
  unfold handle. pose proof (classify_perm f (RecipientIds req) ∅ []) as Hc.
  unfold classify. destruct (foldl (classify1 f) (∅, []) (RecipientIds req)) as [m l0]. simpl in Hc.
  destruct (forward_all req (range o m) l0 st) as (sent & (new & Hnew & Hsent) & Hp).
  destruct (foldl (forward1 req) (l0, st) (range o m)) as [l st1]. simpl in *.
  assert (sent ++ l ≡ₚ RecipientIds req) as Hall.
  { rewrite Hp. unfold grouped in Hc. rewrite (range_perm o m), (Permutation_app_comm l0). exact Hc. }
  destruct l as [|x l].
  - exists new. split; [done|]. by rewrite Hsent, <-Hall, app_nil_r.
  - eexists (new ++ _). split; [simpl; by rewrite Hnew, <-app_assoc|].
    rewrite delivered_all_app, delivered_all_one, Hsent. exact Hall.
Qed.

(** C18. A node forwards only what belongs elsewhere: each remote call carries
    the original request with [deliver_to] restricted to a non-empty list of recipients whose owner,
    according to the registry, is another node with the called address; and a
    call is made for every recipient of a reachable remote node. *)
Theorem handle_remote_calls o f req st :
  ∃ new, history (handle o f req st).2 = history st ++ new ∧
    (∀ a r res, (CSend a r, res) ∈ new →
       r = with_DeliverTo (DeliverTo r) req ∧ DeliverTo r ≠ [] ∧
       ∀ x, x ∈ DeliverTo r → ∃ owner,
         Lookup f x = Ok owner ∧ owner ≠ nodeID f ∧ ResolveNode f owner = Ok a) ∧
    (∀ a x owner, x ∈ RecipientIds req → (∀ h, net h (CDial a) = Ok ()) →
       Lookup f x = Ok owner → owner ≠ nodeID f → ResolveNode f owner = Ok a →
       ∃ r res, (CSend a r, res) ∈ new ∧ x ∈ DeliverTo r).
Proof.
  destruct (handle_history o f req st) as (new & Hn & Hok & Hs). exists new. split_and!; [done| |].
  - intros a r res Hin. rewrite list.Forall_forall in Hok.
    destruct (Hok _ Hin) as (rs & -> & Hne & Hrs). done.
  - intros a x owner Hx Hd HL Hne HR.
    destruct (Hs a x Hx) as (rs & res & Hxrs & Hin); [by exists owner|done|].
    by exists (with_DeliverTo rs req), res.
Qed.

End Forwarder.

(** ** A cluster of forwarding nodes

    [hop net o cluster (a, req) (a', req')]: the node at address [a], handling
    [req], calls the node at [a'] with [req']. *)
Definition hop (net : list (Call * result unit) → Call → result unit) (o : MapOrder)
    (cluster : gmap string Forwarder)
    : relation (string * SendMessageRequest) :=
  λ x y, ∃ f, cluster !! x.1 = Some f ∧
    ∀ st, ∃ new res, history (handle net o f x.2 st).2 = history st ++ new ∧ (CSend y.1 y.2, res) ∈ new.

(** A message with recipients on two nodes is forwarded forever: because a
    node re-routes all of [recipient_ids] and does not look at [deliver_to], the
    node that receives a forwarded request forwards it back to the sender for
    the sender's own recipient, and so on; chains of any length exist, whatever
    the remote calls answer. *)
Theorem forwarding_ping_pong net o cluster fA fB aA aB ownerA ownerB ra rb :
  cluster !! aA = Some fA → cluster !! aB = Some fB →
  (∀ h, net h (CDial aA) = Ok ()) → (∀ h, net h (CDial aB) = Ok ()) →
  Lookup fA rb = Ok ownerB → ownerB ≠ nodeID fA → ResolveNode fA ownerB = Ok aB →
  Lookup fB ra = Ok ownerA → ownerA ≠ nodeID fB → ResolveNode fB ownerA = Ok aA →
  ∀ k req, ra ∈ RecipientIds req → rb ∈ RecipientIds req →
    ∃ last, nsteps (hop net o cluster) k (aA, req) last.
Proof.
  intros HA HB HdA HdB HL1 Hn1 HR1 HL2 Hn2 HR2 k.
  cut (∀ req, ra ∈ RecipientIds req → rb ∈ RecipientIds req →
    (∃ last, nsteps (hop net o cluster) k (aA, req) last) ∧
    (∃ last, nsteps (hop net o cluster) k (aB, req) last)).
  { intros Hk req Ha Hb. apply (Hk req Ha Hb). }
  assert (∀ a f a' x owner req, cluster !! a = Some f → x ∈ RecipientIds req →
    (∀ h, net h (CDial a') = Ok ()) → Lookup f x = Ok owner → owner ≠ nodeID f →
    ResolveNode f owner = Ok a' →
    ∃ rs, hop net o cluster (a, req) (a', with_DeliverTo rs req)) as Hhop.
  { intros a f a' x owner req Hc Hx Hd HL Hne HR.
    destruct (classify_complete f (RecipientIds req) ∅ [] a' x) as (rs & Hm & _);
      [by exists owner|by left|].
    exists rs, f. split; [done|]. intros st. change (a, req).2 with req. unfold handle, classify.
    pose proof (classify_routed f (RecipientIds req) ∅ []) as Hro.
    pose proof (classify_nonempty f (RecipientIds req) ∅ []) as Hno.
    destruct (foldl (classify1 f) (∅, []) (RecipientIds req)) as [m l0]. simpl in *.
    destruct (forward_all_history net f req (range o m) l0 st) as (new & Hn & _ & Hs).
    { intros addr rs' Hin%elem_of_range. by eapply Hno. }
    { intros addr rs' y Hin%elem_of_range Hy. by eapply Hro. }
    destruct (Hs a' rs) as [res Hin]; [by apply elem_of_range|done|].
    destruct (foldl (forward1 net req) (l0, st) (range o m)) as [l st1]. simpl in *.
    destruct l as [|y l]; [exists new, res; split; [exact Hn | exact Hin]|].
    eexists (new ++ [_]), res. simpl. rewrite Hn, <-app_assoc. split; [done|].
    rewrite elem_of_app. by left. }
  induction k as [|k IH]; intros req Ha Hb; [split; eexists; constructor|]. split.
  - destruct (Hhop aA fA aB rb ownerB req) as (rs & Hh); try done.
    destruct (IH (with_DeliverTo rs req)) as [_ [last Hl]]; [done..|].
    exists last. by econstructor.
  - destruct (Hhop aB fB aA ra ownerA req) as (rs & Hh); try done.
    destruct (IH (with_DeliverTo rs req)) as [[last Hl] _]; [done..|].
    exists last. by econstructor.
Qed.

(** ** Witness *)

(** Two nodes that share a routing table by domain. *)
Definition demo_lookup (r : string) : result string :=
  if HasPrefix r "a@" then Ok "nodeA" else Ok "nodeB".
Definition demo_resolve (n : string) : result string :=
  if bool_decide (n = "nodeA") then Ok "hostA:1" else Ok "hostB:1".
Definition demo_cluster : gmap string Forwarder :=
  {["hostA:1" := MkForwarder "nodeA" demo_lookup demo_resolve;
    "hostB:1" := MkForwarder "nodeB" demo_lookup demo_resolve]}.
Definition demo_req : SendMessageRequest := MkReq "a@x" ["a@x"; "b@y"] [] "hi" "body" ∅.

Lemma forwarding_ping_pong_witness :
  ∃ last, nsteps (hop (λ _ _, Ok ()) some_order demo_cluster) 100 ("hostA:1", demo_req) last.
Proof.
  apply (forwarding_ping_pong (λ _ _, Ok ()) some_order demo_cluster
    (MkForwarder "nodeA" demo_lookup demo_resolve) (MkForwarder "nodeB" demo_lookup demo_resolve)
    "hostA:1" "hostB:1" "nodeA" "nodeB" "a@x" "b@y"); try reflexivity; try done.
  - by left.
  - right. by left.
Defined.

End Forwarder.
