(* ===== verification/RelayQueue.v ===== *)
(** * The outbound relay queue

    Models [internal/relay/queue.go]: the configuration defaults, the backoff of
    [process], and the queue itself, a buffered channel served by worker
    goroutines, as a step relation in which the workers, [Enqueue] and [Stop]
    interleave freely and the backend answers arbitrarily. *)
From S2P Require Import Prelude.
Local Open Scope Z_scope.

Module RelayQueue.

(** Go's [int] is 64 bits wide. *)
Record QueueConfig := MkQueueConfig {
  Workers : Z;
  MaxRetries : Z;
  BaseDelay : Duration;
  MaxDelay : Duration }.

(** The fields of a [queuedJob] that never change. *)
Record Message := MkMessage {
  from : string;
  to : list string;
  subject : string;
  body : string;
  headers : gmap string string }.

Record queuedJob := MkJob {
  message : Message;
  attempts : Z;
  nextRetry : Time }.

(** The defaults [NewRelayQueue] fills in, and the size of its channel. *)
Definition with_defaults (cfg : QueueConfig) : QueueConfig :=
  MkQueueConfig
    (if Workers cfg <=? 0 then 4 else Workers cfg)
    (if MaxRetries cfg <=? 0 then 7 else MaxRetries cfg)
    (if BaseDelay cfg <=? 0 then 5 * Second else BaseDelay cfg)
    (if MaxDelay cfg <=? 0 then 4 * Hour else MaxDelay cfg).

Definition bufSize (cfg : QueueConfig) : Z :=
  let n := wrap64 (Workers cfg * 8) in
  if n <? 64 then 64 else n.

(** [q.cfg.BaseDelay << (job.attempts - 1)], capped. *)
Definition backoff (cfg : QueueConfig) (attempts : Z) : Duration :=
  let b := wrap64 (Z.shiftl (BaseDelay cfg) (attempts - 1)) in
  if (MaxDelay cfg <? b) || (b <=? 0) then MaxDelay cfg else b.

(** [process] after [backend.Send] has failed at time [now]: [None] when the job
    has used up its attempts, the job to put back otherwise. *)
Definition retry (cfg : QueueConfig) (now : Time) (job : queuedJob) : option queuedJob :=
  let n := attempts job + 1 in
  if MaxRetries cfg <=? n then None
  else Some (MkJob (message job) n (now + backoff cfg n)).

(** Where a worker goroutine is; [drain] tells its inner loop (after [stopCh] was
    seen) from its main [select]. *)
Inductive Worker : Type :=
| Selecting (drain : bool)
| Waiting (drain : bool) (job : queuedJob)
| Sending (drain : bool) (job : queuedJob)
| Requeueing (drain : bool) (job : queuedJob)
| Exited.

(** How a job leaves the queue. *)
Inductive Outcome : Set :=
| Delivered | PermanentlyFailed | Cancelled | DroppedOnShutdown | DroppedFull.

Record State := MkState {
  jobs : list queuedJob;                (* the channel *)
  workers : list Worker;
  stopCh : bool;                        (* closed *)
  cancelled : bool;                     (* ctx of the workers *)
  now : Time;
  accepted : list Message;              (* what Enqueue returned nil for *)
  sends : list Message;                 (* calls of backend.Send *)
  finished : list (Message * Outcome) }.

(** [NewRelayQueue], at time [t]. *)
Definition NewRelayQueue (cfg : QueueConfig) (t : Time) : State :=
  MkState [] (replicate (Z.to_nat (Workers (with_defaults cfg))) (Selecting false))
    false false t [] [] [].

(** Field updates. *)
Definition set_jobs l s := MkState l (workers s) (stopCh s) (cancelled s) (now s) (accepted s) (sends s) (finished s).
Definition set_worker i w s := MkState (jobs s) (<[i := w]> (workers s)) (stopCh s) (cancelled s) (now s) (accepted s) (sends s) (finished s).
Definition set_now t s := MkState (jobs s) (workers s) (stopCh s) (cancelled s) t (accepted s) (sends s) (finished s).
Definition close_stopCh s := MkState (jobs s) (workers s) true (cancelled s) (now s) (accepted s) (sends s) (finished s).
Definition cancel s := MkState (jobs s) (workers s) (stopCh s) true (now s) (accepted s) (sends s) (finished s).
Definition add_send m s := MkState (jobs s) (workers s) (stopCh s) (cancelled s) (now s) (accepted s) (sends s ++ [m]) (finished s).
Definition finish m o s := MkState (jobs s) (workers s) (stopCh s) (cancelled s) (now s) (accepted s) (sends s) (finished s ++ [(m, o)]).
Definition accept m s := MkState (jobs s ++ [MkJob m 0 0]) (workers s) (stopCh s) (cancelled s) (now s) (accepted s ++ [m]) (sends s) (finished s).

(** [Enqueue]: a Go [select] may take any ready case and takes [default] only
    when none is ready. [done] is [ctx.Err()] of the caller's context. *)
Inductive Enqueue (cap : Z) (done : option error) (m : Message) (s : State)
    : result unit → State → Prop :=
| Enqueue_sent :
    Z.of_nat (length (jobs s)) < cap → Enqueue cap done m s (Ok ()) (accept m s)
| Enqueue_done e :
    done = Some e → Enqueue cap done m s (Err e) s
| Enqueue_full :
    cap <= Z.of_nat (length (jobs s)) → done = None →
    Enqueue cap done m s (Err (ESentinel ErrQueueFull)) s.

Section Queue.
Variable cfg : QueueConfig.
Abbreviation cap := (bufSize cfg).

(** A step of worker [i] at a time [t] not before the last one. *)
Inductive worker_step (i : nat) (s : State) : State → Prop :=
| take_job d j rest t :
    workers s !! i = Some (Selecting d) → jobs s = j :: rest → now s <= t →
    worker_step i s (set_now t (set_jobs rest (set_worker i (Waiting d j) s)))
| see_stop t :
    workers s !! i = Some (Selecting false) → stopCh s = true → now s <= t →
    worker_step i s (set_now t (set_worker i (Selecting true) s))
| drained t :
    workers s !! i = Some (Selecting true) → jobs s = [] → now s <= t →
    worker_step i s (set_now t (set_worker i Exited s))
| start_send d j t :
    workers s !! i = Some (Waiting d j) → nextRetry j <= t → now s <= t →
    worker_step i s (set_now t (add_send (message j) (set_worker i (Sending d j) s)))
| wait_cancelled d j t :
    workers s !! i = Some (Waiting d j) → now s < nextRetry j → cancelled s = true → now s <= t →
    worker_step i s (set_now t (finish (message j) Cancelled (set_worker i (Selecting d) s)))
| sent_ok d j t :
    workers s !! i = Some (Sending d j) → now s <= t →
    worker_step i s (set_now t (finish (message j) Delivered (set_worker i (Selecting d) s)))
| sent_last d j t :
    workers s !! i = Some (Sending d j) → now s <= t → retry cfg t j = None →
    worker_step i s (set_now t (finish (message j) PermanentlyFailed (set_worker i (Selecting d) s)))
| sent_err d j j' t :
    workers s !! i = Some (Sending d j) → now s <= t → retry cfg t j = Some j' →
    worker_step i s (set_now t (set_worker i (Requeueing d j') s))
| requeued d j t :
    workers s !! i = Some (Requeueing d j) → Z.of_nat (length (jobs s)) < cap → now s <= t →
    worker_step i s (set_now t (set_jobs (jobs s ++ [j]) (set_worker i (Selecting d) s)))
| requeue_stopped d j t :
    workers s !! i = Some (Requeueing d j) → stopCh s = true → now s <= t →
    worker_step i s (set_now t (finish (message j) DroppedOnShutdown (set_worker i (Selecting d) s)))
| requeue_full d j t :
    workers s !! i = Some (Requeueing d j) → cap <= Z.of_nat (length (jobs s)) → stopCh s = false →
    now s <= t →
    worker_step i s (set_now t (finish (message j) DroppedFull (set_worker i (Selecting d) s))).

(** [Stop]: [stopCh] is closed once; the workers' context is cancelled when the
    caller's context expires first. *)
Inductive stop_step (s : State) : State → Prop :=
| do_close : stopCh s = false → stop_step s (close_stopCh s)
| do_cancel : stopCh s = true → stop_step s (cancel s).

Inductive step (s s' : State) : Prop :=
| step_worker i : worker_step i s s' → step s s'
| step_enqueue done m res : Enqueue cap done m s res s' → step s s'
| step_stop : stop_step s s' → step s s'.

(** A whole call of [Stop]: [stopCh] is closed, the rest of the system runs, and
    the call returns when every worker has exited or, with the workers' context
    cancelled, when the caller's context expires. *)
Inductive Stop (s : State) : State → Prop :=
| stop_done s' :
    stopCh s = false → rtc step (close_stopCh s) s' → Forall (λ w, w = Exited) (workers s') →
    Stop s s'
| stop_expired s' :
    stopCh s = false → rtc step (close_stopCh s) s' → Stop s (cancel s').

(** [stopCh] stays closed. *)
Lemma step_stopped s s' : step s s' → stopCh s = true → stopCh s' = true.
Proof. intros [i Hw|dn m res He|Hs]; [destruct Hw|destruct He|destruct Hs]; simpl; done. Qed.

Lemma Stop_stopped s s' : Stop s s' → stopCh s = false ∧ stopCh s' = true.
Proof.
  assert (∀ x y, rtc step x y → stopCh x = true → stopCh y = true) as Hm.
  { induction 1; eauto using step_stopped. }
  intros [s1 Hs Hst _|s1 Hs Hst]; (split; [done|]); simpl; by apply (Hm _ _ Hst).
Qed.

(** The steps of the workers alone. *)
Definition work (s s' : State) : Prop := ∃ i, worker_step i s s'.

(** ** Invariants *)

(** The message a worker holds, and the number of sends it still allows. *)
Definition held (w : Worker) : list Message :=
  match w with
  | Waiting _ j | Sending _ j | Requeueing _ j => [message j]
  | Selecting _ | Exited => []
  end.

Definition left (j : queuedJob) : nat := Z.to_nat (MaxRetries cfg - attempts j).

Definition budget (j : queuedJob) : list Message := replicate (left j) (message j).

Definition held_budget (w : Worker) : list Message :=
  match w with
  | Waiting _ j | Requeueing _ j => budget j
  | Sending _ j => replicate (left j - 1) (message j)
  | Selecting _ | Exited => []
  end.

Definition job_ok (j : queuedJob) : Prop := 0 <= attempts j < MaxRetries cfg.

Definition worker_ok (w : Worker) : Prop :=
  match w with
  | Waiting _ j | Sending _ j | Requeueing _ j => job_ok j
  | Selecting _ | Exited => True
  end.

Definition in_drain (w : Worker) : bool :=
  match w with
  | Selecting d | Waiting d _ | Sending d _ | Requeueing d _ => d
  | Exited => true
  end.

Record wf (s : State) : Prop := {
  wf_cap : Z.of_nat (length (jobs s)) <= cap;
  wf_jobs : Forall job_ok (jobs s);
  wf_workers : Forall worker_ok (workers s);
  wf_running : stopCh s = false → Forall (λ w, in_drain w = false) (workers s);
  wf_conserved :
    accepted s ≡ₚ (message <$> jobs s) ++ (workers s ≫= held) ++ (finished s).*1;
  wf_sends :
    sends s ++ (jobs s ≫= budget) ++ (workers s ≫= held_budget)
      ⊆+ accepted s ≫= replicate (Z.to_nat (MaxRetries cfg)) }.

(** Replacing one worker. *)
Lemma insert_bind {A} (f : Worker → list A) ws i w :
  ws !! i = Some w →
  ∃ rest, (ws ≫= f) ≡ₚ f w ++ rest ∧ ∀ w', (<[i := w']> ws ≫= f) ≡ₚ f w' ++ rest.
Proof.
  intros Hw. pose proof (lookup_lt_Some _ _ _ Hw) as Hi. exists ((take i ws ++ drop (S i) ws) ≫= f).
  split.
  - rewrite <-(take_drop_middle _ _ _ Hw) at 1. rewrite !bind_app. simpl. solve_Permutation.
  - intros w'. rewrite insert_take_drop by done. rewrite !bind_app. simpl. solve_Permutation.
Qed.

Lemma Forall_set {P : Worker → Prop} ws i w : Forall P ws → P w → Forall P (<[i := w]> ws).
Proof. intros. by apply Forall_insert. Qed.

Lemma queue_wf_new t : 0 < MaxRetries cfg → wf (MkState [] (replicate (Z.to_nat (Workers cfg)) (Selecting false)) false false t [] [] []).
Proof.
  intros HM. assert (∀ (f : Worker → list Message), f (Selecting false) = [] →
    replicate (Z.to_nat (Workers cfg)) (Selecting false) ≫= f = []) as Hnil.
  { intros f Hf. induction (Z.to_nat (Workers cfg)) as [|n IH]; [done|]. simpl. by rewrite Hf. }
  split; simpl.
  - unfold bufSize. repeat case_match; go_bools; lia.
  - done.
  - by apply Forall_replicate.
  - intros _. by apply Forall_replicate.
  - by rewrite Hnil.
  - by rewrite Hnil.
Qed.

Lemma retry_spec t j :
  job_ok j →
  match retry cfg t j with
  | None => left j = 1%nat
  | Some j' => message j' = message j ∧ job_ok j' ∧ left j = S (left j')
  end.
Proof.
  unfold job_ok, retry, left. intros Hj.
  destruct (Z.leb_spec (MaxRetries cfg) (attempts j + 1)); simpl; split_and?; lia || done.
Qed.

Lemma left_pos j : job_ok j → (0 < left j)%nat.
Proof. unfold job_ok, left. lia. Qed.

Lemma budget_step j :
  (0 < left j)%nat → budget j = message j :: replicate (left j - 1) (message j).
Proof. unfold budget. destruct (left j); [lia|]. simpl. by rewrite Nat.sub_0_r. Qed.

Lemma held_step j j' :
  message j' = message j ∧ job_ok j' ∧ left j = S (left j') →
  replicate (left j - 1) (message j) = budget j'.
Proof. intros (Hm & _ & Hl). unfold budget. by rewrite Hm, Hl, Nat.sub_succ, Nat.sub_0_r. Qed.

(** Dropping part of the budget keeps the bound on the sends. *)
Lemma sends_weaken (X Y Z : list Message) : Y ⊆+ X → X ⊆+ Z → Y ⊆+ Z.
Proof. intros. by etrans. Qed.

Lemma wf_worker_step i s s' : wf s → worker_step i s s' → wf s'.
Proof.
  intros [Hc Hj Hw Hr Hcons Hs] Hstep.
  assert (∃ w, workers s !! i = Some w) as [w Hi] by (inversion Hstep; eauto).
  assert (worker_ok w) as Hwok by by eapply Forall_lookup_1.
  assert (stopCh s = false → in_drain w = false) as Hdr
    by (intros Hst; eapply (Forall_lookup_1 _ _ _ _ (Hr Hst) Hi)).
  destruct (insert_bind held _ _ _ Hi) as (rh & Hh & Hh').
  destruct (insert_bind held_budget _ _ _ Hi) as (rb & Hb & Hb').
  rewrite Hh in Hcons. rewrite Hb in Hs.
  destruct Hstep as [d j rest t Hi' Hjobs|t Hi'|t Hi'|d j t Hi'|d j t Hi'|d j t Hi'|d j t Hi' ? Hret
    |d j j' t Hi' ? Hret|d j t Hi'|d j t Hi'|d j t Hi'];
    rewrite Hi in Hi'; injection Hi' as ->; simpl in *;
    try pose proof (left_pos _ Hwok) as Hpos;
    try pose proof (retry_spec t _ Hwok) as Hrs; try rewrite Hret in Hrs.
  1: rewrite Hjobs in Hc, Hj, Hcons, Hs; simpl in Hc, Hs, Hcons; apply Forall_cons_1 in Hj as [? ?].
  all: try rewrite (budget_step _ Hpos) in Hs; try rewrite (held_step _ _ Hrs) in Hs.
  all: try pose proof (proj1 Hrs) as Hmsg; try pose proof (proj1 (proj2 Hrs)) as Hok'.
  all: split; simpl; rewrite ?Hh', ?Hb'; simpl; rewrite ?bind_app, ?fmap_app, ?length_app; simpl;
    try done; try lia.
  all: try (intros; apply Forall_set; by auto).
  all: try (apply Forall_app_2; [done | apply Forall_singleton; done]).
  all: try (intros Hst; exfalso; congruence).
  all: try (rewrite Hcons, ?Hmsg; simpl; solve_Permutation).
  all: eapply sends_weaken; [|exact Hs].
  all: try rewrite (budget_step _ Hpos).
  all: try (apply Permutation_submseteq; solve_Permutation).
  all: repeat apply submseteq_skips_l.
  all: by apply submseteq_inserts_l.
Qed.

Lemma wf_enqueue done m s res s' : 0 < MaxRetries cfg → wf s → Enqueue cap done m s res s' → wf s'.
Proof.
  intros HM Hwf [Hroom|e ?|? ?]; [|done..]. destruct Hwf as [Hc Hj Hw Hr Hcons Hs].
  split; simpl; [rewrite length_app; simpl; lia| |done|done| |].
  - apply Forall_app_2; [done|]. apply Forall_singleton. split; simpl; lia.
  - rewrite Hcons, fmap_app. simpl. solve_Permutation.
  - rewrite !bind_app. simpl. unfold budget at 2, left. simpl. rewrite Z.sub_0_r, !app_nil_r.
    set (r := replicate _ m).
    trans ((sends s ++ (jobs s ≫= budget) ++ (workers s ≫= held_budget)) ++ r).
    + apply Permutation_submseteq. solve_Permutation.
    + by apply submseteq_app.
Qed.

Lemma queue_wf_step s s' : 0 < MaxRetries cfg → wf s → step s s' → wf s'.
Proof.
  intros HM Hwf [i Hs|done m res Hs|Hs].
  - by eapply wf_worker_step.
  - by eapply wf_enqueue.
  - destruct Hwf, Hs; by split; simpl.
Qed.

Lemma step_workers s s' : step s s' → length (workers s') = length (workers s).
Proof.
  intros [i Hs|done m res Hs|Hs]; destruct Hs; simpl; by rewrite ?length_insert.
Qed.

(** ** The work left *)

(** Steps a queued job can still cause: four per attempt. *)
Definition job_work (j : queuedJob) : nat := 4 * left j.

Definition loop_work (drain : bool) : nat := if drain then 1 else 2.

Definition worker_work (w : Worker) : nat :=
  match w with
  | Selecting d => loop_work d
  | Waiting d j => loop_work d + (4 * left j - 1)
  | Sending d j => loop_work d + (4 * left j - 2)
  | Requeueing d j => loop_work d + (4 * left j + 1)
  | Exited => 0
  end.

Definition work_left (s : State) : nat :=
  sum_list_with job_work (jobs s) + sum_list_with worker_work (workers s).

Lemma insert_work ws i w w' :
  ws !! i = Some w →
  (sum_list_with worker_work (<[i := w']> ws) + worker_work w =
   sum_list_with worker_work ws + worker_work w')%nat.
Proof.
  revert i. induction ws as [|x ws IH]; intros [|i]; simpl; [done|done|intros [= ->]; lia|].
  intros Hi. pose proof (IH i Hi). lia.
Qed.

(** Every worker step uses up some of it. *)
Lemma work_decreases s s' : wf s → work s s' → (work_left s' < work_left s)%nat.
Proof.
  intros [_ Hj Hw _ _ _] [i Hstep].
  assert (∃ w, workers s !! i = Some w) as [w Hi] by (inversion Hstep; eauto).
  assert (worker_ok w) as Hwok by by eapply Forall_lookup_1.
  pose proof (λ w', insert_work _ _ _ w' Hi) as Hsum.
  destruct Hstep as [d j rest t Hi' Hjobs|t Hi'|t Hi'|d j t Hi'|d j t Hi'|d j t Hi'|d j t Hi' ? Hret
    |d j j' t Hi' ? Hret|d j t Hi'|d j t Hi'|d j t Hi'];
    rewrite Hi in Hi'; injection Hi' as ->; unfold work_left; simpl in *;
    try pose proof (left_pos _ Hwok) as Hpos;
    try pose proof (retry_spec t _ Hwok) as Hrs; try rewrite Hret in Hrs.
  all: match goal with |- context [<[_ := ?w']> _] => specialize (Hsum w') end.
  1: rewrite Hjobs in Hj; apply Forall_cons_1 in Hj as [Hpos%left_pos _].
  all: simpl in Hsum; rewrite ?sum_list_with_app; try (rewrite Hjobs); simpl; unfold job_work; try lia.
Qed.

Lemma bufSize_pos : 0 < cap.
Proof. unfold bufSize. destruct (Z.ltb_spec (wrap64 (Workers cfg * 8)) 64); lia. Qed.
Lemma worker_work_bound w :
  worker_ok w →
  (worker_work w <= 2 + (4 * Z.to_nat (MaxRetries cfg) + 1) * length (held w))%nat.
Proof.
  destruct w as [[]|[] j|[] j|[] j|]; simpl; unfold job_ok, left; intros; lia.
Qed.

Lemma work_left_bound s :
  wf s →
  (work_left s <= (4 * Z.to_nat (MaxRetries cfg) + 1) * (length (accepted s) - length (finished s))
                  + 2 * length (workers s))%nat.
Proof.
  intros [_ Hj Hw _ Hcons _]. apply Permutation_length in Hcons.
  rewrite !length_app, !length_fmap in Hcons. rewrite Hcons. clear Hcons.
  remember (4 * Z.to_nat (MaxRetries cfg) + 1)%nat as M eqn:HM. unfold work_left.
  assert (sum_list_with job_work (jobs s) <= M * length (jobs s))%nat as H1.
  { induction Hj as [|j l Hok Hl IH]; simpl; [lia|].
    assert (job_work j <= M)%nat by (unfold job_ok in Hok; unfold job_work, left; lia). lia. }
  assert (sum_list_with worker_work (workers s) <=
    2 * length (workers s) + M * length (workers s ≫= held))%nat as H2.
  { clear H1 Hj. induction Hw as [|w l Hok Hl IH]; csimpl; [lia|].
    apply worker_work_bound in Hok. rewrite <-HM in Hok. rewrite length_app. lia. }
  rewrite Nat.add_assoc, Nat.add_sub. lia.
Qed.

Lemma work_nsteps n s s' : wf s → nsteps work n s s' → wf s' ∧ (n + work_left s' <= work_left s)%nat.
Proof.
  intros Hwf Hn. induction Hn as [s|n s1 s2 s3 Hstep _ IH]; [split; [done|lia]|].
  pose proof (work_decreases _ _ Hwf Hstep) as Hd. destruct Hstep as [i Hi].
  destruct IH as [? ?]; [by eapply wf_worker_step|]. split; [done|lia].
Qed.

(** While there are jobs in the channel some worker is left to take them. *)
Definition attended (s : State) : Prop :=
  jobs s = [] ∨ Exists (λ w, w ≠ Exited) (workers s).

Lemma work_attended s s' :
  work s s' → attended s' ∧ stopCh s' = stopCh s ∧ accepted s' = accepted s.
Proof.
  intros [i Hstep]. split; [|by destruct Hstep].
  assert (∀ w', w' ≠ Exited → (i < length (workers s))%nat →
    Exists (λ w, w ≠ Exited) (<[i := w']> (workers s))) as Hex.
  { intros w' Hne Hlt. apply list.Exists_exists. exists w'. split; [|done].
    by apply list_elem_of_insert. }
  destruct Hstep; match goal with
    | H : workers s !! i = Some _ |- _ => apply lookup_lt_Some in H
    end; unfold attended; simpl; auto; right; by apply Hex.
Qed.

Lemma work_nsteps_attended n s s' :
  attended s → nsteps work n s s' →
  attended s' ∧ stopCh s' = stopCh s ∧ accepted s' = accepted s.
Proof.
  intros Ha Hn. induction Hn as [s|n s1 s2 s3 Hstep _ IH]; [done|].
  destruct (work_attended _ _ Hstep) as (Ha' & Hs & Hacc).
  destruct (IH Ha') as (? & ? & ?). split_and!; [done|congruence..].
Qed.

Lemma exited_hold_nothing ws : Forall (λ w, w = Exited) ws → ws ≫= held = [].
Proof. induction 1 as [|w l -> _ IH]; [done|]. exact IH. Qed.

(** After [Stop] a worker that has not exited can go on. *)
Lemma work_progress s :
  stopCh s = true → (∀ s', ¬ work s s') → Forall (λ w, w = Exited) (workers s).
Proof.
  intros Hst Hstuck. apply Forall_lookup_2. intros i w Hi.
  destruct w as [[]|d j|d j|d j|]; [exfalso..|done].
  - destruct (jobs s) as [|j rest] eqn:Hj.
    + eapply Hstuck. exists i. by eapply (drained _ _ (now s)).
    + eapply Hstuck. exists i. by eapply (take_job _ _ true j rest (now s)).
  - eapply Hstuck. exists i. by eapply (see_stop _ _ (now s)).
  - eapply Hstuck. exists i. eapply (start_send _ _ d j (now s `max` nextRetry j)); [done|lia..].
  - eapply Hstuck. exists i. by eapply (sent_ok _ _ d j (now s)).
  - eapply Hstuck. exists i. by eapply (requeue_stopped _ _ d j (now s)).
Qed.
End Queue.

(** The states of a running queue. *)
Definition reachable (cfg : QueueConfig) (t : Time) (s : State) : Prop :=
  rtc (step (with_defaults cfg)) (NewRelayQueue cfg t) s.

Lemma with_defaults_pos cfg :
  0 < Workers (with_defaults cfg) ∧ 0 < MaxRetries (with_defaults cfg) ∧
  0 < BaseDelay (with_defaults cfg) ∧ 0 < MaxDelay (with_defaults cfg).
Proof.
  unfold with_defaults, Hour, Minute, Second. simpl.
  repeat match goal with |- context [?a <=? 0] => destruct (Z.leb_spec a 0) end; lia.
Qed.

Lemma reachable_wf cfg t s : reachable cfg t s → wf (with_defaults cfg) s.
Proof.
  pose proof (with_defaults_pos cfg) as (_ & HM & _).
  intros Hr. apply (rtc_ind_r _ _ (queue_wf_new (with_defaults cfg) t HM)) in Hr; [done|].
  intros. by eapply queue_wf_step.
Qed.

(** No worker exits before [Stop], so the jobs are attended to when it is called. *)
Lemma stop_attended cfg t s : reachable cfg t s → stopCh s = false → attended (close_stopCh s).
Proof.
  intros Hr Hst. right. simpl.
  assert (workers s ≠ []) as Hne.
  { assert (length (workers s) = Z.to_nat (Workers (with_defaults cfg))) as Hlen.
    { clear Hst. revert Hr. apply (rtc_ind_r (λ s, length (workers s) = _)); simpl.
      - apply length_replicate.
      - intros s1 s2 _ Hs <-. apply step_workers in Hs. done. }
    destruct (with_defaults_pos cfg) as [HW _]. intros E. rewrite E in Hlen. cbn [length] in Hlen. lia. }
  destruct (reachable_wf _ _ _ Hr) as [_ _ _ Hrun _ _]. specialize (Hrun Hst).
  destruct (workers s) as [|w ws]; [done|]. apply Forall_cons_1 in Hrun as [Hw _].
  left. by destruct w.
Qed.

(** [BaseDelay * 2^(n-1)] capped at [MaxDelay]. *)
Definition ideal_backoff (cfg : QueueConfig) (n : Z) : Duration :=
  (BaseDelay cfg * 2 ^ (n - 1)) `min` MaxDelay cfg.

Lemma backoff_exact cfg n :
  0 < BaseDelay cfg → 0 < MaxDelay cfg → 1 <= n → BaseDelay cfg * 2 ^ (n - 1) < 2 ^ 63 →
  backoff cfg n = ideal_backoff cfg n.
Proof.
  intros HB HM Hn Hlt. unfold backoff, ideal_backoff. rewrite Z.shiftl_mul_pow2 by lia.
  assert (0 < BaseDelay cfg * 2 ^ (n - 1)) by (apply Z.mul_pos_pos; [done | apply Z.pow_pos_nonneg; lia]).
  rewrite wrap64_id by (split; [trans 0; [done | lia] | done]).
  destruct (Z.ltb_spec (MaxDelay cfg) (BaseDelay cfg * 2 ^ (n - 1))); simpl; [lia|].
  destruct (Z.leb_spec (BaseDelay cfg * 2 ^ (n - 1)) 0); lia.
Qed.

Lemma backoff_range cfg n : 0 < MaxDelay cfg → 0 < backoff cfg n <= MaxDelay cfg.
Proof.
  intros HM. unfold backoff. destruct (wrap64 _) as [|p|p]; simpl Z.leb;
    rewrite ?orb_true_r, ?orb_false_r; [lia| |lia].
  destruct (Z.ltb_spec (MaxDelay cfg) (Z.pos p)); simpl; lia.
Qed.

(** A shift by 64 or more leaves nothing. *)
Lemma shift_out z k : 64 <= k → wrap64 (Z.shiftl z k) = 0.
Proof.
  intros Hk. rewrite Z.shiftl_mul_pow2 by lia. replace k with (k - 64 + 64) by lia.
  rewrite Z.pow_add_r, Z.mul_assoc by lia. unfold wrap64, wrap.
  rewrite Z.add_comm, Z.mod_add by lia. reflexivity.
Qed.

Definition default_cfg : QueueConfig := with_defaults (MkQueueConfig 0 0 0 0).

Lemma default_backoff_small n : 1 <= n <= 64 → backoff default_cfg n = ideal_backoff default_cfg n.
Proof.
  intros Hn. assert (n ∈ seqZ 1 64) as Hin by (apply elem_of_seqZ; lia). clear Hn.
  assert (forallb (λ n, backoff default_cfg n =? ideal_backoff default_cfg n) (seqZ 1 64) = true)
    as Hall by (vm_compute; reflexivity).
  rewrite forallb_forall in Hall. apply Z.eqb_eq, Hall. by apply list_elem_of_In.
Qed.

(** ** Properties *)

(** C29. The backoff is exponential and capped. For every configuration it lies
    in [(0, MaxDelay]] for any number of attempts, also when the shift overflows
    [int64]; it is exactly [min (BaseDelay * 2^(attempts-1)) MaxDelay] as long
    as that product fits; and with the default delays it is exactly that for
    every number of attempts, however large. *)
Theorem backoff_spec cfg n :
  1 <= n →
  let q := with_defaults cfg in
  0 < backoff q n <= MaxDelay q ∧
  (BaseDelay q * 2 ^ (n - 1) < 2 ^ 63 → backoff q n = ideal_backoff q n) ∧
  (BaseDelay cfg <= 0 → MaxDelay cfg <= 0 → backoff q n = ideal_backoff q n).
Proof.
  intros Hn q. pose proof (with_defaults_pos cfg) as (_ & _ & HB & HM). fold q in HB, HM.
  split; [by apply backoff_range|split].
  - intros Hlt. by apply backoff_exact.
  - intros Hb Hm. assert (BaseDelay q = BaseDelay default_cfg ∧ MaxDelay q = MaxDelay default_cfg)
      as [HBq HMq].
    { unfold q, with_defaults. simpl. apply Z.leb_le in Hb, Hm. by rewrite Hb, Hm. }
    unfold backoff, ideal_backoff. rewrite HBq, HMq.
    change (backoff default_cfg n = ideal_backoff default_cfg n).
    destruct (Z.le_gt_cases n 64); [by apply default_backoff_small|].
    unfold backoff, ideal_backoff. rewrite shift_out by lia.
    assert (2 ^ 64 <= 2 ^ (n - 1)) as Hp by (apply Z.pow_le_mono_r; lia).
    change (0 <=? 0) with true. rewrite orb_true_r.
    change (BaseDelay default_cfg) with 5000000000. change (MaxDelay default_cfg) with 14400000000000.
    change (2 ^ 64) with 18446744073709551616 in Hp. lia.
Qed.

Lemma backoff_spec_witness :
  backoff default_cfg 12 = 10240 * Second ∧ backoff default_cfg 13 = 4 * Hour ∧
  backoff default_cfg 100 = ideal_backoff default_cfg 100.
Proof.
  split_and!; [reflexivity..|].
  apply (backoff_spec (MkQueueConfig 0 0 0 0) 100); simpl; lia.
Defined.

(** C3. Whatever the interleaving of callers, workers and [Stop], and whatever
    the backend answers: the channel never exceeds its buffer, no message is
    lost track of (the accepted messages are, with multiplicity, those queued,
    held by a worker or finished), every job in the queue has attempts left,
    and each accepted message is given to the backend at most [MaxRetries] times. *)
Theorem queue_invariant cfg t s :
  reachable cfg t s →
  let q := with_defaults cfg in
  Z.of_nat (length (jobs s)) <= bufSize q ∧
  accepted s ≡ₚ (message <$> jobs s) ++ (workers s ≫= held) ++ (finished s).*1 ∧
  Forall (λ j, 0 <= attempts j < MaxRetries q) (jobs s) ∧
  sends s ⊆+ accepted s ≫= replicate (Z.to_nat (MaxRetries q)).
Proof.
  intros Hr q. destruct (reachable_wf _ _ _ Hr) as [Hc Hj _ _ Hcons Hs].
  split_and!; [done..|]. etrans; [|exact Hs]. apply submseteq_inserts_r. done.
Qed.


Definition demo_message : Message := MkMessage "a@x" ["b@y"] "hi" "text" ∅.

(** One message accepted by a queue with one worker. *)
Definition demo_state : State := accept demo_message (NewRelayQueue (MkQueueConfig 1 0 0 0) 1).

Lemma demo_reachable : reachable (MkQueueConfig 1 0 0 0) 1 demo_state.
Proof.
  apply rtc_once. eapply step_enqueue with (done := None). by constructor.
Qed.

Lemma queue_invariant_witness :
  reachable (MkQueueConfig 1 0 0 0) 1 demo_state ∧ sends demo_state ⊆+ replicate 7 demo_message.
Proof.
  split; [exact demo_reachable|].
  exact (proj2 (proj2 (proj2 (queue_invariant (MkQueueConfig 1 0 0 0) 1 demo_state demo_reachable)))).
Defined.


End RelayQueue.
