(* ===== verification/Relay.v ===== *)
(** * The outbound relay: backends and server

    Models [internal/relay/smtp.go], [sendgrid.go], [dkim.go] and [relay.go]: the
    RFC 5322 text the SMTP backends transmit, the choice of the sender, the
    SendGrid request, DKIM signing, and the relay node's [SendMessage], [Start],
    [Stop] and [Addr]. The SMTP client, the HTTP client, the DKIM signer and the
    PEM/X.509 parsers are arguments. *)
From Stdlib Require Import Ascii.
From S2P Require Import Prelude GoStrings Forwarder RelayQueue.
Import RelayQueue.
Local Open Scope string_scope.
Local Open Scope list_scope.
Local Open Scope Z_scope.

Module Relay.

Definition CR : ascii := "013".
Definition LF : ascii := "010".
Definition CRLF : string := String CR (String LF "").

(** [strings.Join(l, sep)] *)
Fixpoint Join (l : list string) (sep : string) : string :=
  match l with
  | [] => ""
  | [s] => s
  | s :: l' => s +:+ sep +:+ Join l' sep
  end.

(** ** The message text (smtp.go) *)
Section Message.
Context {GU : GoUnicode}.

(** One iteration of the header loop: the buffer and the content type so far. *)
Definition write_header (acc : string * string) (kv : string * string) : string * string :=
  let '(buf, ct) := acc in
  if EqualFold kv.1 "content-type" then (buf, kv.2)
  else (buf +:+ kv.1 +:+ ": " +:+ kv.2 +:+ CRLF, ct).

Definition buildRFC5322 (o : MapOrder) (from : string) (to : list string) (subject body : string)
    (extraHeaders : gmap string string) : string :=
  let buf := "MIME-Version: 1.0" +:+ CRLF in
  let buf := buf +:+ "From: " +:+ from +:+ CRLF in
  let buf := buf +:+ "To: " +:+ Join to ", " +:+ CRLF in
  let buf := buf +:+ "Subject: " +:+ subject +:+ CRLF in
  let '(buf, ct) :=
    foldl write_header (buf, "text/plain; charset=utf-8") (range o extraHeaders) in
  let buf := buf +:+ "Content-Type: " +:+ ct +:+ CRLF in
  let buf := buf +:+ CRLF in
  buf +:+ body.

(** A reader of such messages: header lines up to the first empty line, each cut
    at its first colon, and the body. *)
Definition read_line (s : string) : option (string * string) :=
  match CutByte CR s with
  | Some (line, String c rest) => if bool_decide (c = LF) then Some (line, rest) else None
  | _ => None
  end.

Definition read_header (line : string) : option (string * string) :=
  match CutByte ":" line with
  | Some (k, v) => Some (k, TrimPrefix v " ")
  | None => None
  end.

Fixpoint read_headers (fuel : nat) (s : string) : option (list (string * string) * string) :=
  match fuel with
  | O => None
  | S fuel' =>
      match read_line s with
      | None => None
      | Some ("", body) => Some ([], body)
      | Some (line, rest) =>
          match read_header line, read_headers fuel' rest with
          | Some h, Some (hs, body) => Some (h :: hs, body)
          | _, _ => None
          end
      end
  end.

(** A message has fewer header lines than bytes. *)
Definition ReadMessage (s : string) : option (list (string * string) * string) :=
  read_headers (Z.to_nat (len s)) s.

(** Text that can stand in a header field. *)
Definition clean (s : string) : bool := all_bytes (λ b, negb (b =? 13) && negb (b =? 10)) s.
Definition clean_name (s : string) : bool :=
  all_bytes (λ b, negb (b =? 13) && negb (b =? 10) && negb (b =? 58)) s.

Definition render (h : string * string) : string := h.1 +:+ ": " +:+ h.2 +:+ CRLF.

Definition render_all (hs : list (string * string)) : string :=
  foldr (λ h s, render h +:+ s) "" hs.

(** The header fields of a message, in the order they are written. *)
Definition is_content_type (kv : string * string) : bool := EqualFold kv.1 "content-type".

Definition content_type (l : list (string * string)) : string :=
  default "text/plain; charset=utf-8" (snd <$> list.last (List.filter is_content_type l)).

Definition fields (from : string) (to : list string) (subject : string)
    (extra : list (string * string)) : list (string * string) :=
  [("MIME-Version", "1.0"); ("From", from); ("To", Join to ", "); ("Subject", subject)]
  ++ List.filter (λ kv, negb (is_content_type kv)) extra
  ++ [("Content-Type", content_type extra)].

Definition clean_field (h : string * string) : Prop := clean_name h.1 = true ∧ clean h.2 = true.

(** *** Writing and reading back *)

Lemma all_bytes_no_cut p sep s :
  all_bytes p s = true → p (byte_of sep) = false → CutByte sep s = None.
Proof.
  induction s as [|c s IH]; simpl; intros Hs Hp; [done|]. apply andb_true_iff in Hs as [Hc Hs].
  rewrite bool_decide_eq_false_2 by (intros ->; congruence). by rewrite IH.
Qed.

Lemma clean_no_CR s : clean s = true → CutByte CR s = None.
Proof. intros Hs. by apply (all_bytes_no_cut _ CR _ Hs). Qed.

Lemma clean_name_clean s : clean_name s = true → clean s = true.
Proof.
  unfold clean, clean_name. induction s as [|c s IH]; simpl; [done|].
  intros [Hc Hs]%andb_true_iff. rewrite IH by done. apply andb_true_iff in Hc as [-> _]. done.
Qed.

Lemma clean_app s t : clean s = true → clean t = true → clean (s +:+ t) = true.
Proof. unfold clean. rewrite all_bytes_app. by intros -> ->. Qed.

Lemma read_line_app l rest : clean l = true → read_line (l +:+ CRLF +:+ rest) = Some (l, rest).
Proof.
  intros Hl%clean_no_CR. unfold read_line.
  change (CRLF +:+ rest) with (String CR (String LF rest)). rewrite CutByte_app by done.
  by rewrite bool_decide_eq_true_2.
Qed.

Lemma read_header_render h :
  clean_field h → read_header (h.1 +:+ ": " +:+ h.2) = Some h.
Proof.
  intros [Hk _]. unfold read_header. change (": " +:+ h.2) with (String ":" (String " " h.2)).
  rewrite CutByte_app by by apply (all_bytes_no_cut _ ":" _ Hk).
  destruct h as [k v]. unfold TrimPrefix. by destruct v.
Qed.

Lemma read_headers_render hs body fuel :
  Forall clean_field hs → (length hs < fuel)%nat →
  read_headers fuel (render_all hs +:+ CRLF +:+ body) = Some (hs, body).
Proof.
  intros Hhs. revert fuel. induction Hhs as [|h hs Hh _ IH]; intros fuel Hf;
    (destruct fuel as [|fuel]; [simpl in Hf; lia|]).
  - cbn [read_headers render_all foldr]. by rewrite (read_line_app "").
  - cbn [read_headers render_all foldr]. fold (render_all hs). unfold render. rewrite !app_assoc_string.
    assert (clean (h.1 +:+ ": " +:+ h.2) = true) as Hc.
    { destruct Hh as [Hk Hv]. apply clean_app; [by apply clean_name_clean|]. by apply clean_app. }
    rewrite <-(app_assoc_string ": "), <-(app_assoc_string h.1), read_line_app by done.
    rewrite IH by (simpl in Hf; lia). rewrite read_header_render by done.
    destruct (h.1 +:+ ": " +:+ h.2) eqn:E; [|done]. exfalso.
    apply (f_equal len) in E. rewrite !len_app in E. simpl in E.
    pose proof (len_nonneg h.1). pose proof (len_nonneg h.2). lia.
Qed.

Lemma render_all_app l1 l2 : render_all (l1 ++ l2) = render_all l1 +:+ render_all l2.
Proof. induction l1 as [|h l1 IH]; [done|]. simpl. by rewrite IH, app_assoc_string. Qed.

Lemma write_headers_spec l buf ct :
  foldl write_header (buf, ct) l =
  (buf +:+ render_all (List.filter (λ kv, negb (is_content_type kv)) l),
   default ct (snd <$> list.last (List.filter is_content_type l))).
Proof.
  revert buf ct. induction l as [|kv l IH]; intros buf ct.
  { simpl. by rewrite app_nil_string. }
  cbn [foldl List.filter].
  assert (write_header (buf, ct) kv = if is_content_type kv then (buf, kv.2)
    else (buf +:+ render kv, ct)) as -> by done.
  destruct (is_content_type kv) eqn:E; cbn [negb]; rewrite IH.
  - f_equal. rewrite last_cons. by destruct (list.last (List.filter is_content_type l)).
  - f_equal. simpl. unfold render. by rewrite !app_assoc_string.
Qed.

Lemma build_fields o from to subject body extra :
  buildRFC5322 o from to subject body extra =
  render_all (fields from to subject (range o extra)) +:+ CRLF +:+ body.
Proof.
  unfold buildRFC5322. rewrite write_headers_spec. unfold fields, content_type.
  rewrite !render_all_app. simpl. unfold render. simpl.
  by rewrite ?app_nil_string, !app_assoc_string.
Qed.

Lemma length_render_all hs : Z.of_nat (length hs) <= len (render_all hs).
Proof.
  induction hs as [|h hs IH]; [done|]. simpl. unfold render. rewrite !len_app. simpl.
  pose proof (len_nonneg h.1). pose proof (len_nonneg h.2). lia.
Qed.

Lemma clean_Join l sep : clean sep = true → Forall (λ r, clean r = true) l → clean (Join l sep) = true.
Proof.
  intros Hsep. induction 1 as [|s l Hs Hl IH]; [done|]. simpl. destruct l; [done|].
  by repeat apply clean_app.
Qed.

Lemma Forall_List_filter {A} (P : A → Prop) p l : Forall P l → Forall P (List.filter p l).
Proof. induction 1; simpl; [constructor|]. case_match; [by constructor|done]. Qed.

(** C15. A relayed message reads back as what was submitted: when no header name
    or value holds a line break, the text has exactly the fields
    [MIME-Version], [From], [To], [Subject], the extra headers in the order of
    the map iteration, one [Content-Type] (the caller's if given in any case,
    plain text otherwise), and its body is the submitted body byte for byte. *)
Theorem buildRFC5322_roundtrip o from to subject body extra :
  clean from = true → Forall (λ r, clean r = true) to → clean subject = true →
  (∀ k v, extra !! k = Some v → clean_name k = true ∧ clean v = true) →
  ReadMessage (buildRFC5322 o from to subject body extra) =
    Some (fields from to subject (range o extra), body).
Proof.
  intros Hf Ht Hs He. rewrite build_fields. unfold ReadMessage.
  assert (Forall clean_field (range o extra)) as Hx.
  { apply list.Forall_forall. intros [k v] Hin%elem_of_range. by apply He. }
  apply read_headers_render.
  - unfold fields. repeat apply Forall_app_2.
    + repeat constructor; simpl; try done. by apply clean_Join.
    + by apply Forall_List_filter.
    + apply Forall_singleton. split; [done|]. unfold content_type.
      destruct (list.last _) as [[k v]|] eqn:E; [|done]. simpl.
      apply last_Some_elem_of, list_elem_of_In, filter_In in E as [E _].
      rewrite list.Forall_forall in Hx. by apply (Hx (k, v)), list_elem_of_In.
  - rewrite !len_app.
    pose proof (length_render_all (fields from to subject (range o extra))).
    pose proof (len_nonneg body). change (len CRLF) with 2. lia.
Qed.

End Message.

#[local] Existing Instance ascii_only.

Definition demo_headers : gmap string string := {["X-Id" := "7"; "content-type" := "text/html"]}.

Lemma buildRFC5322_roundtrip_witness :
  ReadMessage (buildRFC5322 some_order "a@x" ["b@y"; "c@z"] "hi" ("line" +:+ CRLF +:+ CRLF) demo_headers)
  = Some ([("MIME-Version", "1.0"); ("From", "a@x"); ("To", "b@y, c@z"); ("Subject", "hi");
           ("X-Id", "7"); ("Content-Type", "text/html")], "line" +:+ CRLF +:+ CRLF).
Proof.
  rewrite buildRFC5322_roundtrip; [reflexivity|reflexivity|by repeat constructor|reflexivity|].
  unfold demo_headers.
  intros k v [[<- <-]|[_ [<- <-]%lookup_singleton_Some]]%lookup_insert_Some; done.
Defined.
(** ** Backends *)

Record SMTPConfig := MkSMTPConfig {
  Host : string; Username : string; Password : string; smtp_From : string; smtp_Timeout : Duration }.

Record SendGridConfig := MkSendGridConfig {
  APIKey : string; sg_From : string; sg_Timeout : Duration }.

Record DKIMConfig := MkDKIMConfig { PrivateKeyPEM : string; dkim_Domain : string; Selector : string }.

Definition NewSMTP (cfg : SMTPConfig) : SMTPConfig :=
  MkSMTPConfig (Host cfg) (Username cfg) (Password cfg) (smtp_From cfg)
    (if smtp_Timeout cfg <=? 0 then 30 * Second else smtp_Timeout cfg).

Definition NewSendGrid (cfg : SendGridConfig) : SendGridConfig :=
  MkSendGridConfig (APIKey cfg) (sg_From cfg)
    (if sg_Timeout cfg <=? 0 then 10 * Second else sg_Timeout cfg).

(** [smtp.PlainAuth("", user, password, host)] *)
Record PlainAuth := MkPlainAuth { auth_user : string; auth_password : string; auth_host : string }.

(** The JSON document [SendGridBackend.Send] posts. *)
Record SendGridMail := MkSendGridMail {
  sg_from : string;
  sg_to : list string;
  sg_subject : string;
  sg_content : string * string;                (* type, value *)
  sg_headers : option (gmap string string) }.

Record HTTPRequest := MkHTTPRequest {
  url : string; Authorization : string; ContentType : string; payload : SendGridMail }.

(** The libraries the backends call: the SMTP and HTTP clients as they answer
    the call, the DKIM signer, and the key parsers. [as_signer] is the type
    assertion [key.(crypto.Signer)]. *)
Class Network := {
  SendMail : string → option PlainAuth → string → list string → string → result unit;
  Do : HTTPRequest → result (Z * string);
  key : Type;
  signer : Type;
  pem_Decode : string → option string;
  ParsePKCS8 : string → result key;
  ParsePKCS1 : string → result signer;
  as_signer : key → option signer;
  dkim_Sign : string → string → signer → string → result string }.

Section Backends.
Context {GU : GoUnicode} {Net : Network}.

(** The implementations of [Backend]; only the SMTP one is a [RawBackend]. *)
Inductive Backend : Type :=
| SMTPBackend (cfg : SMTPConfig)
| SendGridBackend (cfg : SendGridConfig)
| DKIMSigningBackend (inner : SMTPConfig) (domain selector : string) (s : signer).

Definition as_RawBackend (b : Backend) : option SMTPConfig :=
  match b with SMTPBackend cfg => Some cfg | _ => None end.

Definition Name (b : Backend) : string :=
  match b with
  | SMTPBackend _ => "smtp"
  | SendGridBackend _ => "sendgrid"
  | DKIMSigningBackend _ _ _ _ => "dkim+" +:+ "smtp"
  end.

Definition DefaultFrom (cfg : SMTPConfig) : string := smtp_From cfg.

(** [SMTPBackend.send] *)
Definition smtp_send (cfg : SMTPConfig) (from : string) (to : list string) (msg : string) : result unit :=
  let host := match SplitHostPort (Host cfg) with Some (h, _) => h | None => "" end in
  let auth := if bool_decide (Username cfg = "") then None
              else Some (MkPlainAuth (Username cfg) (Password cfg) host) in
  match SendMail (Host cfg) auth from to msg with
  | Err err => Err (EWrap (Text "smtp relay %s: %w" [AStr (Host cfg)]) err)
  | Ok _ => Ok ()
  end.

Definition smtp_Send (o : MapOrder) (cfg : SMTPConfig) (m : Message) : result unit :=
  let from' := if bool_decide (from m = "") then smtp_From cfg else from m in
  smtp_send cfg from' (to m) (buildRFC5322 o from' (to m) (subject m) (body m) (headers m)).

Definition smtp_SendRaw (cfg : SMTPConfig) (from : string) (to : list string) (raw : string) : result unit :=
  let from' := if bool_decide (from = "") then smtp_From cfg else from in
  smtp_send cfg from' to raw.

Definition sendgrid_payload (cfg : SendGridConfig) (m : Message) : SendGridMail :=
  let from' := if bool_decide (from m = "") then sg_From cfg else from m in
  let contentType := default "text/plain" (headers m !! "Content-Type") in
  let sg := delete "Content-Type" (headers m) in
  MkSendGridMail from' (to m) (subject m) (contentType, body m)
    (if bool_decide (sg = ∅) then None else Some sg).

Definition sendgrid_Send (cfg : SendGridConfig) (m : Message) : result unit :=
  match Do (MkHTTPRequest "https://api.sendgrid.com/v3/mail/send" ("Bearer " +:+ APIKey cfg)
              "application/json" (sendgrid_payload cfg m)) with
  | Err err => Err (EWrap (Text "sendgrid: http: %w" []) err)
  | Ok (StatusCode, errBody) =>
      if (200 <=? StatusCode) && (StatusCode <? 300) then Ok ()
      else Err (EText (Text "sendgrid: status %d: %s" [AInt StatusCode; AStr (take_bytes 4096 errBody)]))
  end.

Definition parsePrivateKey (pemData : string) : result signer :=
  match pem_Decode pemData with
  | None => Err (EText (Text "no PEM block found" []))
  | Some block =>
      match ParsePKCS8 block with
      | Err err =>
          match ParsePKCS1 block with
          | Err rsaErr => Err (EWrap (Text "PKCS8: %w; PKCS1: %v" [AErr rsaErr]) err)
          | Ok rsa => Ok rsa
          end
      | Ok k => match as_signer k with
                | Some s => Ok s
                | None => Err (EText (Text "parsed key does not implement crypto.Signer" []))
                end
      end
  end.

Definition NewDKIMSigningBackend (cfg : DKIMConfig) (inner : Backend) : result Backend :=
  match as_RawBackend inner with
  | None => Err (EText (Text "dkim: backend %q does not implement RawBackend" [AStr (Name inner)]))
  | Some raw =>
      match parsePrivateKey (PrivateKeyPEM cfg) with
      | Err err => Err (EWrap (Text "dkim: parse private key: %w" []) err)
      | Ok s => Ok (DKIMSigningBackend raw (dkim_Domain cfg) (Selector cfg) s)
      end
  end.

Definition dkim_Send (o : MapOrder) (inner : SMTPConfig) (domain selector : string) (s : signer)
    (m : Message) : result unit :=
  let from' := if bool_decide (from m = "") then DefaultFrom inner else from m in
  let raw := buildRFC5322 o from' (to m) (subject m) (body m) (headers m) in
  match dkim_Sign domain selector s raw with
  | Err err => Err (EWrap (Text "dkim: sign: %w" []) err)
  | Ok signed => smtp_SendRaw inner from' (to m) signed
  end.

Definition Send (o : MapOrder) (b : Backend) (m : Message) : result unit :=
  match b with
  | SMTPBackend cfg => smtp_Send o cfg m
  | SendGridBackend cfg => sendgrid_Send cfg m
  | DKIMSigningBackend inner d sel s => dkim_Send o inner d sel s m
  end.

(** DKIM signing changes nothing but the bytes: the signed message is the one
    the inner backend would have built, and it goes out with the envelope the
    inner backend would have used, unchanged; so where the signer returns its
    input the wrapped backend behaves as the inner one, and where the signer
    fails nothing is sent. *)
Theorem dkim_Send_inner o cfg inner b m :
  NewDKIMSigningBackend cfg (SMTPBackend inner) = Ok b →
  let from' := if bool_decide (from m = "") then smtp_From inner else from m in
  let raw := buildRFC5322 o from' (to m) (subject m) (body m) (headers m) in
  Send o (SMTPBackend inner) m = smtp_send inner from' (to m) raw ∧
  ∃ s, parsePrivateKey (PrivateKeyPEM cfg) = Ok s ∧
    Send o b m = match dkim_Sign (dkim_Domain cfg) (Selector cfg) s raw with
                 | Ok signed => smtp_send inner from' (to m) signed
                 | Err e => Err (EWrap (Text "dkim: sign: %w" []) e)
                 end.
Proof.
  unfold NewDKIMSigningBackend. simpl. destruct (parsePrivateKey _) as [s|]; [|done].
  intros [= <-]. split; [done|]. exists s. split; [done|].
  simpl. unfold dkim_Send, DefaultFrom. destruct (dkim_Sign _ _ _ _) as [signed|]; [|done].
  unfold smtp_SendRaw. destruct (bool_decide (from m = "")) eqn:E; [|by rewrite E].
  by destruct (bool_decide (smtp_From inner = "")).
Qed.

End Backends.

(** Libraries that accept every message and sign by a prefix. *)
#[local] Instance demo_network : Network := {
  SendMail _ _ _ _ _ := Ok ();
  Do _ := Ok (202, "");
  key := unit; signer := unit;
  pem_Decode s := Some s; ParsePKCS8 _ := Ok (); ParsePKCS1 _ := Ok ();
  as_signer _ := Some ();
  dkim_Sign d sel _ raw := Ok ("DKIM-Signature: d=" +:+ d +:+ CRLF +:+ raw) }.

Definition demo_smtp : SMTPConfig := NewSMTP (MkSMTPConfig "mx:587" "" "" "noreply@x" 0).

Lemma dkim_Send_inner_witness :
  Send some_order (DKIMSigningBackend (Net := demo_network) demo_smtp "x" "s" ()) demo_message = Ok ().
Proof.
  destruct (dkim_Send_inner some_order (MkDKIMConfig "pem" "x" "s") demo_smtp
    (DKIMSigningBackend (Net := demo_network) demo_smtp "x" "s" ()) demo_message eq_refl) as [_ (s & _ & Hs)].
  rewrite Hs. reflexivity.
Defined.

(** ** The relay node (relay.go) *)
Section Server.
Context {GU : GoUnicode} {Net : Network}.

(** [lis] is the address of the open listener; [started] is [startOnce]. *)
Record RelayServer := MkRelayServer {
  backend : Backend;
  queue : option RelayQueue.State;
  queue_cfg : QueueConfig;                 (* the queue's own configuration *)
  started : bool;
  lis : option string;
  grpcSrv : bool }.

(** [New(backend, opts...)]: [queueCfg] is what [WithQueue] was given. *)
Definition New (b : Backend) (queueCfg : option QueueConfig) (now : Time) : RelayServer :=
  match queueCfg with
  | Some cfg => MkRelayServer b (Some (NewRelayQueue cfg now)) (with_defaults cfg) false None false
  | None => MkRelayServer b None (MkQueueConfig 0 0 0 0) false None false
  end.

(** [Start(addr)]; [listen] is the outcome of [net.Listen], the bound address. *)
Definition Start (addr : string) (listen : result string) (s : RelayServer)
    : result unit * RelayServer :=
  if started s then (Ok (), s)
  else
    match listen with
    | Err err =>
        (Err (EWrap (Text "relay: listen %s: %w" [AStr addr]) err),
         MkRelayServer (backend s) (queue s) (queue_cfg s) true (lis s) (grpcSrv s))
    | Ok a => (Ok (), MkRelayServer (backend s) (queue s) (queue_cfg s) true (Some a) true)
    end.

(** [Addr] *)
Definition Addr (s : RelayServer) : string := default "" (lis s).

Definition maxRelayBodyBytes : Z := Z.shiftl 25 20.

(** [SendMessage] up to the delivery: the message to deliver, [None] when there
    is nobody to deliver to. *)
Definition prepare (req : SendMessageRequest) : result (option Message) :=
  if maxRelayBodyBytes <? len (Body req) then
    Err (EStatus InvalidArgument (Text "relay: message body exceeds %d bytes" [AInt maxRelayBodyBytes]))
  else
    let recipients := match DeliverTo req with [] => RecipientIds req | l => l end in
    match recipients with
    | [] => Ok None
    | _ => Ok (Some (MkMessage (UserId req) recipients (Subject req) (Body req) (Headers req)))
    end.

Definition set_queue (q : RelayQueue.State) (s : RelayServer) : RelayServer :=
  MkRelayServer (backend s) (Some q) (queue_cfg s) (started s) (lis s) (grpcSrv s).

(** [SendMessage], with the calls of [backend.Send] it makes itself. *)
Inductive SendMessage (o : MapOrder) (done : option error) (req : SendMessageRequest) (s : RelayServer)
    : result unit → list Message → RelayServer → Prop :=
| send_invalid e : prepare req = Err e → SendMessage o done req s (Err e) [] s
| send_nobody : prepare req = Ok None → SendMessage o done req s (Ok ()) [] s
| send_queued m q q' :
    prepare req = Ok (Some m) → queue s = Some q →
    Enqueue (bufSize (queue_cfg s)) done m q (Ok ()) q' →
    SendMessage o done req s (Ok ()) [] (set_queue q' s)
| send_refused m q q' err :
    prepare req = Ok (Some m) → queue s = Some q →
    Enqueue (bufSize (queue_cfg s)) done m q (Err err) q' →
    SendMessage o done req s
      (Err (EStatus ResourceExhausted (Text "relay queue full: %v" [AErr err]))) [] (set_queue q' s)
| send_now m :
    prepare req = Ok (Some m) → queue s = None → Send o (backend s) m = Ok () →
    SendMessage o done req s (Ok ()) [m] s
| send_failed m err :
    prepare req = Ok (Some m) → queue s = None → Send o (backend s) m = Err err →
    SendMessage o done req s
      (Err (EStatus Internal (Text "relay %s: %v" [AStr (Name (backend s)); AErr err]))) [m] s.

(** [Stop]: the gRPC server first, then the queue. *)
Inductive Stop (s : RelayServer) : RelayServer → Prop :=
| stop_server :
    queue s = None →
    Stop s (MkRelayServer (backend s) None (queue_cfg s) (started s) (lis s) false)
| stop_server_queue q q' :
    queue s = Some q → RelayQueue.Stop (queue_cfg s) q q' →
    Stop s (MkRelayServer (backend s) (Some q') (queue_cfg s) (started s) (lis s) false).

(** The messages a server has taken on, in its queue or by a call of the backend. *)
Definition queued (s : RelayServer) : list Message :=
  match queue s with Some q => accepted q | None => [] end.

Lemma prepare_to req m :
  prepare req = Ok (Some m) → DeliverTo req ≠ [] →
  m = MkMessage (UserId req) (DeliverTo req) (Subject req) (Body req) (Headers req).
Proof.
  unfold prepare. case_match; [done|]. destruct (DeliverTo req) as [|x l] eqn:E; [done|].
  by intros [= <-].
Qed.

(** C30. End to end, the relay writes only to the recipients it was chosen for:
    for every call a forwarding node makes while handling a request, if the
    callee is a relay node, then each message the relay passes to its backend
    or puts into its queue is the submitted one, addressed to a non-empty list
    of recipients that the forwarding node's registry routes to that relay;
    never to the other recipients of the request. *)
Theorem relay_serves_routed_recipients net o f req st o' done addr r res s out calls s' :
  ∀ new, Forwarder.history (Forwarder.handle net o f req st).2 = Forwarder.history st ++ new →
  (Forwarder.CSend addr r, res) ∈ new →
  SendMessage o' done r s out calls s' →
  ∀ m, m ∈ calls ∨ queued s' = queued s ++ [m] →
  to m ≠ [] ∧ (∀ x, x ∈ to m → Forwarder.routed f addr x) ∧
  from m = UserId req ∧ subject m = Subject req ∧ body m = Body req ∧ headers m = Headers req.
Proof.
  intros new Hnew Hin Hsend m Hm.
  destruct (Forwarder.handle_history net o f req st) as (new' & Hnew' & Hok & _).
  rewrite Hnew in Hnew'. apply app_inv_head in Hnew' as <-.
  rewrite list.Forall_forall in Hok. destruct (Hok _ Hin) as (rs & -> & Hne & Hrs).
  assert (prepare (with_DeliverTo rs req) = Ok (Some m)) as Hp.
  { assert (∀ l : list Message, l ≠ l ++ [m]) as Hneq.
    { intros l Hl. apply (f_equal length) in Hl. rewrite length_app in Hl. simpl in Hl. lia. }
    unfold queued in Hm.
    destruct Hsend as [e Hp|Hp|m' q q' Hp Hq Henq|m' q q' err Hp Hq Henq|m' Hp Hq|m' err Hp Hq];
      simpl in Hm; destruct Hm as [Hm|Hm];
      rewrite ?elem_of_nil, ?list_elem_of_singleton in Hm; try done;
      rewrite ?Hq in Hm; try (by destruct (Hneq _ Hm)); subst; try done.
    - inversion Henq; subst. simpl in Hm. apply app_inv_head in Hm. by injection Hm as ->.
    - inversion Henq; subst; by destruct (Hneq _ Hm). }
  apply prepare_to in Hp; [|done]. by subst m.
Qed.

(** [Start] runs once: after any first call, successful or not, every later
    call reports success and changes nothing; in particular after a failed first
    call the server never listens, although the later calls return [nil]. *)
Theorem relay_Start_once addr listen s addr' listen' :
  started s = false → lis s = None →
  let '(r1, s1) := Start addr listen s in
  Start addr' listen' s1 = (Ok (), s1) ∧
  (is_ok r1 = is_ok listen) ∧ (is_ok r1 = false → Addr s1 = "").
Proof.
  intros Hst Hlis. unfold Start. rewrite Hst. destruct listen as [a|e]; simpl.
  - done.
  - unfold Addr. simpl. by rewrite Hlis.
Qed.

End Server.

Lemma relay_Start_once_witness :
  let s := New (SMTPBackend demo_smtp) None 0 in
  let s1 := (Start "127.0.0.1:1" (Err (EExternal "in use")) s).2 in
  Start "127.0.0.1:2" (Ok "127.0.0.1:2") s1 = (Ok (), s1) ∧ Addr s1 = "".
Proof.
  pose proof (relay_Start_once "127.0.0.1:1" (Err (EExternal "in use"))
    (New (SMTPBackend demo_smtp) None 0) "127.0.0.1:2" (Ok "127.0.0.1:2") eq_refl eq_refl)
    as (H1 & _ & H3).
  split; [exact H1 | exact (H3 eq_refl)].
Defined.

Definition demo_node : Forwarder.Forwarder := Forwarder.MkForwarder "nodeA"
  (λ r, if bool_decide (r = "a@x") then Ok "nodeA" else Ok "outbound") (λ _, Ok "relay:1").
Definition demo_request : SendMessageRequest := MkReq "a@x" ["a@x"; "b@y"] [] "hi" "text" ∅.
Definition demo_relay : RelayServer := New (SMTPBackend demo_smtp) None 0.
Definition relayed : Message := MkMessage "a@x" ["b@y"] "hi" "text" ∅.

Definition demo_history : list (Forwarder.Call * result unit) :=
  Forwarder.history (Forwarder.handle (λ _ _, Ok ()) some_order demo_node demo_request
    (Forwarder.MkState ∅ [])).2.

Lemma relay_serves_routed_recipients_witness :
  SendMessage some_order None (with_DeliverTo ["b@y"] demo_request) demo_relay (Ok ()) [relayed] demo_relay
  ∧ Forwarder.routed demo_node "relay:1" "b@y".
Proof.
  assert (SendMessage some_order None (with_DeliverTo ["b@y"] demo_request) demo_relay
    (Ok ()) [relayed] demo_relay) as Hs by by constructor.
  split; [exact Hs|].
  destruct (relay_serves_routed_recipients (λ _ _, Ok ()) some_order demo_node demo_request
    (Forwarder.MkState ∅ []) some_order None "relay:1" (with_DeliverTo ["b@y"] demo_request) (Ok ())
    demo_relay (Ok ()) [relayed] demo_relay (demo_history ++ [])) with (m := relayed) as (_ & H & _).
  - vm_compute. reflexivity.
  - apply list_elem_of_In. vm_compute. auto.
  - exact Hs.
  - left. by left.
  - apply H. by left.
Defined.

End Relay.
