(* ===== verification/Nodekey.v ===== *)
(** * Node keys and the bearer guard

    Models [internal/nodekey/nodekey.go] and [internal/guard/bearer.go], with the
    part of [encoding/base64] they use ([StdEncoding]). [crypto/ed25519] is a
    class with its documented laws. *)
From Stdlib Require Import Ascii.
From S2P Require Import Prelude GoStrings Store MemStore.
Local Open Scope string_scope.
Local Open Scope Z_scope.

(** ** base64.StdEncoding *)
Module Base64.

(** The digit for a 6-bit value, and back. *)
Definition enc6 (z : Z) : ascii :=
  if z <? 26 then of_byte (65 + z)
  else if z <? 52 then of_byte (71 + z)
  else if z <? 62 then of_byte (z - 4)
  else if z =? 62 then "+"%char else "/"%char.

Definition dec6 (c : ascii) : option Z :=
  let b := byte_of c in
  if (65 <=? b) && (b <=? 90) then Some (b - 65)
  else if (97 <=? b) && (b <=? 122) then Some (b - 71)
  else if (48 <=? b) && (b <=? 57) then Some (b + 4)
  else if b =? 43 then Some 62
  else if b =? 47 then Some 63
  else None.

Definition pad : ascii := "=".

Fixpoint EncodeToString (s : string) : string :=
  match s with
  | "" => ""
  | String a "" =>
      let a := byte_of a in
      String (enc6 (a / 4)) (String (enc6 (a mod 4 * 16)) (String pad (String pad "")))
  | String a (String b "") =>
      let a := byte_of a in let b := byte_of b in
      String (enc6 (a / 4)) (String (enc6 (a mod 4 * 16 + b / 16))
        (String (enc6 (b mod 16 * 4)) (String pad "")))
  | String a (String b (String c rest)) =>
      let a := byte_of a in let b := byte_of b in let c := byte_of c in
      String (enc6 (a / 4)) (String (enc6 (a mod 4 * 16 + b / 16))
        (String (enc6 (b mod 16 * 4 + c / 64)) (String (enc6 (c mod 64)) (EncodeToString rest))))
  end.

(** One quantum of four characters, the last one possibly padded. *)
Fixpoint decode (s : string) : option string :=
  match s with
  | "" => Some ""
  | String c0 (String c1 (String c2 (String c3 rest))) =>
      match dec6 c0, dec6 c1, dec6 c2, dec6 c3 with
      | Some s0, Some s1, Some s2, Some s3 =>
          match decode rest with
          | Some out => Some (String (of_byte (s0 * 4 + s1 / 16))
                         (String (of_byte (s1 mod 16 * 16 + s2 / 4))
                           (String (of_byte (s2 mod 4 * 64 + s3)) out)))
          | None => None
          end
      | Some s0, Some s1, Some s2, None =>
          if bool_decide (c3 = pad ∧ rest = "") then
            Some (String (of_byte (s0 * 4 + s1 / 16)) (String (of_byte (s1 mod 16 * 16 + s2 / 4)) ""))
          else None
      | Some s0, Some s1, None, None =>
          if bool_decide (c2 = pad ∧ c3 = pad ∧ rest = "") then
            Some (String (of_byte (s0 * 4 + s1 / 16)) "")
          else None
      | _, _, _, _ => None
      end
  | _ => None
  end.

(** Line breaks in the input are skipped. *)
Definition DecodeString (s : string) : result string :=
  match decode (filter_bytes (λ b, negb (is_crlf b)) s) with
  | Some out => Ok out
  | None => Err (EExternal "illegal base64 data")
  end.

Lemma enc6_byte z : 0 <= z < 64 →
  byte_of (enc6 z) = if z <? 26 then 65 + z else if z <? 52 then 71 + z
                     else if z <? 62 then z - 4 else if z =? 62 then 43 else 47.
Proof.
  intros Hz. unfold enc6. repeat case_match; go_bools; rewrite ?byte_of_of_byte by lia; done.
Qed.

Lemma dec6_enc6 z : 0 <= z < 64 → dec6 (enc6 z) = Some z.
Proof.
  intros Hz. unfold dec6. rewrite enc6_byte by done.
  destruct (Z.ltb_spec z 26); [|destruct (Z.ltb_spec z 52); [|destruct (Z.ltb_spec z 62);
    [|destruct (Z.eqb_spec z 62)]]];
  repeat match goal with |- context [?a <=? ?b] => destruct (Z.leb_spec a b); [|try lia] end;
  simpl; try lia; f_equal; lia.
Qed.

Lemma enc6_no_crlf z : 0 <= z < 64 → is_crlf (byte_of (enc6 z)) = false.
Proof.
  intros Hz. rewrite enc6_byte by done. unfold is_crlf.
  rewrite orb_false_iff, !Z.eqb_neq. repeat case_match; go_bools; lia.
Qed.

(** Induction by three bytes at a time. *)
Lemma string3_ind (P : string → Prop) :
  P "" → (∀ a, P (String a "")) → (∀ a b, P (String a (String b ""))) →
  (∀ a b c s, P s → P (String a (String b (String c s)))) → ∀ s, P s.
Proof.
  intros H0 H1 H2 H3. fix IH 1. intros [|a [|b [|c s]]]; [done..|]. apply H3, IH.
Qed.

Lemma dec6_pad : dec6 pad = None.
Proof. reflexivity. Qed.

(** The 6-bit groups of up to three bytes, and the bytes they give back. *)
Lemma sextets a b c :
  0 <= a < 256 → 0 <= b < 256 → 0 <= c < 256 →
  (0 <= a / 4 < 64 ∧ 0 <= a mod 4 * 16 < 64 ∧ 0 <= a mod 4 * 16 + b / 16 < 64 ∧
   0 <= b mod 16 * 4 < 64 ∧ 0 <= b mod 16 * 4 + c / 64 < 64 ∧ 0 <= c mod 64 < 64) ∧
  (a / 4 * 4 + a mod 4 * 16 / 16 = a ∧ a / 4 * 4 + (a mod 4 * 16 + b / 16) / 16 = a ∧
   (a mod 4 * 16 + b / 16) mod 16 * 16 + b mod 16 * 4 / 4 = b ∧
   (a mod 4 * 16 + b / 16) mod 16 * 16 + (b mod 16 * 4 + c / 64) / 4 = b ∧
   (b mod 16 * 4 + c / 64) mod 4 * 64 + c mod 64 = c).
Proof. intros. Z.to_euclidean_division_equations. lia. Qed.

Lemma decode_encode s : decode (EncodeToString s) = Some s.
Proof.
  induction s as [|a|a b|a b c s IH] using string3_ind; [done|..].
  - destruct (sextets (byte_of a) 0 0) as [(?&?&?&?&?&?) (E1&E2&E3&E4&E5)];
      [apply byte_of_range|lia|lia|].
    cbn [EncodeToString decode]. rewrite !dec6_enc6, dec6_pad by done. simpl. by rewrite E1, of_byte_byte_of.
  - destruct (sextets (byte_of a) (byte_of b) 0) as [(?&?&?&?&?&?) (E1&E2&E3&E4&E5)];
      [apply byte_of_range|apply byte_of_range|lia|].
    cbn [EncodeToString decode]. rewrite !dec6_enc6, dec6_pad by done. simpl. by rewrite E2, E3, !of_byte_byte_of.
  - destruct (sextets (byte_of a) (byte_of b) (byte_of c)) as [(?&?&?&?&?&?) (E1&E2&E3&E4&E5)];
      [apply byte_of_range..|].
    cbn [EncodeToString decode]. rewrite !dec6_enc6, IH by done. by rewrite E2, E4, E5, !of_byte_byte_of.
Qed.

Lemma encode_no_crlf s : filter_bytes (λ b, negb (is_crlf b)) (EncodeToString s) = EncodeToString s.
Proof.
  induction s as [|a|a b|a b c s IH] using string3_ind; [done|..];
    [destruct (sextets (byte_of a) 0 0) as [(?&?&?&?&?&?) _]; [apply byte_of_range|lia|lia|]
    |destruct (sextets (byte_of a) (byte_of b) 0) as [(?&?&?&?&?&?) _];
       [apply byte_of_range|apply byte_of_range|lia|]
    |destruct (sextets (byte_of a) (byte_of b) (byte_of c)) as [(?&?&?&?&?&?) _];
       [apply byte_of_range..|]];
    simpl; rewrite ?enc6_no_crlf by done; simpl; by rewrite ?IH.
Qed.

Lemma DecodeString_EncodeToString s : DecodeString (EncodeToString s) = Ok s.
Proof. unfold DecodeString. by rewrite encode_no_crlf, decode_encode. Qed.

Lemma EncodeToString_empty s : EncodeToString s = "" → s = "".
Proof. by destruct s as [|a [|b [|c s]]]. Qed.

End Base64.

(** ** crypto/ed25519 *)
Definition PrivateKeySize : Z := 64.
Definition PublicKeySize : Z := 32.

(** Keys, messages and signatures are byte strings; [keypair] relates the two
    keys of one pair. *)
Class Ed25519 := {
  Sign : string → string → string;
  ed_Verify : string → string → string → bool;
  keypair : string → string → Prop;                     (* public, private *)
  keypair_sizes : ∀ pub priv, keypair pub priv → len pub = PublicKeySize ∧ len priv = PrivateKeySize;
  verify_sign : ∀ pub priv body, keypair pub priv → ed_Verify pub body (Sign priv body) = true }.

(** ** nodekey.go *)
Module Nodekey.
Import Base64.

(** [generated] is the outcome of [ed25519.GenerateKey(rand.Reader)]: the public
    and the private key. *)
Definition EnsureKey {S} {SO : StoreOps S} (generated : result (string * string)) (node : Node) (s : S)
    : result Node * S :=
  if negb (bool_decide (PrivateKeyB64 node = "")) then (Ok node, s)
  else match generated with
       | Err err => (Err (EWrap (Text "nodekey: generate: %w" []) err), s)
       | Ok (pub, priv) =>
           let node' := MkNode (ID node) (EncodeToString priv) (EncodeToString pub) in
           match SaveNode node' s with
           | (Err err, s') => (Err (EWrap (Text "nodekey: persist: %w" []) err), s')
           | (Ok _, s') => (Ok node', s')
           end
       end.

Definition DecodePrivate (b64 : string) : result string :=
  match DecodeString b64 with
  | Err err => Err (EWrap (Text "nodekey: decode private key: %w" []) err)
  | Ok raw =>
      if negb (len raw =? PrivateKeySize) then
        Err (EText (Text "nodekey: private key: got %d bytes, want %d" [AInt (len raw); AInt PrivateKeySize]))
      else Ok raw
  end.

Definition DecodePublic (b64 : string) : result string :=
  match DecodeString b64 with
  | Err err => Err (EWrap (Text "nodekey: decode public key: %w" []) err)
  | Ok raw =>
      if negb (len raw =? PublicKeySize) then
        Err (EText (Text "nodekey: public key: got %d bytes, want %d" [AInt (len raw); AInt PublicKeySize]))
      else Ok raw
  end.

Definition Generate (generated : result (string * string)) : result (string * string) :=
  match generated with
  | Err err => Err (EWrap (Text "nodekey: generate: %w" []) err)
  | Ok (pub, priv) => Ok (EncodeToString priv, EncodeToString pub)
  end.

Section Keys.
Context {Ed : Ed25519}.

Lemma Decode_pair pub priv : keypair pub priv →
  DecodePrivate (EncodeToString priv) = Ok priv ∧ DecodePublic (EncodeToString pub) = Ok pub.
Proof.
  intros [Hpub Hpriv]%keypair_sizes. unfold DecodePrivate, DecodePublic.
  by rewrite !DecodeString_EncodeToString, Hpub, Hpriv.
Qed.

(** A key is never encoded as the empty string, which means "no key". *)
Lemma encoded_nonempty pub priv : keypair pub priv →
  EncodeToString priv ≠ "" ∧ EncodeToString pub ≠ "".
Proof.
  intros [Hpub Hpriv]%keypair_sizes.
  split; intros He%EncodeToString_empty; subst; discriminate.
Qed.

Context {S : Type} {SO : StoreOps S} {SL : StoreLaws S}.

Lemma EnsureKey_generates pub priv node s node' s' :
  keypair pub priv → PrivateKeyB64 node = "" →
  EnsureKey (Ok (pub, priv)) node s = (Ok node', s') →
  node' = MkNode (ID node) (EncodeToString priv) (EncodeToString pub) ∧ GetNode (ID node) s' = Ok node'.
Proof.
  intros Hk Hn. unfold EnsureKey. rewrite Hn. simpl.
  destruct (SaveNode _ s) as [[[]|e] s1] eqn:E; [|done]. intros [= <- <-]. split; [done|].
  destruct (encoded_nonempty _ _ Hk). by apply save_node_get in E.
Qed.

(** C31. A key once generated can be used and is kept: for a node without a key,
    [EnsureKey] stores under the node's ID a record that decodes, private and
    public part, to exactly the generated pair; called again with the stored
    record it generates nothing and changes nothing. *)
Theorem EnsureKey_persists pub priv other node s node' s' :
  keypair pub priv → PrivateKeyB64 node = "" →
  EnsureKey (Ok (pub, priv)) node s = (Ok node', s') →
  DecodePrivate (PrivateKeyB64 node') = Ok priv ∧ DecodePublic (PublicKeyB64 node') = Ok pub ∧
  GetNode (ID node) s' = Ok node' ∧ EnsureKey other node' s' = (Ok node', s').
Proof.
  intros Hk Hn He. destruct (EnsureKey_generates _ _ _ _ _ _ Hk Hn He) as [-> Hg]. simpl.
  destruct (Decode_pair _ _ Hk) as [-> ->]. split_and!; [done..|].
  destruct (encoded_nonempty _ _ Hk).
  unfold EnsureKey. simpl. by rewrite bool_decide_eq_false_2.
Qed.

(** A restart replaces the node's key: the controller calls [EnsureKey] with
    a record that holds only the node ID, not with the stored record, so
    whatever key the store already holds for the node, the call generates and
    stores a new one. *)
Theorem restart_replaces_key pub1 priv1 pub2 priv2 id s n1 s1 n2 s2 :
  keypair pub1 priv1 → keypair pub2 priv2 →
  EnsureKey (Ok (pub1, priv1)) (MkNode id "" "") s = (Ok n1, s1) →
  EnsureKey (Ok (pub2, priv2)) (MkNode id "" "") s1 = (Ok n2, s2) →
  GetNode id s1 = Ok n1 ∧ DecodePrivate (PrivateKeyB64 n1) = Ok priv1 ∧
  GetNode id s2 = Ok n2 ∧ DecodePrivate (PrivateKeyB64 n2) = Ok priv2.
Proof.
  intros Hk1 Hk2 H1 H2.
  destruct (EnsureKey_generates pub1 priv1 (MkNode id _ _) _ _ _ Hk1 eq_refl H1) as [-> Hg1].
  destruct (EnsureKey_generates pub2 priv2 (MkNode id _ _) _ _ _ Hk2 eq_refl H2) as [-> Hg2].
  by destruct (Decode_pair _ _ Hk1), (Decode_pair _ _ Hk2).
Qed.

End Keys.

(** A stand-in for the cryptography: the signature repeats the message. *)
Definition demo_pub (c : ascii) : string := String.string_of_list_ascii (replicate 32 c).
Definition demo_priv (c : ascii) : string := String.string_of_list_ascii (replicate 64 c).

#[export] Program Instance demo_ed25519 : Ed25519 := {|
  Sign priv body := body; ed_Verify pub body sig := bool_decide (sig = body);
  keypair pub priv := len pub = PublicKeySize ∧ len priv = PrivateKeySize |}.
Next Obligation. done. Qed.
Next Obligation. intros. by apply bool_decide_eq_true_2. Qed.

#[local] Existing Instances MemStore.ops MemStore.laws.

Lemma EnsureKey_persists_witness :
  let '(r, s') := EnsureKey (Ok (demo_pub "a", demo_priv "b")) (MkNode "n" "" "") MemStore.New in
  match r with
  | Ok n => DecodePrivate (PrivateKeyB64 n) = Ok (demo_priv "b") ∧ GetNode "n" s' = Ok n
  | Err _ => False
  end.
Proof.
  destruct (EnsureKey_persists (S := MemStore.Store) (demo_pub "a") (demo_priv "b")
    (Err (EExternal "unused")) (MkNode "n" "" "") MemStore.New
    (MkNode "n" (EncodeToString (demo_priv "b")) (EncodeToString (demo_pub "a")))
    (EnsureKey (Ok (demo_pub "a", demo_priv "b")) (MkNode "n" "" "") MemStore.New).2)
    as (H1 & _ & H3 & _); [by split|done|vm_compute; reflexivity|].
  vm_compute. split; [exact H1 | exact H3].
Defined.

Lemma restart_replaces_key_witness :
  let first := EnsureKey (Ok (demo_pub "a", demo_priv "b")) (MkNode "n" "" "") MemStore.New in
  let second := EnsureKey (Ok (demo_pub "c", demo_priv "d")) (MkNode "n" "" "") first.2 in
  match first.1, second.1 with
  | Ok n1, Ok n2 => DecodePrivate (PrivateKeyB64 n1) = Ok (demo_priv "b") ∧
      DecodePrivate (PrivateKeyB64 n2) = Ok (demo_priv "d")
  | _, _ => False
  end.
Proof.
  intros first second.
  destruct (restart_replaces_key (S := MemStore.Store) (demo_pub "a") (demo_priv "b")
    (demo_pub "c") (demo_priv "d") "n" MemStore.New
    (MkNode "n" (EncodeToString (demo_priv "b")) (EncodeToString (demo_pub "a"))) first.2
    (MkNode "n" (EncodeToString (demo_priv "d")) (EncodeToString (demo_pub "c"))) second.2)
    as (_ & H1 & _ & H2); [by split|by split|vm_compute; reflexivity|vm_compute; reflexivity|].
  vm_compute. split; [exact H1 | exact H2].
Defined.

End Nodekey.

(** ** bearer.go *)
Module Guard.

(** [NewBearer(token)]; [None] is the panic. *)
Definition NewBearer (token : string) : option string :=
  if bool_decide (token = "") then None else Some token.

(** [Authenticate]: [md] is the incoming metadata if the call has any, and
    [md.Get("authorization")] the values of that key. *)
Definition Authenticate (token : string) (md : option (gmap string (list string))) : result unit :=
  match md with
  | None => Err (EStatus Unauthenticated (Text "missing request metadata" []))
  | Some md =>
      match default [] (md !! "authorization") with
      | [] => Err (EStatus Unauthenticated (Text "authorization header required" []))
      | v :: _ =>
          if negb (bool_decide (TrimPrefix v "Bearer " = token)) then
            Err (EStatus Unauthenticated (Text "invalid bearer token" []))
          else Ok ()
      end
  end.

(** [Authorize] grants every action. *)
Definition Authorize {Action Resource : Type} (_ : Action) (_ : Resource) : bool := true.

Lemma HasPrefix_app p s : HasPrefix (p +:+ s) p = true.
Proof.
  induction p as [|c p IH]; [by destruct s|].
  change (HasPrefix (String c (p +:+ s)) (String c p) = true). simpl.
  by rewrite bool_decide_eq_true_2, IH.
Qed.

Lemma HasPrefix_split s p : HasPrefix s p = true → s = p +:+ drop_bytes (String.length p) s.
Proof.
  revert s. induction p as [|c p IH]; intros [|d s]; simpl; try done.
  intros [<-%bool_decide_eq_true H]%andb_true_iff.
  change (String c s = String c (p +:+ drop_bytes (String.length p) s)). by rewrite <-IH.
Qed.

Lemma TrimPrefix_app p s : TrimPrefix (p +:+ s) p = s.
Proof.
  unfold TrimPrefix. rewrite HasPrefix_app.
  induction p as [|c p IH]; [by destruct s|]. exact IH.
Qed.

(** A caller is authenticated exactly when the first value of its
    [authorization] metadata is the configured token, bare or after [Bearer ]
    (a token that itself starts with [Bearer ] has to be sent with the prefix);
    every other caller gets [Unauthenticated]. *)
Theorem Authenticate_spec token t md :
  NewBearer token = Some t →
  (Authenticate t md = Ok () ↔
   ∃ m v rest, md = Some m ∧ m !! "authorization" = Some (v :: rest) ∧
     (v = "Bearer " +:+ token ∨ (v = token ∧ HasPrefix token "Bearer " = false))) ∧
  (∀ e, Authenticate t md = Err e → ∃ msg, e = EStatus Unauthenticated msg).
Proof.
  unfold NewBearer. case_bool_decide; [done|]. intros [= <-]. split.
  - split.
    + unfold Authenticate. destruct md as [m|]; [|done].
      destruct (m !! "authorization") as [[|v rest]|] eqn:E; simpl; [done| |done].
      case_bool_decide as Hv; simpl; [|done]. intros _. exists m, v, rest. split_and!; [done..|].
      unfold TrimPrefix in Hv. destruct (HasPrefix v "Bearer ") eqn:Hp.
      * left. apply HasPrefix_split in Hp. by rewrite Hp, Hv.
      * right. by subst.
    + intros (m & v & rest & -> & E & Hv). unfold Authenticate. rewrite E. cbn [from_option id].
      enough (TrimPrefix v "Bearer " = token) as -> by by rewrite bool_decide_eq_true_2.
      destruct Hv as [->|[-> Hp]]; [apply TrimPrefix_app|]. unfold TrimPrefix. by rewrite Hp.
  - unfold Authenticate. intros e. repeat case_match; intros [= <-]; eauto.
Qed.

Lemma Authenticate_spec_witness :
  Authenticate "s3cret" (Some {["authorization" := ["Bearer s3cret"]]}) = Ok ().
Proof.
  apply (Authenticate_spec "s3cret" "s3cret" (Some {["authorization" := ["Bearer s3cret"]]}) eq_refl).
  eexists _, _, _. split; [reflexivity|]. split; [reflexivity|]. by left.
Defined.

End Guard.
