(* ===== verification/Webhook.v ===== *)
(** * Webhook delivery

    Models [internal/webhook]: the retry schedule down to its [float64]
    arithmetic (retry.go), signatures (signer.go), the payload (payload.go), the
    options (options.go) and the dispatcher (dispatcher.go) with its event
    handler, workers and sweeper over a delivery store. *)
From Stdlib Require Import Ascii.
From S2P Require Import Prelude GoStrings Store MemStore Nodekey.
From stdpp Require Import pretty.
Local Open Scope Z_scope.

(** ** retry.go *)
Module Retry.

Definition retryBase : Duration := 10 * Second.
Definition retryMax : Duration := 1 * Hour.
Definition defaultMaxTry : Z := 5.

(** Rounding to the nearest [float64], ties to even, of [m * 2^-k] for any fixed
    [k] (the exponent range is never left here): [m] is rounded to a multiple of
    the unit in the last place of a 53-bit significand. *)
Definition ulp_exp (m : Z) : Z := 0 `max` (Z.log2 (Z.abs m) - 52).

Definition round_even (m d : Z) : Z :=
  let q := m / d in
  let r := m mod d in
  if 2 * r <? d then q
  else if d <? 2 * r then q + 1
  else if Z.even q then q else q + 1.

Definition rnd53 (m : Z) : Z := let d := 2 ^ ulp_exp m in round_even m d * d.

(** [0.2] as a [float64] is [jitter_mantissa * 2^-54]. *)
Definition jitter_mantissa : Z := 3602879701896397.

(** [float64(retryBase) * math.Pow(2, float64(n))], capped; every value is an
    integer that a [float64] holds exactly. *)
Definition delay (n : Z) : Z := let d := retryBase * 2 ^ n in if retryMax <? d then retryMax else d.

(** [NextRetryAt(n)] at time [now]; [k] is the 53-bit random number of which
    [rand.Float64()] is the fraction [k / 2^53]. Scales: [amplitude] 2^-54,
    [rand.Float64()*2 - 1] 2^-52, [jitter] and the sum 2^-106. *)
Definition amplitude (d : Z) : Z := rnd53 (d * jitter_mantissa).
Definition jitter (d k : Z) : Z := rnd53 (amplitude d * (k - 2 ^ 52)).
Definition jittered (d k : Z) : Duration := Z.quot (rnd53 (d * 2 ^ 106 + jitter d k)) (2 ^ 106).

Definition NextRetryAt (now : Time) (k n : Z) : Time := now + jittered (delay n) k.

(** [isPermanentFailure] *)
Definition isPermanentFailure (httpStatus : Z) : bool :=
  (400 <=? httpStatus) && (httpStatus <? 500) && negb (httpStatus =? 429).

(** *** Rounding lemmas *)

(** Rounding to multiples of [d] does not cross a multiple of [d]. *)
Lemma round_even_le m d B : 0 < d → (d | B) → m <= B → round_even m d * d <= B.
Proof.
  intros Hd [b ->] Hm. unfold round_even.
  pose proof (Z.div_mod m d ltac:(lia)) as Hdm. pose proof (Z.mod_pos_bound m d Hd) as Hr.
  set (q := m / d) in *. set (r := m mod d) in *.
  assert (q <= b) as Hqb by nia.
  assert (0 < r → q < b) as Hlt by nia.
  destruct (Z.ltb_spec (2 * r) d); [nia|]. specialize (Hlt ltac:(lia)).
  destruct (Z.ltb_spec d (2 * r)); [nia|]. destruct (Z.even q); nia.
Qed.

Lemma round_even_ge m d B : 0 < d → (d | B) → B <= m → B <= round_even m d * d.
Proof.
  intros Hd [b ->] Hm. unfold round_even.
  pose proof (Z.div_mod m d ltac:(lia)) as Hdm. pose proof (Z.mod_pos_bound m d Hd) as Hr.
  set (q := m / d) in *. set (r := m mod d) in *.
  assert (b <= q) as Hqb by nia. destruct (2 * r <? d), (d <? 2 * r), (Z.even q); nia.
Qed.

(** Bounds that are multiples of a large power of two survive rounding. *)
Lemma rnd53_bounds m lo hi e :
  0 <= e → Z.abs m < 2 ^ (e + 53) → (2 ^ e | lo) → (2 ^ e | hi) → lo <= m <= hi → lo <= rnd53 m <= hi.
Proof.
  intros He Hm Hlo Hhi [Hl Hh]. unfold rnd53.
  assert (0 <= ulp_exp m <= e) as Hu.
  { unfold ulp_exp. destruct (Z.eq_dec m 0) as [->|Hne]; [simpl; lia|].
    assert (Z.log2 (Z.abs m) < e + 53) by (apply Z.log2_lt_pow2; lia). lia. }
  assert (∀ B, (2 ^ e | B) → (2 ^ ulp_exp m | B)) as Hdiv.
  { intros B HB. etrans; [|exact HB]. exists (2 ^ (e - ulp_exp m)).
    rewrite <-Z.pow_add_r by lia. f_equal. lia. }
  assert (0 < 2 ^ ulp_exp m) by (apply Z.pow_pos_nonneg; lia).
  split; [by apply round_even_ge; auto | by apply round_even_le; auto].
Qed.

Lemma delay_cases n : 0 <= n → delay n ∈ retryMax :: ((λ n, retryBase * 2 ^ n) <$> seqZ 0 9).
Proof.
  intros Hn. unfold delay. destruct (Z.ltb_spec retryMax (retryBase * 2 ^ n)) as [H|H]; [by left|].
  right. apply list_elem_of_fmap. exists n. split; [done|]. apply elem_of_seqZ. split; [lia|].
  destruct (Z.lt_ge_cases n 9); [lia|]. exfalso.
  assert (2 ^ 9 <= 2 ^ n) as Hp by (apply Z.pow_le_mono_r; lia).
  unfold retryMax, retryBase, Hour, Minute, Second in *. change (2 ^ 9) with 512 in Hp. lia.
Qed.

(** What holds of each of the ten delays, by computation: a fifth of it is exact. *)
Lemma delay_ok n : 0 <= n →
  0 < delay n <= retryMax ∧ (5 | delay n) ∧ amplitude (delay n) = delay n / 5 * 2 ^ 54.
Proof.
  intros Hn. pose proof (delay_cases n Hn) as Hin. revert Hin. generalize (delay n) as d.
  intros d Hin.
  assert (forallb (λ d, (0 <? d) && (d <=? retryMax) && (d mod 5 =? 0) &&
    (amplitude d =? d / 5 * 2 ^ 54)) (retryMax :: ((λ n, retryBase * 2 ^ n) <$> seqZ 0 9)) = true)
    as Hall by (vm_compute; reflexivity).
  rewrite forallb_forall in Hall. specialize (Hall d (proj1 (list_elem_of_In _ _) Hin)).
  go_bools. split_and!; [lia|lia| |done]. by apply Z.mod_divide.
Qed.

Lemma jittered_bounds d k :
  0 < d <= retryMax → (5 | d) → amplitude d = d / 5 * 2 ^ 54 → 0 <= k < 2 ^ 53 →
  d - d / 5 <= jittered d k <= d + d / 5.
Proof.
  intros Hd [f ->] Ha Hk. rewrite Z.div_mul in * by lia.
  assert (0 < f < 2 ^ 40) as Hf.
  { unfold retryMax, Hour, Minute, Second in Hd. change (2 ^ 40) with 1099511627776. lia. }
  assert (- (f * 2 ^ 106) <= jitter (f * 5) k <= f * 2 ^ 106) as Hj.
  { unfold jitter. rewrite Ha. change (2 ^ 106) with (2 ^ 54 * 2 ^ 52).
    apply (rnd53_bounds _ _ _ 100).
    - lia.
    - change (2 ^ (100 + 53)) with (2 ^ 54 * 2 ^ 99). change (2 ^ 40) with 1099511627776 in Hf.
      change (2 ^ 53) with (2 * 2 ^ 52) in Hk. change (2 ^ 99) with (2 ^ 47 * 2 ^ 52).
      rewrite !Z.abs_mul. rewrite (Z.abs_eq f), (Z.abs_eq (2 ^ 54)) by lia.
      assert (Z.abs (k - 2 ^ 52) <= 2 ^ 52) by lia.
      change (2 ^ 47) with 140737488355328. nia.
    - exists (- f * 2 ^ 6). change (2 ^ 54 * 2 ^ 52) with (2 ^ 6 * 2 ^ 100). lia.
    - exists (f * 2 ^ 6). change (2 ^ 54 * 2 ^ 52) with (2 ^ 6 * 2 ^ 100). lia.
    - change (2 ^ 53) with (2 * 2 ^ 52) in Hk. nia. }
  assert (f * 4 * 2 ^ 106 <= rnd53 (f * 5 * 2 ^ 106 + jitter (f * 5) k) <= f * 6 * 2 ^ 106) as Hs.
  { apply (rnd53_bounds _ _ _ 106).
    - lia.
    - change (2 ^ (106 + 53)) with (2 ^ 53 * 2 ^ 106). change (2 ^ 40) with 1099511627776 in Hf.
      change (2 ^ 53) with 9007199254740992. lia.
    - by exists (f * 4).
    - by exists (f * 6).
    - lia. }
  unfold jittered. rewrite Z.quot_div_nonneg by lia.
  replace (f * 5 - f) with (f * 4) by lia. replace (f * 5 + f) with (f * 6) by lia.
  split; [apply Z.div_le_lower_bound; lia|]. apply Z.div_le_upper_bound; lia.
Qed.

Lemma retry_bounds now k n :
  0 <= n → 0 <= k < 2 ^ 53 →
  let d := (retryBase * 2 ^ n) `min` retryMax in
  4 * d <= 5 * (NextRetryAt now k n - now) <= 6 * d ∧
  8 * Second <= NextRetryAt now k n - now <= 72 * Minute.
Proof.
  intros Hn Hk d. assert (d = delay n) as Hd.
  { unfold d, delay. destruct (Z.ltb_spec retryMax (retryBase * 2 ^ n)); lia. }
  destruct (delay_ok n Hn) as (Hr & H5 & Ha).
  pose proof (jittered_bounds _ k Hr H5 Ha Hk) as Hj. rewrite Hd. unfold NextRetryAt.
  assert (retryBase <= delay n) as Hb.
  { rewrite <-Hd. unfold d. assert (0 < 2 ^ n) by (apply Z.pow_pos_nonneg; lia).
    unfold retryBase, retryMax, Hour, Minute, Second. lia. }
  destruct H5 as [f Hf]. rewrite Hf in *. rewrite Z.div_mul in Hj by lia.
  unfold retryBase, retryMax, Hour, Minute, Second in *. lia.
Qed.

Lemma retry_window now k n :
  0 <= n → 0 <= k < 2 ^ 53 → 8 * Second <= NextRetryAt now k n - now <= 72 * Minute.
Proof. intros Hn Hk. by apply (retry_bounds now k n). Qed.

(** C32. The retry schedule, computed in [float64]: for every attempt number and
    every random number the retry falls between 0.8 and 1.2 times
    [min (10s * 2^n) 1h] after now, so at least 8 seconds and at most 72 minutes
    later; rounding never leaves these bounds. *)
Theorem NextRetryAt_bounds now k n :
  0 <= n → 0 <= k < 2 ^ 53 →
  let d := (retryBase * 2 ^ n) `min` retryMax in
  4 * d <= 5 * (NextRetryAt now k n - now) <= 6 * d ∧
  8 * Second <= NextRetryAt now k n - now <= 72 * Minute.
Proof. apply retry_bounds. Qed.

Lemma NextRetryAt_bounds_witness :
  NextRetryAt 0 0 0 = 8 * Second ∧ 8 * Second <= NextRetryAt 0 (2 ^ 53 - 1) 100 - 0 <= 72 * Minute.
Proof. split; [reflexivity|]. apply (NextRetryAt_bounds 0 (2 ^ 53 - 1) 100); lia. Defined.

End Retry.

(** ** signer.go *)
Module Signer.
Import Base64.

Section Signer.
Context {Ed : Ed25519}.

Record Signer := MkSigner { privKey : string; keyID : string }.

Definition NewSigner (privKey keyID : string) : result Signer :=
  if negb (len privKey =? PrivateKeySize) then
    Err (EText (Text "webhook: signer: invalid private key length %d" [AInt (len privKey)]))
  else Ok (MkSigner privKey (if bool_decide (keyID = "") then "v1" else keyID)).

(** [strconv.FormatInt(z, 10)] *)
Definition FormatInt (z : Z) : string := pretty z.

Definition SignedHeaders (s : Signer) (body : string) (ts : Time) : gmap string string :=
  let sig := Sign (privKey s) body in
  <["Content-Type" := "application/json"]> (
  <["X-Postbox-Signature-Ed25519" := EncodeToString sig]> (
  <["X-Postbox-Timestamp" := FormatInt (Unix ts)]> (
  <["X-Postbox-Key-Id" := keyID s]> ∅))).

(** [t.Sub(u)]: the difference, saturated at the range of [Duration]. *)
Definition Sub (t u : Time) : Duration := minInt64 `max` ((t - u) `min` maxInt64).

(** [Verify]; [now] is the clock of the receiver. *)
Definition Verify (now : Time) (pubKey body sigB64 : string) (ts : Time) (maxAge : Duration)
    : result unit :=
  let age := Sub now ts in
  let age := if age <? 0 then wrap64 (- age) else age in
  if maxAge <? age then
    Err (EText (Text "webhook: verify: timestamp too old (age=%v, max=%v)" [AInt age; AInt maxAge]))
  else
    match DecodeString sigB64 with
    | Err err => Err (EWrap (Text "webhook: verify: decode signature: %w" []) err)
    | Ok sig =>
        if negb (ed_Verify pubKey body sig) then
          Err (EText (Text "webhook: verify: invalid signature" []))
        else Ok ()
    end.

(** C34. Receivers accept what the signer sends, and nothing stale: the headers of
    a signed payload carry a signature that [Verify] accepts with the matching
    public key exactly when the timestamp is within [maxAge] of the receiver's
    clock, in either direction, for every clock difference that fits a
    [Duration]; an unsigned or altered body is refused whenever the
    signature does not verify. *)
Theorem SignedHeaders_Verify pub priv kid s body ts now ts' maxAge :
  keypair pub priv → NewSigner priv kid = Ok s → - maxInt64 <= now - ts' <= maxInt64 →
  let sig := mget (SignedHeaders s body ts) "X-Postbox-Signature-Ed25519" in
  (Verify now pub body sig ts' maxAge = Ok () ↔ Z.abs (now - ts') <= maxAge) ∧
  (∀ body', ed_Verify pub body' (Sign priv body) = false → is_ok (Verify now pub body' sig ts' maxAge) = false).
Proof.
  intros Hk Hs Hr. unfold NewSigner in Hs. case_match; [done|]. injection Hs as <-. simpl.
  assert (mget (SignedHeaders (MkSigner priv (if bool_decide (kid = "") then "v1" else kid)) body ts)
    "X-Postbox-Signature-Ed25519" = EncodeToString (Sign priv body)) as -> by reflexivity.
  assert ((if Sub now ts' <? 0 then wrap64 (- Sub now ts') else Sub now ts') = Z.abs (now - ts')) as Hage.
  { assert (Sub now ts' = now - ts') as -> by (unfold Sub, minInt64, maxInt64 in *; lia).
    unfold maxInt64 in Hr.
    destruct (Z.ltb_spec (now - ts') 0); [|lia]. rewrite wrap64_id by (unfold int64_range; lia). lia. }
  unfold Verify. rewrite Hage, DecodeString_EncodeToString. split.
  - rewrite verify_sign by done. destruct (Z.ltb_spec maxAge (Z.abs (now - ts'))); simpl; split; intros;
      first [done | lia | exfalso; lia].
  - intros body' Hb. rewrite Hb. by destruct (maxAge <? _).
Qed.

(** A timestamp far enough in the future passes the age check: the
    difference saturates at the least [Duration], whose negation is itself, so
    it is not larger than any [maxAge]. *)
Theorem Verify_accepts_far_future now pub priv body ts maxAge :
  keypair pub priv → now + 2 ^ 63 <= ts → 0 <= maxAge →
  Verify now pub body (EncodeToString (Sign priv body)) ts maxAge = Ok ().
Proof.
  intros Hk Hts Hm. unfold Verify.
  assert (Sub now ts = minInt64) as -> by (unfold Sub, minInt64, maxInt64; lia).
  change (if minInt64 <? 0 then wrap64 (- minInt64) else minInt64) with minInt64.
  destruct (Z.ltb_spec maxAge minInt64) as [H|H]; [unfold minInt64 in H; lia|].
  by rewrite DecodeString_EncodeToString, verify_sign.
Qed.

End Signer.

#[local] Existing Instance Nodekey.demo_ed25519.

Lemma SignedHeaders_Verify_witness :
  Verify (300 * Second) (Nodekey.demo_pub "p") "body"
    (mget (SignedHeaders (MkSigner (Nodekey.demo_priv "k") "v1") "body" 0) "X-Postbox-Signature-Ed25519")
    0 (5 * Minute) = Ok ().
Proof.
  refine (proj2 (proj1 (SignedHeaders_Verify (Nodekey.demo_pub "p") (Nodekey.demo_priv "k") "" 
    (MkSigner (Nodekey.demo_priv "k") "v1") "body" 0 (300 * Second) 0 (5 * Minute) _ eq_refl _)) _).
  - split; reflexivity.
  - unfold maxInt64, Second. lia.
  - unfold Minute, Second. lia.
Defined.

Lemma Verify_accepts_far_future_witness :
  Verify 0 (Nodekey.demo_pub "p") "body"
    (EncodeToString (Sign (Nodekey.demo_priv "k") "body")) (300 * 365 * 24 * Hour) (5 * Minute) = Ok ().
Proof.
  apply (Verify_accepts_far_future 0 (Nodekey.demo_pub "p") (Nodekey.demo_priv "k")).
  - split; reflexivity.
  - unfold Hour, Minute, Second. lia.
  - unfold Minute, Second. lia.
Defined.

End Signer.

(** ** payload.go *)
Module Payload.

(** Metadata values are arbitrary Go values; only strings are passed on. *)
Inductive any : Type := VString (s : string) | VOther.

(** What [mailbox.Message] offers the dispatcher. *)
Record Message := MkMessage {
  GetID : string; GetThreadID : string; GetReplyToID : string; GetExternalID : string;
  GetSenderID : string; GetSubject : string; GetBody : string; GetMetadata : gmap string any }.

Record Payload := MkPayload {
  EventType : string; MessageID : string; ThreadID : string; ReplyToID : string;
  ExternalID : string; SenderID : string; RecipientID : string; Subject : string;
  Body : string; ReceivedAt : Time; Metadata : option (gmap string string) }.

Definition string_value (v : any) : option string :=
  match v with VString s => Some s | VOther => None end.

(** [BuildPayload]; [None] metadata is the nil map. *)
Definition BuildPayload (recipientID : string) (msg : Message) (receivedAt : Time) : Payload :=
  let meta := if bool_decide (GetMetadata msg = ∅) then None
              else Some (omap string_value (GetMetadata msg)) in
  MkPayload "message.received" (GetID msg) (GetThreadID msg) (GetReplyToID msg)
    (GetExternalID msg) (GetSenderID msg) recipientID (GetSubject msg) (GetBody msg) receivedAt meta.

End Payload.

(** ** dispatcher.go and options.go *)
Module Dispatcher.
Import Retry.

(** The options, applied in order to the defaults of [New]. *)
Record Config := MkConfig {
  workers : Z;
  maxAttempts : Z;
  sweepPeriod : Duration }.

Inductive Option : Type :=
| WithWorkers (n : Z)
| WithMaxAttempts (n : Z)
| WithSweepPeriod (d : Duration)
| WithHTTPClient
| WithLogger.

Definition apply_option (o : Config) (opt : Option) : Config :=
  match opt with
  | WithWorkers n => MkConfig n (maxAttempts o) (sweepPeriod o)
  | WithMaxAttempts n => MkConfig (workers o) n (sweepPeriod o)
  | WithSweepPeriod d => MkConfig (workers o) (maxAttempts o) d
  | WithHTTPClient | WithLogger => o
  end.

Definition New (opts : list Option) : Config :=
  foldl apply_option (MkConfig 4 defaultMaxTry (30 * Second)) opts.

(** [cap(d.queue)] *)
Definition queue_cap (d : Config) : Z := wrap64 (workers d * 10).

(** A POST the dispatcher made, with the job it was for. *)
Record Post := MkPost { post_job : DeliveryJob; post_headers : gmap string string; post_body : string }.

(** The dispatcher's world: the delivery store, the queue, the jobs the workers
    are busy with, and the POSTs so far. *)
Record State (S : Type) := MkState {
  jobs : S;
  queue : list DeliveryJob;
  inflight : list DeliveryJob;
  posts : list Post }.
Arguments MkState {S} _ _ _ _.
Arguments jobs {S} _.
Arguments queue {S} _.
Arguments inflight {S} _.
Arguments posts {S} _.

Section Dispatcher.
Context {S : Type} {SO : StoreOps S} {Ed : Ed25519}.
Variable Marshal : Payload.Payload → result string.
Variable signer : Signer.Signer.
Variable d : Config.

(** [select { case d.queue <- job: default: }] *)
Definition try_enqueue (job : DeliveryJob) (q : list DeliveryJob) : list DeliveryJob :=
  if Z.of_nat (length q) <? queue_cap d then q ++ [job] else q.

(** [onMessageReceived] at time [now]; [resolved] is the answer of
    [users.ResolveUser]: the user's capabilities. *)
Definition onMessageReceived (now : Time) (messageID recipientID : string)
    (resolved : result (gmap string string)) (st : State S) : result unit * State S :=
  match resolved with
  | Err err =>
      if errors_Is err ErrStoreNotFound then (Ok (), st)
      else (Err (EWrap (Text "webhook: lookup user %q: %w" [AStr recipientID]) err), st)
  | Ok caps =>
      let endpoint := mget caps "endpoint" in
      if bool_decide (endpoint = "") then (Ok (), st)
      else
        let job := MkJob messageID recipientID endpoint DeliveryPending 0 (maxAttempts d)
                     no_text now None now 0 in
        match SaveDeliveryJob now job (jobs st) with
        | (Err _, s') => (Ok (), MkState s' (queue st) (inflight st) (posts st))
        | (Ok _, s') => (Ok (), MkState s' (try_enqueue job (queue st)) (inflight st) (posts st))
        end
  end.

(** [fail] at time [now], with the random number [k]. *)
Definition fail (now : Time) (k : Z) (job : DeliveryJob) (errMsg : text) (permanent : bool) (s : S) : S :=
  let job' :=
    if permanent || (MaxAttempts job <=? Attempts job) then
      MkJob (MessageID job) (RecipientID job) (EndpointURL job) DeliveryDead (Attempts job)
        (MaxAttempts job) errMsg (Store.NextRetryAt job) (DeliveredAt job) (JCreatedAt job) (JUpdatedAt job)
    else
      MkJob (MessageID job) (RecipientID job) (EndpointURL job) DeliveryFailed (Attempts job)
        (MaxAttempts job) errMsg (NextRetryAt now k (Attempts job)) (DeliveredAt job) (JCreatedAt job) (JUpdatedAt job) in
  (UpdateDeliveryJob now job' s).2.

(** What the outside answers during an attempt: the mailbox, the construction of
    the request from the endpoint URL, the endpoint itself (a status code); the
    clock and the random number. *)
Record World := MkWorld {
  fetched : result Payload.Message;
  request_error : option error;
  response : result Z;
  clock : Time;
  random : Z }.

Definition count_attempt (job : DeliveryJob) : DeliveryJob :=
  MkJob (MessageID job) (RecipientID job) (EndpointURL job) (Status job) (wrap64 (Attempts job + 1))
    (MaxAttempts job) (LastError job) (Store.NextRetryAt job) (DeliveredAt job) (JCreatedAt job) (JUpdatedAt job).

Definition mark_delivered (now : Time) (job : DeliveryJob) : DeliveryJob :=
  MkJob (MessageID job) (RecipientID job) (EndpointURL job) DeliveryDelivered (Attempts job)
    (MaxAttempts job) no_text (Store.NextRetryAt job) (Some now) (JCreatedAt job) (JUpdatedAt job).

(** [attempt]: the store and the POST made, if any. *)
Definition attempt (w : World) (job : DeliveryJob) (s : S) : S * list Post :=
  match fetched w with
  | Err _ => (s, [])
  | Ok msg =>
      match Marshal (Payload.BuildPayload (RecipientID job) msg (clock w)) with
      | Err _ => (s, [])
      | Ok body =>
          let headers := Signer.SignedHeaders signer body (clock w) in
          match request_error w with
          | Some err =>
              (fail (clock w) (random w) job (Text "build request: %v" [AErr err]) false s, [])
          | None =>
              let post := MkPost job headers body in
              let job := count_attempt job in
              match response w with
              | Err err => (fail (clock w) (random w) job (Text "%v" [AErr err]) false s, [post])
              | Ok StatusCode =>
                  if (200 <=? StatusCode) && (StatusCode <? 300) then
                    ((UpdateDeliveryJob (clock w) (mark_delivered (clock w) job) s).2, [post])
                  else
                    (fail (clock w) (random w) job (Text "HTTP %d" [AInt StatusCode])
                       (isPermanentFailure StatusCode) s, [post])
              end
          end
      end
  end.

(** One tick of [sweeper]. *)
Definition sweep (o : MapOrder) (now : Time) (st : State S) : State S :=
  match ListPendingDeliveryJobs o now (wrap64 (workers d * 10)) (jobs st) with
  | Err _ => st
  | Ok js => MkState (jobs st) (foldl (λ q j, try_enqueue j q) (queue st) js) (inflight st) (posts st)
  end.

(** A [worker] takes a job; and it finishes the attempt, whose only effects on
    the shared state are the POST and the update of the stored job. *)
Definition take_job (st : State S) : State S :=
  match queue st with
  | job :: rest =>
      if Z.of_nat (length (inflight st)) <? workers d
      then MkState (jobs st) rest (inflight st ++ [job]) (posts st) else st
  | [] => st
  end.

Definition finish_job (i : nat) (w : World) (st : State S) : State S :=
  match inflight st !! i with
  | Some job =>
      let '(s', p) := attempt w job (jobs st) in
      MkState s' (queue st) (delete i (inflight st)) (posts st ++ p)
  | None => st
  end.

(** The goroutines of the dispatcher, interleaved. *)
Inductive step (st : State S) : State S → Prop :=
| step_receive now mid rid resolved :
    step st (onMessageReceived now mid rid resolved st).2
| step_sweep o now : step st (sweep o now st)
| step_take : step st (take_job st)
| step_finish i w : 0 <= random w < 2 ^ 53 → step st (finish_job i w st).

(** *** Start and Stop

    Whether the dispatcher is subscribed to the mailbox's events, how many
    workers and sweepers run, and whether [stopCh] is closed. *)
Record lifecycle := MkLifecycle {
  subscribed : bool; running_workers : nat; running_sweepers : nat; stopped : bool }.

Definition not_started : lifecycle := MkLifecycle false 0 0 false.

(** [subscribe] is the outcome of the subscription. *)
Definition Start (subscribe : result unit) (l : lifecycle) : result unit * lifecycle :=
  match subscribe with
  | Err err => (Err (EWrap (Text "webhook dispatcher: subscribe: %w" []) err), l)
  | Ok _ => (Ok (), MkLifecycle true (running_workers l + Z.to_nat (workers d)) (Datatypes.S (running_sweepers l)) (stopped l))
  end.

(** What is left of the dispatcher when [Stop] returns; [None] is the panic of
    closing [stopCh] twice. *)
Definition stop (l : lifecycle) : option lifecycle :=
  if stopped l then None else Some (MkLifecycle (subscribed l) 0 0 true).

(** [Stop]: closes [stopCh] and waits. Until the goroutines have returned the
    system goes on; a worker returns from its [select] with jobs in the queue or
    not. *)
Inductive Stop (l : lifecycle) (st : State S) : option (lifecycle * State S) → Prop :=
| stop_panics : stop l = None → Stop l st None
| stop_returns l' st' : stop l = Some l' → rtc step st st' → inflight st' = [] → Stop l st (Some (l', st')).

(** Stopping does not drain: the queue may be left as it was. *)
Theorem Stop_leaves_queue l st :
  stopped l = false → inflight st = [] →
  Stop l st (Some (MkLifecycle (subscribed l) 0 0 true, st)).
Proof. intros Hl Hi. apply stop_returns; [unfold stop; by rewrite Hl|done|done]. Qed.

End Dispatcher.
(** ** Properties, over the in-memory store *)
#[local] Existing Instances MemStore.ops MemStore.laws.

Section Properties.
Context {Ed : Ed25519}.
Variable Marshal : Payload.Payload → result string.
Variable signer : Signer.Signer.
Variable d : Config.
Abbreviation Store := MemStore.Store.
Abbreviation stored := MemStore.deliveryJobs.

(** The status an attempt that reached the endpoint leads to. *)
Definition next_status (response : result Z) (attempts max : Z) : DeliveryStatus :=
  match response with
  | Ok c =>
      if (200 <=? c) && (c <? 300) then DeliveryDelivered
      else if isPermanentFailure c || (max <=? attempts) then DeliveryDead else DeliveryFailed
  | Err _ => if max <=? attempts then DeliveryDead else DeliveryFailed
  end.

Lemma next_status_failed r a m : DeliveryFailed = next_status r a m → a < m.
Proof.
  unfold next_status. destruct (Z.leb_spec m a); [|done].
  destruct r; [rewrite orb_true_r|done]. by case_match.
Qed.

Definition open (st : DeliveryStatus) : Prop := st = DeliveryPending ∨ st = DeliveryFailed.

(** An update of a known job, and what [fail] stores. *)
Lemma update_stored now j (s : Store) old :
  stored s !! job_key j = Some old →
  stored (UpdateDeliveryJob now j s).2 = <[job_key j := MemStore.update_job now j old]> (stored s).
Proof. intros E. simpl. unfold MemStore.UpdateDeliveryJob. by rewrite E. Qed.

Lemma fail_stored now k j msg permanent (s : Store) old :
  stored s !! job_key j = Some old →
  ∃ j', stored (fail now k j msg permanent s) = <[job_key j := j']> (stored s) ∧
    job_key j' = job_key old ∧ EndpointURL j' = EndpointURL old ∧ MaxAttempts j' = MaxAttempts old ∧
    Attempts j' = Attempts j ∧ LastError j' = msg ∧
    Status j' = (if permanent || (MaxAttempts j <=? Attempts j) then DeliveryDead else DeliveryFailed) ∧
    (Status j' = DeliveryFailed → Store.NextRetryAt j' = NextRetryAt now k (Attempts j)).
Proof.
  intros E. unfold fail. destruct (permanent || (MaxAttempts j <=? Attempts j)).
  - eexists. split; [by erewrite update_stored|]. done.
  - eexists. split; [by erewrite update_stored|]. done.
Qed.

(** What an attempt does to the store: nothing, or one update of the job. *)
Lemma attempt_stored w j (s : Store) old :
  stored s !! job_key j = Some old → 0 <= Attempts j < maxInt64 →
  (attempt Marshal signer w j s = (s, [])) ∨
  (∃ j', stored (attempt Marshal signer w j s).1 = <[job_key j := j']> (stored s) ∧
     job_key j' = job_key old ∧ EndpointURL j' = EndpointURL old ∧ MaxAttempts j' = MaxAttempts old ∧
     ((∃ e, request_error w = Some e ∧ Attempts j' = Attempts j ∧
         (attempt Marshal signer w j s).2 = [] ∧
         Status j' = (if MaxAttempts j <=? Attempts j then DeliveryDead else DeliveryFailed) ∧
         (Status j' = DeliveryFailed → Store.NextRetryAt j' = NextRetryAt (clock w) (random w) (Attempts j)))
      ∨ (request_error w = None ∧ Attempts j' = Attempts j + 1 ∧
         (∃ h b, (attempt Marshal signer w j s).2 = [MkPost j h b]) ∧
         Status j' = next_status (response w) (Attempts j + 1) (MaxAttempts j) ∧
         (Status j' = DeliveryFailed → Store.NextRetryAt j' = NextRetryAt (clock w) (random w) (Attempts j + 1))))).
Proof.
  intros E Ha. unfold attempt. destruct (fetched w) as [msg|]; [|by left].
  destruct (Marshal _) as [body|]; [|by left]. right.
  destruct (request_error w) as [e|].
  { destruct (fail_stored (clock w) (random w) j (Text "build request: %v" [AErr e]) false s old E)
      as (j' & H1 & H2 & H3 & H4 & H5 & H6 & H7 & H8).
    exists j'. split_and!; try done. left. exists e. done. }
  assert (wrap64 (Attempts j + 1) = Attempts j + 1) as Hw.
  { apply wrap64_id. unfold int64_range, maxInt64 in *. lia. }
  assert (stored s !! job_key (count_attempt j) = Some old) as E' by done.
  destruct (response w) as [c|e]; simpl next_status.
  - destruct ((200 <=? c) && (c <? 300)).
    + eexists. split; [cbn [fst]; by erewrite (update_stored _ (mark_delivered _ _))|].
      split_and!; try done. right. split_and!; try done. eauto.
    + destruct (fail_stored (clock w) (random w) (count_attempt j) (Text "HTTP %d" [AInt c])
        (isPermanentFailure c) s old E') as (j' & H1 & H2 & H3 & H4 & H5 & H6 & H7 & H8).
      simpl in H5, H7, H8. rewrite Hw in H5, H7, H8. exists j'. split_and!; try done. right.
      split_and!; try done. eauto.
  - destruct (fail_stored (clock w) (random w) (count_attempt j) (Text "%v" [AErr e])
      false s old E') as (j' & H1 & H2 & H3 & H4 & H5 & H6 & H7 & H8).
    simpl in H5, H7, H8. rewrite Hw in H5, H7, H8. exists j'. split_and!; try done. right.
    split_and!; try done. eauto.
Qed.

(** One delivery attempt, on every branch: when the message can be fetched
    and the request built, exactly one signed POST is made for the job, the
    stored job's attempt count grows by one and its status becomes Delivered on
    2xx, Dead on a permanent error or when the attempts are used up, and Failed
    otherwise, with a retry between 8 seconds and 72 minutes away. When the
    message cannot be fetched, nothing changes. *)
Theorem attempt_outcome w j (s : Store) msg body :
  stored s !! job_key j = Some j → 0 <= Attempts j < MaxAttempts j → MaxAttempts j <= maxInt64 →
  0 <= random w < 2 ^ 53 →
  fetched w = Ok msg → Marshal (Payload.BuildPayload (RecipientID j) msg (clock w)) = Ok body →
  request_error w = None →
  ∃ j' p, stored (attempt Marshal signer w j s).1 = <[job_key j := j']> (stored s) ∧
    (attempt Marshal signer w j s).2 = [p] ∧ post_job p = j ∧
    job_key j' = job_key j ∧ EndpointURL j' = EndpointURL j ∧ Attempts j' = Attempts j + 1 ∧
    Status j' = next_status (response w) (Attempts j + 1) (MaxAttempts j) ∧
    (Status j' = DeliveryFailed →
       Attempts j' < MaxAttempts j' ∧
       8 * Second <= Store.NextRetryAt j' - clock w <= 72 * Minute).
Proof.
  intros E Ha Hm Hr Hf Hb Hq.
  destruct (attempt_stored w j s j E ltac:(lia)) as [H|(j' & H1 & H2 & H3 & H4 & H5)].
  { exfalso. revert H. unfold attempt. rewrite Hf, Hb, Hq.
    repeat case_match; intros [=]. }
  destruct H5 as [(e & He & _)|(_ & H5 & (h & b & H6) & H7 & H8)]; [congruence|].
  exists j', (MkPost j h b). split_and!; try done. intros Hst. split.
  - rewrite H4, H5. rewrite Hst in H7. by apply (next_status_failed (response w)).
  - rewrite (H8 Hst). apply retry_window; lia.
Qed.

(** *** The invariant of the running dispatcher *)

Record job_ok (k : string * string) (j : DeliveryJob) : Prop := {
  ok_key : job_key j = k;
  ok_endpoint : EndpointURL j ≠ "";
  ok_max : MaxAttempts j = maxAttempts d;
  ok_attempts : 0 <= Attempts j <= maxAttempts d;
  ok_open : open (Status j) → Attempts j < maxAttempts d }.

(** A job in the queue or in a worker's hands is a copy of a stored job. *)
Record copy_ok (s : Store) (j : DeliveryJob) : Prop := {
  copy_stored : is_Some (stored s !! job_key j);
  copy_endpoint : EndpointURL j ≠ "";
  copy_max : MaxAttempts j = maxAttempts d;
  copy_attempts : 0 <= Attempts j < maxAttempts d }.

Record wf (st : State Store) : Prop := {
  wf_store : map_Forall job_ok (stored (jobs st));
  wf_queue : Forall (copy_ok (jobs st)) (queue st);
  wf_inflight : Forall (copy_ok (jobs st)) (inflight st);
  wf_cap : Z.of_nat (length (queue st)) <= 0 `max` queue_cap d;
  wf_workers : Z.of_nat (length (inflight st)) <= 0 `max` workers d;
  wf_posts : Forall (λ p, EndpointURL (post_job p) ≠ "" ∧ Attempts (post_job p) < maxAttempts d)
               (posts st) }.

Lemma copy_mono s s' j :
  (∀ k, is_Some (stored s !! k) → is_Some (stored s' !! k)) → copy_ok s j → copy_ok s' j.
Proof. intros H [? ? ? ?]. split; auto. Qed.

Lemma length_try_enqueue j q :
  Z.of_nat (length q) <= 0 `max` queue_cap d →
  Z.of_nat (length (try_enqueue d j q)) <= 0 `max` queue_cap d.
Proof.
  intros H. unfold try_enqueue.
  destruct (Z.ltb_spec (Z.of_nat (length q)) (queue_cap d)); [|done].
  rewrite length_app. simpl. lia.
Qed.

Lemma Forall_try_enqueue (P : DeliveryJob → Prop) j q :
  Forall P q → P j → Forall P (try_enqueue d j q).
Proof.
  intros Hq Hj. unfold try_enqueue. case_match; [|done].
  apply Forall_app_2; [done|by apply Forall_singleton].
Qed.

Lemma sweep_queue js q (P : DeliveryJob → Prop) :
  Forall P q → Forall P js → Z.of_nat (length q) <= 0 `max` queue_cap d →
  let q' := foldl (λ q j, try_enqueue d j q) q js in
  Forall P q' ∧ Z.of_nat (length q') <= 0 `max` queue_cap d.
Proof.
  intros Hq Hjs. revert q Hq. induction Hjs as [|j js Hj _ IH]; intros q Hq Hl; simpl; [done|].
  apply IH; [by apply Forall_try_enqueue | by apply length_try_enqueue].
Qed.

Hypothesis max_range : 0 < maxAttempts d <= maxInt64.

Lemma wf_receive now mid rid resolved st :
  wf st → wf (onMessageReceived d now mid rid resolved st).2.
Proof.
  intros Hwf. unfold onMessageReceived. destruct resolved as [caps|e]; [|by case_match].
  case_bool_decide as He; [done|]. destruct Hwf as [Hs Hq Hi Hc Hw Hp]. simpl.
  unfold MemStore.SaveDeliveryJob. simpl. set (job := MkJob _ _ _ _ _ _ _ _ _ _ _).
  assert (copy_attempts_ok : 0 <= Attempts job < maxAttempts d) by (simpl; lia).
  destruct (stored (jobs st) !! job_key job) as [old|] eqn:E; simpl.
  - split; simpl; try done; [|by apply length_try_enqueue].
    apply Forall_try_enqueue; [done|]. by split.
  - assert (∀ k, is_Some (stored (jobs st) !! k) → ∀ x, is_Some (<[job_key job := x]> (stored (jobs st)) !! k))
      as Hm by (intros; rewrite lookup_insert_is_Some'; auto).
    split; simpl; try done; [| | |by apply length_try_enqueue].
    + apply map_Forall_insert_2; [|done].
      split; simpl; try done; try (destruct (Z.eqb_spec (maxAttempts d) 0)); lia.
    + apply Forall_try_enqueue.
      * eapply Forall_impl; [exact Hq|]. intros j. apply copy_mono. intros k Hk. by apply Hm.
      * split; try done. apply lookup_insert_is_Some'. by left.
    + eapply Forall_impl; [exact Hi|]. intros j. apply copy_mono. intros k Hk. by apply Hm.
Qed.

Lemma due_open t j : MemStore.due t j = true → open (Status j).
Proof.
  unfold MemStore.due, open. intros [H _]%andb_true_iff.
  apply orb_true_iff in H as [H|H]; apply bool_decide_eq_true in H; auto.
Qed.

Lemma wf_sweep o now st : wf st → wf (sweep d o now st).
Proof.
  intros Hwf. unfold sweep.
  destruct (MemStore.ListPending_facts o now (wrap64 (workers d * 10)) (jobs st)) as (l & Hl & Hin & _).
  change (ListPendingDeliveryJobs o now (wrap64 (workers d * 10)) (jobs st) = Ok l) in Hl. rewrite Hl. destruct Hwf as [Hs Hq Hi Hc Hw Hp].
  destruct (sweep_queue l (queue st) (copy_ok (jobs st)) Hq) as [Hq' Hc']; [|done|by split].
  apply list.Forall_forall. intros j Hj. destruct (Hin j Hj) as [[k Hk] Hd].
  destruct (Hs k j Hk) as [Hkey He Hmax Ha Ho]. split; [|done|done|].
  - rewrite Hkey. by eexists.
  - specialize (Ho (due_open _ _ Hd)). lia.
Qed.

Lemma wf_take st : wf st → wf (take_job d st).
Proof.
  intros Hwf. unfold take_job. destruct (queue st) as [|j rest] eqn:E; [done|].
  destruct (Z.ltb_spec (Z.of_nat (length (inflight st))) (workers d)); [|done].
  destruct Hwf as [Hs Hq Hi Hc Hw Hp]. rewrite E in Hq, Hc. apply Forall_cons_1 in Hq as [Hj Hq].
  split; simpl; try done; [|simpl in Hc; lia|rewrite length_app; simpl; lia].
  apply Forall_app_2; [done|by apply Forall_singleton].
Qed.

Lemma next_status_ok r a : 
  0 <= a <= maxAttempts d → open (next_status r a (maxAttempts d)) → a < maxAttempts d.
Proof.
  intros Ha [H|H]; [|by apply (next_status_failed r)]. revert H. unfold next_status.
  by repeat case_match.
Qed.

Lemma wf_finish i w st : wf st → wf (finish_job Marshal signer i w st).
Proof.
  intros Hwf. unfold finish_job. destruct (inflight st !! i) as [j|] eqn:Ei; [|done].
  destruct Hwf as [Hs Hq Hi Hc Hw Hp].
  assert (copy_ok (jobs st) j) as [[old Hold] He Hm Ha] by by eapply Forall_lookup_1.
  assert (Forall (copy_ok (jobs st)) (delete i (inflight st))) as Hi' by by apply Forall_delete.
  assert (Z.of_nat (length (delete i (inflight st))) <= 0 `max` workers d) as Hw'.
  { rewrite length_delete by (by eexists). lia. }
  destruct (attempt_stored w j (jobs st) old Hold ltac:(lia)) as [Hat|(j' & H1 & H2 & H3 & H4 & H5)].
  { rewrite Hat. split; simpl; try done. by rewrite app_nil_r. }
  destruct (attempt Marshal signer w j (jobs st)) as [s' p]. simpl in H1, H5.
  assert (∀ x, copy_ok (jobs st) x → copy_ok s' x) as Hmono.
  { intros x. apply copy_mono. intros k Hk. rewrite H1, lookup_insert_is_Some'. auto. }
  destruct (Hs _ _ Hold) as [Hk Hep Hmax Hat Hop].
  split; simpl; try done.
  - rewrite H1. apply map_Forall_insert_2; [|done]. split; [congruence|congruence|congruence|..].
    + destruct H5 as [(?&?&->&_)|(?&->&_)]; lia.
    + rewrite Hm in H5. destruct H5 as [(?&?&->&_)|(?&->&?&->&_)]; [lia|]. apply next_status_ok. lia.
  - by eapply Forall_impl.
  - by eapply Forall_impl.
  - apply Forall_app_2; [done|]. destruct H5 as [(?&?&?&->&_)|(?&?&(?&?&->)&_)]; [done|].
    apply Forall_singleton. simpl. split; [done|lia].
Qed.

(** A sweep fills an empty queue with all the store returned. *)
Lemma enqueue_all q js :
  Z.of_nat (length q + length js) <= queue_cap d → foldl (λ q j, try_enqueue d j q) q js = q ++ js.
Proof.
  revert q. induction js as [|j js IH]; intros q H; simpl in *; [by rewrite app_nil_r|].
  unfold try_enqueue at 2. destruct (Z.ltb_spec (Z.of_nat (length q)) (queue_cap d)); [|lia].
  rewrite IH, <-app_assoc; [done|]. rewrite length_app. simpl. lia.
Qed.


(** Attempts one after the other, each on the job as stored. *)
Definition attempts_on (k : string * string) (ws : list World) (s : Store) : Store :=
  foldl (λ s w, match stored s !! k with
                | Some j => (attempt Marshal signer w j s).1
                | None => s
                end) s ws.

(** An endpoint that is no valid URL is retried for ever: building the
    request fails before the attempt is counted, so after any number of attempts
    the job is still open, with the attempt count it had. *)
Theorem bad_endpoint_never_dead ws s k j :
  stored s !! k = Some j → job_key j = k → 0 <= Attempts j < MaxAttempts j → MaxAttempts j <= maxInt64 →
  open (Status j) → Forall (λ w, request_error w ≠ None) ws →
  ∃ j', stored (attempts_on k ws s) !! k = Some j' ∧ open (Status j') ∧ Attempts j' = Attempts j.
Proof.
  intros Hk Hkey Ha Hm Ho Hws. revert s j Hk Hkey Ha Hm Ho.
  induction Hws as [|w ws Hw _ IH]; intros s j Hk Hkey Ha Hm Ho; [by exists j|].
  unfold attempts_on. simpl. rewrite Hk. fold (attempts_on k ws (attempt Marshal signer w j s).1).
  destruct (attempt_stored w j s j) as [->|(j' & H1 & H2 & H3 & H4 & H5)]; [congruence|lia|by apply (IH s j)|].
  destruct H5 as [(e & _ & HA & _ & HS & _)|[? _]]; [|done].
  destruct (IH (attempt Marshal signer w j s).1 j') as (j'' & HL & HO & HA'').
  - by rewrite H1, Hkey, lookup_insert_eq.
  - congruence.
  - lia.
  - lia.
  - rewrite HS. destruct (Z.leb_spec (MaxAttempts j) (Attempts j)); [lia|]. by right.
  - exists j''. split_and!; [done..|congruence].
Qed.

(** The states of a dispatcher started on an empty store. *)
Definition reachable : State Store → Prop :=
  rtc (step Marshal signer d) (MkState MemStore.New [] [] []).

Lemma dispatcher_wf_reachable st : reachable st → wf st.
Proof.
  apply (rtc_ind_r wf).
  - split; simpl; try done; lia.
  - intros st1 st2 _ [] ?; auto using wf_receive, wf_sweep, wf_take, wf_finish.
Qed.


End Properties.

(** ** Witnesses *)
#[local] Existing Instance Nodekey.demo_ed25519.

Definition demo_marshal (p : Payload.Payload) : result string := Ok (Payload.Body p).
Definition demo_signer : Signer.Signer := Signer.MkSigner (Nodekey.demo_priv "k") "v1".
Definition demo_msg : Payload.Message := Payload.MkMessage "m1" "" "" "" "a@x" "hi" "text" ∅.

Definition answers (status : Z) : World := MkWorld (Ok demo_msg) None (Ok status) 100 0.
Definition bad_url : World := MkWorld (Ok demo_msg) (Some (EExternal "parse error")) (Ok 200) 100 0.

Definition demo_job : DeliveryJob :=
  MkJob "m1" "agent@x" "https://agent" DeliveryPending 0 5 no_text 50 None 50 50.
Definition demo_store : MemStore.Store :=
  MemStore.with_jobs MemStore.New {[("m1", "agent@x") := demo_job]}.

Lemma attempt_outcome_witness :
  ∃ j', MemStore.deliveryJobs (attempt demo_marshal demo_signer (answers 500) demo_job demo_store).1
    = <[("m1", "agent@x") := j']> (MemStore.deliveryJobs demo_store) ∧ Attempts j' = 1.
Proof.
  destruct (attempt_outcome demo_marshal demo_signer (answers 500) demo_job demo_store demo_msg "text")
    as (j' & p & H1 & _ & _ & _ & _ & H2 & _);
    [reflexivity|simpl; lia|simpl; unfold maxInt64; lia|simpl; lia|reflexivity|reflexivity|reflexivity|].
  exists j'. split; [exact H1 | exact H2].
Defined.

(** A dispatcher that has received one message. *)
Definition demo_state : State MemStore.Store :=
  (onMessageReceived (New []) 50 "m1" "agent@x" (Ok {["endpoint" := "https://agent"]})
     (MkState MemStore.New [] [] [])).2.

Lemma demo_state_reachable : reachable demo_marshal demo_signer (New []) demo_state.
Proof. apply rtc_once. apply step_receive. Qed.



Lemma bad_endpoint_never_dead_witness :
  ∃ j', MemStore.deliveryJobs (attempts_on demo_marshal demo_signer ("m1", "agent@x") (replicate 1000 bad_url) demo_store)
    !! ("m1", "agent@x") = Some j' ∧ Attempts j' = 0.
Proof.
  destruct (bad_endpoint_never_dead demo_marshal demo_signer (replicate 1000 bad_url) demo_store
    ("m1", "agent@x") demo_job) as (j' & H1 & _ & H2);
    [reflexivity|reflexivity|simpl; lia|simpl; unfold maxInt64; lia|by left|by apply Forall_replicate|].
  exists j'. split; [exact H1 | exact H2].
Defined.

(** The status of the job of message [m1] in a state. *)
Definition status_of (st : State MemStore.Store) : option DeliveryStatus :=
  Status <$> (MemStore.deliveryJobs (jobs st) !! ("m1", "agent@x")).

(** A delivered job can be reopened: the sweeper queues a second copy of a
    job that is still waiting in the queue; when the first copy is delivered and
    the second one fails, the update for the second overwrites the status, so
    the job is Failed again and will be POSTed once more. *)
Theorem delivered_job_reopened :
  ∃ st1 st2,
    reachable demo_marshal demo_signer (New []) st1 ∧ status_of st1 = Some DeliveryDelivered ∧
    rtc (step demo_marshal demo_signer (New [])) st1 st2 ∧ status_of st2 = Some DeliveryFailed ∧
    length (posts st2) = 2%nat.
Proof.
  set (s2 := sweep (New []) some_order 60 demo_state).
  set (s3 := take_job (New []) s2).
  set (s4 := finish_job demo_marshal demo_signer 0 (answers 200) s3).
  set (s5 := take_job (New []) s4).
  set (s6 := finish_job demo_marshal demo_signer 0 (answers 500) s5).
  exists s4, s6. split_and!.
  - eapply rtc_r; [eapply rtc_r; [eapply rtc_r; [exact demo_state_reachable|]|]|].
    + apply step_sweep.
    + apply step_take.
    + apply step_finish. simpl. lia.
  - vm_compute. reflexivity.
  - eapply rtc_l; [apply step_take|]. apply rtc_once. apply step_finish. simpl. lia.
  - vm_compute. reflexivity.
  - vm_compute. reflexivity.
Qed.

End Dispatcher.
