(* ===== verification/Smtp.v ===== *)
(** * The SMTP and LMTP listeners

    Models [internal/smtp/server.go] and [internal/smtp/lmtp.go]: configuration
    defaults, session admission, the per-connection session with its AUTH, MAIL,
    RCPT, DATA and RSET handlers, the sanitising of header values, LMTP delivery
    with its per-recipient status, and the life cycle of the listeners.
    go-smtp calls the handlers in protocol order; that order is the step
    relation [command]. The parsers of net/mail, SPF and DKIM verification, the
    rate limiters and the mailbox answer through arguments. *)
From Stdlib Require Import Ascii.
From S2P Require Import Prelude GoStrings Relay.
Local Open Scope Z_scope.

(** ** Sanitising *)
Module Sanitise.

Definition header_rune (r : Z) : bool := (r =? 9) || ((0x20 <=? r) && negb (r =? 0x7f)).
Definition id_rune (r : Z) : bool := (0x21 <=? r) && (r <=? 0x7e).

(** [out[:maxBytes]] when longer *)
Definition truncate (maxBytes : Z) (out : string) : string :=
  if maxBytes <? len out then take_bytes (Z.to_nat maxBytes) out else out.

Definition sanitiseHeaderValue (s : string) (maxBytes : Z) : string :=
  truncate maxBytes (filter_runes header_rune s).

Definition sanitiseMessageID (s : string) (maxBytes : Z) : string :=
  truncate maxBytes (filter_runes id_rune s).

Lemma truncate_take n s : 0 <= n → truncate n s = take_bytes (Z.to_nat n) s.
Proof.
  intros Hn. unfold truncate. destruct (Z.ltb_spec n (len s)); [done|].
  assert (∀ k, len s <= Z.of_nat k → take_bytes k s = s) as Hk.
  { clear. induction s as [|c s IH]; intros k Hk; destruct k as [|k]; simpl in *; try done.
    - pose proof (len_nonneg s). lia.
    - rewrite IH by lia. done. }
  symmetry. apply Hk. lia.
Qed.

Lemma len_truncate n s : 0 <= n → len (truncate n s) <= n.
Proof. intros Hn. rewrite truncate_take by done. pose proof (len_take_bytes (Z.to_nat n) s). lia. Qed.

Lemma all_bytes_truncate p n s : 0 <= n → all_bytes p s = true → all_bytes p (truncate n s) = true.
Proof. intros Hn Hs. rewrite truncate_take by done. by apply all_bytes_take. Qed.

(** The bytes of a sanitised value: no C0 control but tab, no DEL. *)
Definition header_byte (b : Z) : bool := (b =? 9) || ((0x20 <=? b) && negb (b =? 0x7f)).

Lemma sanitised_bytes s n : 0 <= n → all_bytes header_byte (sanitiseHeaderValue s n) = true.
Proof.
  intros Hn. apply all_bytes_truncate; [done|]. apply filter_runes_all; [done|].
  intros b Hb. unfold header_byte. apply orb_true_iff. right.
  rewrite andb_true_iff, negb_true_iff, Z.leb_le, Z.eqb_neq. lia.
Qed.

Lemma header_byte_clean s : all_bytes header_byte s = true → Relay.clean s = true.
Proof.
  unfold Relay.clean. induction s as [|c s IH]; simpl; [done|]. intros [Hc Hs]%andb_true_iff.
  rewrite IH, andb_true_r by done. unfold header_byte in Hc.
  apply orb_true_iff in Hc as [Hc|Hc]; go_bools; rewrite andb_true_iff, !negb_true_iff, !Z.eqb_neq; lia.
Qed.

Lemma sanitiseMessageID_bytes s n :
  0 <= n → sanitiseMessageID s n = take_bytes (Z.to_nat n) (filter_bytes id_rune s).
Proof.
  intros Hn. unfold sanitiseMessageID. rewrite truncate_take by done. f_equal.
  apply filter_runes_bytes. intros r Hr. unfold id_rune. apply andb_false_iff. right. apply Z.leb_gt. lia.
Qed.

(** Header values taken from incoming mail cannot inject anything: whatever
    bytes the sender used, valid UTF-8 or not, a sanitised value has at most the
    allowed length and holds no control character below 0x20 but tab and no
    DEL, in particular no line break, so that relaying it adds no header line;
    and message IDs, filtered rune by rune, are exactly the printable ASCII
    bytes of the input. *)
Theorem sanitise_safe s n :
  0 <= n →
  len (sanitiseHeaderValue s n) <= n ∧
  all_bytes header_byte (sanitiseHeaderValue s n) = true ∧
  Relay.clean (sanitiseHeaderValue s n) = true ∧
  sanitiseMessageID s n = take_bytes (Z.to_nat n) (filter_bytes id_rune s).
Proof.
  intros Hn. pose proof (sanitised_bytes s n Hn) as Hb.
  split_and!; [by apply len_truncate|done|by apply header_byte_clean|by apply sanitiseMessageID_bytes].
Qed.

Lemma sanitise_safe_witness :
  sanitiseHeaderValue ("Hi" +:+ Relay.CRLF +:+ "Bcc: x") 998 = "HiBcc: x" ∧
  len (sanitiseHeaderValue ("Hi" +:+ Relay.CRLF +:+ "Bcc: x") 4) <= 4.
Proof. split; [reflexivity|]. apply (sanitise_safe ("Hi" +:+ Relay.CRLF +:+ "Bcc: x") 4). lia. Defined.

End Sanitise.

(** What the listener asks of a lockout tracker; implemented by the SMTP
    security plugin and the Redis lockout. *)
Class AuthFailureHook (H : Type) := {
  RecordAuthFailure : Time → string → H → bool * H;
  IsLockedOut : Time → string → H → bool }.

Module Smtp.
Import Sanitise.

(** ** Configuration. Rates are only compared with zero. *)
Record Config := MkConfig {
  Port : Z; BindAddr : string; Domain : string; AllowInsecureAuth : bool;
  MaxMessageBytes : Z; MaxRecipients : Z; MaxConnections : Z;
  ReadTimeout : Duration; WriteTimeout : Duration;
  RelayEnabled : bool; TLSCertFile : string; TLSKeyFile : string;
  MaxAuthFailuresPerSession : Z; CheckSPF : bool; VerifyDKIM : bool;
  MaxConnsPerSec : Q; BurstConns : Z; MaxConnsPerSecPerIP : Q; BurstConnsPerIP : Z }.

Definition or_default (z d : Z) : Z := if z =? 0 then d else z.

Definition applyDefaults (c : Config) : Config := MkConfig
  (or_default (Port c) 2525)
  (BindAddr c)
  (if bool_decide (Domain c = "") then "localhost" else Domain c)
  (AllowInsecureAuth c)
  (or_default (MaxMessageBytes c) (Z.shiftl 10 20))
  (or_default (MaxRecipients c) 50)
  (or_default (MaxConnections c) 1000)
  (or_default (ReadTimeout c) (5 * Minute))
  (or_default (WriteTimeout c) (60 * Second))
  (RelayEnabled c) (TLSCertFile c) (TLSKeyFile c)
  (or_default (MaxAuthFailuresPerSession c) 5)
  (CheckSPF c) (VerifyDKIM c)
  (MaxConnsPerSec c)
  (if rate_on (MaxConnsPerSec c) && (BurstConns c =? 0) then 10 else BurstConns c)
  (MaxConnsPerSecPerIP c)
  (if rate_on (MaxConnsPerSecPerIP c) && (BurstConnsPerIP c =? 0) then 5 else BurstConnsPerIP c).

(** The server as its sessions see it: the user directory and the password check,
    nil or as they answer. *)
Record Server := MkServer {
  cfg : Config;
  users : option (string → bool);
  validator : option (string → string → bool);
  threads : option (string → string → result string) }.

Definition NewWithValidator (c : Config) users validator threads : Server :=
  MkServer (applyDefaults c) users validator threads.

Definition New (c : Config) users threads : Server := NewWithValidator c users None threads.

Record session := MkSession {
  remoteAddr : string;
  authedUser : string;
  from : string;
  to : list string;
  authFailures : Z;
  spfResult : string }.

Definition set_auth u s := MkSession (remoteAddr s) u (from s) (to s) (authFailures s) (spfResult s).
Definition set_failures n s := MkSession (remoteAddr s) (authedUser s) (from s) (to s) n (spfResult s).
Definition set_from f spf s := MkSession (remoteAddr s) (authedUser s) f (to s) (authFailures s) spf.
Definition add_to r s := MkSession (remoteAddr s) (authedUser s) (from s) (to s ++ [r]) (authFailures s) (spfResult s).

(** [mailbox.SendRequest] *)
Record SendRequest := MkSendRequest {
  RecipientIDs : list string; Subject : string; Body : string;
  ExternalID : string; ReplyToID : string; Headers : gmap string string }.

(** A message as [mail.ReadMessage] and the reading of its body give it. *)
Record MailMessage := MkMail {
  hdr_Subject : string; hdr_MessageID : string; hdr_InReplyTo : string; hdr_From : string;
  content : result string }.

Section Session.
Context {GU : GoUnicode} {NM : NetMail} {H : Type} {Hook : AuthFailureHook H}.
(** [net.ParseIP(s) != nil] and [spf.CheckHostWithSender(ip, domain, sender)]. *)
Variable ParseIP : string → bool.
Variable CheckHostWithSender : string → string → string → string.

(** *** NewSession *)

(** [allow] and [allow_ip] are the answers of the two rate limiters; [None] for
    [conn] is a nil connection. *)
Definition NewSession (s : Server) (allow : bool) (allow_ip : string → bool) (conn : option string)
    : result session :=
  if rate_on (MaxConnsPerSec (cfg s)) && negb allow then
    Err (ESMTP 421 (4, 4, 5) "Too many connections — please try again later")
  else
    match conn with
    | None => Ok (MkSession "" "" "" [] 0 "")
    | Some addr =>
        if rate_on (MaxConnsPerSecPerIP (cfg s)) then
          let ip := match SplitHostPort addr with Some (ip, _) => ip | None => "" end in
          let ip := if bool_decide (ip = "") then addr else ip in
          if negb (allow_ip ip) then
            Err (ESMTP 421 (4, 4, 5) "Too many connections from your IP — please try again later")
          else Ok (MkSession addr "" "" [] 0 "")
        else Ok (MkSession addr "" "" [] 0 "")
    end.

(** *** Addresses *)

Definition senderDomain (email : string) : string :=
  match CutLastByte "@" email with Some (_, d) => ToLower d | None => "" end.

Definition extractAddr (header : string) : string :=
  match ParseAddress header with Some a => a | None => header end.

(** *** AUTH *)

Definition authFailed (srv : Server) (now : Time) (s : session) (hook : option H)
    : error * session * option H :=
  let n := authFailures s + 1 in
  let hook' := match hook with
               | Some h => Some (RecordAuthFailure now (remoteAddr s) h).2
               | None => None
               end in
  let max := MaxAuthFailuresPerSession (cfg srv) in
  (if (0 <? max) && (max <=? n) then
     ESMTP 421 (4, 7, 0) "Too many authentication failures — connection closing"
   else ESentinel ErrAuthRequired,
   set_failures n s, hook').

(** [Auth(mech)] followed by the SASL PLAIN callback. *)
Definition Auth (srv : Server) (now : Time) (mech identity username password : string)
    (s : session) (hook : option H) : result unit * session * option H :=
  if negb (bool_decide (mech = "PLAIN")) then (Err (ESentinel ErrAuthUnknownMechanism), s, hook)
  else match users srv with
  | None => (Err (ESentinel ErrAuthRequired), s, hook)
  | Some ResolveUser =>
      if match hook with Some h => IsLockedOut now (remoteAddr s) h | None => false end then
        (Err (ESMTP 421 (4, 7, 0) "Too many authentication failures — try again later"), s, hook)
      else
        let email := if bool_decide (identity = "") then username else identity in
        let failed := let '(e, s', hook') := authFailed srv now s hook in (Err e, s', hook') in
        if negb (ResolveUser email) then failed
        else match validator srv with
             | Some ValidatePassword =>
                 if negb (ValidatePassword email password) then failed
                 else (Ok (), set_auth email s, hook)
             | None => (Ok (), set_auth email s, hook)
             end
  end.

(** *** MAIL, RCPT, RSET *)

Definition Mail (srv : Server) (f : string) (s : session) : result unit * session :=
  if match users srv with Some _ => bool_decide (authedUser s = "") | None => false end then
    (Err (ESMTP 530 (5, 7, 0) "Authentication required"), s)
  else if negb (bool_decide (authedUser s = "")) && negb (EqualFold (extractAddr f) (authedUser s)) then
    (Err (ESMTP 553 (5, 7, 1) "Sender address does not match authenticated user"), s)
  else
    let spf :=
      if CheckSPF (cfg srv) && negb (bool_decide (remoteAddr s = "")) then
        match SplitHostPort (remoteAddr s) with
        | Some (ip, _) =>
            if ParseIP ip then CheckHostWithSender ip (senderDomain (extractAddr f)) (extractAddr f)
            else spfResult s
        | None => spfResult s
        end
      else spfResult s in
    (Ok (), set_from f spf s).

Definition Rcpt (srv : Server) (r : string) (s : session) : result unit * session :=
  match users srv with
  | Some ResolveUser =>
      if negb (RelayEnabled (cfg srv)) && negb (ResolveUser (extractAddr r)) then
        (Err (ESMTP 550 (5, 1, 1) "Recipient not found"), s)
      else (Ok (), add_to r s)
  | None => (Ok (), add_to r s)
  end.

Definition Reset (s : session) : session :=
  MkSession (remoteAddr s) (authedUser s) "" [] (authFailures s) (spfResult s).

(** *** DATA *)

Definition bodyReadCap : Z := Z.shiftl 20 20.

(** The body under the read cap. *)
Definition read_body (content : result string) : result string :=
  match content with
  | Err e => Err (EWrap (Text "smtp: read body: %w" []) e)
  | Ok b =>
      let body := limit_bytes bodyReadCap b in
      if bodyReadCap <=? len body then Err (ESMTP 552 (5, 3, 4) "Message body too large") else Ok body
  end.

(** The verification results of the DKIM signatures: error and domain of each. *)
Definition dkim_summary (verifications : result (list (option error * string))) : string * string :=
  match verifications with
  | Ok (_ :: _ as vs) =>
      let allPass := forallb (λ v, match v.1 with None => true | Some _ => false end) vs in
      let domain := foldl (λ d v, match v.1 with
                                  | Some _ => d
                                  | None => if bool_decide (d = "") then v.2 else d
                                  end) "" vs in
      (if allPass then "pass" else "fail", domain)
  | _ => ("none", "")
  end.

(** The parent message, when the thread resolver knows it. *)
Definition reply_to (th : option (string → string → result string)) (inReplyTo : string)
    (rcpts : list string) : string :=
  match th, rcpts with
  | Some ResolveReplyTo, r :: _ =>
      if bool_decide (inReplyTo = "") then ""
      else match ResolveReplyTo r inReplyTo with Ok p => p | Err _ => "" end
  | _, _ => ""
  end.

(** [Data] up to the call of the mailbox: the sender and the request.
    [verifications] is what [dkim.Verify] answers; [raw_len] the length of the
    raw message. *)
Definition build_request (srv : Server) (parsed : result MailMessage) (raw_len : Z)
    (verifications : result (list (option error * string))) (s : session)
    : result (string * SendRequest) :=
  match parsed with
  | Err e => Err (EWrap (Text "smtp: parse message: %w" []) e)
  | Ok msg =>
      match read_body (content msg) with
      | Err e => Err e
      | Ok body =>
          let '(dkimResult, dkimDomain) :=
            if VerifyDKIM (cfg srv) && (0 <? raw_len) then dkim_summary verifications else ("none", "") in
          let sender := authedUser s in
          let sender := if bool_decide (sender = "") then from s else sender in
          let sender := if bool_decide (sender = "") then extractAddr (hdr_From msg) else sender in
          Ok (sender, MkSendRequest (to s) (sanitiseHeaderValue (hdr_Subject msg) 998)
                (TrimRight is_crlf body)
                (sanitiseMessageID (hdr_MessageID msg) 995)
                (reply_to (threads srv) (sanitiseMessageID (hdr_InReplyTo msg) 995) (to s))
                (<["X-SMTP-Envelope-From" := from s]> (<["X-SMTP-Remote-Addr" := remoteAddr s]>
                 (<["X-SPF-Result" := spfResult s]> (<["X-DKIM-Result" := dkimResult]>
                 {["X-DKIM-Domain" := dkimDomain]})))))
      end
  end.

(** [Data]: [send] is the mailbox; the call made, if any, is returned too. *)
Definition Data (srv : Server) (parsed : result MailMessage) (raw_len : Z)
    (verifications : result (list (option error * string)))
    (send : string → SendRequest → result unit) (s : session)
    : result unit * list (string * SendRequest) :=
  match build_request srv parsed raw_len verifications s with
  | Err e => (Err e, [])
  | Ok (sender, req) => (send sender req, [(sender, req)])
  end.

(** *** A connection

    go-smtp calls MAIL only on a session that exists, AUTH only while nobody is
    authenticated, RCPT only after an accepted MAIL and below the recipient
    limit, DATA only with an accepted MAIL and an accepted RCPT, and resets the
    session after DATA and on RSET. [sent] collects the calls of the mailbox. *)
Record Conn := MkConn {
  sess : session;
  fromReceived : bool;
  hook : option H;
  sent : list (string * SendRequest) }.

Inductive command (srv : Server) (c : Conn) : Conn → Prop :=
| cmd_auth now mech identity username password r s' h' :
    authedUser (sess c) = "" →
    Auth srv now mech identity username password (sess c) (hook c) = (r, s', h') →
    command srv c (MkConn s' (fromReceived c) h' (sent c))
| cmd_mail f r s' :
    Mail srv f (sess c) = (r, s') →
    command srv c (MkConn s' (is_ok r || fromReceived c) (hook c) (sent c))
| cmd_rcpt rcpt r s' :
    fromReceived c = true → Z.of_nat (length (to (sess c))) < MaxRecipients (cfg srv) →
    Rcpt srv rcpt (sess c) = (r, s') →
    command srv c (MkConn s' (fromReceived c) (hook c) (sent c))
| cmd_data parsed raw_len verifications send r calls :
    fromReceived c = true → to (sess c) ≠ [] →
    Data srv parsed raw_len verifications send (sess c) = (r, calls) →
    command srv c (MkConn (Reset (sess c)) false (hook c) (sent c ++ calls))
| cmd_rset : command srv c (MkConn (Reset (sess c)) false (hook c) (sent c)).

(** A fresh connection from [addr]. *)
Definition connect (addr : string) (h : option H) : Conn := MkConn (MkSession addr "" "" [] 0 "") false h [].

Definition reachable (srv : Server) (addr : string) (h : option H) : Conn → Prop :=
  rtc (command srv) (connect addr h).

(** *** What a connection can send *)

(** The credentials of [u] were accepted. *)
Definition authenticated (srv : Server) (u : string) : Prop :=
  u ≠ "" ∧ (∀ resolve, users srv = Some resolve → resolve u = true) ∧
  (∀ validate, validator srv = Some validate → ∃ password, validate u password = true).

Definition known (srv : Server) (r : string) : Prop :=
  ∀ resolve, users srv = Some resolve → RelayEnabled (cfg srv) = false → resolve (extractAddr r) = true.

Record sent_ok (srv : Server) (call : string * SendRequest) : Prop := {
  ok_sender : authenticated srv call.1;
  ok_envelope : ∃ f, Headers call.2 !! "X-SMTP-Envelope-From" = Some f ∧
                     EqualFold (extractAddr f) call.1 = true;
  ok_recipients : Forall (known srv) (RecipientIDs call.2);
  ok_count : 0 < Z.of_nat (length (RecipientIDs call.2)) <= MaxRecipients (cfg srv);
  ok_subject : Relay.clean (Subject call.2) = true }.

Record conn_ok (srv : Server) (c : Conn) : Prop := {
  conn_auth : authedUser (sess c) ≠ "" → authenticated srv (authedUser (sess c));
  conn_from : fromReceived c = true → authedUser (sess c) ≠ "" ∧
                EqualFold (extractAddr (from (sess c))) (authedUser (sess c)) = true;
  conn_to : Forall (known srv) (to (sess c));
  conn_count : Z.of_nat (length (to (sess c))) <= 0 `max` MaxRecipients (cfg srv);
  conn_sent : Forall (sent_ok srv) (sent c) }.

Lemma Auth_cases srv now mech identity username password s h r s' h' :
  Auth srv now mech identity username password s h = (r, s', h') →
  from s' = from s ∧ to s' = to s ∧
  ((authedUser s' = authedUser s ∧ is_ok r = false) ∨
   (r = Ok () ∧ h' = h ∧ ∃ resolve, users srv = Some resolve ∧ resolve (authedUser s') = true ∧
      ∀ validate, validator srv = Some validate → validate (authedUser s') password = true)).
Proof.
  unfold Auth, authFailed. destruct (negb (bool_decide (mech = "PLAIN"))); [by intros [= <- <- <-]; auto|].
  destruct (users srv) as [resolve|] eqn:Hu; [|by intros [= <- <- <-]; auto].
  destruct (match h with Some _ => _ | None => false end); [by intros [= <- <- <-]; auto|].
  set (email := if bool_decide (identity = "") then username else identity).
  destruct (resolve email) eqn:Hr; simpl; [|by intros [= <- <- <-]; auto].
  destruct (validator srv) as [validate|] eqn:Hv; simpl.
  - destruct (validate email password) eqn:Hp; simpl; intros [= <- <- <-]; [|by auto].
    split_and!; [done..|]. right. split_and!; [done..|]. exists resolve.
    split_and!; [done..|]. by intros ? [= <-].
  - intros [= <- <- <-]. split_and!; [done..|]. right. split_and!; [done..|]. exists resolve. done.
Qed.

Lemma Mail_cases srv f s r s' resolve :
  users srv = Some resolve → Mail srv f s = (r, s') →
  authedUser s' = authedUser s ∧ to s' = to s ∧
  ((is_ok r = false ∧ s' = s) ∨
   (is_ok r = true ∧ authedUser s ≠ "" ∧ from s' = f ∧ EqualFold (extractAddr f) (authedUser s) = true)).
Proof.
  intros Hu. unfold Mail. rewrite Hu. case_bool_decide as Ha; [by intros [= <- <-]; auto|].
  simpl. destruct (EqualFold (extractAddr f) (authedUser s)) eqn:Hf; simpl; intros [= <- <-]; [|by auto].
  split_and!; [done..|]. right. done.
Qed.

Lemma Rcpt_cases srv rcpt s r s' :
  Rcpt srv rcpt s = (r, s') → s' = s ∨ (s' = add_to rcpt s ∧ known srv rcpt).
Proof.
  unfold Rcpt, known. destruct (users srv) as [resolve|]; [|intros [= <- <-]; right; done].
  destruct (RelayEnabled (cfg srv)); simpl; [intros [= <- <-]; right; done|].
  destruct (resolve (extractAddr rcpt)) eqn:Hr; simpl; intros [= <- <-]; [|by left].
  right. split; [done|]. by intros ? [= <-].
Qed.

Lemma Data_cases srv parsed n v send s r calls :
  Data srv parsed n v send s = (r, calls) →
  calls = [] ∨ ∃ sender req, calls = [(sender, req)] ∧ RecipientIDs req = to s ∧
    (authedUser s ≠ "" → sender = authedUser s) ∧
    Headers req !! "X-SMTP-Envelope-From" = Some (from s) ∧ Relay.clean (Subject req) = true.
Proof.
  unfold Data, build_request. destruct parsed as [msg|e]; [|intros [= <- <-]; by left].
  destruct (read_body (content msg)) as [body|e]; [|intros [= <- <-]; by left].
  destruct (if VerifyDKIM (cfg srv) && (0 <? n) then dkim_summary v else ("none", "")) as [dr dd].
  intros [= <- <-]. right. eexists _, _. split; [done|]. split_and!; [done| |done|].
  - intros Ha. by rewrite (bool_decide_eq_false_2 _ Ha), (bool_decide_eq_false_2 _ Ha).
  - by apply header_byte_clean, sanitised_bytes.
Qed.

Lemma conn_ok_step srv resolve c c' :
  users srv = Some resolve → command srv c c' → conn_ok srv c → conn_ok srv c'.
Proof.
  intros Hu Hc [Ha Hf Ht Hn Hs].
  destruct Hc as [now mech i u p r s' h' He Hau|f r s' Hm|rcpt r s' Hfr Hlt Hr
    |parsed n v send r calls Hfr Hne Hd|].
  - apply Auth_cases in Hau as (Hfrom & Hto & Hcase).
    assert (fromReceived c = false) as Hnf.
    { destruct (fromReceived c); [|done]. by destruct (Hf eq_refl). }
    split; simpl; rewrite ?Hto, ?Hnf; try done.
    intros Hau. destruct Hcase as [[Heq _]|(_ & _ & res & Hres & Hok & Hval)]; [congruence|].
    split_and!; [done|congruence|]. intros validate Hv. exists p. by apply Hval.
  - eapply Mail_cases in Hm as (Hau & Hto & Hcase); [|done].
    split; simpl; rewrite ?Hto, ?Hau; try done.
    destruct Hcase as [[-> ->]|(-> & Hne & -> & Heq)]; [done|]. done.
  - apply Rcpt_cases in Hr as [->|[-> Hk]]; [by split|]. split; simpl; try done.
    + apply Forall_app_2; [done|by apply Forall_singleton].
    + rewrite length_app. simpl. lia.
  - destruct (Hf Hfr) as [Hau Heq]. split; simpl; try done.
    { lia. }
    apply Data_cases in Hd as [->|(sender & req & -> & Hto & Hsend & Hhdr & Hsub)];
      [by rewrite app_nil_r|].
    apply Forall_app_2; [done|]. apply Forall_singleton. rewrite Hsend by done.
    split; simpl; [by apply Ha|by eexists|by rewrite Hto|rewrite Hto|done].
    destruct (to (sess c)); [done|]. simpl length in *. lia.
  - split; simpl; try done. lia.
Qed.

(** C1. No spoofing and no relaying for strangers: on a listener with a user
    directory, whatever commands a client sends, every message that reaches the
    mailbox is sent as a user whose credentials this connection presented and
    the listener accepted, with an envelope sender equal to that user up to
    case, to at least one and at most [MaxRecipients] recipients, each of them a
    known user unless relaying is enabled, and with a subject without line
    breaks. *)
Theorem smtp_sends_authenticated srv addr h c resolve :
  users srv = Some resolve → reachable srv addr h c →
  ∀ sender req, (sender, req) ∈ sent c →
  authenticated srv sender ∧
  (∃ f, Headers req !! "X-SMTP-Envelope-From" = Some f ∧ EqualFold (extractAddr f) sender = true) ∧
  (∀ r, r ∈ RecipientIDs req → RelayEnabled (cfg srv) = false → resolve (extractAddr r) = true) ∧
  0 < Z.of_nat (length (RecipientIDs req)) <= MaxRecipients (cfg srv) ∧
  Relay.clean (Subject req) = true.
Proof.
  intros Hu Hr sender req Hin.
  assert (conn_ok srv c) as [_ _ _ _ Hs].
  { revert Hr. apply (rtc_ind_r (conn_ok srv)).
    - split; simpl; [by intros []|done|done|lia|done].
    - intros c1 c2 _ Hc. by eapply conn_ok_step. }
  rewrite list.Forall_forall in Hs. destruct (Hs _ Hin) as [H1 H2 H3 H4 H5].
  split; [exact H1|]. split; [exact H2|]. split; [|split; [exact H4|exact H5]].
  intros r Hin' Hrel. rewrite list.Forall_forall in H3. by apply (H3 r Hin' resolve).
Qed.

(** Failed AUTH attempts are counted and throttled: an attempt from a
    locked-out address is refused with 421 before any credential is looked at,
    and changes nothing; otherwise wrong credentials raise the session's count
    by one, are reported once to the lockout tracker under the client's address,
    and are answered with 421 exactly when the count has reached the session
    limit; right credentials authenticate the user and touch neither count. *)
Theorem Auth_throttles srv now identity username password s h resolve :
  users srv = Some resolve →
  let email := if bool_decide (identity = "") then username else identity in
  let good := resolve email && match validator srv with
                               | Some validate => validate email password | None => true end in
  let max := MaxAuthFailuresPerSession (cfg srv) in
  let '(r, s', h') := Auth srv now "PLAIN" identity username password s h in
  if match h with Some x => IsLockedOut now (remoteAddr s) x | None => false end then
    s' = s ∧ h' = h ∧ ∃ msg, r = Err (ESMTP 421 (4, 7, 0) msg)
  else if good then r = Ok () ∧ s' = set_auth email s ∧ h' = h
  else s' = set_failures (authFailures s + 1) s ∧
       h' = (λ x, (RecordAuthFailure now (remoteAddr s) x).2) <$> h ∧
       if (0 <? max) && (max <=? authFailures s + 1)
       then ∃ msg, r = Err (ESMTP 421 (4, 7, 0) msg) else r = Err (ESentinel ErrAuthRequired).
Proof.
  intros Hu email good max. unfold Auth. rewrite Hu, bool_decide_eq_true_2 by done. simpl negb. cbn iota.
  destruct (match h with Some _ => _ | None => false end); [eauto|]. fold email.
  unfold good, authFailed. fold max.
  destruct (resolve email); simpl; [destruct (validator srv) as [v|]; [destruct (v email password)|]; simpl; [done| |done]|];
    (split; [done|]); (split; [by destruct h|]); destruct ((0 <? max) && (max <=? authFailures s + 1)); eauto.
Qed.

End Session.

(** ** Life cycle of a listener

    Start and Stop of both servers: [running] is the flag under the mutex,
    [serving] the number of accept goroutines whose deferred cleanup has not run,
    [socket] whether the Unix socket file is in place (LMTP). *)
Record Listener := MkListener { running : bool; serving : nat; socket : bool }.

Definition stopped : Listener := MkListener false 0 false.

(** [Server.Start]: [tls] is the loading of the key pair (only with both files
    configured), [listen] the binding of the port. *)
Definition Start (c : Config) (tls listen : result unit) (l : Listener) : result unit * Listener :=
  if running l then (Err (ESentinel ErrAlreadyRunning), l)
  else
    let tls := if negb (bool_decide (TLSCertFile c = "")) && negb (bool_decide (TLSKeyFile c = ""))
               then tls else Ok () in
    match tls with
    | Err e => (Err (EWrap (Text "smtp: load TLS certificate: %w" []) e), l)
    | Ok _ =>
        match listen with
        | Err e => (Err (EWrap (Text "smtp: listen %s:%d: %w" [AStr (BindAddr c); AInt (Port c)]) e), l)
        | Ok _ => (Ok (), MkListener true (S (serving l)) (socket l))
        end
    end.

(** The accept goroutine returns from [Serve], because the listener was closed or
    broke, and runs its deferred function. *)
Definition serve_exits (l : Listener) : Listener := MkListener false (serving l - 1) false.

(** [Stop]: closes the listener and waits for the goroutine; [closed] is the
    outcome of the two closing calls. *)
Definition Stop (not_running : sentinel) (closed : result unit) (l : Listener) : result unit * Listener :=
  if running l then (closed, serve_exits l) else (Err (ESentinel not_running), l).

Definition IsRunning (l : Listener) : bool := running l.

End Smtp.

(** ** LMTP *)
Module Lmtp.
Import Sanitise.

Record LMTPConfig := MkLMTPConfig {
  SocketPath : string; Port : Z; BindAddr : string; Domain : string;
  MaxMessageBytes : Z; MaxRecipients : Z; ReadTimeout : Duration; WriteTimeout : Duration }.

Definition applyDefaults (c : LMTPConfig) : LMTPConfig := MkLMTPConfig
  (SocketPath c)
  (if (Port c =? 0) && bool_decide (SocketPath c = "") then 2424 else Port c)
  (BindAddr c)
  (if bool_decide (Domain c = "") then "localhost" else Domain c)
  (Smtp.or_default (MaxMessageBytes c) (Z.shiftl 10 20))
  (Smtp.or_default (MaxRecipients c) 100)
  (Smtp.or_default (ReadTimeout c) (5 * Minute))
  (Smtp.or_default (WriteTimeout c) (60 * Second)).

Definition NewLMTP (c : LMTPConfig) : LMTPConfig := applyDefaults c.

(** [LMTPServer.Start]: a Unix socket when configured, with its permissions set,
    or TCP. *)
Definition Start (c : LMTPConfig) (listen chmod : result unit) (l : Smtp.Listener)
    : result unit * Smtp.Listener :=
  if Smtp.running l then (Err (ESentinel ErrLMTPServerAlreadyRunning), l)
  else if negb (bool_decide (SocketPath c = "")) then
    match listen with
    | Err e => (Err (EWrap (Text "lmtp: listen unix %s: %w" [AStr (SocketPath c)]) e), l)
    | Ok _ =>
        match chmod with
        | Err e => (Err (EWrap (Text "lmtp: set socket permissions %s: %w" [AStr (SocketPath c)]) e), l)
        | Ok _ => (Ok (), Smtp.MkListener true (S (Smtp.serving l)) true)
        end
    end
  else
    match listen with
    | Err e => (Err (EWrap (Text "lmtp: listen %s: %w" [AStr (BindAddr c)]) e), l)
    | Ok _ => (Ok (), Smtp.MkListener true (S (Smtp.serving l)) false)
    end.

Record lmtpSession := MkLmtpSession { remoteAddr : string; from : string; to : list string }.

Definition NewSession (conn : option string) : lmtpSession := MkLmtpSession (default "" conn) "" [].

Definition Mail (f : string) (s : lmtpSession) : lmtpSession := MkLmtpSession (remoteAddr s) f (to s).
Definition Rcpt (r : string) (s : lmtpSession) : lmtpSession := MkLmtpSession (remoteAddr s) (from s) (to s ++ [r]).
Definition Reset (s : lmtpSession) : lmtpSession := MkLmtpSession (remoteAddr s) "" [].

Section Lmtp.
Context {NM : NetMail}.

(** [deliverMessage] up to the call of the mailbox. *)
Definition build_request (threads : option (string → string → result string))
    (parsed : result Smtp.MailMessage) (s : lmtpSession) : result (string * Smtp.SendRequest) :=
  match parsed with
  | Err e => Err (EWrap (Text "lmtp: parse message: %w" []) e)
  | Ok msg =>
      match Smtp.content msg with
      | Err e => Err (EWrap (Text "lmtp: read body: %w" []) e)
      | Ok b =>
          let body := limit_bytes Smtp.bodyReadCap b in
          if Smtp.bodyReadCap <=? len body then Err (ESMTP 552 (5, 3, 4) "Message body too large")
          else
            let sender := if bool_decide (from s = "") then Smtp.extractAddr (Smtp.hdr_From msg) else from s in
            Ok (sender, Smtp.MkSendRequest (to s) (sanitiseHeaderValue (Smtp.hdr_Subject msg) 998)
                  (TrimRight is_crlf body)
                  (sanitiseMessageID (Smtp.hdr_MessageID msg) 995)
                  (Smtp.reply_to threads (sanitiseMessageID (Smtp.hdr_InReplyTo msg) 995) (to s))
                  (<["X-SMTP-Envelope-From" := from s]> {["X-LMTP-Remote-Addr" := remoteAddr s]}))
      end
  end.

Definition deliverMessage (threads : option (string → string → result string))
    (parsed : result Smtp.MailMessage) (send : string → Smtp.SendRequest → result unit)
    (s : lmtpSession) : result unit * list (string * Smtp.SendRequest) :=
  match build_request threads parsed s with
  | Err e => (Err e, [])
  | Ok (sender, req) => (send sender req, [(sender, req)])
  end.

(** [LMTPData]: the status set for each recipient, in order. *)
Definition LMTPData threads parsed send (s : lmtpSession)
    : list (string * result unit) * list (string * Smtp.SendRequest) :=
  let '(err, calls) := deliverMessage threads parsed send s in
  ((λ r, (r, err)) <$> to s, calls).

(** LMTP delivers what SMTP would: for the same message and envelope, from a
    sender that is not authenticated, both listeners hand the mailbox the same
    sender, recipients, subject, body, external ID and parent, or both hand over
    nothing; and every recipient of the LMTP transaction gets exactly one
    status, the outcome of that delivery. *)
Theorem lmtp_matches_smtp {GU : GoUnicode} srv parsed raw_len v send s l :
  Smtp.authedUser s = "" → Smtp.from s = from l → Smtp.to s = to l →
  let smtp := (Smtp.Data srv parsed raw_len v send s).2 in
  let lmtp := (deliverMessage (Smtp.threads srv) parsed send l).2 in
  match smtp, lmtp with
  | [(f, r)], [(f', r')] =>
      f = f' ∧ Smtp.RecipientIDs r = Smtp.RecipientIDs r' ∧ Smtp.Subject r = Smtp.Subject r' ∧
      Smtp.Body r = Smtp.Body r' ∧ Smtp.ExternalID r = Smtp.ExternalID r' ∧
      Smtp.ReplyToID r = Smtp.ReplyToID r'
  | [], [] => True
  | _, _ => False
  end ∧
  (LMTPData (Smtp.threads srv) parsed send l).1 =
    ((λ r, (r, (deliverMessage (Smtp.threads srv) parsed send l).1)) <$> to l).
Proof.
  intros Ha Hf Ht. split; [|unfold LMTPData; by destruct (deliverMessage _ _ _ _)].
  unfold Smtp.Data, Smtp.build_request, deliverMessage, build_request, Smtp.read_body.
  destruct parsed as [msg|]; [|done]. destruct (Smtp.content msg) as [b|]; [|done].
  destruct (Smtp.bodyReadCap <=? len (limit_bytes Smtp.bodyReadCap b)); [done|]. rewrite Ha, Hf, Ht.
  destruct (if Smtp.VerifyDKIM (Smtp.cfg srv) && (0 <? raw_len) then Smtp.dkim_summary v else ("none", "")) as [dr dd].
  done.
Qed.

End Lmtp.

#[local] Existing Instances ascii_only bare_addresses.

Definition demo_mail : Smtp.MailMessage :=
  Smtp.MkMail "hello" "<1@x>" "" "a@x" (Ok ("text" +:+ Relay.CRLF)).
Definition demo_server : Smtp.Server :=
  Smtp.New (Smtp.MkConfig 0 "" "" false 0 0 0 0 0 false "" "" 0 false false 0%Q 0 0%Q 0)
    (Some (λ u, bool_decide (u = "a@x" ∨ u = "b@x"))) None.

Lemma lmtp_matches_smtp_witness :
  (deliverMessage None (Ok demo_mail) (λ _ _, Ok ()) (MkLmtpSession "" "a@x" ["b@x"])).2 =
  [("a@x", Smtp.MkSendRequest ["b@x"] "hello" "text" "<1@x>" ""
     (<["X-SMTP-Envelope-From" := "a@x"]> {["X-LMTP-Remote-Addr" := ""]}))] ∧
  (LMTPData None (Ok demo_mail) (λ _ _, Ok ()) (MkLmtpSession "" "a@x" ["b@x"])).1 = [("b@x", Ok ())].
Proof.
  split; [vm_compute; reflexivity|].
  rewrite (proj2 (lmtp_matches_smtp demo_server (Ok demo_mail) 0 (Ok []) (λ _ _, Ok ())
    (Smtp.MkSession "" "" "a@x" ["b@x"] 0 "") (MkLmtpSession "" "a@x" ["b@x"]) eq_refl eq_refl eq_refl)).
  vm_compute. reflexivity.
Defined.

(** A session: AUTH, MAIL, RCPT, DATA. *)
#[local] Instance no_hook : AuthFailureHook unit :=
  { RecordAuthFailure _ _ h := (false, h); IsLockedOut _ _ _ := false }.

Definition demo_sent : Smtp.Conn (H := unit) :=
  Smtp.MkConn (Smtp.MkSession "9.9.9.9:1" "a@x" "" [] 0 "") false None
    (Smtp.Data demo_server (Ok demo_mail) 100 (Ok []) (λ _ _, Ok ())
       (Smtp.MkSession "9.9.9.9:1" "a@x" "A@x" ["b@x"] 0 "")).2.

Lemma demo_sent_reachable :
  Smtp.reachable (λ _, true) (λ _ _ _, "none") demo_server "9.9.9.9:1" None demo_sent.
Proof.
  set (s0 := Smtp.MkSession "9.9.9.9:1" "" "" [] 0 "").
  set (s1 := Smtp.MkSession "9.9.9.9:1" "a@x" "" [] 0 "").
  set (s2 := Smtp.MkSession "9.9.9.9:1" "a@x" "A@x" [] 0 "").
  set (s3 := Smtp.MkSession "9.9.9.9:1" "a@x" "A@x" ["b@x"] 0 "").
  apply (rtc_l _ _ (Smtp.MkConn s1 false None [])).
  { exact (Smtp.cmd_auth _ _ demo_server (Smtp.connect "9.9.9.9:1" None) 0 "PLAIN" "" "a@x" "pw"
      (Ok ()) s1 None eq_refl eq_refl). }
  apply (rtc_l _ _ (Smtp.MkConn s2 true None [])).
  { exact (Smtp.cmd_mail _ _ demo_server (Smtp.MkConn s1 false None []) "A@x" (Ok ()) s2 eq_refl). }
  apply (rtc_l _ _ (Smtp.MkConn s3 true None [])).
  { exact (Smtp.cmd_rcpt _ _ demo_server (Smtp.MkConn s2 true None []) "b@x" (Ok ()) s3
      eq_refl eq_refl eq_refl). }
  apply rtc_once.
  exact (Smtp.cmd_data _ _ demo_server (Smtp.MkConn s3 true None []) (Ok demo_mail) 100 (Ok [])
    (λ _ _, Ok ()) (Ok ()) _ eq_refl ltac:(done) eq_refl).
Qed.

Lemma smtp_sends_authenticated_witness :
  Smtp.authenticated demo_server "a@x" ∧ length (Smtp.sent demo_sent) = 1%nat.
Proof.
  split; [|reflexivity].
  refine (proj1 (Smtp.smtp_sends_authenticated (λ _, true) (λ _ _ _, "none") demo_server "9.9.9.9:1" None
    demo_sent _ eq_refl demo_sent_reachable "a@x" _ _)).
  apply list_elem_of_here.
Defined.

Lemma Auth_throttles_witness :
  ∃ msg, (Smtp.Auth demo_server 0 "PLAIN" "" "eve@x" "pw" (Smtp.MkSession "" "" "" [] 4 "") (Some ())).1.1
    = Err (ESMTP 421 (4, 7, 0) msg).
Proof.
  pose proof (Smtp.Auth_throttles demo_server 0 "" "eve@x" "pw" (Smtp.MkSession "" "" "" [] 4 "") (Some ())
    _ eq_refl) as H.
  exact (proj2 (proj2 H)).
Defined.

End Lmtp.
