(* ===== verification/Plugin.v ===== *)
(** * Message filters

    Models the plugins of [internal/plugin] that decide from the message alone:
    [plugin.go], [address_filter.go], [attachment_filter.go],
    [security_agent.go] and [email_auth.go]. A plugin's [BeforeSend] returns
    [Ok ()] to let the message pass or a rejection. *)
From Stdlib Require Import Ascii.
From S2P Require Import Prelude GoStrings Smtp.
Local Open Scope Z_scope.

(** ** Drafts and rejections *)

Record Attachment := MkAttachment {
  AttID : string; Filename : string; ContentType : string; Size : Z; URI : string }.

(** What the plugins read of [mbxstore.DraftMessage]. *)
Record Draft := MkDraft {
  GetSenderID : string; GetRecipientIDs : list string; GetSubject : string; GetBody : string;
  GetHeaders : gmap string string; GetAttachments : list Attachment }.

Definition SetHeader (k v : string) (d : Draft) : Draft :=
  MkDraft (GetSenderID d) (GetRecipientIDs d) (GetSubject d) (GetBody d)
    (<[k := v]> (GetHeaders d)) (GetAttachments d).

(** [reject(pluginName, reason)]; [errors_Is] makes it answer for [ErrRejected]. *)
Definition reject (pluginName : string) (reason : text) : result unit := Err (ERejection pluginName reason).

Definition ErrRejected : error := ESentinel ErrRejectedSentinel.

Section Helpers.
Context {GU : GoUnicode}.

(** [toSet]: the lower-cased strings. *)
Definition toSet (ss : list string) : gset string := list_to_set (ToLower <$> ss).

Definition senderDomain (email : string) : string :=
  match CutLastByte "@" email with Some (_, d) => ToLower d | None => "" end.

Definition hostOnly (addr : string) : string :=
  match SplitHostPort addr with Some (h, _) => h | None => addr end.

End Helpers.

(** ** address_filter.go *)
Module AddressFilter.

Inductive FilterMode : Set := ModeBlock | ModeAllow | ModeOther (n : Z).

Definition FieldSender : Z := 1.
Definition FieldRecipients : Z := 2.
Definition FieldAll : Z := Z.lor FieldSender FieldRecipients.

Record AddressRule := MkRule { RuleID : string; Pattern : string; Field : Z }.

(** [regexp.Compile]: [None] is an error; a compiled pattern is its
    [MatchString]. *)
Class Regexp := { Compile : string → option (string → bool) }.

(** The persistent store of rules: an implementation of [RuleStore]. *)
Class RuleStore (R : Type) := {
  ListRules : MapOrder → R → result (list AddressRule);
  SaveRule : AddressRule → R → result unit * R;
  DeleteRule : string → R → result unit * R }.

(** [MemRuleStore] *)
Definition MemRuleStore : Type := gmap string AddressRule.

Definition NewMemRuleStore (initial : list AddressRule) : MemRuleStore :=
  foldl (λ m r, <[RuleID r := r]> m) ∅ initial.

#[export] Instance mem_rules : RuleStore MemRuleStore := {
  ListRules o m := Ok (range_values o m);
  SaveRule r m := (Ok (), <[RuleID r := r]> m);
  DeleteRule id m := (Ok (), delete id m) }.

Section AddressFilter.
Context {RE : Regexp} {R : Type} {RS : RuleStore R}.

(** A compiled rule holds the pattern's matcher. *)
Record compiledRule := MkCompiled { rule : AddressRule; MatchString : string → bool }.

Record Filter := MkFilter {
  name : string; mode : FilterMode; store : option R; compiled : list compiledRule }.

Definition NewAddressFilter (name : string) (mode : FilterMode) (rs : option R) : Filter :=
  MkFilter name mode rs [].

Definition set_compiled (l : list compiledRule) (f : Filter) : Filter :=
  MkFilter (name f) (mode f) (store f) l.
Definition set_store (r : R) (f : Filter) : Filter := MkFilter (name f) (mode f) (Some r) (compiled f).

(** The rules whose pattern compiles; the others are skipped with a warning. *)
Definition compile_rules (rules : list AddressRule) : list compiledRule :=
  omap (λ r, match Compile (Pattern r) with Some re => Some (MkCompiled r re) | None => None end) rules.

Definition reload (o : MapOrder) (f : Filter) : result unit * Filter :=
  match store f with
  | None => (Ok (), f)
  | Some rs =>
      match ListRules o rs with
      | Err err => (Err (EWrap (Text "address filter: list rules: %w" []) err), f)
      | Ok rules => (Ok (), set_compiled (compile_rules rules) f)
      end
  end.

Definition AddRule (o : MapOrder) (r : AddressRule) (f : Filter) : result unit * Filter :=
  match Compile (Pattern r) with
  | None => (Err (EText (Text "address filter: invalid pattern %q: %w" [AStr (Pattern r)])), f)
  | Some re =>
      match store f with
      | Some rs =>
          match SaveRule r rs with
          | (Err err, rs') => (Err (EWrap (Text "address filter: save rule: %w" []) err), set_store rs' f)
          | (Ok _, rs') => reload o (set_store rs' f)
          end
      | None => (Ok (), set_compiled (compiled f ++ [MkCompiled r re]) f)
      end
  end.

Definition RemoveRule (o : MapOrder) (id : string) (f : Filter) : result unit * Filter :=
  match store f with
  | Some rs =>
      match DeleteRule id rs with
      | (Err err, rs') => (Err (EWrap (Text "address filter: delete rule: %w" []) err), set_store rs' f)
      | (Ok _, rs') => reload o (set_store rs' f)
      end
  | None => (Ok (), set_compiled (filter (λ c, RuleID (rule c) ≠ id) (compiled f)) f)
  end.

(** An address and the field it comes from. *)
Definition addrEntry : Type := string * Z.

Definition applies (r : compiledRule) (a : addrEntry) : bool :=
  negb (Z.land (Field (rule r)) a.2 =? 0).

Fixpoint checkBlock (name : string) (addrs : list addrEntry) (rules : list compiledRule) : result unit :=
  match addrs with
  | [] => Ok ()
  | a :: rest =>
      if existsb (λ r, applies r a && MatchString r a.1) rules
      then reject name (Text "address %q is blocked" [AStr a.1])
      else checkBlock name rest rules
  end.

Fixpoint checkAllow (name : string) (addrs : list addrEntry) (rules : list compiledRule) : result unit :=
  match addrs with
  | [] => Ok ()
  | a :: rest =>
      let applicable := existsb (λ r, applies r a) rules in
      let allowed := existsb (λ r, applies r a && MatchString r a.1) rules in
      if applicable && negb allowed
      then reject name (Text "address %q is not in the allowlist" [AStr a.1])
      else checkAllow name rest rules
  end.

Definition addresses (draft : Draft) : list addrEntry :=
  (GetSenderID draft, FieldSender) :: ((λ r, (r, FieldRecipients)) <$> GetRecipientIDs draft).

Definition BeforeSend (draft : Draft) (f : Filter) : result unit :=
  match compiled f with
  | [] => Ok ()
  | rules =>
      match mode f with
      | ModeBlock => checkBlock (name f) (addresses draft) rules
      | ModeAllow => checkAllow (name f) (addresses draft) rules
      | ModeOther _ => Ok ()
      end
  end.

(** *** Lemmas and properties *)

(** Some rule covers the address and matches it. *)
Definition matched (rules : list compiledRule) (a : addrEntry) : Prop :=
  ∃ r, r ∈ rules ∧ Z.land (Field (rule r)) a.2 ≠ 0 ∧ MatchString r a.1 = true.

Definition covered (rules : list compiledRule) (a : addrEntry) : Prop :=
  ∃ r, r ∈ rules ∧ Z.land (Field (rule r)) a.2 ≠ 0.

Lemma existsb_matched rules a :
  existsb (λ r, applies r a && MatchString r a.1) rules = true ↔ matched rules a.
Proof.
  rewrite existsb_exists. unfold matched, applies. setoid_rewrite <-list_elem_of_In.
  split; intros (r & Hin & H); exists r.
  - apply andb_true_iff in H as [H1 H2]. go_bools. done.
  - destruct H as [H1%Z.eqb_neq ->]. rewrite H1. done.
Qed.

Lemma existsb_covered rules a : existsb (λ r, applies r a) rules = true ↔ covered rules a.
Proof.
  rewrite existsb_exists. unfold covered, applies. setoid_rewrite <-list_elem_of_In.
  split; intros (r & Hin & H); exists r; go_bools; [done|]. apply Z.eqb_neq in H. by rewrite H.
Qed.

Lemma checkBlock_spec name addrs rules :
  checkBlock name addrs rules = Ok () ↔ ∀ a, a ∈ addrs → ¬ matched rules a.
Proof.
  induction addrs as [|a addrs IH]; simpl.
  { split; [|done]. intros _ a Ha. by apply elem_of_nil in Ha. }
  pose proof (existsb_matched rules a) as Hm. destruct (existsb _ rules); simpl.
  - split; [done|]. intros H. exfalso. apply (H a); [by left|]. by apply Hm.
  - rewrite IH. split.
    + intros H b [->|Hb]%elem_of_cons; [|by apply H]. intros Hx. by apply Hm in Hx.
    + intros H b Hb. apply H. by right.
Qed.

Lemma checkAllow_spec name addrs rules :
  checkAllow name addrs rules = Ok () ↔ ∀ a, a ∈ addrs → covered rules a → matched rules a.
Proof.
  induction addrs as [|a addrs IH]; simpl.
  { split; [|done]. intros _ a Ha. by apply elem_of_nil in Ha. }
  pose proof (existsb_matched rules a) as Hm. pose proof (existsb_covered rules a) as Hc.
  assert (existsb (λ r, applies r a) rules && negb (existsb (λ r, applies r a && MatchString r a.1) rules) = true
    ↔ covered rules a ∧ ¬ matched rules a) as Hcond.
  { by rewrite andb_true_iff, negb_true_iff, <-not_true_iff_false, Hc, Hm. }
  destruct (_ && _).
  - split; [done|]. destruct Hcond as [[H1 H2] _]; [done|]. intros H. exfalso. apply H2, (H a); [by left|done].
  - rewrite IH. split.
    + intros H b [->|Hb]%elem_of_cons; [|by apply H]. intros Hcov.
      destruct (decide (existsb (λ r, applies r a && MatchString r a.1) rules = true)) as [E|E]; [by apply Hm|].
      destruct Hcond as [_ Hcond]. discriminate Hcond. split; [done|]. by rewrite <-Hm.
    + intros H b Hb. apply H. by right.
Qed.

Lemma checkBlock_rejects name addrs rules e :
  checkBlock name addrs rules = Err e → errors_Is e ErrRejectedSentinel = true.
Proof. induction addrs; simpl; [done|]. case_match; [by intros [= <-]|done]. Qed.

Lemma checkAllow_rejects name addrs rules e :
  checkAllow name addrs rules = Err e → errors_Is e ErrRejectedSentinel = true.
Proof. induction addrs; simpl; [done|]. case_match; [by intros [= <-]|done]. Qed.

(** The decision of an address filter: a blocklist lets a message pass
    exactly when no rule that covers the field matches the sender or any
    recipient, an allowlist exactly when each address whose field some rule
    covers is matched by such a rule (a list without rules lets everything
    pass), and every refusal is a rejection in the sense of [ErrRejected]. *)
Theorem address_filter_decision draft f :
  (mode f = ModeBlock →
     BeforeSend draft f = Ok () ↔ ∀ a, a ∈ addresses draft → ¬ matched (compiled f) a) ∧
  (mode f = ModeAllow →
     BeforeSend draft f = Ok () ↔
     ∀ a, a ∈ addresses draft → covered (compiled f) a → matched (compiled f) a) ∧
  (∀ e, BeforeSend draft f = Err e → errors_Is e ErrRejectedSentinel = true).
Proof.
  unfold BeforeSend. destruct (compiled f) as [|c rules].
  { split_and!; [| |done]; intros _; split; try done; intros _ a _.
    - intros (r & Hr & _). by apply elem_of_nil in Hr.
    - intros (r & Hr & _). by apply elem_of_nil in Hr. }
  split_and!; [intros ->; apply checkBlock_spec|intros ->; apply checkAllow_spec|].
  intros e. destruct (mode f); [apply checkBlock_rejects|apply checkAllow_rejects|done].
Qed.

End AddressFilter.

(** Rules held by a filter, whichever way they are kept. *)
Section Rules.
Context {RE : Regexp}.

Lemma elem_of_compile_rules c rules :
  c ∈ compile_rules rules ↔ ∃ r re, r ∈ rules ∧ Compile (Pattern r) = Some re ∧ c = MkCompiled r re.
Proof.
  unfold compile_rules. rewrite list_elem_of_omap. split.
  - intros (r & Hr & H). destruct (Compile (Pattern r)) as [re|] eqn:E; [|done].
    injection H as <-. by exists r, re.
  - intros (r & re & Hr & E & ->). exists r. by rewrite E.
Qed.

(** Adding and removing rules takes effect for the next message, with an
    in-memory list or a rule store behind the filter: once [AddRule] succeeds on
    a blocklist, a message with an address the new rule covers and matches is
    rejected; once [RemoveRule] succeeds, the filter holds no rule with that
    ID and keeps every other rule; a pattern that does not compile is refused
    and changes nothing. *)
Theorem address_rules_take_effect o r (f : Filter (R := MemRuleStore)) :
  match AddRule o r f with
  | (Err _, f') => Compile (Pattern r) = None ∧ f' = f
  | (Ok _, f') => ∃ re, Compile (Pattern r) = Some re ∧
      ∀ draft a, mode f = ModeBlock → a ∈ addresses draft →
        Z.land (Field r) a.2 ≠ 0 → re a.1 = true → is_ok (BeforeSend draft f') = false
  end ∧
  match RemoveRule o (RuleID r) f with
  | (Err _, _) => False
  | (Ok _, f') =>
      (store f = None ∨ (∃ rs, store f = Some rs ∧ map_Forall (λ k x, RuleID x = k) rs ∧
                               compiled f ≡ₚ compile_rules (range_values o rs))) →
      ∀ c, c ∈ compiled f' ↔ c ∈ compiled f ∧ RuleID (rule c) ≠ RuleID r
  end.
Proof.
  split.
  - unfold AddRule. destruct (Compile (Pattern r)) as [re|] eqn:E; [|done].
    assert (∀ f' : Filter (R := MemRuleStore), mode f' = mode f → MkCompiled r re ∈ compiled f' →
      ∀ draft a, mode f = ModeBlock → a ∈ addresses draft → Z.land (Field r) a.2 ≠ 0 →
        re a.1 = true → is_ok (BeforeSend draft f') = false) as Hrej.
    { intros f' Hmode Hc draft a Hm Ha Hf Hre. unfold BeforeSend.
      destruct (compiled f') as [|c cs]; [by apply elem_of_nil in Hc|]. rewrite Hmode, Hm.
      destruct (checkBlock (name f') (addresses draft) (c :: cs)) as [[]|] eqn:Hcb; [|done].
      apply checkBlock_spec with (a := a) in Hcb; [|done]. destruct Hcb. by exists (MkCompiled r re). }
    destruct (store f) as [rs|] eqn:Es; simpl.
    + exists re. split; [done|]. apply Hrej; [done|]. simpl. apply elem_of_compile_rules.
      exists r, re. split_and!; [|done|done]. apply elem_of_range_values. exists (RuleID r).
      apply lookup_insert_eq.
    + exists re. split; [done|]. apply Hrej; [done|]. simpl. apply elem_of_app. right. by left.
  - unfold RemoveRule. destruct (store f) as [rs|] eqn:Es; simpl.
    + intros [?|(rs' & [= <-] & Hid & Hc)] c; [done|].
      rewrite Hc, !elem_of_compile_rules. split.
      * intros (x & re & Hx & Hcx & ->). apply elem_of_range_values in Hx as [k Hk].
        apply lookup_delete_Some in Hk as [Hne Hk]. split.
        -- exists x, re. split_and!; [|done|done]. apply elem_of_range_values. eauto.
        -- simpl. rewrite (Hid _ _ Hk). done.
      * intros [(x & re & Hx & Hcx & ->) Hne]. simpl in Hne. exists x, re. split_and!; [|done|done].
        apply elem_of_range_values in Hx as [k Hk]. apply elem_of_range_values. exists k.
        apply lookup_delete_Some. split; [|done]. rewrite <-(Hid _ _ Hk). done.
    + intros _ c. rewrite list_elem_of_filter. tauto.
Qed.

End Rules.

(** *** A reader of the rules while one is removed

    [RemoveRule] on an in-memory filter moves the kept rules down inside the
    slice's array; [BeforeSend] reads the array through the slice it took
    before, without the lock. [Reading backing i]: the loop of [checkBlock] over
    the [n] rules of its slice is about to read index [i] of the shared array. *)
Section Race.
Variable a : addrEntry.
Variable n : nat.

Inductive Reader : Type :=
| Reading (backing : list compiledRule) (i : nat)
| Verdict (blocked : bool).

(** The array after the in-place removal: the kept rules, then what was there. *)
Definition compact (id : string) (backing : list compiledRule) : list compiledRule :=
  let kept := filter (λ c, RuleID (rule c) ≠ id) backing in
  kept ++ drop (length kept) backing.

Inductive race : Reader → Reader → Prop :=
| race_match backing i r :
    backing !! i = Some r → (i < n)%nat → applies r a && MatchString r a.1 = true →
    race (Reading backing i) (Verdict true)
| race_next backing i r :
    backing !! i = Some r → (i < n)%nat → applies r a && MatchString r a.1 = false →
    race (Reading backing i) (Reading backing (S i))
| race_end backing i : (n <= i)%nat → race (Reading backing i) (Verdict false)
| race_remove backing i id : race (Reading backing i) (Reading (compact id backing) i).
End Race.

Definition demo_rule (id : string) (addr : string) : compiledRule :=
  MkCompiled (MkRule id addr FieldSender) (λ s, bool_decide (s = addr)).

(** A message from a blocked sender can pass while another rule is being
    removed: the rule that blocks it is in the filter before, during and after
    the removal of the first rule, and still the concurrent check reads the
    array past it. *)
Theorem removal_race_skips_rule :
  let rules := [demo_rule "1" "x@x"; demo_rule "2" "eve@x"; demo_rule "3" "y@y"] in
  checkBlock "f" [("eve@x", FieldSender)] rules ≠ Ok () ∧
  checkBlock "f" [("eve@x", FieldSender)] (filter (λ c, RuleID (rule c) ≠ "1") rules) ≠ Ok () ∧
  rtc (race ("eve@x", FieldSender) (length rules)) (Reading rules 0) (Verdict false).
Proof.
  intros rules. split_and!; [by vm_compute|by vm_compute|].
  eapply rtc_l; [eapply race_next; [reflexivity|by apply Nat.ltb_lt|reflexivity]|].
  eapply rtc_l; [eapply (race_remove _ _ _ _ "1")|].
  eapply rtc_l; [eapply race_next; [reflexivity|by apply Nat.ltb_lt|reflexivity]|].
  eapply rtc_l; [eapply race_next; [reflexivity|by apply Nat.ltb_lt|reflexivity]|].
  apply rtc_once. apply race_end. by apply Nat.leb_le.
Qed.

End AddressFilter.

(** ** attachment_filter.go *)
Module AttachmentFilter.

Record Config := MkConfig {
  MaxCount : Z; MaxTotalBytes : Z; MaxSingleBytes : Z;
  AllowedMIMEs : list string; BlockedMIMEs : list string }.

(** [mime.ParseMediaType]: the media type without parameters; [None] is an error. *)
Class Mime := { ParseMediaType : string → option string }.

Section AttachmentFilter.
Context {GU : GoUnicode} {MM : Mime}.

Record Filter := MkFilter { name : string; cfg : Config; allowed : gset string; blocked : gset string }.

Definition NewAttachmentFilter (name : string) (cfg : Config) : Filter :=
  MkFilter name cfg (toSet (AllowedMIMEs cfg)) (toSet (BlockedMIMEs cfg)).

Definition normaliseMediaType (ct : string) : string :=
  if bool_decide (ct = "") then ""
  else match ParseMediaType ct with
       | Some mediatype => mediatype
       | None =>
           let ct := match CutByte ";" ct with Some (before, _) => before | None => ct end in
           ToLower (TrimSpace ct)
       end.

(** One attachment of the loop: the running total, or a rejection. *)
Definition check_one (f : Filter) (totalBytes : Z) (a : Attachment) : result Z :=
  let sz := Size a in
  if sz <? 0 then
    Err (ERejection (name f) (Text "attachment %q has invalid negative size %d" [AStr (Filename a); AInt sz]))
  else
    let totalBytes := wrap64 (totalBytes + sz) in
    if (0 <? MaxSingleBytes (cfg f)) && (MaxSingleBytes (cfg f) <? sz) then
      Err (ERejection (name f) (Text "attachment %q size %d exceeds limit of %d bytes"
             [AStr (Filename a); AInt sz; AInt (MaxSingleBytes (cfg f))]))
    else
      let mtype := normaliseMediaType (ContentType a) in
      if bool_decide (mtype ∈ blocked f) then
        Err (ERejection (name f) (Text "attachment %q has blocked MIME type %q" [AStr (Filename a); AStr mtype]))
      else if negb (bool_decide (allowed f = ∅)) && negb (bool_decide (mtype ∈ allowed f)) then
        Err (ERejection (name f) (Text "attachment %q has disallowed MIME type %q" [AStr (Filename a); AStr mtype]))
      else Ok totalBytes.

Fixpoint check_all (f : Filter) (totalBytes : Z) (atts : list Attachment) : result Z :=
  match atts with
  | [] => Ok totalBytes
  | a :: rest => match check_one f totalBytes a with Ok t => check_all f t rest | Err e => Err e end
  end.

Definition BeforeSend (draft : Draft) (f : Filter) : result unit :=
  let atts := GetAttachments draft in
  let n := Z.of_nat (length atts) in
  if (0 <? MaxCount (cfg f)) && (MaxCount (cfg f) <? n) then
    reject (name f) (Text "too many attachments: %d > max %d" [AInt n; AInt (MaxCount (cfg f))])
  else
    match check_all f 0 atts with
    | Err e => Err e
    | Ok totalBytes =>
        if (0 <? MaxTotalBytes (cfg f)) && (MaxTotalBytes (cfg f) <? totalBytes) then
          reject (name f) (Text "total attachment size %d exceeds limit of %d bytes"
                             [AInt totalBytes; AInt (MaxTotalBytes (cfg f))])
        else Ok ()
    end.

(** What is asked of each attachment. *)
Definition att_ok (f : Filter) (a : Attachment) : Prop :=
  0 <= Size a ∧ (0 < MaxSingleBytes (cfg f) → Size a <= MaxSingleBytes (cfg f)) ∧
  (normaliseMediaType (ContentType a) ∉ blocked f) ∧
  (allowed f ≠ ∅ → normaliseMediaType (ContentType a) ∈ allowed f).

Definition total (atts : list Attachment) : Z := foldr (λ a t, Size a + t) 0 atts.

Lemma check_one_spec f t a :
  (att_ok f a ∧ check_one f t a = Ok (wrap64 (t + Size a))) ∨ (¬ att_ok f a ∧ ∃ r, check_one f t a = Err (ERejection (name f) r)).
Proof.
  unfold check_one, att_ok. destruct (Z.ltb_spec (Size a) 0) as [Hs|Hs]; [right; split; [lia|eauto]|].
  destruct (Z.ltb_spec 0 (MaxSingleBytes (cfg f))) as [Hm|Hm]; simpl;
    [destruct (Z.ltb_spec (MaxSingleBytes (cfg f)) (Size a)) as [Hx|Hx]; [right; split; [lia|eauto]|]|].
  all: case_bool_decide as Hb; [right; split; [tauto|eauto]|].
  all: case_bool_decide as He; simpl; [left; split_and!; try done; lia|].
  all: case_bool_decide as Ha; simpl; [left; split_and!; done || lia|right; split; [tauto|eauto]].
Qed.

Lemma check_all_spec f t atts :
  (Forall (att_ok f) atts ∧ check_all f (wrap64 t) atts = Ok (wrap64 (t + total atts))) ∨
  (¬ Forall (att_ok f) atts ∧ ∃ r, check_all f (wrap64 t) atts = Err (ERejection (name f) r)).
Proof.
  revert t. induction atts as [|a atts IH]; intros t; simpl.
  { left. rewrite Z.add_0_r. done. }
  destruct (check_one_spec f (wrap64 t) a) as [[Ha ->]|[Ha [r ->]]].
  - rewrite wrap64_add, Z.add_assoc. destruct (IH (t + Size a)) as [[H ->]|[H Hr]].
    + left. split; [by constructor|done].
    + right. split; [|done]. intros Hx. by apply Forall_cons_1 in Hx as [_ ?].
  - right. split; [|eauto]. intros Hx. by apply Forall_cons_1 in Hx as [? _].
Qed.

Lemma BeforeSend_cases draft f :
  let atts := GetAttachments draft in
  let sum := wrap64 (total atts) in
  (BeforeSend draft f = Ok () ↔
   (0 < MaxCount (cfg f) → Z.of_nat (length atts) <= MaxCount (cfg f)) ∧ Forall (att_ok f) atts ∧
   (0 < MaxTotalBytes (cfg f) → sum <= MaxTotalBytes (cfg f))) ∧
  (∀ e, BeforeSend draft f = Err e → errors_Is e ErrRejectedSentinel = true).
Proof.
  intros atts sum. unfold BeforeSend, reject. fold atts.
  destruct (Z.ltb_spec 0 (MaxCount (cfg f))) as [Hc|Hc]; simpl;
    [destruct (Z.ltb_spec (MaxCount (cfg f)) (Z.of_nat (length atts))) as [Hn|Hn]|]; cbn iota.
  { split; [|by intros ? [= <-]]. split; [done|]. intros [H _]. specialize (H Hc). lia. }
  all: change (check_all f 0 atts) with (check_all f (wrap64 0) atts);
    destruct (check_all_spec f 0 atts) as [[Ha ->]|[Ha [r ->]]];
    [|split; [split; [done|tauto]|by intros ? [= <-]]].
  all: rewrite Z.add_0_l; fold sum.
  all: destruct (Z.ltb_spec 0 (MaxTotalBytes (cfg f))); simpl;
    [destruct (Z.ltb_spec (MaxTotalBytes (cfg f)) sum)|]; cbn iota.
  all: split; [split|intros e He; try done; by injection He as <-].
  all: try done.
  all: try (intros _; split; [intros; lia|split; [done|intros; lia]]).
  all: intros (_ & _ & Hx); exfalso; specialize (Hx ltac:(assumption)); lia.
Qed.

(** The attachment policy: a message passes exactly when it has no more
    attachments than allowed, each attachment has a non-negative size within
    the single limit and a media type that is not blocked and, if there is an
    allowlist, is in it, and the sum of the sizes is within the total limit, as
    long as that sum fits an [int64]; every refusal is a rejection. *)
Theorem attachment_filter_spec draft f :
  let atts := GetAttachments draft in
  total atts <= maxInt64 →
  (BeforeSend draft f = Ok () ↔
   (0 < MaxCount (cfg f) → Z.of_nat (length atts) <= MaxCount (cfg f)) ∧ Forall (att_ok f) atts ∧
   (0 < MaxTotalBytes (cfg f) → total atts <= MaxTotalBytes (cfg f))) ∧
  (∀ e, BeforeSend draft f = Err e → errors_Is e ErrRejectedSentinel = true).
Proof.
  intros atts Ht. destruct (BeforeSend_cases draft f) as [H He]. split; [|exact He].
  rewrite H. fold atts. split; intros (H1 & H2 & H3); (split; [done|split; [done|]]).
  all: assert (0 <= total atts) as H0
    by (clear -H2; induction H2 as [|a l (Ha & _) _ IH]; simpl; lia);
    rewrite wrap64_id in * by (unfold int64_range, maxInt64 in *; lia); done.
Qed.

End AttachmentFilter.

#[local] Existing Instance ascii_only.
#[local] Instance plain_types : Mime := { ParseMediaType s := Some (ascii_lower s) }.

Definition demo_filter : Filter := NewAttachmentFilter "att" (MkConfig 2 1000 0 [] ["application/x-sh"]).
Definition demo_draft (atts : list Attachment) : Draft := MkDraft "a@x" ["b@x"] "" "" ∅ atts.

Lemma attachment_filter_spec_witness :
  BeforeSend (demo_draft [MkAttachment "1" "a.txt" "text/plain" 600 ""; MkAttachment "2" "b.txt" "text/plain" 400 ""])
    demo_filter = Ok ().
Proof.
  apply (attachment_filter_spec
    (demo_draft [MkAttachment "1" "a.txt" "text/plain" 600 ""; MkAttachment "2" "b.txt" "text/plain" 400 ""])
    demo_filter).
  - vm_compute. discriminate.
  - split; [simpl; lia|]. split; [|simpl; lia].
    repeat constructor; simpl; try lia; try done; vm_compute; done.
Defined.

(** The total size limit can be passed by: sizes whose sum exceeds [int64] wrap
    around to a negative total. *)
Theorem total_size_wraps :
  is_ok (BeforeSend (demo_draft [MkAttachment "1" "a" "text/plain" (2 ^ 62) "";
                                 MkAttachment "2" "b" "text/plain" (2 ^ 62) ""]) demo_filter) = true.
Proof. vm_compute. reflexivity. Qed.

End AttachmentFilter.

(** ** security_agent.go *)
Module SecurityAgent.

Record Config := MkConfig {
  MaxRecipients : Z; MaxBodyBytes : Z; RatePerSender : Q; BurstPerSender : Z;
  SenderTTL : Duration; BlockedExtensions : option (list string) }.

Definition defaultBlockedExtensions : list string :=
  [".exe"; ".bat"; ".cmd"; ".sh"; ".ps1"; ".vbs"; ".js"; ".jar"; ".msi"; ".dll"; ".scr"; ".pif"; ".com"].

(** golang.org/x/time/rate: a limiter of a given burst, and whether it allows an
    event now. The rate itself is only compared with zero here. *)
Class RateLimiter (L : Type) := {
  NewLimiter : Q → Z → L;
  Allow : Time → L → bool * L }.

Section SecurityAgent.
Context {GU : GoUnicode} {L : Type} {RL : RateLimiter L}.

Record senderEntry := MkSender { lim : L; lastSec : Z }.

Record Agent := MkAgent {
  name : string; cfg : Config; blockedExt : gset string; senders : gmap string senderEntry }.

Definition NewSecurityAgent (name : string) (cfg : Config) : Agent :=
  let exts := default defaultBlockedExtensions (BlockedExtensions cfg) in
  let burst := if BurstPerSender cfg <? 1 then 1 else BurstPerSender cfg in
  let ttl := if SenderTTL cfg =? 0 then 10 * Minute else SenderTTL cfg in
  MkAgent name (MkConfig (MaxRecipients cfg) (MaxBodyBytes cfg) (RatePerSender cfg) burst ttl (BlockedExtensions cfg))
    (list_to_set (ToLower <$> exts)) ∅.

Definition set_senders (m : gmap string senderEntry) (sa : Agent) : Agent :=
  MkAgent (name sa) (cfg sa) (blockedExt sa) m.

(** [limiterFor(sender).Allow()] *)
Definition allow (now : Time) (sender : string) (sa : Agent) : bool * Agent :=
  let e := match senders sa !! sender with
           | Some e => MkSender (lim e) (Unix now)
           | None => MkSender (NewLimiter (RatePerSender (cfg sa)) (BurstPerSender (cfg sa))) (Unix now)
           end in
  let '(ok, l') := Allow now (lim e) in
  (ok, set_senders (<[sender := MkSender l' (lastSec e)]> (senders sa)) sa).

Definition evict (now : Time) (sa : Agent) : Agent :=
  let cutoff := Unix (now - SenderTTL (cfg sa)) in
  set_senders (filter (λ kv, ¬ (lastSec kv.2 < cutoff)) (senders sa)) sa.

(** The eviction goroutine and its two [sync.Once]: how often it was started, and
    whether [stopCh] is closed. *)
Record eviction := MkEviction { loops : nat; initialised : bool; closed : bool }.

Definition Init (l : eviction) : result unit * eviction :=
  (Ok (), if initialised l then l else MkEviction (S (loops l)) true (closed l)).

Definition Close (l : eviction) : result unit * eviction :=
  (Ok (), if closed l then l else MkEviction (loops l) (initialised l) true).

Definition containsNewline (s : string) : bool := negb (all_bytes (λ b, negb (is_crlf b)) s).

(** The loop of [blockedExtension]: each round drops the last dot segment, so
    the length of the name bounds the rounds. *)
Fixpoint scan_extensions (fuel : nat) (lower : string) (blocked : gset string) : string :=
  match fuel with
  | O => ""
  | S fuel' =>
      match CutLastByte "." lower with
      | None => ""
      | Some (pre, seg) =>
          let ext := String "." seg in
          if bool_decide (ext ∈ blocked) then ext else scan_extensions fuel' pre blocked
      end
  end.

Definition blockedExtension (filename : string) (blocked : gset string) : string :=
  let lower := ToLower filename in scan_extensions (S (String.length lower)) lower blocked.

Definition BeforeSend (o : MapOrder) (now : Time) (draft : Draft) (sa : Agent) : result unit * Agent :=
  let sender := GetSenderID draft in
  let '(ok, sa') := if rate_on (RatePerSender (cfg sa)) then allow now sender sa else (true, sa) in
  (if negb ok then reject (name sa) (Text "sender %q is sending too fast" [AStr sender])
   else
     let n := Z.of_nat (length (GetRecipientIDs draft)) in
     if (0 <? MaxRecipients (cfg sa)) && (MaxRecipients (cfg sa) <? n) then
       reject (name sa) (Text "too many recipients: %d > max %d" [AInt n; AInt (MaxRecipients (cfg sa))])
     else
       let b := len (GetBody draft) in
       if (0 <? MaxBodyBytes (cfg sa)) && (MaxBodyBytes (cfg sa) <? b) then
         reject (name sa) (Text "body size %d exceeds limit of %d bytes" [AInt b; AInt (MaxBodyBytes (cfg sa))])
       else
         match List.find (λ kv, containsNewline kv.1 || containsNewline kv.2) (range o (GetHeaders draft)) with
         | Some kv => reject (name sa) (Text "header %q contains illegal newline characters" [AStr kv.1])
         | None =>
             match List.find (λ a, negb (bool_decide (blockedExtension (Filename a) (blockedExt sa) = "")))
                     (GetAttachments draft) with
             | Some a => reject (name sa) (Text "attachment %q has blocked extension %q"
                           [AStr (Filename a); AStr (blockedExtension (Filename a) (blockedExt sa))])
             | None => Ok ()
             end
         end, sa').

(** *** Extensions *)

(** Every dot segment of a name as an extension, from left to right. *)
Definition extensions (lower : string) : list string := String "." <$> tail (SplitByte "." lower).

Lemma SplitByte_nonempty sep s : SplitByte sep s ≠ [].
Proof. destruct s; simpl; [done|]. repeat case_match; done. Qed.

Lemma SplitByte_app sep b a :
  CutByte sep a = None → SplitByte sep (b +:+ String sep a) = SplitByte sep b ++ [a].
Proof.
  intros Ha. assert (SplitByte sep a = [a]) as Hs.
  { induction a as [|c a IH]; [done|]. simpl in Ha |- *. case_bool_decide; [done|].
    destruct (CutByte sep a) as [[]|]; [done|]. by rewrite IH. }
  induction b as [|c b IH].
  - change (SplitByte sep (String sep a) = [""] ++ [a]). simpl. by rewrite bool_decide_eq_true_2, Hs.
  - change (SplitByte sep (String c (b +:+ String sep a)) = SplitByte sep (String c b) ++ [a]). simpl.
    case_bool_decide; rewrite IH; [done|]. pose proof (SplitByte_nonempty sep b).
    by destruct (SplitByte sep b).
Qed.

Lemma extensions_app b a : CutByte "." a = None → extensions (b +:+ String "." a) = extensions b ++ [String "." a].
Proof.
  intros Ha. unfold extensions. rewrite SplitByte_app by done.
  pose proof (SplitByte_nonempty "." b). destruct (SplitByte "." b) as [|w ws]; [done|]. simpl.
  by rewrite fmap_app.
Qed.

Lemma extensions_none s : CutByte "." s = None → extensions s = [].
Proof.
  unfold extensions. induction s as [|c s IH]; simpl; [done|]. case_bool_decide; [done|].
  destruct (CutByte "." s) as [[]|]; [done|]. intros _. specialize (IH eq_refl).
  destruct (SplitByte "." s) as [|w ws]; [done|]. exact IH.
Qed.

(** The last extension of a list that is blocked. *)
Definition last_blocked (blocked : gset string) (exts : list string) : string :=
  default "" (list.last (filter (.∈ blocked) exts)).

Lemma scan_extensions_spec fuel lower blocked :
  (String.length lower < fuel)%nat → scan_extensions fuel lower blocked = last_blocked blocked (extensions lower).
Proof.
  revert lower. induction fuel as [|fuel IH]; intros lower Hf; [lia|]. simpl.
  destruct (CutLastByte "." lower) as [[pre seg]|] eqn:E.
  - apply CutLastByte_Some in E as [-> Hseg]. rewrite extensions_app by done.
    unfold last_blocked. rewrite list.filter_app. case_bool_decide as Hb.
    + rewrite filter_cons_True, filter_nil by done. by rewrite last_snoc.
    + rewrite filter_cons_False, filter_nil, app_nil_r by done. apply IH.
      assert (String.length (pre +:+ String "." seg) = String.length pre + S (String.length seg))%nat as Hl.
      { clear. induction pre as [|c pre IH]; [done|].
        change (S (String.length (pre +:+ String "." seg)) = S (String.length pre + S (String.length seg)))%nat. lia. }
      lia.
  - apply CutLastByte_None in E. by rewrite extensions_none.
Qed.

(** No dangerous extension hides behind another: [blockedExtension] scans
    every dot segment of the lower-cased name and returns the rightmost blocked
    one; it returns nothing exactly when no segment is blocked (so
    [evil.exe.pdf] is caught, in any case); the scan always ends within the
    length of the name. *)
Theorem blockedExtension_all_segments filename blocked :
  blockedExtension filename blocked = last_blocked blocked (extensions (ToLower filename)) ∧
  (blockedExtension filename blocked = "" ↔
   ∀ seg, seg ∈ tail (SplitByte "." (ToLower filename)) → String "." seg ∉ blocked).
Proof.
  unfold blockedExtension. rewrite scan_extensions_spec by lia. split; [done|].
  unfold last_blocked, extensions. set (exts := String "." <$> _). split.
  - intros Hl seg Hs Hb.
    assert (String "." seg ∈ filter (.∈ blocked) exts) as Hin.
    { apply list_elem_of_filter. split; [done|]. apply list_elem_of_fmap. eauto. }
    destruct (list.last (filter (.∈ blocked) exts)) as [x|] eqn:E.
    + apply last_Some_elem_of, list_elem_of_filter in E as [_ E].
      apply list_elem_of_fmap in E as (y & -> & _). done.
    + apply last_None in E. rewrite E in Hin. by apply elem_of_nil in Hin.
  - intros Hno. destruct (list.last (filter (.∈ blocked) exts)) as [x|] eqn:E; [|done].
    apply last_Some_elem_of, list_elem_of_filter in E as [Hb E].
    apply list_elem_of_fmap in E as (y & -> & Hy). by destruct (Hno y Hy).
Qed.

Lemma find_None {A} (p : A → bool) l : List.find p l = None ↔ ∀ x, x ∈ l → p x = false.
Proof.
  induction l as [|y l IH]; simpl.
  - split; [|done]. intros _ x Hx. by apply elem_of_nil in Hx.
  - destruct (p y) eqn:E; [split; [done|]; intros H; rewrite (H y) in E by (by left); done|].
    rewrite IH. split; intros H x Hx; [apply elem_of_cons in Hx as [->|Hx]; auto|apply H; by right].
Qed.

(** What passes the security agent is within its limits and free of header
    injection: at most the allowed recipients and body bytes, no CR or LF in any
    header name or value (so that relaying such headers is safe), and no blocked
    extension in any attachment name. *)
Theorem security_agent_spec o now draft sa :
  (BeforeSend o now draft sa).1 = Ok () →
  (0 < MaxRecipients (cfg sa) → Z.of_nat (length (GetRecipientIDs draft)) <= MaxRecipients (cfg sa)) ∧
  (0 < MaxBodyBytes (cfg sa) → len (GetBody draft) <= MaxBodyBytes (cfg sa)) ∧
  (∀ k v, GetHeaders draft !! k = Some v → Relay.Relay.clean k = true ∧ Relay.Relay.clean v = true) ∧
  (∀ a, a ∈ GetAttachments draft → blockedExtension (Filename a) (blockedExt sa) = "").
Proof.
  unfold BeforeSend.
  destruct (if rate_on (RatePerSender (cfg sa)) then allow now (GetSenderID draft) sa else (true, sa)) as [[] sa'];
    simpl; [|done].
  destruct ((0 <? MaxRecipients _) && _) eqn:E1; [done|].
  destruct ((0 <? MaxBodyBytes _) && _) eqn:E2; [done|].
  destruct (List.find _ (range _ _)) eqn:E3; [done|].
  destruct (List.find _ (GetAttachments _)) eqn:E4; [done|]. intros _.
  rewrite find_None in E3. rewrite find_None in E4. split_and!.
  - intros H. apply andb_false_iff in E1. destruct E1; go_bools; lia.
  - intros H. apply andb_false_iff in E2. destruct E2; go_bools; lia.
  - intros k v Hk. assert ((k, v) ∈ range o (GetHeaders draft)) as Hin by by apply elem_of_range.
    apply E3 in Hin. apply orb_false_iff in Hin as [H1 H2]. unfold containsNewline in H1, H2.
    apply negb_false_iff in H1, H2.
    assert (∀ s, all_bytes (λ b, negb (is_crlf b)) s = true → Relay.Relay.clean s = true) as Hcl.
    { clear. induction s as [|c s IH]; simpl; [done|]. intros [Hc Hs]%andb_true_iff.
      unfold Relay.Relay.clean in *. simpl. rewrite IH, andb_true_r by done.
      unfold is_crlf in Hc. by rewrite negb_orb in Hc. }
    auto.
  - intros a Ha. apply E4 in Ha. by apply negb_false_iff, bool_decide_eq_true in Ha.
Qed.

End SecurityAgent.

#[local] Existing Instance ascii_only.
#[local] Instance unlimited : RateLimiter unit := { NewLimiter _ _ := tt; Allow _ l := (true, l) }.

Definition demo_agent : Agent (L := unit) := NewSecurityAgent "sec" (MkConfig 5 100 1%Q 1 0 None).
Definition demo_mail : Draft :=
  MkDraft "a@x" ["b@x"] "hi" "text" {["X-Id" := "1"]} [MkAttachment "1" "notes.txt" "text/plain" 1 ""].

Lemma security_agent_spec_witness :
  (BeforeSend some_order 0 demo_mail demo_agent).1 = Ok () ∧
  Z.of_nat (length (GetRecipientIDs demo_mail)) <= 5 ∧
  blockedExtension "Evil.EXE.pdf" (blockedExt demo_agent) = ".exe".
Proof.
  assert ((BeforeSend some_order 0 demo_mail demo_agent).1 = Ok ()) as H by (vm_compute; reflexivity).
  split; [exact H|]. split; [|vm_compute; reflexivity].
  apply (security_agent_spec some_order 0 demo_mail demo_agent H). simpl. lia.
Defined.

End SecurityAgent.

(** ** email_auth.go *)
Module EmailAuth.

Record Config := MkConfig { SPFPolicy : string; DKIMPolicy : string; DMARCPolicy : string }.

(** DNS and the public suffix list. *)
Class Dns := {
  LookupTXT : string → option (list string);
  EffectiveTLDPlusOne : string → option string }.

Section EmailAuth.
Context {GU : GoUnicode} {NM : NetMail} {DN : Dns}.
Variable name : string.
Variable cfg : Config.

Definition off (policy : string) : bool := bool_decide (policy = "") || bool_decide (policy = "off").

Definition missing (result : string) : bool := bool_decide (result = "") || bool_decide (result = "none").

Definition checkSPF (headers : gmap string string) : result unit :=
  let policy := SPFPolicy cfg in
  if off policy then Ok ()
  else
    let r := mget headers "X-SPF-Result" in
    let failed := bool_decide (r = "fail") || bool_decide (r = "softfail") in
    if bool_decide (policy = "reject") && failed then
      reject name (Text "SPF check failed: %s" [AStr r])
    else if bool_decide (policy = "require") && (missing r || failed) then
      reject name (Text "SPF check required but result is %q" [AStr r])
    else Ok ().

Definition checkDKIM (headers : gmap string string) : result unit :=
  let policy := DKIMPolicy cfg in
  if off policy then Ok ()
  else
    let r := mget headers "X-DKIM-Result" in
    let failed := bool_decide (r = "fail") in
    if bool_decide (policy = "reject") && failed then
      reject name (Text "DKIM verification failed: %s" [AStr r])
    else if bool_decide (policy = "require") && (missing r || failed) then
      reject name (Text "DKIM required but result is %q" [AStr r])
    else Ok ().

(** The tags [p], [aspf] and [adkim] of a record. *)
Definition tags : Type := string * string * string.

Definition read_tag (t : tags) (tag : string) : tags :=
  let '(p, aspf, adkim) := t in
  let tag := TrimSpace tag in
  if HasPrefix tag "p=" then (ToLower (TrimPrefix tag "p="), aspf, adkim)
  else if HasPrefix tag "aspf=" then (p, ToLower (TrimPrefix tag "aspf="), adkim)
  else if HasPrefix tag "adkim=" then (p, aspf, ToLower (TrimPrefix tag "adkim="))
  else t.

(** The first TXT string that is a DMARC record decides. *)
Fixpoint parseDMARCRecord (txts : list string) : tags :=
  match txts with
  | [] => ("", "r", "r")
  | txt :: rest =>
      if HasPrefix txt "v=DMARC1" then foldl read_tag ("", "r", "r") (SplitByte ";" txt)
      else parseDMARCRecord rest
  end.

Definition domainOf (addr : string) : string :=
  match CutByte "@" addr with Some (_, d) => ToLower d | None => ToLower addr end.

(** The last two labels when the public suffix list has no answer. *)
Definition orgDomain (domain : string) : string :=
  match EffectiveTLDPlusOne domain with
  | Some d => d
  | None =>
      let parts := SplitByte "." domain in
      if (length parts <=? 2)%nat then domain
      else Relay.Relay.Join (drop (length parts - 2) parts) "."
  end.

Definition domainMatch (got want mode : string) : bool :=
  if bool_decide (got = "") || bool_decide (want = "") then false
  else
    let got := ToLower got in
    let want := ToLower want in
    if EqualFold got want then true
    else if bool_decide (mode = "s") then false
    else bool_decide (orgDomain got = orgDomain want).

(** The domain of the From header, when there is one to check. *)
Definition from_domain (headers : gmap string string) : option string :=
  let fromHeader := mget headers "From" in
  if bool_decide (fromHeader = "") then None
  else match ParseAddress fromHeader with
       | None => None
       | Some addr => match CutByte "@" addr with Some (_, d) => Some (ToLower d) | None => None end
       end.

(** DMARC alignment by SPF or by DKIM. *)
Definition aligned (headers : gmap string string) (fromDomain aspf adkim : string) : bool :=
  (bool_decide (mget headers "X-SPF-Result" = "pass") &&
   domainMatch (domainOf (mget headers "X-SMTP-Envelope-From")) fromDomain aspf) ||
  (bool_decide (mget headers "X-DKIM-Result" = "pass") &&
   domainMatch (ToLower (mget headers "X-DKIM-Domain")) fromDomain adkim).

Definition checkDMARC (headers : gmap string string) : result unit :=
  let policy := DMARCPolicy cfg in
  if off policy then Ok ()
  else match from_domain headers with
  | None => Ok ()
  | Some fromDomain =>
      match LookupTXT ("_dmarc." +:+ fromDomain) with
      | None => Ok ()
      | Some txts =>
          let '(dnsPolicy, aspf, adkim) := parseDMARCRecord txts in
          if bool_decide (dnsPolicy = "") || bool_decide (dnsPolicy = "none") then Ok ()
          else if aligned headers fromDomain aspf adkim then Ok ()
          else if bool_decide (policy = "reject") then
            reject name (Text "DMARC failed for %s (dns_policy=%s spf=%s dkim=%s)"
              [AStr fromDomain; AStr dnsPolicy; AStr (mget headers "X-SPF-Result"); AStr (mget headers "X-DKIM-Result")])
          else Ok ()
      end
  end.

Definition BeforeSend (draft : Draft) : result unit :=
  let headers := GetHeaders draft in
  match checkSPF headers with
  | Err e => Err e
  | Ok _ => match checkDKIM headers with
            | Err e => Err e
            | Ok _ => checkDMARC headers
            end
  end.

(** Mail received over SMTP is never checked against DMARC: the listener puts
    only its own [X-] headers into the request, so there is no [From] header to
    take the domain from, and the check passes whatever the policy, the DNS
    record and the verification results say. *)
Theorem smtp_mail_skips_dmarc srv parsed raw_len v s sender req :
  Smtp.build_request srv parsed raw_len v s = Ok (sender, req) →
  checkDMARC (Smtp.Headers req) = Ok ().
Proof.
  unfold Smtp.build_request. destruct parsed as [msg|]; [|done].
  destruct (Smtp.read_body _) as [body|]; [|done].
  destruct (if _ && _ then Smtp.dkim_summary v else (_, _)) as [dr dd]. intros [= <- <-].
  unfold checkDMARC. case_match; [done|]. unfold from_domain, mget. simpl Smtp.Headers.
  rewrite !lookup_insert_ne, lookup_singleton_ne by done. done.
Qed.

(** The two header policies have one shape. *)
Lemma policy_check (policy : string) (failed miss : bool) (e1 e2 : error) :
  (if off policy then Ok ()
   else if bool_decide (policy = "reject") && failed then Err e1
   else if bool_decide (policy = "require") && (miss || failed) then Err e2
   else Ok ()) = Ok () ↔
  (policy = "reject" → failed = false) ∧ (policy = "require" → miss || failed = false).
Proof.
  unfold off.
  destruct (decide (policy = "reject")) as [->|H1]; [destruct failed; simpl; naive_solver|].
  destruct (decide (policy = "require")) as [->|H2]; [destruct miss, failed; simpl; naive_solver|].
  rewrite (bool_decide_eq_false_2 (policy = "reject")), (bool_decide_eq_false_2 (policy = "require")) by done.
  destruct (_ || _); simpl; naive_solver.
Qed.

Lemma checkSPF_spec h (r := mget h "X-SPF-Result") :
  checkSPF h = Ok () ↔
  (SPFPolicy cfg = "reject" → r ≠ "fail" ∧ r ≠ "softfail") ∧
  (SPFPolicy cfg = "require" → r ∉ ["fail"; "softfail"; ""; "none"]).
Proof.
  unfold checkSPF, reject. fold r. rewrite policy_check. unfold missing.
  rewrite !orb_false_iff, !bool_decide_eq_false, !not_elem_of_cons.
  pose proof (not_elem_of_nil r). tauto.
Qed.

Lemma checkDKIM_spec h (r := mget h "X-DKIM-Result") :
  checkDKIM h = Ok () ↔
  (DKIMPolicy cfg = "reject" → r ≠ "fail") ∧ (DKIMPolicy cfg = "require" → r ∉ ["fail"; ""; "none"]).
Proof.
  unfold checkDKIM, reject. fold r. rewrite policy_check. unfold missing.
  rewrite !orb_false_iff, !bool_decide_eq_false, !not_elem_of_cons.
  pose proof (not_elem_of_nil r). tauto.
Qed.

Lemma checkDMARC_spec h :
  checkDMARC h = Ok () ↔
  (DMARCPolicy cfg = "reject" → ∀ fd txts p aspf adkim,
     from_domain h = Some fd → LookupTXT ("_dmarc." +:+ fd) = Some txts →
     parseDMARCRecord txts = (p, aspf, adkim) → p ≠ "" → p ≠ "none" → aligned h fd aspf adkim = true).
Proof.
  unfold checkDMARC, reject. destruct (decide (DMARCPolicy cfg = "reject")) as [->|Hp].
  - simpl. destruct (from_domain h) as [fd|]; [|naive_solver].
    destruct (LookupTXT _) as [txts|] eqn:Htxt; [|by split; [intros _ _ ?? ??? [= <-]; rewrite Htxt|]].
    destruct (parseDMARCRecord txts) as [[p aspf] adkim] eqn:Hrec.
    transitivity (p ≠ "" → p ≠ "none" → aligned h fd aspf adkim = true).
    2: { split; [|naive_solver]. intros H _ ?? ??? [= <-]. rewrite Htxt. intros [= <-]. by rewrite Hrec; intros [= <- <- <-]. }
    repeat case_bool_decide; simpl; [naive_solver..|]. destruct (aligned h fd aspf adkim); naive_solver.
  - split; [done|]. intros _. rewrite (bool_decide_eq_false_2 (_ = "reject")) by done.
    repeat case_match; done.
Qed.

Lemma email_auth_rejects draft e :
  BeforeSend draft = Err e → errors_Is e ErrRejectedSentinel = true.
Proof.
  unfold BeforeSend, checkSPF, checkDKIM, checkDMARC, reject. intros H.
  repeat case_match; simplify_eq; done.
Qed.

(** The email authentication policies: a message passes exactly when, for
    each policy, its result is acceptable: SPF and DKIM results do not fail
    under [reject] and neither fail nor lack under [require]; under a DMARC
    policy of [reject], a From domain whose DNS record asks for more than
    [none] is aligned with a passing SPF or DKIM identity; [off], [warn], an
    absent From domain and a failing DNS lookup never stop a message; every
    refusal is a rejection. *)
Theorem email_auth_spec draft :
  let h := GetHeaders draft in
  let spf := mget h "X-SPF-Result" in
  let dkim := mget h "X-DKIM-Result" in
  (BeforeSend draft = Ok () ↔
   (SPFPolicy cfg = "reject" → spf ≠ "fail" ∧ spf ≠ "softfail") ∧
   (SPFPolicy cfg = "require" → spf ∉ ["fail"; "softfail"; ""; "none"]) ∧
   (DKIMPolicy cfg = "reject" → dkim ≠ "fail") ∧
   (DKIMPolicy cfg = "require" → dkim ∉ ["fail"; ""; "none"]) ∧
   (DMARCPolicy cfg = "reject" → ∀ fd txts p aspf adkim,
      from_domain h = Some fd → LookupTXT ("_dmarc." +:+ fd) = Some txts →
      parseDMARCRecord txts = (p, aspf, adkim) → p ≠ "" → p ≠ "none" → aligned h fd aspf adkim = true)) ∧
  (∀ e, BeforeSend draft = Err e → errors_Is e ErrRejectedSentinel = true).
Proof.
  intros h spf dkim. split; [|apply email_auth_rejects]. unfold BeforeSend. fold h.
  pose proof (checkSPF_spec h) as Hs. pose proof (checkDKIM_spec h) as Hd.
  pose proof (checkDMARC_spec h) as Hm. simpl in Hs, Hd.
  destruct (checkSPF h) as [[]|]; [|naive_solver].
  destruct (checkDKIM h) as [[]|]; naive_solver.
Qed.

End EmailAuth.
End EmailAuth.
