(* ===== verification/Lockout.v ===== *)
(** * Brute-force protection

    Models [internal/plugin/smtp_security.go] (the security plugin with its
    in-memory failure counters and its [BeforeSend] checks) and
    [internal/plugin/redis_lockout.go] (the counters shared through Redis). The
    plugin is the lockout tracker the SMTP listener asks ([AuthFailureHook]).
    [LockoutTracker] states what a tracker promises; the bound on password
    guesses is proved against that interface and both trackers implement it. *)
From Stdlib Require Import Ascii.
From S2P Require Import Prelude GoStrings Smtp Plugin.
Local Open Scope Z_scope.

(** ** The interface between the plugin and a shared lockout store *)
Class LockoutStore (L : Type) := {
  store_RecordFailure : Time → string → Z → Duration → Duration → L → result bool * L;
  store_IsLockedOut : Time → string → L → result bool }.

(** ** smtp_security.go *)
Module SMTPSecurity.

Record SMTPSecurityConfig := MkConfig {
  MaxAuthFailuresPerIP : Z; LockoutDuration : Duration; IPLookupTTL : Duration;
  EnvelopeSpoofCheck : bool;
  AllowedSenderDomains : list string; BlockedSenderDomains : list string;
  MaxSubjectBytes : Z; RequireAuthenticatedSender : bool }.

(** [failures] is an [atomic.Int32], [lastSeen] is in Unix seconds. *)
Record ipEntry := MkIp { failures : Z; lockedUntil : Time; lastSeen : Z }.

Definition new_entry : ipEntry := MkIp 0 0 0.

Section Plugin.
Context {GU : GoUnicode} {NM : NetMail} {L : Type} {LS : LockoutStore L}.

(** [initialised] and [closed] stand for the two [sync.Once]. *)
Record SMTPSecurityPlugin := MkPlugin {
  name : string; cfg : SMTPSecurityConfig;
  allowedDomains : gset string; blockedDomains : gset string;
  lockoutStore : option L;
  ipMap : gmap string ipEntry;
  initialised : bool; closed : bool }.

Definition set_ipMap (m : gmap string ipEntry) (p : SMTPSecurityPlugin) : SMTPSecurityPlugin :=
  MkPlugin (name p) (cfg p) (allowedDomains p) (blockedDomains p) (lockoutStore p) m (initialised p) (closed p).
Definition set_store (l : L) (p : SMTPSecurityPlugin) : SMTPSecurityPlugin :=
  MkPlugin (name p) (cfg p) (allowedDomains p) (blockedDomains p) (Some l) (ipMap p) (initialised p) (closed p).

Definition with_defaults (c : SMTPSecurityConfig) : SMTPSecurityConfig := MkConfig
  (MaxAuthFailuresPerIP c)
  (Smtp.or_default (LockoutDuration c) (15 * Minute))
  (Smtp.or_default (IPLookupTTL c) Hour)
  (EnvelopeSpoofCheck c) (AllowedSenderDomains c) (BlockedSenderDomains c)
  (Smtp.or_default (MaxSubjectBytes c) 998)
  (RequireAuthenticatedSender c).

Definition NewSMTPSecurityPlugin (name : string) (c : SMTPSecurityConfig) (s : option L) : SMTPSecurityPlugin :=
  let c := with_defaults c in
  MkPlugin name c (toSet (AllowedSenderDomains c)) (toSet (BlockedSenderDomains c)) s ∅ false false.

Definition Init (p : SMTPSecurityPlugin) : SMTPSecurityPlugin :=
  MkPlugin (name p) (cfg p) (allowedDomains p) (blockedDomains p) (lockoutStore p) (ipMap p) true (closed p).
Definition Close (p : SMTPSecurityPlugin) : SMTPSecurityPlugin :=
  MkPlugin (name p) (cfg p) (allowedDomains p) (blockedDomains p) (lockoutStore p) (ipMap p) (initialised p) true.

(** *** Failure counters in memory *)

(** The entry of [ip], made when there is none, is marked as seen. *)
Definition seen (now : Time) (ip : string) (p : SMTPSecurityPlugin) : SMTPSecurityPlugin :=
  let e := default new_entry (ipMap p !! ip) in
  set_ipMap (<[ip := MkIp (failures e) (lockedUntil e) (Unix now)]> (ipMap p)) p.

(** [e.failures.Add(1)] *)
Definition count (ip : string) (p : SMTPSecurityPlugin) : Z * SMTPSecurityPlugin :=
  let e := default new_entry (ipMap p !! ip) in
  let n := wrap32 (failures e + 1) in
  (n, set_ipMap (<[ip := MkIp n (lockedUntil e) (lastSeen e)]> (ipMap p)) p).

Definition lock (until : Time) (ip : string) (p : SMTPSecurityPlugin) : SMTPSecurityPlugin :=
  let e := default new_entry (ipMap p !! ip) in
  set_ipMap (<[ip := MkIp (failures e) until (lastSeen e)]> (ipMap p)) p.

Definition RecordAuthFailure (now : Time) (remoteAddr : string) (p : SMTPSecurityPlugin)
    : bool * SMTPSecurityPlugin :=
  if MaxAuthFailuresPerIP (cfg p) =? 0 then (false, p)
  else
    let ip := hostOnly remoteAddr in
    match lockoutStore p with
    | Some l =>
        let '(r, l') := store_RecordFailure now ip (MaxAuthFailuresPerIP (cfg p)) (IPLookupTTL (cfg p))
                          (LockoutDuration (cfg p)) l in
        (match r with Ok locked => locked | Err _ => false end, set_store l' p)
    | None =>
        let '(n, p) := count ip (seen now ip p) in
        if MaxAuthFailuresPerIP (cfg p) <=? n then (true, lock (now + LockoutDuration (cfg p)) ip p)
        else (false, p)
    end.

Definition IsLockedOut (now : Time) (remoteAddr : string) (p : SMTPSecurityPlugin) : bool :=
  if MaxAuthFailuresPerIP (cfg p) =? 0 then false
  else
    let ip := hostOnly remoteAddr in
    match lockoutStore p with
    | Some l => match store_IsLockedOut now ip l with Ok locked => locked | Err _ => false end
    | None => match ipMap p !! ip with
              | Some e => Before now (lockedUntil e)
              | None => false
              end
    end.

#[export] Instance security_hook : AuthFailureHook SMTPSecurityPlugin := {
  Smtp.RecordAuthFailure := RecordAuthFailure; Smtp.IsLockedOut := IsLockedOut }.

(** One pass of the eviction loop: [now] is read before the lock is taken,
    [nows ip] is the clock when the entry of [ip] is looked at. *)
Definition evict (now : Time) (nows : string → Time) (p : SMTPSecurityPlugin) : SMTPSecurityPlugin :=
  let cutoff := Unix (now - IPLookupTTL (cfg p)) in
  set_ipMap (filter (λ x, negb ((lastSeen x.2 <? cutoff) && After (nows x.1) (lockedUntil x.2)) = true) (ipMap p)) p.

(** *** BeforeSend *)

Definition parseEmailAddr (header : string) : string :=
  match ParseAddress header with Some a => a | None => header end.

Definition check_domain (senderID : string) (p : SMTPSecurityPlugin) : result unit :=
  if bool_decide (senderID = "") then Ok ()
  else
    let domain := senderDomain senderID in
    if bool_decide (domain ∈ blockedDomains p) then
      reject (name p) (Text "sender domain %q is blocked" [AStr domain])
    else if negb (bool_decide (allowedDomains p = ∅)) && negb (bool_decide (domain ∈ allowedDomains p)) then
      reject (name p) (Text "sender domain %q is not in the allowlist" [AStr domain])
    else Ok ().

Definition check_envelope (headers : gmap string string) (senderID : string) (p : SMTPSecurityPlugin) : result unit :=
  let envelopeFrom := parseEmailAddr (mget headers "X-SMTP-Envelope-From") in
  if EnvelopeSpoofCheck (cfg p) && negb (bool_decide (envelopeFrom = "")) && negb (bool_decide (senderID = ""))
     && negb (EqualFold envelopeFrom senderID)
  then reject (name p) (Text "envelope sender %q does not match message sender %q" [AStr envelopeFrom; AStr senderID])
  else Ok ().

Definition BeforeSend (now : Time) (draft : Draft) (p : SMTPSecurityPlugin) : result unit :=
  let headers := GetHeaders draft in
  let senderID := GetSenderID draft in
  let remoteAddr := mget headers "X-SMTP-Remote-Addr" in
  if negb (bool_decide (remoteAddr = "")) && IsLockedOut now remoteAddr p then
    reject (name p) (Text "connection from locked-out IP %s" [AStr (hostOnly remoteAddr)])
  else
    try _ := check_domain senderID p in
    try _ := check_envelope headers senderID p in
    if (0 <? MaxSubjectBytes (cfg p)) && (MaxSubjectBytes (cfg p) <? len (GetSubject draft)) then
      reject (name p) (Text "subject length %d exceeds maximum of %d bytes"
        [AInt (len (GetSubject draft)); AInt (MaxSubjectBytes (cfg p))])
    else if RequireAuthenticatedSender (cfg p) && bool_decide (senderID = "") then
      reject (name p) (Text "unauthenticated sender not permitted" [])
    else Ok ().

(** *** Behaviour of the counters *)

(** The failure counters are kept in memory. *)
Definition in_memory (p : SMTPSecurityPlugin) : Prop :=
  lockoutStore p = None ∧ MaxAuthFailuresPerIP (cfg p) ≠ 0.

Lemma RecordAuthFailure_memory now addr p :
  in_memory p →
  let ip := hostOnly addr in
  let e := default new_entry (ipMap p !! ip) in
  let n := wrap32 (failures e + 1) in
  let locked := MaxAuthFailuresPerIP (cfg p) <=? n in
  RecordAuthFailure now addr p =
    (locked, set_ipMap (<[ip := MkIp n (if locked then now + LockoutDuration (cfg p) else lockedUntil e)
                                  (Unix now)]> (ipMap p)) p).
Proof.
  intros [Hs Hm] ip e n locked. unfold RecordAuthFailure. apply Z.eqb_neq in Hm. rewrite Hm, Hs.
  unfold count, seen. fold ip e. simpl. rewrite lookup_insert_eq. simpl. fold n. fold locked.
  destruct locked; [|by rewrite insert_insert_eq].
  unfold lock, set_ipMap. simpl. by rewrite lookup_insert_eq, !insert_insert_eq.
Qed.

Lemma IsLockedOut_memory now addr p :
  in_memory p →
  IsLockedOut now addr p = match ipMap p !! hostOnly addr with
                           | Some e => Before now (lockedUntil e) | None => false end.
Proof. intros [Hs Hm]. unfold IsLockedOut. apply Z.eqb_neq in Hm. by rewrite Hm, Hs. Qed.

Lemma evict_keeps now nows p ip e :
  ipMap p !! ip = Some e →
  nows ip <= lockedUntil e ∨ Unix (now - IPLookupTTL (cfg p)) <= lastSeen e →
  ipMap (evict now nows p) !! ip = Some e.
Proof.
  intros He Hk. simpl. apply map_lookup_filter_Some. split; [done|]. simpl. unfold After.
  apply negb_true_iff, andb_false_iff. rewrite !Z.ltb_ge. lia.
Qed.

Lemma evict_subset now nows p ip e :
  ipMap (evict now nows p) !! ip = Some e → ipMap p !! ip = Some e.
Proof. simpl. by intros [? _]%map_lookup_filter_Some. Qed.

(** Everything that can happen to a plugin, with the clock. *)
Inductive step : Time * SMTPSecurityPlugin → Time * SMTPSecurityPlugin → Prop :=
| step_tick t t' p : t <= t' → step (t, p) (t', p)
| step_fail t addr p : step (t, p) (t, (RecordAuthFailure t addr p).2)
| step_evict t now nows p : now <= t → (∀ ip, nows ip <= t) → step (t, p) (t, evict now nows p)
| step_init t p : step (t, p) (t, Init p)
| step_close t p : step (t, p) (t, Close p).

(** A lock on [ip] that holds until [u]. *)
Definition locked_until (ip : string) (u : Time) (p : SMTPSecurityPlugin) : Prop :=
  in_memory p ∧ ∃ e, ipMap p !! ip = Some e ∧ u <= lockedUntil e.

Lemma locked_until_step t p t' p' ip u :
  step (t, p) (t', p') → locked_until ip u p → u <= t + LockoutDuration (cfg p) → t <= u →
  t <= t' ∧ cfg p' = cfg p ∧ locked_until ip u p'.
Proof.
  intros Hst (Hm & e & He & Hu) Hle Ht. inversion Hst; subst; clear Hst; try by (split; [lia|]; split; [done|]; split; [done|eauto]).
  - rewrite (RecordAuthFailure_memory _ _ _ Hm). simpl. split; [lia|]. split; [done|]. split; [done|]. simpl.
    destruct (decide (hostOnly addr = ip)) as [<-|Hne].
    + rewrite lookup_insert_eq. eexists. split; [done|]. rewrite He. simpl. case_match; lia.
    + rewrite lookup_insert_ne by done. eauto.
  - split; [lia|]. split; [done|]. split; [done|]. exists e. split; [|done].
    apply evict_keeps; [done|]. left. specialize (H4 ip). lia.
Qed.

Lemma steps_mono x y : rtc step x y → x.1 <= y.1.
Proof. induction 1 as [|x y z Hst _ IH]; [lia|]. inversion Hst; subst; simpl in *; lia. Qed.

Lemma locked_until_steps x y ip u :
  rtc step x y → locked_until ip u x.2 → u <= x.1 + LockoutDuration (cfg x.2) → y.1 <= u →
  locked_until ip u y.2.
Proof.
  induction 1 as [|[t p] [t' p'] y Hst Hr IH]; [done|]. simpl. intros Hl Hu Hy.
  pose proof (steps_mono _ _ Hr) as Hm. simpl in Hm.
  assert (t <= t') as Ht by (by inversion Hst; subst; lia).
  destruct (locked_until_step _ _ _ _ _ _ Hst Hl Hu ltac:(lia)) as (_ & Hc & Hl').
  apply IH; simpl; [done|rewrite Hc; lia|done].
Qed.

Lemma lockout_persists t addr p p1 t' p' addr' :
  in_memory p → RecordAuthFailure t addr p = (true, p1) →
  rtc step (t, p1) (t', p') → t' < t + LockoutDuration (cfg p) → hostOnly addr' = hostOnly addr →
  IsLockedOut t' addr' p' = true.
Proof.
  intros Hm Hrec Hsteps Ht Hh. rewrite (RecordAuthFailure_memory _ _ _ Hm) in Hrec.
  injection Hrec as Hlock <-. rewrite Hlock in Hsteps.
  apply (locked_until_steps _ _ (hostOnly addr) (t + LockoutDuration (cfg p))) in Hsteps
    as (Hm' & e & He & Hu); simpl in *; [|split; [done|]; simpl; rewrite lookup_insert_eq; eexists; split; [done|simpl; lia]|lia|lia].
  rewrite (IsLockedOut_memory _ _ _ Hm'), Hh, He. apply Z.ltb_lt. lia.
Qed.

(** A message over a locked-out connection is rejected. *)
Lemma BeforeSend_locked now draft p :
  mget (GetHeaders draft) "X-SMTP-Remote-Addr" ≠ "" →
  IsLockedOut now (mget (GetHeaders draft) "X-SMTP-Remote-Addr") p = true →
  ∃ reason, BeforeSend now draft p = Err (ERejection (name p) reason).
Proof.
  intros Hne Hout. unfold BeforeSend. rewrite Hout, (bool_decide_eq_false_2 _ Hne). simpl. by eexists.
Qed.


(** *** Behaviour of BeforeSend *)

Lemma check_domain_spec senderID p :
  check_domain senderID p = Ok () ↔
  (senderID ≠ "" → (senderDomain senderID ∉ blockedDomains p) ∧
     (allowedDomains p ≠ ∅ → senderDomain senderID ∈ allowedDomains p)).
Proof. unfold check_domain, reject. repeat case_bool_decide; simpl; split; try done; naive_solver. Qed.

Lemma check_envelope_spec h senderID p :
  check_envelope h senderID p = Ok () ↔
  (EnvelopeSpoofCheck (cfg p) = true → parseEmailAddr (mget h "X-SMTP-Envelope-From") ≠ "" → senderID ≠ "" →
   EqualFold (parseEmailAddr (mget h "X-SMTP-Envelope-From")) senderID = true).
Proof.
  unfold check_envelope, reject. rewrite guard_ok, !andb_false_iff, !negb_false_iff, !bool_decide_eq_true.
  destruct (EnvelopeSpoofCheck (cfg p)), (decide (parseEmailAddr (mget h "X-SMTP-Envelope-From") = "")),
    (decide (senderID = "")); intuition congruence.
Qed.

Lemma check_domain_rejects senderID p : only_rejects (check_domain senderID p).
Proof. unfold check_domain, reject. case_bool_decide; auto with postbox. Qed.

Lemma check_envelope_rejects h senderID p : only_rejects (check_envelope h senderID p).
Proof. unfold check_envelope, reject. auto with postbox. Qed.

#[local] Hint Resolve check_domain_rejects check_envelope_rejects : postbox.

(** The checks of the security plugin: a message passes exactly when its
    connection is not locked out, its sender's domain is not blocked and is
    allowed (when there is an allowlist), its envelope sender is the message
    sender up to case (when checked), its subject has at most the allowed number
    of bytes, and its sender is known when that is required; every refusal is a
    rejection. *)
Theorem smtp_security_spec now draft p :
  let h := GetHeaders draft in
  let sender := GetSenderID draft in
  (BeforeSend now draft p = Ok () ↔
   (mget h "X-SMTP-Remote-Addr" ≠ "" → IsLockedOut now (mget h "X-SMTP-Remote-Addr") p = false) ∧
   (sender ≠ "" → (senderDomain sender ∉ blockedDomains p) ∧
      (allowedDomains p ≠ ∅ → senderDomain sender ∈ allowedDomains p)) ∧
   (EnvelopeSpoofCheck (cfg p) = true → parseEmailAddr (mget h "X-SMTP-Envelope-From") ≠ "" → sender ≠ "" →
      EqualFold (parseEmailAddr (mget h "X-SMTP-Envelope-From")) sender = true) ∧
   (0 < MaxSubjectBytes (cfg p) → len (GetSubject draft) <= MaxSubjectBytes (cfg p)) ∧
   (RequireAuthenticatedSender (cfg p) = true → sender ≠ "")) ∧
  only_rejects (BeforeSend now draft p).
Proof.
  intros h sender. unfold BeforeSend, reject. fold h sender. split; [|auto 10 with postbox].
  rewrite guard_ok, !try_ok, !guard_ok, check_domain_spec, check_envelope_spec.
  rewrite !andb_false_iff, negb_false_iff, bool_decide_eq_true, bool_decide_eq_false, Z.ltb_ge, Z.ltb_ge.
  destruct (decide (mget h "X-SMTP-Remote-Addr" = "")), (RequireAuthenticatedSender (cfg p)),
    (Z.le_gt_cases (MaxSubjectBytes (cfg p)) 0); intuition (congruence || lia).
Qed.

End Plugin.
End SMTPSecurity.

(** ** What a lockout tracker promises

    [tracked ip t0 n h]: since [t0] the tracker has recorded [n] failures of the
    host [ip]. Within [span] of [t0] the tracker keeps the count, whatever else
    happens to it ([tracker_env]: other hosts, eviction, expiry), and once
    [limit] failures are recorded the host is locked out. *)
Class LockoutTracker (H : Type) `{AuthFailureHook H} (limit : Z) (span : Duration) := {
  tracker_env : Time → string → H → H → Prop;
  tracked : string → Time → Z → H → Prop;
  tracked_env : ∀ ip t0 n t h h', tracked ip t0 n h → t0 <= t < t0 + span →
    tracker_env t ip h h' → tracked ip t0 n h';
  tracked_other : ∀ ip t0 n t addr h, tracked ip t0 n h → t0 <= t < t0 + span → hostOnly addr ≠ ip →
    tracked ip t0 n (RecordAuthFailure t addr h).2;
  tracked_fail : ∀ t0 n t addr h, tracked (hostOnly addr) t0 n h → t0 <= t < t0 + span → 0 <= n < limit →
    tracked (hostOnly addr) t0 (n + 1) (RecordAuthFailure t addr h).2;
  tracked_locked : ∀ t0 t addr h, tracked (hostOnly addr) t0 limit h → t0 <= t < t0 + span →
    IsLockedOut t addr h = true }.

Module BruteForce.
Section BruteForce.
Context {H : Type} {Hook : AuthFailureHook H} {limit : Z} {span : Duration}.
Context {LT : LockoutTracker H limit span}.

(** All that happens at a listener with a lockout tracker from [t0] on, as
    sessions of any clients try to authenticate: the clock, the number of wrong
    credentials of host [ip] that were examined, and the tracker. *)
Inductive attack (srv : Smtp.Server) (ip : string) (t0 : Time) : Time → Z → H → Prop :=
| attack_start h : tracked ip t0 0 h → attack srv ip t0 t0 0 h
| attack_tick t t' n h : attack srv ip t0 t n h → t <= t' → attack srv ip t0 t' n h
| attack_env t n h h' : attack srv ip t0 t n h → tracker_env t ip h h' → attack srv ip t0 t n h'
| attack_auth t n h mech identity username password s r s' h' :
    attack srv ip t0 t n h →
    Smtp.Auth srv t mech identity username password s (Some h) = (r, s', Some h') →
    attack srv ip t0 t
      (if bool_decide (hostOnly (Smtp.remoteAddr s) = ip) && (Smtp.authFailures s <? Smtp.authFailures s')
       then n + 1 else n) h'.

(** An AUTH attempt leaves the tracker alone or, when it examined wrong
    credentials from a host that is not locked out, records one failure. *)
Lemma Auth_records srv t mech identity username password s h r s' h' :
  Smtp.Auth srv t mech identity username password s (Some h) = (r, s', Some h') →
  (h' = h ∧ Smtp.authFailures s' = Smtp.authFailures s) ∨
  (IsLockedOut t (Smtp.remoteAddr s) h = false ∧
   h' = (RecordAuthFailure t (Smtp.remoteAddr s) h).2 ∧
   Smtp.authFailures s' = Smtp.authFailures s + 1).
Proof.
  unfold Smtp.Auth, Smtp.authFailed. intros Ha.
  destruct (negb _); [left; by simplify_eq|]. destruct (Smtp.users srv) as [res|]; [|left; by simplify_eq].
  destruct (IsLockedOut t _ h); [left; by simplify_eq|].
  destruct (negb (res _)); [right; by simplify_eq|].
  destruct (Smtp.validator srv) as [v|]; [|left; by simplify_eq].
  destruct (negb (v _ _)); [right; by simplify_eq|left; by simplify_eq].
Qed.

Lemma attack_later srv ip t0 t n h : attack srv ip t0 t n h → t0 <= t.
Proof. induction 1; lia. Qed.

Lemma attack_tracked srv ip t0 t n h :
  0 <= limit → attack srv ip t0 t n h → t < t0 + span → 0 <= n <= limit ∧ tracked ip t0 n h.
Proof.
  intros Hl. induction 1 as [h Hh|t t' n h Ha IH Hle|t n h h' Ha IH He|t n h mech id us pw s r s' h' Ha IH Hau];
    intros Hs.
  - split; [lia|done].
  - apply IH. lia.
  - destruct (IH Hs) as [Hn Ht]. split; [done|]. pose proof (attack_later _ _ _ _ _ _ Ha).
    by eapply (tracked_env (limit := limit) (span := span)); [..|exact He].
  - destruct (IH Hs) as [Hn Ht]. pose proof (attack_later _ _ _ _ _ _ Ha) as Hge.
    apply Auth_records in Hau as [[-> Hf]|(Hnl & -> & Hf)].
    + rewrite Hf, Z.ltb_irrefl, andb_false_r. done.
    + rewrite Hf. replace (Smtp.authFailures s <? Smtp.authFailures s + 1) with true by (symmetry; apply Z.ltb_lt; lia).
      rewrite andb_true_r. case_bool_decide as Hip.
      * subst ip. assert (n ≠ limit) as Hne.
        { intros ->. rewrite (tracked_locked (limit := limit) (span := span) t0) in Hnl by done. done. }
        split; [lia|]. by apply (tracked_fail (limit := limit) (span := span)); [..|lia].
      * split; [done|]. by apply (tracked_other (limit := limit) (span := span)).
Qed.

End BruteForce.
End BruteForce.

(** ** The in-memory tracker keeps the promise *)
Module MemoryTracker.
Import SMTPSecurity.
Section MemoryTracker.
Context {GU : GoUnicode} {NM : NetMail} {L : Type} {LS : LockoutStore L}.
Variable c : SMTPSecurityConfig.
(** The failure counter is 32 bits wide; the limit leaves it room. *)
Hypothesis limit_range : 0 < MaxAuthFailuresPerIP c < 2 ^ 30.

Abbreviation limit := (MaxAuthFailuresPerIP c).
Abbreviation span := (IPLookupTTL c `min` LockoutDuration c).

Definition env (t : Time) (ip : string) (p p' : SMTPSecurityPlugin (L := L)) : Prop :=
  p' = Init p ∨ p' = Close p ∨
  ∃ now nows, now <= t ∧ (∀ ip', nows ip' <= t) ∧ p' = evict now nows p.

(** The counter has grown by [n] from at most [2^30]; the entry was seen since
    [t0], and is locked for the whole span once the limit is reached. *)
Definition counted (t0 : Time) (n : Z) (e : ipEntry) : Prop :=
  n <= failures e <= 2 ^ 30 + n ∧
  (0 < n → Unix t0 <= lastSeen e ∧ (limit <= failures e → t0 + LockoutDuration c <= lockedUntil e)).

Definition tracked_memory (ip : string) (t0 : Time) (n : Z) (p : SMTPSecurityPlugin (L := L)) : Prop :=
  0 <= n ∧ cfg p = c ∧ in_memory p ∧
  match ipMap p !! ip with Some e => counted t0 n e | None => n = 0 end.

Lemma Unix_mono t t' : t <= t' → Unix t <= Unix t'.
Proof. intros H. unfold Unix. pose proof (Z.div_le_mono t t' Second ltac:(done) H). lia. Qed.

Lemma tracked_memory_env ip t0 n t p p' :
  tracked_memory ip t0 n p → t0 <= t < t0 + span → env t ip p p' → tracked_memory ip t0 n p'.
Proof.
  intros (Hn & Hc & Hm & He) Ht [->|[->|(now & nows & Hnow & Hnows & ->)]]; [done|done|].
  split; [done|]. split; [done|]. split; [done|].
  destruct (ipMap (evict now nows p) !! ip) as [e|] eqn:Hev; [by rewrite (evict_subset _ _ _ _ _ Hev) in He|].
  destruct (ipMap p !! ip) as [e|] eqn:Hip; [|done].
  destruct He as [_ Hpos]. destruct (decide (n = 0)) as [|Hp]; [done|].
  destruct (Hpos ltac:(lia)) as [Hseen _]. rewrite (evict_keeps _ _ _ _ _ Hip) in Hev; [done|]. right.
  etrans; [|exact Hseen]. apply Unix_mono. rewrite Hc. lia.
Qed.

Lemma tracked_memory_other ip t0 n t addr p :
  tracked_memory ip t0 n p → hostOnly addr ≠ ip → tracked_memory ip t0 n (RecordAuthFailure t addr p).2.
Proof.
  intros (Hn & Hc & Hm & He) Hne. rewrite (RecordAuthFailure_memory _ _ _ Hm). simpl.
  split; [done|]. split; [done|]. split; [done|]. simpl. by rewrite lookup_insert_ne.
Qed.

Lemma tracked_memory_fail t0 n t addr p :
  tracked_memory (hostOnly addr) t0 n p → t0 <= t → n < limit →
  tracked_memory (hostOnly addr) t0 (n + 1) (RecordAuthFailure t addr p).2.
Proof.
  intros (Hn & Hc & Hm & He) Ht Hlt. rewrite (RecordAuthFailure_memory _ _ _ Hm). simpl.
  set (e := default new_entry (ipMap p !! hostOnly addr)).
  assert (n <= failures e <= 2 ^ 30 + n) as Hf.
  { unfold e. destruct (ipMap p !! hostOnly addr) as [e'|]; simpl; [by destruct He|lia]. }
  rewrite wrap32_id by (unfold int32_range; lia).
  split; [lia|]. split; [done|]. split; [done|]. simpl. rewrite lookup_insert_eq. split; simpl; [lia|].
  intros _. split; [by apply Unix_mono|]. rewrite Hc. intros Hl. apply Z.leb_le in Hl. rewrite Hl. lia.
Qed.

Lemma tracked_memory_locked t0 t addr p :
  tracked_memory (hostOnly addr) t0 limit p → t < t0 + span → IsLockedOut t addr p = true.
Proof.
  intros (Hn & Hc & Hm & He) Ht. rewrite (IsLockedOut_memory _ _ _ Hm).
  destruct (ipMap p !! hostOnly addr) as [e|]; [|lia].
  destruct He as [Hf Hpos]. destruct (Hpos ltac:(lia)) as [_ Hl].
  apply Z.ltb_lt. specialize (Hl ltac:(lia)). lia.
Qed.

#[export, refine] Instance memory_tracker : LockoutTracker (SMTPSecurityPlugin (L := L)) limit span := {
  tracker_env := env; tracked := tracked_memory }.
Proof.
  - intros. by eapply tracked_memory_env.
  - intros. by apply tracked_memory_other.
  - intros * ? [? _] [_ ?]. by apply tracked_memory_fail.
  - intros * ? [_ ?]. by eapply tracked_memory_locked.
Defined.

End MemoryTracker.
End MemoryTracker.

(** ** redis_lockout.go *)
Module RedisLockout.

(** *** The Redis commands used

    [cview] is the keyspace of integer values with their expiry times. A command
    that reports an error may or may not have been applied. *)
Class RedisCounters (R : Type) := {
  Incr : Time → string → R → result Z * R;
  Expire : Time → string → Duration → R → result unit * R;
  Set_ : Time → string → Z → Duration → R → result unit * R;
  Exists : Time → string → R → result Z;
  cview : R → gmap string (Z * option Time) }.

Definition live (now : Time) (m : gmap string (Z * option Time)) (k : string) : option (Z * option Time) :=
  match m !! k with
  | Some (v, Some t) => if now <? t then Some (v, Some t) else None
  | other => other
  end.

Definition Millisecond : Duration := 1000000.

(** The client sends [EXPIRE] in whole seconds and [SET] in whole seconds or
    milliseconds, at least one of them. *)
Definition expire_ttl (d : Duration) : Duration := Second `max` (d / Second * Second).
Definition set_ttl (d : Duration) : Duration :=
  if d mod Second =? 0 then d else Millisecond `max` (d / Millisecond * Millisecond).

(** The documented effect of each command that succeeds. *)
Class RedisCounterLaws (R : Type) `{RedisCounters R} := {
  Incr_ok : ∀ now k r n r', Incr now k r = (Ok n, r') →
    match live now (cview r) k with
    | Some (v, e) => n = v + 1 ∧ cview r' = <[k := (n, e)]> (cview r)
    | None => n = 1 ∧ cview r' = <[k := (1, None)]> (cview r)
    end;
  Expire_ok : ∀ now k d r r', 0 < d → Expire now k d r = (Ok (), r') →
    cview r' = match live now (cview r) k with
               | Some (v, _) => <[k := (v, Some (now + expire_ttl d))]> (cview r)
               | None => cview r
               end;
  Set_ok : ∀ now k v d r r', 0 < d → Set_ now k v d r = (Ok (), r') →
    cview r' = <[k := (v, Some (now + set_ttl d))]> (cview r);
  Exists_ok : ∀ now k r n, Exists now k r = Ok n →
    n = match live now (cview r) k with Some _ => 1 | None => 0 end;
  Incr_frame : ∀ now k r k', k' ≠ k → cview (Incr now k r).2 !! k' = cview r !! k';
  Expire_frame : ∀ now k d r k', k' ≠ k → cview (Expire now k d r).2 !! k' = cview r !! k';
  Set_frame : ∀ now k v d r k', k' ≠ k → cview (Set_ now k v d r).2 !! k' = cview r !! k' }.

(** A server that answers every command; [INCR] fails only on overflow. *)
Class RedisUp (R : Type) `{RedisCounters R} := {
  Incr_up : ∀ now k r, (match live now (cview r) k with Some (v, _) => v < maxInt64 | None => True end) →
    ∃ n r', Incr now k r = (Ok n, r');
  Expire_up : ∀ now k d r, ∃ r', Expire now k d r = (Ok (), r');
  Set_up : ∀ now k v d r, ∃ r', Set_ now k v d r = (Ok (), r');
  Exists_up : ∀ now k r, ∃ n, Exists now k r = Ok n }.

Record RedisLockoutStore (R : Type) := MkStore { client : R; keyPrefix : string }.
Arguments MkStore {R} _ _.
Arguments client {R} _.
Arguments keyPrefix {R} _.

Definition defaultLockoutKeyPrefix : string := "postbox:lockout".

Definition NewRedisLockoutStore {R} (client : R) (KeyPrefix : string) : RedisLockoutStore R :=
  MkStore client (if bool_decide (KeyPrefix = "") then defaultLockoutKeyPrefix else KeyPrefix).

Definition cntKey {R} (s : RedisLockoutStore R) (ip : string) : string := keyPrefix s +:+ ":cnt:" +:+ ip.
Definition blockedKey {R} (s : RedisLockoutStore R) (ip : string) : string := keyPrefix s +:+ ":blocked:" +:+ ip.

Section Redis.
Context {R : Type} {RC : RedisCounters R}.

Definition set_client (r : R) (s : RedisLockoutStore R) : RedisLockoutStore R := MkStore r (keyPrefix s).

Definition RecordFailure (now : Time) (ip : string) (max : Z) (window lockout : Duration)
    (s : RedisLockoutStore R) : result bool * RedisLockoutStore R :=
  let '(r, c1) := Incr now (cntKey s ip) (client s) in
  match r with
  | Err err => (Err (EWrap (Text "redis lockout: incr %s: %w" [AStr (cntKey s ip)]) err), set_client c1 s)
  | Ok n =>
      let '(r, c2) := if n =? 1 then Expire now (cntKey s ip) window c1 else (Ok (), c1) in
      match r with
      | Err err => (Err (EWrap (Text "redis lockout: expire %s: %w" [AStr (cntKey s ip)]) err), set_client c2 s)
      | Ok _ =>
          if max <=? n then
            let '(r, c3) := Set_ now (blockedKey s ip) 1 lockout c2 in
            match r with
            | Err err => (Err (EWrap (Text "redis lockout: set blocked %s: %w" [AStr (blockedKey s ip)]) err), set_client c3 s)
            | Ok _ => (Ok true, set_client c3 s)
            end
          else (Ok false, set_client c2 s)
      end
  end.

Definition IsLockedOut (now : Time) (ip : string) (s : RedisLockoutStore R) : result bool :=
  match Exists now (blockedKey s ip) (client s) with
  | Err err => Err (EWrap (Text "redis lockout: exists %s: %w" [AStr (blockedKey s ip)]) err)
  | Ok n => Ok (0 <? n)
  end.

#[export] Instance redis_store : LockoutStore (RedisLockoutStore R) := {
  store_RecordFailure := RecordFailure; store_IsLockedOut := IsLockedOut }.

(** *** The two keys of an address *)

Lemma cntKey_blockedKey s ip ip' : cntKey (R := R) s ip ≠ blockedKey s ip'.
Proof. unfold cntKey, blockedKey. intros H%(inj (String.append _)). discriminate H. Qed.

Lemma cntKey_inj s ip ip' : ip ≠ ip' → cntKey (R := R) s ip ≠ cntKey s ip'.
Proof. unfold cntKey. by intros Hne H%(inj (String.append _))%(inj (String.append _)). Qed.

Lemma blockedKey_inj s ip ip' : ip ≠ ip' → blockedKey (R := R) s ip ≠ blockedKey s ip'.
Proof. unfold blockedKey. by intros Hne H%(inj (String.append _))%(inj (String.append _)). Qed.

Context {RL : RedisCounterLaws R}.

Lemma RecordFailure_prefix now ip max window lockout s :
  keyPrefix (RecordFailure now ip max window lockout s).2 = keyPrefix s.
Proof. unfold RecordFailure. repeat case_match; done. Qed.

(** Recording a failure touches the two keys of its address only. *)
Lemma RecordFailure_frame now ip max window lockout s k :
  k ≠ cntKey s ip → k ≠ blockedKey s ip →
  cview (client (RecordFailure now ip max window lockout s).2) !! k = cview (client s) !! k.
Proof.
  intros Hc Hb. unfold RecordFailure.
  pose proof (Incr_frame now _ (client s) _ Hc) as H1. destruct (Incr _ _ _) as [[n|] c1]; simpl in *; [|done].
  assert (cview (if n =? 1 then Expire now (cntKey s ip) window c1 else (Ok (), c1)).2 !! k = cview (client s) !! k) as H2.
  { destruct (n =? 1); [by rewrite Expire_frame|done]. }
  destruct (if n =? 1 then _ else _) as [[]c2]; simpl in *; [|done].
  destruct (max <=? n); [|done].
  pose proof (Set_frame now _ 1 lockout c2 _ Hb) as H3. destruct (Set_ _ _ _ _ _) as [[] c3]; simpl in *; congruence.
Qed.

(** What recording a failure does when the server answers. *)
Lemma RecordFailure_up {RU : RedisUp R} now ip max window lockout s :
  0 < window → 0 < lockout →
  let '(v, e) := default (0, None) (live now (cview (client s)) (cntKey s ip)) in
  let n := v + 1 in
  v < maxInt64 →
  let '(r, s') := RecordFailure now ip max window lockout s in
  r = Ok (max <=? n) ∧
  cview (client s') !! cntKey s ip =
    Some (n, if n =? 1 then Some (now + expire_ttl window) else e) ∧
  (max <= n → cview (client s') !! blockedKey s ip = Some (1, Some (now + set_ttl lockout))).
Proof.
  intros Hw Hl. destruct (default _ _) as [v e] eqn:Hd. intros n Hv. unfold RecordFailure.
  destruct (Incr_up now (cntKey s ip) (client s)) as (n' & c1 & Hi).
  { destruct (live _ _ _) as [[v' e']|]; [|done]. simpl in Hd. by simplify_eq. }
  rewrite Hi. apply Incr_ok in Hi.
  assert (n' = n ∧ cview c1 = <[cntKey s ip := (n, e)]> (cview (client s)) ∧
          live now (cview c1) (cntKey s ip) = Some (n, e)) as (-> & Hc1 & Hlive).
  { unfold n. destruct (live now (cview (client s)) (cntKey s ip)) as [[v' e']|] eqn:Hlv; simpl in Hd; simplify_eq;
      destruct Hi as [-> Hc]; simpl; (split; [done|]); (split; [exact Hc|]); rewrite Hc; unfold live;
      rewrite lookup_insert_eq; [|done].
    unfold live in Hlv. destruct (cview (client s) !! cntKey s ip) as [[v' [t|]]|]; [|by simplify_eq|done].
    destruct (now <? t) eqn:Hnt; [|done]. injection Hlv as <- <-. by rewrite Hnt. }
  assert (∃ c2, (if n =? 1 then Expire now (cntKey s ip) window c1 else (Ok (), c1)) = (Ok (), c2) ∧
    cview c2 !! cntKey s ip = Some (n, if n =? 1 then Some (now + expire_ttl window) else e)) as (c2 & -> & Hc2).
  { destruct (n =? 1).
    - destruct (Expire_up now (cntKey s ip) window c1) as [c2 Hx]. exists c2. split; [done|].
      apply Expire_ok in Hx; [|done]. rewrite Hx, Hlive. by rewrite lookup_insert_eq.
    - exists c1. split; [done|]. by rewrite Hc1, lookup_insert_eq. }
  destruct (Z.leb_spec max n) as [Hm|Hm]; simpl; [|split; [done|]; split; [done|lia]].
  destruct (Set_up now (blockedKey s ip) 1 lockout c2) as [c3 Hs]. rewrite Hs. apply Set_ok in Hs; [|done].
  simpl. rewrite Hs, lookup_insert_eq. rewrite lookup_insert_ne by (symmetry; apply cntKey_blockedKey). done.
Qed.

(** A counter that has no expiry never gets one: the expiry is set when the
    counter becomes 1 only. So when the [EXPIRE] after a first failure does not
    go through, the failures of that address are counted for ever instead of
    per window. *)
Theorem counter_without_expiry {RU : RedisUp R} now ip max window lockout s v :
  0 < window → 0 < lockout → 1 <= v < maxInt64 →
  cview (client s) !! cntKey s ip = Some (v, None) →
  cview (client (RecordFailure now ip max window lockout s).2) !! cntKey s ip = Some (v + 1, None).
Proof.
  intros Hw Hl Hv Hk. pose proof (RecordFailure_up now ip max window lockout s Hw Hl) as Hup.
  unfold live in Hup. rewrite Hk in Hup. simpl in Hup. specialize (Hup ltac:(lia)).
  destruct (RecordFailure _ _ _ _ _ _) as [r s']. destruct Hup as (_ & Hx & _). simpl. rewrite Hx.
  replace (v + 1 =? 1) with false by (symmetry; apply Z.eqb_neq; lia). done.
Qed.

End Redis.
End RedisLockout.

(** ** The Redis tracker keeps the promise while the server answers *)
Module RedisTracker.
Import SMTPSecurity RedisLockout.
Section RedisTracker.
Context {GU : GoUnicode} {NM : NetMail} {R : Type} {RC : RedisCounters R} {RL : RedisCounterLaws R} {RU : RedisUp R}.
Variable c : SMTPSecurityConfig.
Hypothesis limit_range : 0 < MaxAuthFailuresPerIP c < maxInt64.
Hypothesis window_pos : 0 < IPLookupTTL c.
Hypothesis lockout_pos : 0 < LockoutDuration c.

Abbreviation limit := (MaxAuthFailuresPerIP c).
Abbreviation span := (expire_ttl (IPLookupTTL c) `min` set_ttl (LockoutDuration c)).
Abbreviation plugin := (SMTPSecurityPlugin (L := RedisLockoutStore R)).

(** A key changes under a tracker's feet only by expiring. *)
Definition undisturbed (t : Time) (k : string) (m m' : gmap string (Z * option Time)) : Prop :=
  m' !! k = m !! k ∨ live t m k = None ∧ m' !! k = None.

(** Other nodes and clients of the server leave the two keys of [ip] alone. *)
Definition env (t : Time) (ip : string) (p p' : plugin) : Prop :=
  cfg p' = cfg p ∧ ∀ s, lockoutStore p = Some s →
  ∃ s', lockoutStore p' = Some s' ∧ keyPrefix s' = keyPrefix s ∧
    undisturbed t (cntKey s ip) (cview (client s)) (cview (client s')) ∧
    undisturbed t (blockedKey s ip) (cview (client s)) (cview (client s')).

(** The counter holds [n] and does not expire within the span, nor does the
    lockout marker once it is set. *)
Definition counted (ip : string) (t0 : Time) (n : Z) (s : RedisLockoutStore R) : Prop :=
  if n =? 0 then live t0 (cview (client s)) (cntKey s ip) = None
  else (∃ x, cview (client s) !! cntKey s ip = Some (n, Some x) ∧ t0 + expire_ttl (IPLookupTTL c) <= x) ∧
       (limit <= n → ∃ v y, cview (client s) !! blockedKey s ip = Some (v, Some y) ∧
                            t0 + set_ttl (LockoutDuration c) <= y).

Definition tracked_redis (ip : string) (t0 : Time) (n : Z) (p : plugin) : Prop :=
  0 <= n ∧ cfg p = c ∧ ∃ s, lockoutStore p = Some s ∧ counted ip t0 n s.

Lemma live_none_mono t t' m k : t <= t' → live t m k = None → live t' m k = None.
Proof.
  unfold live. intros Ht. destruct (m !! k) as [[v [x|]]|]; [|done|done].
  destruct (Z.ltb_spec t x); [done|]. destruct (Z.ltb_spec t' x); [lia|done].
Qed.

Lemma live_some t m k v x : m !! k = Some (v, Some x) → t < x → live t m k = Some (v, Some x).
Proof. unfold live. intros -> Hx. apply Z.ltb_lt in Hx. by rewrite Hx. Qed.

Lemma undisturbed_live t k m m' v x :
  undisturbed t k m m' → m !! k = Some (v, Some x) → t < x → m' !! k = Some (v, Some x).
Proof. intros [->|[Hn _]] Hk Hx; [done|]. by rewrite (live_some _ _ _ _ _ Hk Hx) in Hn. Qed.

Lemma keys_of_prefix (s s' : RedisLockoutStore R) ip :
  keyPrefix s' = keyPrefix s → cntKey s' ip = cntKey s ip ∧ blockedKey s' ip = blockedKey s ip.
Proof. unfold cntKey, blockedKey. by intros ->. Qed.

Lemma counted_undisturbed ip t0 n t s s' :
  t0 <= t < t0 + span → keyPrefix s' = keyPrefix s →
  undisturbed t (cntKey s ip) (cview (client s)) (cview (client s')) →
  undisturbed t (blockedKey s ip) (cview (client s)) (cview (client s')) →
  counted ip t0 n s → counted ip t0 n s'.
Proof.
  intros Ht Hk Huc Hub. destruct (keys_of_prefix _ _ ip Hk) as [Hkc Hkb]. unfold counted. rewrite Hkc, Hkb.
  destruct (n =? 0).
  - intros Hn. destruct Huc as [Heq|[_ Heq]]; unfold live in *; by rewrite Heq.
  - intros [(x & Hx & Hxt) Hb]. split.
    + exists x. split; [|done]. eapply undisturbed_live; [done..|lia].
    + intros Hl. destruct (Hb Hl) as (v & y & Hy & Hyt). exists v, y. split; [|done].
      eapply undisturbed_live; [done..|lia].
Qed.

(** The plugin delegates to the store. *)
Lemma RecordAuthFailure_redis t addr (p : plugin) s :
  cfg p = c → lockoutStore p = Some s →
  (SMTPSecurity.RecordAuthFailure t addr p).2 =
  SMTPSecurity.set_store (RecordFailure t (hostOnly addr) limit (IPLookupTTL c) (LockoutDuration c) s).2 p.
Proof.
  intros Hc Hs. unfold SMTPSecurity.RecordAuthFailure. rewrite Hc, Hs.
  replace (limit =? 0) with false by (symmetry; apply Z.eqb_neq; lia).
  cbn [store_RecordFailure redis_store]. by destruct (RecordFailure _ _ _ _ _ _).
Qed.

Lemma tracked_redis_fail t0 n t addr p :
  tracked_redis (hostOnly addr) t0 n p → t0 <= t < t0 + span → n < limit →
  tracked_redis (hostOnly addr) t0 (n + 1) (SMTPSecurity.RecordAuthFailure t addr p).2.
Proof.
  intros (Hn & Hc & s & Hs & Hcnt) Ht Hlt. rewrite (RecordAuthFailure_redis _ _ _ _ Hc Hs).
  split; [lia|]. split; [done|]. eexists. split; [done|]. set (ip := hostOnly addr) in *.
  pose proof (RecordFailure_up t ip limit (IPLookupTTL c) (LockoutDuration c) s window_pos lockout_pos) as Hup.
  pose proof (RecordFailure_prefix t ip limit (IPLookupTTL c) (LockoutDuration c) s) as Hpre.
  destruct (RecordFailure _ _ _ _ _ _) as [r s']. simpl in Hpre. simpl.
  destruct (keys_of_prefix _ _ ip Hpre) as [Hkc Hkb]. unfold counted in *. rewrite Hkc, Hkb.
  replace (n + 1 =? 0) with false by (symmetry; apply Z.eqb_neq; lia).
  destruct (Z.eqb_spec n 0) as [->|Hne].
  - rewrite (live_none_mono t0 t) in Hup by (done || lia). simpl in Hup.
    destruct (Hup ltac:(done)) as (_ & Hx & Hb). split.
    + eexists. split; [exact Hx|]. lia.
    + intros Hl. do 2 eexists. split; [exact (Hb Hl)|]. lia.
  - destruct Hcnt as [(x & Hx & Hxt) _]. rewrite (live_some t _ _ _ _ Hx ltac:(lia)) in Hup. simpl in Hup.
    destruct (Hup ltac:(lia)) as (_ & Hx' & Hb). split.
    + replace (n + 1 =? 1) with false in Hx' by (symmetry; apply Z.eqb_neq; lia). eauto.
    + intros Hl. do 2 eexists. split; [exact (Hb Hl)|]. lia.
Qed.

Lemma tracked_redis_other ip t0 n t addr p :
  tracked_redis ip t0 n p → t0 <= t < t0 + span → hostOnly addr ≠ ip →
  tracked_redis ip t0 n (SMTPSecurity.RecordAuthFailure t addr p).2.
Proof.
  intros (Hn & Hc & s & Hs & Hcnt) Ht Hne. rewrite (RecordAuthFailure_redis _ _ _ _ Hc Hs).
  split; [done|]. split; [done|]. eexists. split; [done|].
  eapply counted_undisturbed; [exact Ht|apply RecordFailure_prefix|..|exact Hcnt]; left; apply RecordFailure_frame;
    eauto using cntKey_inj, blockedKey_inj, cntKey_blockedKey, not_eq_sym.
Qed.

Lemma tracked_redis_locked t0 t addr p :
  tracked_redis (hostOnly addr) t0 limit p → t < t0 + span → SMTPSecurity.IsLockedOut t addr p = true.
Proof.
  intros (_ & Hc & s & Hs & Hcnt) Ht. unfold SMTPSecurity.IsLockedOut. rewrite Hc, Hs.
  replace (limit =? 0) with false by (symmetry; apply Z.eqb_neq; lia). unfold counted in Hcnt.
  replace (limit =? 0) with false in Hcnt by (symmetry; apply Z.eqb_neq; lia).
  destruct Hcnt as [_ Hb]. destruct (Hb ltac:(lia)) as (v & y & Hy & Hyt).
  cbn [store_IsLockedOut redis_store]. unfold IsLockedOut.
  destruct (Exists_up t (blockedKey s (hostOnly addr)) (client s)) as [k Hk]. rewrite Hk.
  apply Exists_ok in Hk. rewrite (live_some t _ _ _ _ Hy ltac:(lia)) in Hk. by subst k.
Qed.

#[export, refine] Instance redis_tracker : LockoutTracker plugin limit span := {
  tracker_env := env; tracked := tracked_redis }.
Proof.
  - intros ip t0 n t p p' (Hn & Hc & s & Hs & Hcnt) Ht [Hc' He].
    destruct (He s Hs) as (s' & Hs' & Hk & Huc & Hub).
    split; [done|]. split; [congruence|]. exists s'. split; [done|]. by eapply counted_undisturbed.
  - intros. by apply tracked_redis_other.
  - intros * ? ? [_ ?]. by apply tracked_redis_fail.
  - intros * ? [_ ?]. by eapply tracked_redis_locked.
Defined.

End RedisTracker.
End RedisTracker.

(** ** Concrete trackers *)
Module LockoutDemo.
Import SMTPSecurity RedisLockout.
#[local] Existing Instances ascii_only bare_addresses.

(** A Redis server that always answers. *)
Definition table : Type := gmap string (Z * option Time).

Definition table_incr (now : Time) (k : string) (r : gmap string (Z * option Time)) : result Z * table :=
  match live now r k with
  | Some (v, e) => (Ok (v + 1), <[k := (v + 1, e)]> r)
  | None => (Ok 1, <[k := (1, None)]> r)
  end.

Definition table_expire (now : Time) (k : string) (d : Duration) (r : gmap string (Z * option Time)) : result unit * table :=
  match live now r k with
  | Some (v, _) => (Ok (), <[k := (v, Some (now + expire_ttl d))]> r)
  | None => (Ok (), r)
  end.

#[export] Instance table_redis : RedisCounters table := {
  Incr := table_incr; Expire := table_expire;
  Set_ now k v d r := (Ok (), <[k := (v, Some (now + set_ttl d))]> (r : gmap _ _));
  Exists now k r := Ok (match live now r k with Some _ => 1 | None => 0 end);
  cview r := r }.

#[export] Instance table_laws : RedisCounterLaws table.
Proof.
  split; simpl; unfold table_incr, table_expire; intros *.
  - case_match; [destruct p as [v e]|]; by intros [= <- <-].
  - intros _. case_match; [destruct p|]; by intros [= <-].
  - by intros _ [= <-].
  - by intros [= <-].
  - intros Hne. case_match; [destruct p|]; simpl; by rewrite lookup_insert_ne by done.
  - intros Hne. case_match; [destruct p|]; simpl; rewrite ?lookup_insert_ne by done; done.
  - intros Hne. by rewrite lookup_insert_ne.
Qed.

#[export] Instance table_up : RedisUp table.
Proof. split; simpl; unfold table_incr, table_expire; intros *; repeat case_match; eauto. Qed.

Definition demo_config : SMTPSecurityConfig := with_defaults (MkConfig 2 0 0 false [] [] 0 false).

Definition memory : SMTPSecurityPlugin (L := RedisLockoutStore table) := NewSMTPSecurityPlugin "sec" demo_config None.
Definition shared : SMTPSecurityPlugin (L := RedisLockoutStore table) :=
  NewSMTPSecurityPlugin "sec" demo_config (Some (NewRedisLockoutStore (∅ : table) "")).

(** Two wrong guesses from two connections of one host. *)
Definition guess (port : string) (t : Time) (p : SMTPSecurityPlugin (L := RedisLockoutStore table)) :=
  Smtp.Auth Lmtp.demo_server t "PLAIN" "" "eve@x" "pw" (Smtp.MkSession ("9.9.9.9:" +:+ port) "" "" [] 0 "") (Some p).

Definition after_guesses (p : SMTPSecurityPlugin) : SMTPSecurityPlugin :=
  let p1 := default p (guess "1" 0 p).2 in default p1 (guess "2" 0 p1).2.

#[local] Instance memory_tracker : LockoutTracker (SMTPSecurityPlugin (L := RedisLockoutStore table)) 2 (15 * Minute) :=
  MemoryTracker.memory_tracker demo_config ltac:(done).

Lemma guess_step port t n p :
  BruteForce.attack Lmtp.demo_server "9.9.9.9" 0 t n p →
  hostOnly ("9.9.9.9:" +:+ port) = "9.9.9.9" →
  (guess port t p).1.1 = Err (ESentinel ErrAuthRequired) →
  BruteForce.attack Lmtp.demo_server "9.9.9.9" 0 t (n + 1) (default p (guess port t p).2).
Proof.
  intros Ha Hh Hr. pose proof (BruteForce.attack_auth Lmtp.demo_server "9.9.9.9" 0 t n p "PLAIN" "" "eve@x" "pw"
    (Smtp.MkSession ("9.9.9.9:" +:+ port) "" "" [] 0 "")) as Hstep.
  change (Smtp.Auth _ _ _ _ _ _ _ _) with (guess port t p) in Hstep.
  unfold guess, Smtp.Auth in *. simpl in Hr, Hstep |- *. destruct (SMTPSecurity.IsLockedOut _ _ p); [done|].
  simpl in Hstep |- *. specialize (Hstep _ _ _ Ha eq_refl). rewrite Hh in Hstep. exact Hstep.
Qed.

Lemma memory_attack : BruteForce.attack Lmtp.demo_server "9.9.9.9" 0 0 2 (after_guesses memory).
Proof.
  apply (guess_step "2" 0 1 (default memory (guess "1" 0 memory).2)); [|reflexivity|vm_compute; reflexivity].
  apply (guess_step "1" 0 0 memory); [|reflexivity|vm_compute; reflexivity].
  apply BruteForce.attack_start. vm_compute. repeat split; discriminate.
Qed.



(** The shared tracker gives the same bound. *)
Example shared_attack :
  (guess "3" 0 (after_guesses shared)).1.1 =
    Err (ESMTP 421 (4, 7, 0) "Too many authentication failures — try again later") ∧
  tracked (LockoutTracker := RedisTracker.redis_tracker demo_config ltac:(done) ltac:(done) ltac:(done))
    "9.9.9.9" 0 2 (after_guesses shared).
Proof.
  split; [vm_compute; reflexivity|]. split; [done|]. split; [vm_compute; reflexivity|].
  eexists. split; [vm_compute; reflexivity|]. split; [eexists|intros _; do 2 eexists];
    (split; [vm_compute; reflexivity|vm_compute; discriminate]).
Qed.

End LockoutDemo.
