(* ===== verification/Reputation.v ===== *)
(** * Reputation and content scanners

    Models the plugins that ask an outside service: [internal/plugin/dnsbl.go],
    [crowdsec.go], [spam_checker.go] and [antivirus.go]. The services answer
    through arguments: DNS and the CrowdSec API as functions of the time at which
    they are asked, the HTTP scanners as the outcome of one request. *)
From Stdlib Require Import Ascii QArith.
From stdpp Require Import pretty.
From S2P Require Import Prelude GoStrings Plugin.
Local Open Scope Z_scope.

(** ** Decisions cached for a while

    Both reputation plugins keep [map[string]entry] with an expiry time. *)
Record entry := MkEntry { banned : bool; expires : Time }.

Definition cached (now : Time) (key : string) (c : gmap string entry) : option bool :=
  match c !! key with
  | Some e => if Before now (expires e) then Some (banned e) else None
  | None => None
  end.

(** Every entry that has not expired holds an answer that [said] gave less than
    [ttl] before. *)
Definition cache_sound (ttl : Duration) (said : string → bool → Time → Prop) (now : Time)
    (c : gmap string entry) : Prop :=
  ∀ k e, c !! k = Some e → ∃ t, said k (banned e) t ∧ t <= now ∧ expires e <= t + ttl.

Lemma cached_sound ttl said now c k b :
  cache_sound ttl said now c → cached now k c = Some b → ∃ t, said k b t ∧ now - ttl < t <= now.
Proof.
  unfold cached. intros Hc. destruct (c !! k) as [e|] eqn:He; [|done].
  destruct (Before now (expires e)) eqn:Hb; [|done]. intros [= <-].
  destruct (Hc k e He) as (t & Hs & Ht & Hx). apply Z.ltb_lt in Hb. exists t. split; [done|lia].
Qed.

Lemma cache_sound_insert ttl said now c k b t :
  cache_sound ttl said now c → said k b t → t <= now →
  cache_sound ttl said now (<[k := MkEntry b (t + ttl)]> c).
Proof.
  intros Hc Hs Ht k' e. destruct (decide (k' = k)) as [->|Hne].
  - rewrite lookup_insert_eq. intros [= <-]. exists t. simpl. split; [done|lia].
  - rewrite lookup_insert_ne by done. apply Hc.
Qed.

Lemma cache_sound_later ttl said now now' c :
  now <= now' → cache_sound ttl said now c → cache_sound ttl said now' c.
Proof. intros Hle Hc k e He. destruct (Hc k e He) as (t & Hs & Ht & Hx). exists t. split; [done|lia]. Qed.

(** ** dnsbl.go *)
Module DNSBL.

Record DNSBLConfig := MkConfig { Zones : list string; CacheTTL : Duration; FailOpen : bool }.

Definition with_defaults (c : DNSBLConfig) : DNSBLConfig :=
  MkConfig (Zones c) (if CacheTTL c <=? 0 then 5 * Minute else CacheTTL c) (FailOpen c).

(** [net.LookupHost]: addresses, a [*net.DNSError] with [IsNotFound], or another error. *)
Inductive lookup_result := Addrs (l : list string) | NotFound | LookupError (e : error).

(** [net.ParseIP(s).To4()] *)
Class ParseIPv4 := {
  parse_v4 : string → option (Z * Z * Z * Z);
  parse_v4_octets : ∀ s a b c d, parse_v4 s = Some (a, b, c, d) →
    0 <= a < 256 ∧ 0 <= b < 256 ∧ 0 <= c < 256 ∧ 0 <= d < 256 }.

Section DNSBL.
Context {PI : ParseIPv4}.
(** [net.LookupHost] at a given time. *)
Variable LookupHost : Time → string → lookup_result.

Record DNSBLPlugin := MkPlugin { name : string; cfg : DNSBLConfig; cache : gmap string entry }.

Definition NewDNSBL (name : string) (c : DNSBLConfig) : DNSBLPlugin := MkPlugin name (with_defaults c) ∅.

Definition set_cache (c : gmap string entry) (p : DNSBLPlugin) : DNSBLPlugin := MkPlugin (name p) (cfg p) c.

Definition octet (z : Z) : string := pretty (Z.to_N z).

Definition reverseIPv4 (ip : Z * Z * Z * Z) : string :=
  let '(a, b, c, d) := ip in octet d +:+ "." +:+ octet c +:+ "." +:+ octet b +:+ "." +:+ octet a.

Definition key (zone reversed : string) : string := zone +:+ ":" +:+ reversed.

Definition queryZone (now : Time) (reversed zone : string) (p : DNSBLPlugin) : result bool * DNSBLPlugin :=
  match cached now (key zone reversed) (cache p) with
  | Some b => (Ok b, p)
  | None =>
      let store b := (Ok b, set_cache (<[key zone reversed := MkEntry b (now + CacheTTL (cfg p))]> (cache p)) p) in
      match LookupHost now (reversed +:+ "." +:+ zone) with
      | LookupError err => (Err err, p)
      | NotFound => store false
      | Addrs l => store (match l with [] => false | _ :: _ => true end)
      end
  end.

(** The loop over the zones; [nows zone] is the clock when [zone] is asked. *)
Fixpoint check_zones (nows : string → Time) (ipStr reversed : string) (zones : list string) (p : DNSBLPlugin)
    : result unit * DNSBLPlugin :=
  match zones with
  | [] => (Ok (), p)
  | zone :: zones =>
      let '(r, p) := queryZone (nows zone) reversed zone p in
      match r with
      | Err err =>
          if negb (FailOpen (cfg p)) then
            (reject (name p) (Text "DNSBL lookup failed for %s: %v" [AStr ipStr; AErr err]), p)
          else check_zones nows ipStr reversed zones p
      | Ok true => (reject (name p) (Text "IP %s is listed in %s" [AStr ipStr; AStr zone]), p)
      | Ok false => check_zones nows ipStr reversed zones p
      end
  end.

(** The address that is checked: IPv4 with a port. *)
Definition client_ip (draft : Draft) : option (string * (Z * Z * Z * Z)) :=
  let addr := mget (GetHeaders draft) "X-SMTP-Remote-Addr" in
  if bool_decide (addr = "") then None
  else match SplitHostPort addr with
       | None => None
       | Some (ipStr, _) => match parse_v4 ipStr with Some ip => Some (ipStr, ip) | None => None end
       end.

Definition BeforeSend (nows : string → Time) (draft : Draft) (p : DNSBLPlugin) : result unit * DNSBLPlugin :=
  match Zones (cfg p) with
  | [] => (Ok (), p)
  | _ :: _ =>
      match client_ip draft with
      | None => (Ok (), p)
      | Some (ipStr, ip) => check_zones nows ipStr (reverseIPv4 ip) (Zones (cfg p)) p
      end
  end.

(** *** Freshness *)

(** What an answer says about an address; [None] for a failed lookup. *)
Definition listed (r : lookup_result) : option bool :=
  match r with
  | Addrs [] | NotFound => Some false
  | Addrs (_ :: _) => Some true
  | LookupError _ => None
  end.

Definition answer (t : Time) (zone reversed : string) : option bool :=
  listed (LookupHost t (reversed +:+ "." +:+ zone)).

Definition said (k : string) (b : bool) (t : Time) : Prop :=
  ∃ zone reversed, k = key zone reversed ∧ CutByte ":" reversed = None ∧ answer t zone reversed = Some b.

Lemma said_key zone reversed b t :
  CutByte ":" reversed = None → said (key zone reversed) b t ↔ answer t zone reversed = Some b.
Proof.
  intros Hr. split; [|by exists zone, reversed]. intros (zone' & reversed' & Hk & Hr' & Ha).
  assert (Some (zone, reversed) = Some (zone', reversed')) as [= -> ->]; [|done].
  rewrite <- (CutLastByte_app ":" zone reversed Hr), <- (CutLastByte_app ":" zone' reversed' Hr').
  f_equal. exact Hk.
Qed.

Lemma octet_no_colon z : 0 <= z < 256 → CutByte ":" (octet z) = None.
Proof.
  intros Hz. assert (forallb (λ n, bool_decide (CutByte ":" (octet (Z.of_nat n)) = None)) (seq 0 256) = true) as Hall
    by (vm_compute; reflexivity).
  rewrite forallb_forall in Hall. specialize (Hall (Z.to_nat z)).
  rewrite in_seq, Z2Nat.id in Hall by lia. apply (bool_decide_unpack _), Is_true_true. apply Hall. lia.
Qed.

Lemma CutByte_None_app sep s t : CutByte sep (s +:+ t) = None ↔ CutByte sep s = None ∧ CutByte sep t = None.
Proof.
  induction s as [|c s IH]; simpl; [naive_solver|]. case_bool_decide; [by split; [|intros []]|].
  split.
  - intros Hn. destruct (CutByte sep (s +:+ t)) as [[]|]; [done|]. by destruct (proj1 IH eq_refl) as [-> ->].
  - intros [Hs Ht]. destruct (CutByte sep s) as [[]|]; [done|]. by rewrite (proj2 IH).
Qed.

Lemma reverse_no_colon s ip : parse_v4 s = Some ip → CutByte ":" (reverseIPv4 ip) = None.
Proof.
  destruct ip as [[[a b] c] d]. intros (Ha & Hb & Hc & Hd)%parse_v4_octets. unfold reverseIPv4.
  rewrite !CutByte_None_app. by rewrite !octet_no_colon.
Qed.

Definition sound (now : Time) (p : DNSBLPlugin) : Prop :=
  0 < CacheTTL (cfg p) ∧ cache_sound (CacheTTL (cfg p)) said now (cache p).

(** A query answers with what DNS said within the last [CacheTTL], and fails only
    when DNS fails now. *)
Lemma queryZone_spec now T reversed zone p :
  sound T p → now <= T → CutByte ":" reversed = None →
  let '(r, p') := queryZone now reversed zone p in
  name p' = name p ∧ cfg p' = cfg p ∧ sound T p' ∧
  match r with
  | Ok b => ∃ u, answer u zone reversed = Some b ∧ now - CacheTTL (cfg p) < u <= T
  | Err _ => answer now zone reversed = None
  end.
Proof.
  intros [Hpos Hs] Hle Hr. unfold queryZone.
  destruct (cached now (key zone reversed) (cache p)) as [b|] eqn:Hc.
  { split; [done|]. split; [done|]. split; [done|]. unfold cached in Hc.
    destruct (cache p !! _) as [e|] eqn:He; [|done]. destruct (Before _ _) eqn:Hb; [|done]. injection Hc as <-.
    destruct (Hs _ _ He) as (u & Hu%said_key & Ht & Hx); [|done]. apply Z.ltb_lt in Hb. exists u. split; [done|lia]. }
  assert (∀ b, answer now zone reversed = Some b →
    sound T (set_cache (<[key zone reversed := MkEntry b (now + CacheTTL (cfg p))]> (cache p)) p) ∧
    ∃ u, answer u zone reversed = Some b ∧ now - CacheTTL (cfg p) < u <= T) as Hstore.
  { intros b Hb. split; [|exists now; split; [done|lia]]. split; [done|]. apply cache_sound_insert; [done| |done].
    by apply said_key. }
  unfold answer in Hstore at 1. destruct (LookupHost now _) as [l| |e] eqn:Hl; simpl.
  - split; [done|]. split; [done|]. apply Hstore. by destruct l.
  - split; [done|]. split; [done|]. by apply Hstore.
  - split; [done|]. split; [done|]. split; [done|]. unfold answer. by rewrite Hl.
Qed.

(** The plugin at work, with the clock: every query that any connection makes. *)
Inductive query : Time * DNSBLPlugin → Time * DNSBLPlugin → Prop :=
| query_zone t t' now s ip zone p :
    t <= now <= t' → parse_v4 s = Some ip →
    query (t, p) (t', (queryZone now (reverseIPv4 ip) zone p).2).

Lemma sound_steps x y : rtc query x y → sound x.1 x.2 → sound y.1 y.2.
Proof.
  induction 1 as [|x y z Hst _ IH]; [done|]. intros [Hpos Hc]. apply IH.
  destruct Hst as [t t' now s ip zone p Ht Hip]. simpl in *.
  pose proof (queryZone_spec now t' (reverseIPv4 ip) zone p) as Hq.
  destruct (queryZone _ _ _ _). apply Hq; [|lia|by eapply reverse_no_colon].
  split; [done|]. eapply cache_sound_later; [|exact Hc]. lia.
Qed.

(** The answers a message passes a zone with, and those that stop it, when the
    zone is asked at [now] and the call ends at [T]: no older than [CacheTTL]. *)
Definition passes (c : DNSBLConfig) (now T : Time) (reversed zone : string) : Prop :=
  (∃ u, answer u zone reversed = Some false ∧ now - CacheTTL c < u <= T) ∨
  (FailOpen c = true ∧ answer now zone reversed = None).

Definition stops (c : DNSBLConfig) (now T : Time) (reversed zone : string) : Prop :=
  (∃ u, answer u zone reversed = Some true ∧ now - CacheTTL c < u <= T) ∨
  (FailOpen c = false ∧ answer now zone reversed = None).

(** What the loop over the zones decides. *)
Lemma check_zones_spec nows T ipStr reversed zones p :
  sound T p → (∀ z, nows z <= T) → CutByte ":" reversed = None →
  match (check_zones nows ipStr reversed zones p).1 with
  | Ok _ => ∀ zone, zone ∈ zones → passes (cfg p) (nows zone) T reversed zone
  | Err e => (∃ reason, e = ERejection (name p) reason) ∧
             ∃ zone, zone ∈ zones ∧ stops (cfg p) (nows zone) T reversed zone
  end.
Proof.
  intros Hs Hn Hr. revert p Hs. induction zones as [|zone zones IH]; intros p Hs; simpl; [by intros ? ?%elem_of_nil|].
  pose proof (queryZone_spec (nows zone) T reversed zone p Hs (Hn zone) Hr) as Hq.
  destruct (queryZone _ _ _ _) as [r p']. destruct Hq as (Hnm & Hcf & Hs' & Hans).
  specialize (IH p' Hs'). rewrite Hnm, Hcf in *.
  assert (passes (cfg p) (nows zone) T reversed zone →
    match (check_zones nows ipStr reversed zones p').1 with
    | Ok _ => ∀ z, z ∈ zone :: zones → passes (cfg p) (nows z) T reversed z
    | Err e => (∃ reason, e = ERejection (name p) reason) ∧
               ∃ z, z ∈ zone :: zones ∧ stops (cfg p) (nows z) T reversed z
    end) as Hnext.
  { intros Hp. destruct (check_zones _ _ _ _ p').1; [intros z [->|Hz]%elem_of_cons; auto|].
    destruct IH as [Hrej (z & Hz & Hw)]. split; [done|]. exists z. split; [by apply elem_of_cons; right|done]. }
  assert (stops (cfg p) (nows zone) T reversed zone → ∃ z, z ∈ zone :: zones ∧ stops (cfg p) (nows z) T reversed z)
    as Hstop by (exists zone; split; [apply list_elem_of_here|done]).
  destruct r as [[]|]; simpl.
  - split; [by eexists|]. apply Hstop. by left.
  - apply Hnext. by left.
  - destruct (FailOpen (cfg p)) eqn:Hf; simpl; [apply Hnext; by right|]. split; [by eexists|]. apply Hstop. by right.
Qed.

(** C22. Block lists are enforced on fresh answers: whatever queries went before,
    a message from an IPv4 client passes only if every zone was asked and
    cleared its address within the last [CacheTTL] (or the lookup failed now and
    the plugin fails open), and it is rejected only if some zone listed its
    address within that time (or the lookup failed now and the plugin fails
    closed). *)
Theorem dnsbl_decision name0 c t0 t p nows T draft ipStr ip :
  rtc query (t0, NewDNSBL name0 c) (t, p) → t <= T → (∀ z, nows z <= T) →
  client_ip draft = Some (ipStr, ip) →
  match (BeforeSend nows draft p).1 with
  | Ok _ => ∀ zone, zone ∈ Zones (cfg p) → passes (cfg p) (nows zone) T (reverseIPv4 ip) zone
  | Err e => (∃ reason, e = ERejection (name p) reason) ∧
             ∃ zone, zone ∈ Zones (cfg p) ∧ stops (cfg p) (nows zone) T (reverseIPv4 ip) zone
  end.
Proof.
  intros Hr Ht Hn Hip. apply sound_steps in Hr as [Hpos Hc]; simpl in *.
  2: { split; simpl; [by destruct (Z.leb_spec (CacheTTL c) 0)|by intros k e]. }
  assert (CutByte ":" (reverseIPv4 ip) = None) as Hcol.
  { unfold client_ip in Hip. repeat case_match; simplify_eq. by eapply reverse_no_colon. }
  unfold BeforeSend. rewrite Hip. destruct (Zones (cfg p)) as [|z zs] eqn:Hz; [by intros ? ?%elem_of_nil|].
  apply check_zones_spec; [|done|done]. split; [done|]. by eapply cache_sound_later.
Qed.

End DNSBL.
End DNSBL.

(** ** crowdsec.go *)
Module CrowdSec.

Record CrowdSecConfig := MkConfig {
  Endpoint : string; APIKey : string; Timeout : Duration; FailOpen : bool; CacheTTL : Duration }.

Definition with_defaults (c : CrowdSecConfig) : CrowdSecConfig := MkConfig
  (if bool_decide (Endpoint c = "") then "http://localhost:8080" else Endpoint c)
  (APIKey c)
  (if Timeout c =? 0 then 2 * Second else Timeout c)
  (FailOpen c)
  (if CacheTTL c =? 0 then 30 * Second else CacheTTL c).

(** A GET request and its outcome: the request cannot be built, the call fails,
    or it is answered with a status and a body to read. *)
Inductive reply :=
| BuildError (e : error)
| CallError (e : error)
| Response (status : Z) (body : result string).

(** [json.Unmarshal] of the decisions: the [type] of each. *)
Class Decisions := { unmarshal_decisions : string → result (list string) }.

Section CrowdSec.
Context {DC : Decisions}.
(** The API as it answers at a given time to a URL and its two headers. *)
Variable lapi : Time → string → string → string → reply.

Record CrowdSecPlugin := MkPlugin { name : string; cfg : CrowdSecConfig; cache : gmap string entry }.

Definition NewCrowdSec (name : string) (c : CrowdSecConfig) : CrowdSecPlugin := MkPlugin name (with_defaults c) ∅.

Definition bodyCap : Z := Z.shiftl 64 10.

(** The meaning of a reply. *)
Definition read_reply (r : reply) : result bool :=
  match r with
  | BuildError err => Err (EWrap (Text "build request: %w" []) err)
  | CallError err => Err (EWrap (Text "LAPI request: %w" []) err)
  | Response status body =>
      if status =? 404 then Ok false
      else if negb (status =? 200) then Err (EText (Text "LAPI returned HTTP %d" [AInt status]))
      else match body with
      | Err err => Err (EWrap (Text "read LAPI response: %w" []) err)
      | Ok b =>
          let body := limit_bytes bodyCap b in
          if bool_decide (body = "null") then Ok false
          else match unmarshal_decisions body with
               | Err err => Err (EWrap (Text "parse LAPI response: %w" []) err)
               | Ok types => Ok (existsb (λ t, bool_decide (t = "ban")) types)
               end
      end
  end.

Definition queryLAPI (c : CrowdSecConfig) (t : Time) (ip : string) : result bool :=
  read_reply (lapi t (Endpoint c +:+ "/v1/decisions?ip=" +:+ ip +:+ "&type=ban")
                ("ApiKey " +:+ APIKey c) "application/json").

(** The clock is read when the cache is consulted, when the API answers, and when
    the answer is stored. *)
Record clock := MkClock { consulted : Time; answered : Time; stored : Time }.

Definition isBanned (now : clock) (ip : string) (p : CrowdSecPlugin) : result bool * CrowdSecPlugin :=
  match cached (consulted now) ip (cache p) with
  | Some b => (Ok b, p)
  | None =>
      match queryLAPI (cfg p) (answered now) ip with
      | Err err => (Err err, p)
      | Ok b => (Ok b, MkPlugin (name p) (cfg p)
                         (<[ip := MkEntry b (stored now + CacheTTL (cfg p))]> (cache p)))
      end
  end.

Definition BeforeSend (now : clock) (draft : Draft) (p : CrowdSecPlugin) : result unit * CrowdSecPlugin :=
  let remoteAddr := mget (GetHeaders draft) "X-SMTP-Remote-Addr" in
  if bool_decide (remoteAddr = "") then (Ok (), p)
  else
    let ipStr := match SplitHostPort remoteAddr with Some (h, _) => h | None => remoteAddr end in
    let '(r, p) := isBanned now ipStr p in
    (match r with
     | Err err => if negb (FailOpen (cfg p))
                  then reject (name p) (Text "CrowdSec check failed: %v" [AErr err]) else Ok ()
     | Ok true => reject (name p) (Text "IP %s has an active CrowdSec ban decision" [AStr ipStr])
     | Ok false => Ok ()
     end, p).

(** *** Freshness *)

Definition decision (c : CrowdSecConfig) (t : Time) (ip : string) : option bool :=
  match queryLAPI c t ip with Ok b => Some b | Err _ => None end.

(** The answer stored at [t] was given at most [lag] before. *)
Definition said (c : CrowdSecConfig) (lag : Duration) (ip : string) (b : bool) (t : Time) : Prop :=
  ∃ u, t - lag <= u <= t ∧ decision c u ip = Some b.

Definition sound (lag : Duration) (now : Time) (p : CrowdSecPlugin) : Prop :=
  cache_sound (CacheTTL (cfg p)) (said (cfg p) lag) now (cache p).

Definition clock_ok (lag : Duration) (t t' : Time) (now : clock) : Prop :=
  t <= consulted now ∧ consulted now <= answered now ∧ answered now <= stored now ∧
  stored now <= t' ∧ stored now - answered now <= lag.

(** An answer [b] about [ip] that is at most [CacheTTL] and the delay of the call
    older than [now]. *)
Definition recent (c : CrowdSecConfig) (lag : Duration) (now T : Time) (ip : string) (b : bool) : Prop :=
  ∃ u, decision c u ip = Some b ∧ now - (0 `max` CacheTTL c) - lag <= u <= T.

Lemma isBanned_spec lag t t' now ip p :
  sound lag t p → 0 <= lag → clock_ok lag t t' now →
  let '(r, p') := isBanned now ip p in
  cfg p' = cfg p ∧ name p' = name p ∧ sound lag t' p' ∧
  match r with
  | Ok b => recent (cfg p) lag (consulted now) t' ip b
  | Err _ => decision (cfg p) (answered now) ip = None
  end.
Proof.
  intros Hs Hlag (H1 & H2 & H3 & H4 & H5). unfold isBanned.
  assert (sound lag t' p) as Hs' by (eapply cache_sound_later; [|exact Hs]; lia).
  destruct (cached (consulted now) ip (cache p)) as [b|] eqn:Hc.
  - split; [done|]. split; [done|]. split; [done|]. unfold cached in Hc.
    destruct (cache p !! ip) as [e|] eqn:He; [|done]. destruct (Before _ _) eqn:Hb; [|done]. injection Hc as <-.
    destruct (Hs _ _ He) as (w & (u & Hu & Hd) & Ht & Hx). apply Z.ltb_lt in Hb. exists u. split; [done|]. lia.
  - assert (decision (cfg p) (answered now) ip =
      match queryLAPI (cfg p) (answered now) ip with Ok b => Some b | Err _ => None end) as Hd by done.
    destruct (queryLAPI _ _ _) as [b|e]; [|done]. split; [done|]. split; [done|]. split.
    + apply cache_sound_insert; [done| |lia]. exists (answered now). split; [lia|done].
    + exists (answered now). split; [done|lia].
Qed.

(** The plugin at work: the checks of any connections, in any order. *)
Inductive check (lag : Duration) : Time * CrowdSecPlugin → Time * CrowdSecPlugin → Prop :=
| check_ip t t' now ip p : clock_ok lag t t' now → check lag (t, p) (t', (isBanned now ip p).2).

Lemma sound_checks lag x y : 0 <= lag → rtc (check lag) x y → sound lag x.1 x.2 → sound lag y.1 y.2.
Proof.
  intros Hlag. induction 1 as [|x y z Hst _ IH]; [done|]. intros Hs. apply IH.
  destruct Hst as [t t' now ip p Hc]. simpl in *.
  pose proof (isBanned_spec lag t t' now ip p Hs Hlag Hc) as Hq. destruct (isBanned _ _ _). apply Hq.
Qed.

(** C23. Ban decisions are enforced while they are fresh: whatever checks went
    before, a message from a client address passes only if the API reported no
    ban within the last [CacheTTL] (plus the delay of the call that fetched the
    answer), or failed now while the plugin fails open; and it is rejected only
    if the API reported a ban within that time, or failed now while the plugin
    fails closed. *)
Theorem crowdsec_decision lag name0 c t0 t p now T draft :
  0 <= lag → rtc (check lag) (t0, NewCrowdSec name0 c) (t, p) → clock_ok lag t T now →
  let addr := mget (GetHeaders draft) "X-SMTP-Remote-Addr" in
  let ip := match SplitHostPort addr with Some (h, _) => h | None => addr end in
  addr ≠ "" →
  match (BeforeSend now draft p).1 with
  | Ok _ => recent (cfg p) lag (consulted now) T ip false ∨
            (FailOpen (cfg p) = true ∧ decision (cfg p) (answered now) ip = None)
  | Err e => (∃ reason, e = ERejection (name p) reason) ∧
             (recent (cfg p) lag (consulted now) T ip true ∨
              (FailOpen (cfg p) = false ∧ decision (cfg p) (answered now) ip = None))
  end.
Proof.
  intros Hlag Hr Hck addr ip Hne. apply sound_checks in Hr; [|done|by intros k e]. simpl in Hr.
  unfold BeforeSend. fold addr. rewrite bool_decide_eq_false_2 by done. fold ip.
  pose proof (isBanned_spec lag t T now ip p Hr Hlag Hck) as Hq.
  destruct (isBanned now ip p) as [[[]|e] p']; destruct Hq as (Hc & Hn & _ & Hans); simpl; rewrite ?Hc, ?Hn.
  - split; [by eexists|by left].
  - by left.
  - destruct (FailOpen (cfg p)); simpl; [by right|]. split; [by eexists|by right].
Qed.

End CrowdSec.
End CrowdSec.

(** ** spam_checker.go and antivirus.go

    One POST to the scanner, and its outcome. *)
Inductive scan (A : Type) :=
| MarshalError (e : error)
| RequestError (e : error)
| Unreachable (e : error)
| Answered (status : Z) (decoded : option A).
Arguments MarshalError {A} _.
Arguments RequestError {A} _.
Arguments Unreachable {A} _.
Arguments Answered {A} _ _.

Module SpamChecker.

(** Scores are finite [float64] numbers, given as exact fractions. *)
Record SpamCheckerConfig := MkConfig { Endpoint : string; Threshold : Q; TagOnly : bool; Timeout : Duration }.

(** [NewSpamChecker]: [client_Timeout] is the timeout of its HTTP client. *)
Record Checker := MkChecker { checker_name : string; checker_cfg : SpamCheckerConfig; client_Timeout : Duration }.

Definition NewSpamChecker (name : string) (cfg : SpamCheckerConfig) : Checker :=
  MkChecker name cfg (if Timeout cfg =? 0 then 5 * Second else Timeout cfg).

Record spamRequest := MkRequest { Sender : string; Recipients : list string; Subject : string; Body : string }.
Record spamResponse := MkResponse { Score : Q; IsSpam : bool; Reason : string }.

Section SpamChecker.
(** [fmt.Sprintf("%.2f", score)] and the endpoint. *)
Variable format2 : Q → string.
Variable post : string → spamRequest → scan spamResponse.
Variable name : string.
Variable cfg : SpamCheckerConfig.

Definition request (draft : Draft) : spamRequest :=
  MkRequest (GetSenderID draft) (GetRecipientIDs draft) (GetSubject draft) (GetBody draft).

Definition is_spam (sr : spamResponse) : bool := IsSpam sr || negb (Qle_bool (Score sr) (Threshold cfg)).

Definition tag (sr : spamResponse) (draft : Draft) : Draft :=
  let draft := SetHeader "X-Spam-Score" (format2 (Score sr)) draft in
  let draft := SetHeader "X-Spam-Status" "Yes" draft in
  if bool_decide (Reason sr = "") then draft else SetHeader "X-Spam-Reason" (Reason sr) draft.

Definition BeforeSend (draft : Draft) : result unit * Draft :=
  match post (Endpoint cfg) (request draft) with
  | MarshalError err => (Err (EWrap (Text "spam checker: marshal request: %w" []) err), draft)
  | RequestError err => (Err (EWrap (Text "spam checker: build request: %w" []) err), draft)
  | Unreachable _ => (Ok (), draft)
  | Answered status decoded =>
      if negb (status =? 200) then (Ok (), draft)
      else match decoded with
      | None => (Ok (), draft)
      | Some sr =>
          if negb (is_spam sr) then (Ok (), draft)
          else if TagOnly cfg then (Ok (), tag sr draft)
          else
            let reason := if bool_decide (Reason sr = "")
                          then Text "score %.2f exceeds threshold %.2f" [AStr (format2 (Score sr)); AStr (format2 (Threshold cfg))]
                          else Text (Reason sr) [] in
            (reject name reason, draft)
      end
  end.

(** The checker stops a message exactly when the service was reached, its report
    could be read, calls the message spam or scores it above the threshold, and
    the checker does not merely tag; it changes nothing but [X-Spam-] headers,
    and those only when tagging. *)
Theorem spam_checker_spec draft :
  let '(r, draft') := BeforeSend draft in
  let spam sr := IsSpam sr = true ∨ (Threshold cfg < Score sr)%Q in
  ((∃ reason, r = Err (ERejection name reason)) ↔
   TagOnly cfg = false ∧ ∃ sr, post (Endpoint cfg) (request draft) = Answered 200 (Some sr) ∧ spam sr) ∧
  (TagOnly cfg = false → draft' = draft) ∧
  (∀ k, k ∉ ["X-Spam-Score"; "X-Spam-Status"; "X-Spam-Reason"] → GetHeaders draft' !! k = GetHeaders draft !! k) ∧
  request draft' = request draft ∧ GetAttachments draft' = GetAttachments draft.
Proof.
  assert (∀ sr, is_spam sr = true ↔ IsSpam sr = true ∨ (Threshold cfg < Score sr)%Q) as Hspam.
  { intros sr. unfold is_spam. rewrite orb_true_iff, negb_true_iff. apply or_iff_compat_l.
    rewrite <- not_true_iff_false, Qle_bool_iff. split; [apply Qnot_le_lt|apply Qlt_not_le]. }
  unfold BeforeSend. destruct (post _ _) as [e|e|e|status decoded]; try (split; [naive_solver|done]).
  destruct (Z.eqb_spec status 200) as [->|Hst]; simpl; [|split; [naive_solver|done]].
  destruct decoded as [sr|]; [|split; [naive_solver|done]].
  specialize (Hspam sr). destruct (is_spam sr); simpl; [|split; [naive_solver|done]].
  destruct (TagOnly cfg).
  - split; [naive_solver|]. split; [done|]. unfold tag.
    split; [|case_bool_decide; done]. intros k Hk. rewrite !not_elem_of_cons in Hk. destruct Hk as (H1 & H2 & H3 & _).
    case_bool_decide; simpl; by rewrite !lookup_insert_ne by congruence.
  - split; [|done]. split; [|by eexists]. intros _. split; [done|]. exists sr. split; [done|]. by apply Hspam.
Qed.

End SpamChecker.
End SpamChecker.

Module AntiVirus.

Record AntiVirusConfig := MkConfig { Endpoint : string; Timeout : Duration; FailOpen : bool }.

(** [NewAntiVirus] *)
Record Scanner := MkScanner { scanner_name : string; scanner_cfg : AntiVirusConfig; client_Timeout : Duration }.

Definition NewAntiVirus (name : string) (cfg : AntiVirusConfig) : Scanner :=
  MkScanner name cfg (if Timeout cfg =? 0 then 30 * Second else Timeout cfg).

Record avRequest := MkRequest { Sender : string; Subject : string; Body : string; Attachments : list Attachment }.
Record avThreat := MkThreat { AttachmentID : string; Name : string; Description : string }.
Record avResponse := MkResponse { Clean : bool; Threats : list avThreat }.

Section AntiVirus.
Variable post : string → avRequest → scan avResponse.
Variable name : string.
Variable cfg : AntiVirusConfig.

Definition request (draft : Draft) : avRequest :=
  MkRequest (GetSenderID draft) (GetSubject draft) (GetBody draft)
    ((λ a, MkAttachment (AttID a) (Filename a) (ContentType a) (Size a) (URI a)) <$> GetAttachments draft).

Definition unavailable (t : text) : result unit := if FailOpen cfg then Ok () else reject name t.

Definition BeforeSend (draft : Draft) : result unit :=
  match post (Endpoint cfg) (request draft) with
  | MarshalError err => Err (EWrap (Text "antivirus: marshal request: %w" []) err)
  | RequestError err => Err (EWrap (Text "antivirus: build request: %w" []) err)
  | Unreachable _ => unavailable (Text "AV scan unavailable" [])
  | Answered status decoded =>
      if negb (status =? 200) then unavailable (Text "AV scan returned status %d" [AInt status])
      else match decoded with
      | None => unavailable (Text "AV scan response unreadable" [])
      | Some avr =>
          if Clean avr then Ok ()
          else reject name (Text "threats detected: %s" [AList (Name <$> Threats avr)])
      end
  end.

(** Virus scanning fails closed: unless the plugin is told to fail open, a
    message passes only when the scanner was reached with the sender, subject,
    body and every attachment of the message, answered 200 with a readable
    report, and the report says clean; and an infected message never passes,
    failing open or not. *)
Theorem antivirus_fails_closed draft :
  (FailOpen cfg = false → BeforeSend draft = Ok () →
   ∃ report, post (Endpoint cfg) (MkRequest (GetSenderID draft) (GetSubject draft) (GetBody draft) (GetAttachments draft))
             = Answered 200 (Some report) ∧ Clean report = true) ∧
  (∀ report, post (Endpoint cfg) (request draft) = Answered 200 (Some report) → Clean report = false →
   ∃ reason, BeforeSend draft = Err (ERejection name reason)).
Proof.
  assert (request draft = MkRequest (GetSenderID draft) (GetSubject draft) (GetBody draft) (GetAttachments draft)) as <-.
  { unfold request. f_equal. etrans; [|apply list_fmap_id]. apply list_fmap_ext. by intros ? []. }
  unfold BeforeSend, unavailable. split.
  - intros ->. destruct (post _ _) as [| | |status decoded]; [done..|].
    destruct (Z.eqb_spec status 200) as [->|]; [|done]. simpl. destruct decoded as [report|]; [|done].
    destruct (Clean report) eqn:Hc; [by eauto|done].
  - intros report -> Hc. simpl. rewrite Hc. by eexists.
Qed.

End AntiVirus.
End AntiVirus.

(** ** Concrete runs *)
Module ReputationDemo.

#[local, refine] Instance demo_v4 : DNSBL.ParseIPv4 :=
  { parse_v4 s := if bool_decide (s = "1.2.3.4") then Some (1, 2, 3, 4) else None }.
Proof. intros s a b c d. case_bool_decide; [|done]. intros [= <- <- <- <-]. lia. Defined.

(** One zone that lists one address until time 100. *)
Definition demo_dns (t : Time) (host : string) : DNSBL.lookup_result :=
  if bool_decide (host = "4.3.2.1.zen") && (t <? 100) then DNSBL.Addrs ["127.0.0.2"] else DNSBL.NotFound.

Definition demo_dnsbl : DNSBL.DNSBLPlugin := DNSBL.NewDNSBL "dnsbl" (DNSBL.MkConfig ["zen"] 0 true).

Definition demo_mail : Draft := MkDraft "a@x" ["b@x"] "" "" {["X-SMTP-Remote-Addr" := "1.2.3.4:25"]} [].

(** Asked at 0, the answer still stops a message at 200, and no later than the
    cache allows. *)
Lemma dnsbl_decision_witness :
  is_ok (DNSBL.BeforeSend demo_dns (λ _, 200) demo_mail
    (DNSBL.queryZone demo_dns 0 "4.3.2.1" "zen" demo_dnsbl).2).1 = false ∧
  ∃ zone, zone ∈ ["zen"] ∧ DNSBL.stops demo_dns (DNSBL.cfg demo_dnsbl) 200 200 "4.3.2.1" zone.
Proof.
  split; [vm_compute; reflexivity|].
  refine (proj2 (DNSBL.dnsbl_decision demo_dns "dnsbl" (DNSBL.MkConfig ["zen"] 0 true) 0 0
    (DNSBL.queryZone demo_dns 0 "4.3.2.1" "zen" demo_dnsbl).2 (λ _, 200) 200 demo_mail "1.2.3.4" (1, 2, 3, 4) _ _ _ _)).
  - apply rtc_once. exact (DNSBL.query_zone demo_dns 0 0 0 "1.2.3.4" (1, 2, 3, 4) "zen" demo_dnsbl ltac:(lia) eq_refl).
  - lia.
  - intros _. lia.
  - vm_compute. reflexivity.
Defined.

#[local] Instance demo_decisions : CrowdSec.Decisions :=
  { unmarshal_decisions b := if bool_decide (b = "[ban]") then Ok ["ban"] else Ok [] }.

Definition demo_lapi (t : Time) (url auth accept : string) : CrowdSec.reply :=
  if t <? 100 then CrowdSec.Response 200 (Ok "[ban]") else CrowdSec.Response 404 (Ok "").

Definition demo_crowdsec : CrowdSec.CrowdSecPlugin :=
  CrowdSec.NewCrowdSec "cs" (CrowdSec.MkConfig "" "" 0 true 0).

Lemma crowdsec_decision_witness :
  is_ok (CrowdSec.BeforeSend demo_lapi (CrowdSec.MkClock 200 200 200) demo_mail
    (CrowdSec.isBanned demo_lapi (CrowdSec.MkClock 0 1 2) "1.2.3.4" demo_crowdsec).2).1 = false ∧
  CrowdSec.recent demo_lapi (CrowdSec.cfg demo_crowdsec) 1 200 200 "1.2.3.4" true.
Proof.
  split; [vm_compute; reflexivity|].
  pose proof (CrowdSec.crowdsec_decision demo_lapi 1 "cs" (CrowdSec.MkConfig "" "" 0 true 0) 0 2
    (CrowdSec.isBanned demo_lapi (CrowdSec.MkClock 0 1 2) "1.2.3.4" demo_crowdsec).2
    (CrowdSec.MkClock 200 200 200) 200 demo_mail ltac:(lia)) as H.
  destruct H as [_ [H|[H _]]].
  - apply rtc_once. apply (CrowdSec.check_ip demo_lapi 1 0 2). unfold CrowdSec.clock_ok. simpl. lia.
  - unfold CrowdSec.clock_ok. simpl. lia.
  - discriminate.
  - exact H.
  - discriminate H.
Defined.

End ReputationDemo.
