(* ===== verification/Mailbox.v ===== *)
(** * The mailbox service behind a node

    Models [internal/mbxstore/factory.go], the default factory of
    [internal/server/options.go] and the thread resolver of
    [internal/server/node.go]: which message store a mailbox service gets, with
    which options, and how a reply finds the message it answers. The mailbox
    library and the database drivers are not part of the program: they are the
    classes [Drivers], [MailboxLib] and [MessageIndex]. *)
From S2P Require Import Prelude GoStrings Store.

(** [sql.Open], [db.PingContext], [mongo.Connect] and [client.Ping]. *)
Class Drivers := {
  DB : Type;
  sql_Open : string → string → result DB;
  PingContext : DB → result unit;
  MongoClient : Type;
  mongo_Connect : string → result MongoClient;
  mongo_Ping : MongoClient → result unit }.

Module Mailbox.

Section Options.
Context {Dr : Drivers}.

(** The stores of the library: in memory, over a database, over a Mongo client
    with the options it is given. *)
Inductive MessageStore : Type :=
| MemoryStore
| PostgresStore (db : DB)
| MongoStore (client : MongoClient) (WithDatabase : list string).

(** [mailbox.Option]; [P] is the type of plugins, [U] of user resolvers. *)
Inductive Option (P U : Type) : Type :=
| WithStore (s : MessageStore)
| WithUserResolver (u : U)
| WithPlugins (ps : list P).
Arguments WithStore {P U} _.
Arguments WithUserResolver {P U} _.
Arguments WithPlugins {P U} _.

(** A connection to a database, opened or closed again. *)
Inductive connection : Type := ToPostgres (db : DB) | ToMongo (client : MongoClient).
Inductive event : Type := Opened (c : connection) | Closed (c : connection).

(** [mailbox.New] and [svc.Connect]. *)
Class MailboxLib (P U : Type) := {
  Service : Type;
  mailbox_New : list (Option P U) → result Service;
  Connect : Service → result unit }.

Section Factories.
Context {P U : Type} {ML : MailboxLib P U}.

(** What a [MailboxFactory] does with a resolver ([None] is nil): the connected
    service or an error, and the connections it opened and closed. *)
Definition MailboxFactory : Type := option U → result Service * list event.

(** The options after the store. *)
Definition common_options (plugins : list P) (resolver : option U) : list (Option P U) :=
  match resolver with Some u => [WithUserResolver u] | None => [] end ++
  match plugins with [] => [] | _ => [WithPlugins plugins] end.

(** [server.newMailboxFactory] *)
Definition newMailboxFactory (plugins : list P) : MailboxFactory := λ resolver,
  (match mailbox_New (WithStore MemoryStore :: common_options plugins resolver) with
   | Err err => Err err
   | Ok svc => match Connect svc with Err err => Err err | Ok _ => Ok svc end
   end, []).

(** *** factory.go *)

Record Config := MkConfig { Backend : string; DSN : string; Database : string }.

(** The store of the configured backend, with the connections made for it. *)
Definition open_store (cfg : Config) : result MessageStore * list event :=
  if bool_decide (Backend cfg = "") || bool_decide (Backend cfg = "memory") then (Ok MemoryStore, [])
  else if bool_decide (Backend cfg = "postgres") then
    if bool_decide (DSN cfg = "") then
      (Err (EText (Text "mbxstore: postgres backend requires --mailbox-dsn" [])), [])
    else match sql_Open "postgres" (DSN cfg) with
    | Err err => (Err (EWrap (Text "mbxstore: open postgres: %w" []) err), [])
    | Ok db =>
        match PingContext db with
        | Err err => (Err (EWrap (Text "mbxstore: ping postgres: %w" []) err),
                      [Opened (ToPostgres db); Closed (ToPostgres db)])
        | Ok _ => (Ok (PostgresStore db), [Opened (ToPostgres db)])
        end
    end
  else if bool_decide (Backend cfg = "mongo") then
    if bool_decide (DSN cfg = "") then
      (Err (EText (Text "mbxstore: mongo backend requires --mailbox-dsn" [])), [])
    else match mongo_Connect (DSN cfg) with
    | Err err => (Err (EWrap (Text "mbxstore: connect mongo: %w" []) err), [])
    | Ok client =>
        match mongo_Ping client with
        | Err err => (Err (EWrap (Text "mbxstore: ping mongo: %w" []) err),
                      [Opened (ToMongo client); Closed (ToMongo client)])
        | Ok _ => (Ok (MongoStore client (if bool_decide (Database cfg = "") then [] else [Database cfg])),
                   [Opened (ToMongo client)])
        end
    end
  else (Err (EText (Text "mbxstore: unknown backend %q; want memory|postgres|mongo" [AStr (Backend cfg)])), []).

Definition buildOptions (cfg : Config) (plugins : list P) (resolver : option U)
    : result (list (Option P U)) * list event :=
  match open_store cfg with
  | (Err err, evs) => (Err err, evs)
  | (Ok s, evs) => (Ok (WithStore s :: common_options plugins resolver), evs)
  end.

Definition NewMailboxFactory (cfg : Config) (plugins : list P) : MailboxFactory := λ resolver,
  match buildOptions cfg plugins resolver with
  | (Err err, evs) => (Err err, evs)
  | (Ok opts, evs) =>
      (match mailbox_New opts with
       | Err err => Err (EWrap (Text "mbxstore: mailbox.New: %w" []) err)
       | Ok svc =>
           match Connect svc with
           | Err err => Err (EWrap (Text "mbxstore: connect: %w" []) err)
           | Ok _ => Ok svc
           end
       end, evs)
  end.

(** *** What a factory hands to the library *)

(** Connections still open after a sequence of events. *)
Definition open_after (evs : list event) : Prop := ∃ c, Opened c ∈ evs ∧ (Closed c ∉ evs).

(** The service of a factory was made from these options and is connected. *)
Definition made_from (opts : list (Option P U)) (svc : Service) : Prop :=
  mailbox_New opts = Ok svc ∧ Connect svc = Ok ().

Definition store_connection (s : MessageStore) : list event :=
  match s with
  | MemoryStore => []
  | PostgresStore db => [Opened (ToPostgres db)]
  | MongoStore client _ => [Opened (ToMongo client)]
  end.

Definition known_backend (b : string) : Prop := b = "" ∨ b = "memory" ∨ b = "postgres" ∨ b = "mongo".

(** Opening a store keeps exactly the connection of the store it gives, and none
    when it fails; an unknown backend and a missing DSN fail before connecting. *)
Lemma open_store_connections cfg r evs :
  open_store cfg = (r, evs) →
  match r with
  | Ok s => evs = store_connection s ∧ known_backend (Backend cfg)
  | Err _ => ¬ open_after evs
  end.
Proof.
  assert (¬ open_after []) as Hnone by (intros (c & Hc & _); by apply elem_of_nil in Hc).
  assert (∀ c, ¬ open_after [Opened c; Closed c]) as Hboth.
  { intros c (c' & Hc & Hn). apply Hn. rewrite !elem_of_cons in Hc. destruct Hc as [[= ->]|[?|?%elem_of_nil]]; try done.
    set_solver. }
  unfold open_store, known_backend.
  repeat (case_match || case_bool_decide); simpl in *; intros [= <- <-]; simpl; auto;
    split; try done; repeat match goal with H : _ || _ = true |- _ => apply orb_true_iff in H as [H|H] end;
    go_bools; eauto.
Qed.

(** A mailbox service is made of the configured store, the resolver and the
    plugins, each exactly once and the plugins in their order, whichever backend
    is chosen: where [NewMailboxFactory] succeeds it made and connected a service
    from just these options, with one connection open when the store needs one;
    with the memory backend it is the factory a node uses by default; and where
    the store cannot be opened no connection is left open. *)
Theorem factory_options cfg plugins resolver :
  (∀ svc evs, NewMailboxFactory cfg plugins resolver = (Ok svc, evs) →
     ∃ s, open_store cfg = (Ok s, evs) ∧ evs = store_connection s ∧ known_backend (Backend cfg) ∧
       made_from (WithStore s :: common_options plugins resolver) svc) ∧
  (∀ svc, Backend cfg = "memory" →
     NewMailboxFactory cfg plugins resolver = (Ok svc, []) ↔ newMailboxFactory plugins resolver = (Ok svc, [])) ∧
  (∀ e evs, open_store cfg = (Err e, evs) →
     NewMailboxFactory cfg plugins resolver = (Err e, evs) ∧ ¬ open_after evs).
Proof.
  unfold NewMailboxFactory, buildOptions, newMailboxFactory, made_from. split; [|split].
  - intros svc evs. destruct (open_store cfg) as [[s|e] evs'] eqn:Ho; [|done].
    pose proof (open_store_connections _ _ _ Ho) as [Hc Hk].
    destruct (mailbox_New _) as [svc'|] eqn:Hn; [|done].
    destruct (Connect svc') as [[]|] eqn:Hcn; [|done]. intros [= <- <-]. eauto 10.
  - intros svc Hb. replace (open_store cfg) with (Ok MemoryStore : result MessageStore, [] : list event).
    + destruct (mailbox_New _) as [svc'|]; [|done]. by destruct (Connect svc') as [[]|].
    + unfold open_store. rewrite Hb. by rewrite (bool_decide_eq_true_2 ("memory" = "memory") eq_refl), orb_true_r.
  - intros e evs Ho. pose proof (open_store_connections _ _ _ Ho). by rewrite Ho.
Qed.

(** A connection is leaked when the library refuses the options or does not
    connect: the factory returns the error without closing the database. *)
Theorem factory_leaks_connection cfg plugins resolver s evs e :
  open_store cfg = (Ok s, evs) → s ≠ MemoryStore →
  mailbox_New (WithStore s :: common_options plugins resolver) = Err e →
  is_ok (NewMailboxFactory cfg plugins resolver).1 = false ∧
  open_after (NewMailboxFactory cfg plugins resolver).2.
Proof.
  intros Ho Hs Hn. unfold NewMailboxFactory, buildOptions. rewrite Ho, Hn. split; [done|]. simpl.
  pose proof (open_store_connections _ _ _ Ho) as [-> _].
  destruct s as [|db|client d]; [done| |]; [exists (ToPostgres db)|exists (ToMongo client)]; simpl; set_solver.
Qed.

End Factories.
End Options.

Arguments WithStore {Dr P U} _.
Arguments WithUserResolver {Dr P U} _.
Arguments WithPlugins {Dr P U} _.

(** ** The thread resolver

    [mbx.Client(recipient).Stream] with an [ExternalIDIs] filter and batches of
    one, and the iterator it gives. *)
Class MessageIndex := {
  Iterator : Type;
  Stream : string → string → result Iterator;
  Next : Iterator → result bool * Iterator;
  MessageOf : Iterator → result string }.

Section Threads.
Context {MI : MessageIndex}.

(** [buildThreadResolver(mbx)]: the ID of the recipient's message that arrived
    under an SMTP Message-ID. *)
Definition buildThreadResolver (recipientID smtpMessageID : string) : result string :=
  match Stream recipientID smtpMessageID with
  | Err err => Err err
  | Ok it =>
      match Next it with
      | (Err err, _) => Err err
      | (Ok false, _) => Err ErrNotFound
      | (Ok true, it) => MessageOf it
      end
  end.

End Threads.
End Mailbox.

(** ** Concrete drivers, and a library that keeps the options it was given *)
Module MailboxDemo.
Import Mailbox.

#[export] Instance drivers : Drivers := {
  DB := string; sql_Open _ dsn := Ok dsn;
  PingContext db := if bool_decide (db = "down") then Err (EExternal "down") else Ok ();
  MongoClient := string; mongo_Connect dsn := Ok dsn; mongo_Ping _ := Ok () }.

#[export] Instance lib {P U} : MailboxLib P U := {
  Service := list (Option P U); mailbox_New opts := Ok opts; Connect _ := Ok () }.

Definition db1 : DB := "db1".
Definition down : DB := "down".
Definition demo_made : Service (P := string) (U := string) :=
  [WithStore (PostgresStore db1); WithUserResolver "users"; WithPlugins ["p1"; "p2"]].
Definition demo_factory (cfg : Config) : result Service * list event :=
  NewMailboxFactory cfg ["p1"; "p2"] (Some "users").

Lemma factory_options_witness :
  (demo_factory (MkConfig "postgres" "db1" "") =
     (Ok demo_made, [Opened (ToPostgres db1)]) ∧
   ∃ s : MessageStore, open_store (MkConfig "postgres" "db1" "") = (Ok s, [Opened (ToPostgres db1)])) ∧
  (is_ok (demo_factory (MkConfig "postgres" "down" "")).1 = false ∧
   ¬ open_after (demo_factory (MkConfig "postgres" "down" "")).2).
Proof.
  split; [split|split]; [reflexivity| |reflexivity|].
  - destruct (proj1 (factory_options (MkConfig "postgres" "db1" "") ["p1"; "p2"] (Some "users"))
      demo_made [Opened (ToPostgres db1)] eq_refl) as (s & Hs & _). exists s. exact Hs.
  - exact (proj2 (proj2 (proj2 (factory_options (MkConfig "postgres" "down" "") ["p1"; "p2"] (Some "users")))
      (EWrap (Text "mbxstore: ping postgres: %w" []) (EExternal "down"))
      [Opened (ToPostgres down); Closed (ToPostgres down)] eq_refl)).
Defined.

End MailboxDemo.
