(* ===== verification/Server.v ===== *)
(** * The gRPC service of a node, and its listeners

    Models [internal/server/server.go] and the listeners of
    [internal/server/node.go]: every RPC of the Postbox service, and the life
    cycle of the listeners a controller starts and stops. RPCs work on the node's environment
    ([Env]: the Redis server of the cluster and the node's own store). *)
From Stdlib Require Import Ascii.
From S2P Require Import Prelude GoStrings Store MemStore Registry RelayQueue Relay Nodekey Webhook Smtp.
Local Open Scope Z_scope.

(** ** The RPCs *)
Module Server.

Inductive NodeMode : Set := ModeStandalone | ModeTemp | ModeOther (s : string).

#[export] Instance NodeMode_eq_dec : EqDecision NodeMode.
Proof. solve_decision. Defined.

(** [string(mode)], and the conversion [NodeMode(s)], which takes any string. *)
Definition mode_name (m : NodeMode) : string :=
  match m with ModeStandalone => "standalone" | ModeTemp => "temp" | ModeOther s => s end.

Definition node_mode (s : string) : NodeMode :=
  if bool_decide (s = "standalone") then ModeStandalone
  else if bool_decide (s = "temp") then ModeTemp else ModeOther s.

(** What the RPCs read of the [Controller]. *)
Record Controller := MkController {
  nodeID : string; mode : NodeMode; address : string;
  registry : Registry; nodePubKeyB64 : string }.

(** *** Messages of the service *)
Record NodeInfo := MkNodeInfo { NI_NodeId : string; NI_Address : string; NI_Mode : string }.
Record Response := MkResponse { Ok_ : bool; Message_ : text }.
Record RegisterUserRequest := MkRegisterUser {
  RU_Email : string; RU_PublicKey : string; RU_Metadata : gmap string string; RU_Type : string }.
Record UserProfile := MkProfile {
  UP_Email : string; UP_Type : string; UP_PublicKey : string; UP_Metadata : gmap string string; UP_NodeId : string }.
Record DomainInfo := MkDomainInfo { DI_Name : string; DI_NodeId : string; DI_IsDefault : bool }.
Record NodePublicKeyResponse := MkNodeKey { PK_PublicKey : string; PK_NodeId : string; PK_KeyId : string }.
Record StatusReport := MkStatus {
  SR_NodeId : string; SR_Mode : string; SR_DomainCount : Z; SR_UserCount : Z; SR_MailboxConnected : bool }.
(** Times are RFC 3339 strings in the message; empty is [None]. *)
Record DeliveryStatusResponse := MkDelivery {
  DS_MessageId : string; DS_RecipientId : string; DS_EndpointUrl : string; DS_Status : string;
  DS_Attempts : Z; DS_MaxAttempts : Z; DS_LastError : text;
  DS_NextRetryAt : option Time; DS_DeliveredAt : option Time }.

Definition userToProto (u : User) (nodeID : string) : UserProfile :=
  MkProfile (Email u) (UType u) (UPublicKeyB64 u) (Metadata u) nodeID.

Definition status_name (s : DeliveryStatus) : string :=
  match s with
  | DeliveryPending => "pending" | DeliveryDelivered => "delivered"
  | DeliveryFailed => "failed" | DeliveryDead => "dead"
  end.

Definition deliveryJobToProto (j : DeliveryJob) : DeliveryStatusResponse :=
  MkDelivery (MessageID j) (RecipientID j) (EndpointURL j) (status_name (Status j))
    (wrap32 (Attempts j)) (wrap32 (MaxAttempts j)) (LastError j)
    (if IsZero (NextRetryAt j) then None else Some (NextRetryAt j)) (DeliveredAt j).

Definition invalid {A} (msg : string) : result A := Err (EStatus InvalidArgument (Text msg [])).
Definition internal {A} (format : string) (err : error) : result A := Err (EStatus Internal (Text format [AErr err])).

Section Server.
Context {R S : Type} {SO : StoreOps S} {RO : RedisOps R} {RC : RouteCodec}.

(** *** Routing *)

Definition Discover (now : Time) (o : MapOrder) (c : Controller) (target : string) (env : Env R S) : result NodeInfo :=
  if bool_decide (target = "") then invalid "target is required"
  else match Lookup now o (registry c) target env with
  | Err err =>
      if errors_Is err ErrRegistryNotFound || errors_Is err ErrStoreNotFound then
        Err (EStatus NotFound (Text "no node for %q" [AStr target]))
      else internal "lookup: %v" err
  | Ok n =>
      let addr :=
        if bool_decide (n = nodeID c) then address c
        else match as_resolver (registry c) with
             | Some resolver => match ResolveNode now resolver n env with Ok a => a | Err _ => address c end
             | None => address c
             end in
      Ok (MkNodeInfo n addr (mode_name (mode c)))
  end.

Definition RegisterDomain (now : Time) (c : Controller) (name : string) (is_default : bool) (env : Env R S)
    : result Response * Env R S :=
  if bool_decide (name = "") then (invalid "name is required", env)
  else match GetDomain name (store env) with
  | Ok existing =>
      let msg := Text "domain %q already registered to node %s" [AStr name; AStr (NodeID existing)] in
      if negb (bool_decide (NodeID existing = nodeID c)) then (Err (EStatus AlreadyExists msg), env)
      else (Ok (MkResponse true msg), env)
  | Err err =>
      if errors_Is err ErrStoreNotFound then
        match Register now (registry c) (MkEntity EntityDomain name is_default "" ∅) env with
        | (Err err, env') => (internal "register domain: %v" err, env')
        | (Ok _, env') => (Ok (MkResponse true (Text "domain %q registered to node %s" [AStr name; AStr (nodeID c)])), env')
        end
      else (internal "check domain: %v" err, env)
  end.

Definition RemapDomain (c : Controller) (name target : string) (env : Env R S) : result Response * Env R S :=
  if bool_decide (name = "") then (invalid "domain is required", env)
  else if bool_decide (target = "") then (invalid "target_node_id is required", env)
  else match GetDomain name (store env) with
  | Err err => if errors_Is err ErrStoreNotFound
               then (Err (EStatus NotFound (Text "domain %q not found" [AStr name])), env)
               else (internal "get domain: %v" err, env)
  | Ok d =>
      match SaveDomain (MkDomain (Name d) target (IsDefault d)) (store env) with
      | (Err err, s') => (internal "save domain: %v" err, MkEnv (redis env) s')
      | (Ok _, s') => (Ok (MkResponse true (Text "domain %q remapped to %s" [AStr name; AStr target])),
                       MkEnv (redis env) s')
      end
  end.

Definition ListDomains (o : MapOrder) (env : Env R S) : result (list DomainInfo) :=
  match Store.ListDomains o (store env) with
  | Err err => internal "list domains: %v" err
  | Ok ds => Ok ((λ d, MkDomainInfo (Name d) (NodeID d) (IsDefault d)) <$> ds)
  end.

(** *** Users *)

Definition RegisterUser (now : Time) (c : Controller) (req : RegisterUserRequest) (env : Env R S)
    : result Response * Env R S :=
  let email := RU_Email req in
  if bool_decide (email = "") then (invalid "email is required", env)
  else match GetUser email (store env) with
  | Ok existing =>
      let u := MkUser (Email existing) (RU_Type req) (RU_PublicKey req) (RU_Metadata req) (CreatedAt existing) in
      match SaveUser now u (store env) with
      | (Err err, s') => (internal "update user: %v" err, MkEnv (redis env) s')
      | (Ok _, s') => (Ok (MkResponse true (Text "user %q updated (created %s)" [AStr email; AInt (CreatedAt existing)])),
                       MkEnv (redis env) s')
      end
  | Err err =>
      if errors_Is err ErrStoreNotFound then
        match Register now (registry c) (MkEntity EntityUser email false (RU_Type req) (RU_Metadata req)) env with
        | (Err err, env') => (internal "register user: %v" err, env')
        | (Ok _, env') =>
            let done := Ok (MkResponse true (Text "user %q registered to node %s" [AStr email; AStr (nodeID c)])) in
            if bool_decide (RU_PublicKey req = "") then (done, env')
            else
              let u := match GetUser email (store env') with Ok u => u | Err _ => zero_user end in
              match SaveUser now (MkUser (Email u) (UType u) (RU_PublicKey req) (Metadata u) (CreatedAt u)) (store env') with
              | (Err err, s') => (internal "save public key: %v" err, MkEnv (redis env') s')
              | (Ok _, s') => (done, MkEnv (redis env') s')
              end
        end
      else (internal "check user: %v" err, env)
  end.

Definition GetUser (c : Controller) (email : string) (env : Env R S) : result UserProfile :=
  if bool_decide (email = "") then invalid "email is required"
  else match Store.GetUser email (store env) with
  | Err err => if errors_Is err ErrStoreNotFound
               then Err (EStatus NotFound (Text "user %q not found" [AStr email]))
               else internal "get user: %v" err
  | Ok u => Ok (userToProto u (nodeID c))
  end.

Definition SearchUsers (o : MapOrder) (c : Controller) (filters : gmap string string) (env : Env R S)
    : result (list UserProfile) :=
  match Store.SearchUsers o filters (store env) with
  | Err err => internal "search users: %v" err
  | Ok us => Ok ((λ u, userToProto u (nodeID c)) <$> us)
  end.

Definition ListUsers (o : MapOrder) (c : Controller) (env : Env R S) : result (list UserProfile) :=
  match Store.ListUsers o (store env) with
  | Err err => internal "list users: %v" err
  | Ok us => Ok ((λ u, userToProto u (nodeID c)) <$> us)
  end.

(** *** Node and deliveries *)

Definition GetNodePublicKey (c : Controller) : result NodePublicKeyResponse :=
  Ok (MkNodeKey (nodePubKeyB64 c) (nodeID c) "v1").

Definition GetStatus (c : Controller) (connected : bool) (env : Env R S) : result StatusReport :=
  match CountDomains (store env) with
  | Err err => internal "count domains: %v" err
  | Ok nd => match CountUsers (store env) with
             | Err err => internal "count users: %v" err
             | Ok nu => Ok (MkStatus (nodeID c) (mode_name (mode c)) nd nu connected)
             end
  end.

Definition GetDeliveryStatus (msgID recipID : string) (env : Env R S) : result DeliveryStatusResponse :=
  if bool_decide (msgID = "") then invalid "message_id is required"
  else if bool_decide (recipID = "") then invalid "recipient_id is required"
  else match GetDeliveryJob msgID recipID (store env) with
  | Err err => if errors_Is err ErrStoreNotFound
               then Err (EStatus NotFound (Text "no delivery job for message %q recipient %q" [AStr msgID; AStr recipID]))
               else internal "get delivery job: %v" err
  | Ok job => Ok (deliveryJobToProto job)
  end.

Definition ListDeliveryFailures (o : MapOrder) (recipID : string) (env : Env R S) : result (list DeliveryStatusResponse) :=
  match ListDeliveryJobsByRecipient o recipID (Some DeliveryFailed) (store env) with
  | Err err => internal "list failed jobs: %v" err
  | Ok failed =>
      match ListDeliveryJobsByRecipient o recipID (Some DeliveryDead) (store env) with
      | Err err => internal "list dead jobs: %v" err
      | Ok dead => Ok (deliveryJobToProto <$> failed ++ dead)
      end
  end.

(** *** Properties of the RPCs *)

Context {SL : StoreLaws S} {RL : RedisLaws R}.

(** Users are filed under their email address. *)
Definition filed (email : string) (s : S) : Prop := ∀ u, Store.GetUser email s = Ok u → Email u = email.

Lemma SaveUser_profile now u s s' c (env' : Env R S) :
  SaveUser now u s = (Ok (), s') → storable (Metadata u) → store env' = s' → Email u ≠ "" →
  GetUser c (Email u) env' =
    Ok (MkProfile (Email u) (UType u) (UPublicKeyB64 u) (Metadata u) (nodeID c)).
Proof.
  intros Hs Hm He Hne. apply save_user_get in Hs as [created Hg]; [|done]. unfold GetUser.
  rewrite bool_decide_eq_false_2 by done. by rewrite He, Hg.
Qed.

Lemma registered_profile now c req env resp env' :
  filed (RU_Email req) (store env) → storable (RU_Metadata req) →
  RegisterUser now c req env = (Ok resp, env') →
  GetUser c (RU_Email req) env' =
    Ok (MkProfile (RU_Email req) (RU_Type req) (RU_PublicKey req) (RU_Metadata req) (nodeID c)) ∧
  (∀ e, e ≠ RU_Email req → Store.GetUser e (store env') = Store.GetUser e (store env)) ∧
  (∀ n, GetDomain n (store env') = GetDomain n (store env)) ∧
  redis env' = redis env.
Proof.
  intros Hf Hm. unfold RegisterUser. case_bool_decide as Hne; [done|].
  destruct (Store.GetUser (RU_Email req) (store env)) as [u|err] eqn:Hu.
  - rewrite (Hf u Hu). destruct (SaveUser _ _ _) as [[[]|] s'] eqn:Hs; [|done]. intros [= _ <-].
    split; [exact (SaveUser_profile _ _ _ _ c (MkEnv (redis env) s') Hs Hm eq_refl Hne)|].
    split; [intros e He; by apply (save_user_frame _ _ _ _ _ Hs)|].
    split; [|done]. by eapply save_user_domains.
  - destruct (errors_Is err _); [|done].
    destruct (Register _ _ _ _) as [[[]|] env1] eqn:Hr; [|done].
    apply Register_user in Hr as (Hred & created & Hs); [|done]. simpl in Hs.
    pose proof (SaveUser_profile _ _ _ _ c env1 Hs Hm eq_refl Hne) as Hg1.
    case_bool_decide as Hpk.
    + intros [= _ <-]. rewrite Hpk. split; [exact Hg1|].
      split; [intros e He; by apply (save_user_frame _ _ _ _ _ Hs)|]. split; [|done]. by eapply save_user_domains.
    + edestruct save_user_get as [created' Hg]; [|exact Hs|]; [exact Hm|]. simpl in Hg. rewrite Hg. simpl.
      destruct (SaveUser _ _ (store env1)) as [[[]|] s2] eqn:Hs2; [|done]. intros [= _ <-].
      split; [exact (SaveUser_profile _ _ _ _ c (MkEnv (redis env1) s2) Hs2 Hm eq_refl Hne)|]. simpl.
      split; [|split; [|done]].
      * intros e He. rewrite (save_user_frame _ _ _ _ _ Hs2 He). by apply (save_user_frame _ _ _ _ _ Hs).
      * intros n. rewrite (save_user_domains _ _ _ _ _ Hs2). by eapply save_user_domains.
Qed.

(** Registering a user is read back: when [RegisterUser] succeeds, for a new
    address or a known one, with any registry and metadata the store keeps, the profile of that address
    has exactly the type, key and metadata of the request, under this node; no
    other user, no domain and nothing in Redis changes. *)
Theorem RegisterUser_GetUser now c req env resp env' :
  filed (RU_Email req) (store env) → storable (RU_Metadata req) →
  RegisterUser now c req env = (Ok resp, env') →
  GetUser c (RU_Email req) env' =
    Ok (MkProfile (RU_Email req) (RU_Type req) (RU_PublicKey req) (RU_Metadata req) (nodeID c)) ∧
  (∀ e, e ≠ RU_Email req → Store.GetUser e (store env') = Store.GetUser e (store env)) ∧
  (∀ n, GetDomain n (store env') = GetDomain n (store env)) ∧
  redis env' = redis env.
Proof. apply registered_profile. Qed.

(** The registry under the relay fallback. *)
Fixpoint base (reg : Registry) : Registry :=
  match reg with FallbackRegistry inner _ => base inner | _ => reg end.

Lemma Register_base now reg e (env : Env R S) : Register now reg e env = Register now (base reg) e env.
Proof. induction reg; simpl; done. Qed.

Lemma Lookup_base now o reg target (env : Env R S) n :
  Lookup now o (base reg) target env = Ok n → Lookup now o reg target env = Ok n.
Proof. induction reg as [| |inner IH r]; simpl; [done|done|]. intros H. by rewrite (IH H). Qed.

(** The registry a controller is given works under its node ID and address. *)
Definition wired (c : Controller) : Prop :=
  base (registry c) = LocalRegistry (nodeID c) ∨ base (registry c) = RedisRegistry (nodeID c) (address c).

Lemma Discover_self now o c target env :
  target ≠ "" → Lookup now o (base (registry c)) target env = Ok (nodeID c) →
  Discover now o c target env = Ok (MkNodeInfo (nodeID c) (address c) (mode_name (mode c))).
Proof.
  intros Ht Hl. unfold Discover. rewrite bool_decide_eq_false_2 by done.
  rewrite (Lookup_base _ _ _ _ _ _ Hl). by rewrite bool_decide_eq_true_2.
Qed.


End Server.
End Server.

(** ** The SMTP and LMTP listeners of a controller

    [servers] are the listeners ever started, [current] the controller's field
    (an index into them), [stops] the calls of [StopSMTP] in progress: they have
    read the field under the lock and go on without it; [checked] ones have seen
    the listener running. [A] is the configuration of a listener. *)
Module Lifecycle.

Record server (A : Type) := MkServer { cfg : A; listener : Smtp.Listener }.
Arguments MkServer {A} _ _.
Arguments cfg {A} _.
Arguments listener {A} _.

Record stop_call := MkStopCall { target : nat; checked : bool }.

Record Listeners (A : Type) := MkListeners {
  servers : list (server A); current : option nat; stops : list stop_call }.
Arguments MkListeners {A} _ _ _.
Arguments servers {A} _.
Arguments current {A} _.
Arguments stops {A} _.

Section Lifecycle.
Context {A : Type}.
(** [srv.Start()] of a fresh listener, the sentinels of the controller, the
    sentinel of [srv.Stop()], and [srv.Port()]. *)
Variable start : A → result unit * Smtp.Listener.
Variable already not_running stop_not_running : sentinel.
Variable port : A → Z.
Hypothesis start_running : ∀ a l, start a = (Ok (), l) → Smtp.running l = true.

Definition get (l : Listeners A) : option (server A) :=
  match current l with Some i => servers l !! i | None => None end.

Definition is_running (s : option (server A)) : bool :=
  match s with Some s => Smtp.IsRunning (listener s) | None => false end.

(** [StartSMTP]/[StartLMTP]: holds the lock throughout. *)
Definition Start (a : A) (l : Listeners A) : result unit * Listeners A :=
  match get l with
  | Some s =>
      if Smtp.IsRunning (listener s) then
        (Err (EWrap (Text "%w on port %d" [AInt (port (cfg s))]) (ESentinel already)), l)
      else
        let '(r, lis) := start a in
        match r with
        | Err e => (Err e, l)
        | Ok _ => (Ok (), MkListeners (servers l ++ [MkServer a lis]) (Some (length (servers l))) (stops l))
        end
  | None =>
      let '(r, lis) := start a in
      match r with
      | Err e => (Err e, l)
      | Ok _ => (Ok (), MkListeners (servers l ++ [MkServer a lis]) (Some (length (servers l))) (stops l))
      end
  end.

Definition set_server (i : nat) (s : server A) (l : Listeners A) : Listeners A :=
  MkListeners (<[i := s]> (servers l)) (current l) (stops l).

(** The rest of [StopSMTP]/[StopLMTP] on the listener it read. *)
Definition stop_listener (closed : result unit) (i : nat) (l : Listeners A) : result unit * Listeners A :=
  match servers l !! i with
  | None => (Err (ESentinel not_running), l)
  | Some s =>
      let '(r, lis) := Smtp.Stop stop_not_running closed (listener s) in
      (r, set_server i (MkServer (cfg s) lis) l)
  end.

(** [StopSMTP]/[StopLMTP] without interference. *)
Definition Stop (closed : result unit) (l : Listeners A) : result unit * Listeners A :=
  match current l with
  | None => (Err (ESentinel not_running), l)
  | Some i => if negb (is_running (servers l !! i)) then (Err (ESentinel not_running), l)
              else stop_listener closed i l
  end.

Inductive step (l : Listeners A) : Listeners A → Prop :=
| step_start a r l' : Start a l = (r, l') → step l l'
| step_stop_read i : current l = Some i →
    step l (MkListeners (servers l) (current l) (MkStopCall i false :: stops l))
| step_stop_check before after i b : stops l = before ++ MkStopCall i b :: after →
    step l (MkListeners (servers l) (current l)
              (if is_running (servers l !! i) then before ++ MkStopCall i true :: after else before ++ after))
| step_stop before after i closed r l' : stops l = before ++ MkStopCall i true :: after →
    stop_listener closed i (MkListeners (servers l) (current l) (before ++ after)) = (r, l') → step l l'
| step_exit i s : servers l !! i = Some s →
    step l (set_server i (MkServer (cfg s) (Smtp.serve_exits (listener s))) l).

Definition reachable : Listeners A → Prop := rtc step (MkListeners [] None []).

(** Only the controller's current listener can be running. *)
Definition one_running (l : Listeners A) : Prop :=
  ∀ i s, servers l !! i = Some s → Smtp.running (listener s) = true → current l = Some i.

Lemma one_running_set i s s' l l' :
  one_running l → servers l !! i = Some s → Smtp.running (listener s') = false →
  servers l' = <[i := s']> (servers l) → current l' = current l → one_running l'.
Proof.
  intros Hw Hi Hr Hs Hc j t. rewrite Hs, Hc. destruct (decide (i = j)) as [->|Hne].
  - rewrite list_lookup_insert_eq by (by eapply lookup_lt_Some). intros [= <-]. by rewrite Hr.
  - rewrite list_lookup_insert_ne by done. apply Hw.
Qed.

Lemma Start_cases a l r l' :
  Start a l = (r, l') →
  (l' = l ∧ ∃ e, r = Err e) ∨
  (is_running (get l) = false ∧ r = Ok () ∧ ∃ lis, start a = (Ok (), lis) ∧
   l' = MkListeners (servers l ++ [MkServer a lis]) (Some (length (servers l))) (stops l)).
Proof.
  unfold Start, is_running. destruct (get l) as [s|]; [destruct (Smtp.IsRunning _); [naive_solver|]|];
    destruct (start a) as [[[]|e] lis]; naive_solver.
Qed.

Lemma one_running_step l l' : step l l' → one_running l → one_running l'.
Proof.
  intros Hst Hw. destruct Hst as [a r l' Hs|i Hc|before after i b Hc|before after i closed r l' Hc Hs|i s Hi]; try exact Hw.
  - apply Start_cases in Hs as [[-> _]|(Hnr & _ & lis & _ & ->)]; [done|]. intros j t Hj Hr. simpl in *.
    apply lookup_app_Some in Hj as [Hj|[Hge Hj]].
    + exfalso. pose proof (Hw j t Hj Hr) as Hcur. unfold is_running, get in Hnr. rewrite Hcur, Hj in Hnr.
      unfold Smtp.IsRunning in Hnr. congruence.
    + apply list_lookup_singleton_Some in Hj as [Hj _]. f_equal. lia.
  - unfold stop_listener in Hs. simpl in Hs. destruct (servers l !! i) as [s|] eqn:Hi; [|by simplify_eq].
    unfold Smtp.Stop in Hs. destruct (Smtp.running (listener s)) eqn:Hrun; injection Hs as _ <-.
    + by apply (one_running_set i s (MkServer (cfg s) (Smtp.serve_exits (listener s))) l _ Hw Hi eq_refl).
    + by apply (one_running_set i s (MkServer (cfg s) (listener s)) l _ Hw Hi Hrun).
  - by apply (one_running_set i s (MkServer (cfg s) (Smtp.serve_exits (listener s))) l _ Hw Hi eq_refl).
Qed.

Lemma reachable_one_running l : reachable l → one_running l.
Proof.
  apply (rtc_ind_r one_running); [by intros i s|]. intros x y _ Hst Hx. by eapply one_running_step.
Qed.

(** Stopping the current listener, if it runs, leaves none running. *)
Definition none_running (l : Listeners A) : Prop :=
  ∀ i s, servers l !! i = Some s → Smtp.running (listener s) = false.

Lemma Stop_none_running closed l : one_running l → none_running (Stop closed l).2.
Proof.
  intros Hw j t. assert (is_running (get l) = false → servers l !! j = Some t → Smtp.running (listener t) = false) as Hidle.
  { intros Hn Hj. destruct (Smtp.running (listener t)) eqn:Ht; [|done]. pose proof (Hw j t Hj Ht) as Hc.
    unfold is_running, get, Smtp.IsRunning in Hn. rewrite Hc, Hj in Hn. congruence. }
  unfold Stop. destruct (current l) as [i|] eqn:Hcur; simpl.
  2:{ apply Hidle. unfold is_running, get. by rewrite Hcur. }
  destruct (is_running (servers l !! i)) eqn:Hrun; simpl.
  2:{ apply Hidle. unfold get. by rewrite Hcur. }
  unfold stop_listener, Smtp.Stop. destruct (servers l !! i) as [s|] eqn:Hi; simpl; [|done].
  unfold is_running, Smtp.IsRunning in Hrun. rewrite Hrun. simpl. intros Hj. destruct (decide (i = j)) as [->|Hne].
  - rewrite list_lookup_insert_eq in Hj by (by eapply lookup_lt_Some). by injection Hj as <-.
  - rewrite list_lookup_insert_ne in Hj by done. destruct (Smtp.running (listener t)) eqn:Ht; [|done].
    pose proof (Hw j t Hj Ht). congruence.
Qed.

(** C13. A controller never runs two listeners of a kind: however starts, stops
    (concurrent ones included) and listeners that break interleave, at most the
    controller's current listener is running; so starting succeeds only when
    none runs and leaves exactly the new one running, starting while one runs is
    refused with the sentinel and changes nothing, and after a successful stop
    none runs. *)
Theorem one_listener l :
  reachable l →
  (∀ i j s t, servers l !! i = Some s → servers l !! j = Some t →
     Smtp.running (listener s) = true → Smtp.running (listener t) = true → i = j) ∧
  (∀ a l', Start a l = (Ok (), l') →
     (∀ i s, servers l !! i = Some s → Smtp.running (listener s) = false) ∧ is_running (get l') = true) ∧
  (∀ i s a, servers l !! i = Some s → Smtp.running (listener s) = true →
     ∃ e, Start a l = (Err e, l) ∧ errors_Is e already = true) ∧
  (∀ closed l', Stop closed l = (Ok (), l') → none_running l').
Proof.
  intros Hw%reachable_one_running.
  split; [|split; [|split]].
  - intros i j s t Hi Hj Hsi Htj. pose proof (Hw i s Hi Hsi). pose proof (Hw j t Hj Htj). congruence.
  - intros a l' Hs. apply Start_cases in Hs as [[_ [e He]]|(Hnr & _ & lis & Hst & ->)]; [done|]. split.
    + intros i s Hi. destruct (Smtp.running (listener s)) eqn:Hrun; [|done].
      unfold is_running, get in Hnr. rewrite (Hw i s Hi Hrun), Hi in Hnr. exact (eq_trans (eq_sym Hrun) Hnr).
    + unfold is_running, get. simpl. rewrite lookup_app_r, Nat.sub_diag by lia. simpl. by apply (start_running a).
  - intros i s a Hi Hrun. pose proof (Hw i s Hi Hrun) as Hcur. unfold Start, get. rewrite Hcur, Hi.
    unfold Smtp.IsRunning. rewrite Hrun. eexists. split; [done|]. simpl. by rewrite bool_decide_eq_true_2.
  - intros closed l' Hs. pose proof (Stop_none_running closed l Hw) as Hn. by rewrite Hs in Hn.
Qed.

End Lifecycle.
End Lifecycle.

(** ** The listeners of a controller, and the RPCs that start and stop SMTP *)
Module Ports.
Import Server Lifecycle.

(** *** Listeners *)

(** The [SMTPLifecycle] a factory gives for a configuration, as far as the
    controller uses it: [tls] and [listen] are the outcomes of loading the
    certificate and binding. *)
Record SMTPFactory := MkSMTPFactory {
  fac_Start : result unit → result unit → Smtp.Config → result unit * Smtp.Listener;
  fac_Port : Smtp.Config → Z;
  fac_Domain : Smtp.Config → string }.

(** [postboxsmtp.New] and [srv.Start()]: the configuration gets its defaults. *)
Definition start_smtp (tls listen : result unit) (c : Smtp.Config) : result unit * Smtp.Listener :=
  Smtp.Start (Smtp.applyDefaults c) tls listen Smtp.stopped.

Definition start_lmtp (listen chmod : result unit) (c : Lmtp.LMTPConfig) : result unit * Smtp.Listener :=
  Lmtp.Start (Lmtp.NewLMTP c) listen chmod Smtp.stopped.

Definition smtp_port (c : Smtp.Config) : Z := Smtp.Port (Smtp.applyDefaults c).
Definition smtp_domain (c : Smtp.Config) : string := Smtp.Domain (Smtp.applyDefaults c).

Definition defaultSMTPFactory : SMTPFactory := MkSMTPFactory start_smtp smtp_port smtp_domain.

Definition StartSMTP (fac : SMTPFactory) tls listen
    : Smtp.Config → Listeners Smtp.Config → result unit * Listeners Smtp.Config :=
  Start (fac_Start fac tls listen) ErrSMTPAlreadyRunning (fac_Port fac).
Definition StopSMTP : result unit → Listeners Smtp.Config → result unit * Listeners Smtp.Config :=
  Stop ErrSMTPNotRunning ErrNotRunning.

Definition StartLMTP listen chmod : Lmtp.LMTPConfig → Listeners Lmtp.LMTPConfig → result unit * Listeners Lmtp.LMTPConfig :=
  Start (start_lmtp listen chmod) ErrLMTPAlreadyRunning (λ c, Lmtp.Port (Lmtp.NewLMTP c)).
Definition StopLMTP : result unit → Listeners Lmtp.LMTPConfig → result unit * Listeners Lmtp.LMTPConfig :=
  Stop ErrLMTPNotRunning ErrLMTPServerNotRunning.

(** *** The RPCs that start and stop SMTP *)

(** [postboxpb.SMTPConfig]: the integers are [int32], the size [int64]. *)
Record SMTPRequest := MkSMTPRequest {
  P_Port : Z; P_Domain : string; P_AllowInsecureAuth : bool; P_MaxMessageBytes : Z; P_MaxRecipients : Z;
  P_ReadTimeoutSecs : Z; P_WriteTimeoutSecs : Z; P_MaxConnsPerSec : Q; P_BurstConns : Z }.

Definition smtpConfigFromProto (req : SMTPRequest) : Smtp.Config :=
  Smtp.MkConfig (P_Port req) "" (P_Domain req) (P_AllowInsecureAuth req) (P_MaxMessageBytes req)
    (P_MaxRecipients req) 0 (wrap64 (P_ReadTimeoutSecs req * Second)) (wrap64 (P_WriteTimeoutSecs req * Second))
    false "" "" 0 false false (P_MaxConnsPerSec req) (P_BurstConns req) 0%Q 0.

Definition rpc_StartSMTP (fac : SMTPFactory) tls listen (req : SMTPRequest) (l : Listeners Smtp.Config)
    : result Response * Listeners Smtp.Config :=
  let '(r, l') := StartSMTP fac tls listen (smtpConfigFromProto req) l in
  match r with
  | Err err => (Err (EStatus (if errors_Is err ErrSMTPAlreadyRunning then FailedPrecondition else Internal)
                       (Text "start smtp: %v" [AErr err])), l')
  | Ok _ =>
      let c := match get l' with Some s => cfg s | None => smtpConfigFromProto req end in
      (Ok (MkResponse true (Text "SMTP listener started on :%d (domain %s)" [AInt (fac_Port fac c); AStr (fac_Domain fac c)])), l')
  end.

Definition rpc_StopSMTP (closed : result unit) (l : Listeners Smtp.Config) : result Response * Listeners Smtp.Config :=
  let '(r, l') := StopSMTP closed l in
  match r with
  | Err err => (Err (EStatus (if errors_Is err ErrSMTPNotRunning then FailedPrecondition else Internal)
                       (Text "stop smtp: %v" [AErr err])), l')
  | Ok _ => (Ok (MkResponse true (Text "SMTP listener stopped" [])), l')
  end.

(** The status: running, port as [int32], domain. *)
Definition GetSMTPStatus (fac : SMTPFactory) (l : Listeners Smtp.Config) : bool * Z * string :=
  match get l with
  | None => (false, 0, "")
  | Some s => (Smtp.IsRunning (listener s), wrap32 (fac_Port fac (cfg s)), fac_Domain fac (cfg s))
  end.
End Ports.

(** ** Concrete nodes *)
Module ServerDemo.
Import Server Lifecycle Ports.
#[local] Existing Instances MemStore.ops MemStore.laws RedisMem.ops RedisMem.laws RedisMem.codec.

Definition redis_server : Type := gmap string (string * option Time).
Definition demo_env : Env (gmap string (string * option Time)) MemStore.Store := MkEnv ∅ MemStore.New.

Definition local_node : Controller := MkController "n1" ModeStandalone "host1:50051" (LocalRegistry "n1") "".
Definition cluster_node (id addr : string) : Controller :=
  MkController id ModeStandalone addr (RedisRegistry id addr) "".
Definition relay_node (id addr : string) : Controller :=
  MkController id ModeStandalone addr (FallbackRegistry (RedisRegistry id addr) "outbound") "".

Definition n1 : Controller := cluster_node "n1" "host1:50051".
Definition n2 : Controller := cluster_node "n2" "host2:50051".

(** The first node claims a domain and announces itself. *)
Definition claimed : Env (gmap string (string * option Time)) MemStore.Store :=
  let env := (RegisterDomain 0 n1 "example.ai" false demo_env).2 in
  MkEnv (Redis.Announce "n1" "host1:50051" 0 (redis env)).2 (store env).

(** A second node, with its own store, that reaches the same Redis. *)
Definition second : Env (gmap string (string * option Time)) MemStore.Store := MkEnv (redis claimed) MemStore.New.

(** Two nodes of a cluster can claim the same domain: [RegisterDomain] asks only
    the node's own store whether the domain is taken, so the second claim
    succeeds and takes the route over, while the first node still believes that
    it owns the domain. *)
Theorem two_nodes_claim_domain :
  is_ok (RegisterDomain 0 n1 "example.ai" false demo_env).1 = true ∧
  is_ok (RegisterDomain 1 n2 "example.ai" false second).1 = true ∧
  Redis.Lookup 2 "a@example.ai" (redis (RegisterDomain 1 n2 "example.ai" false second).2) = Ok "n2" ∧
  GetDomain "example.ai" (store claimed) = Ok (MkDomain "example.ai" "n1" false).
Proof. vm_compute. repeat split; reflexivity. Qed.

(** Remapping a domain does not reach the cluster: [RemapDomain] writes the
    node's own store only, and the Redis registry keeps answering the old node. *)
Theorem remap_not_published :
  is_ok (RemapDomain n1 "example.ai" "n2" claimed).1 = true ∧
  Discover 1 some_order n1 "example.ai" (RemapDomain n1 "example.ai" "n2" claimed).2 =
    Ok (MkNodeInfo "n1" "host1:50051" "standalone").
Proof. vm_compute. split; reflexivity. Qed.

(** A node with an outbound relay gives its own address for the domains of other
    nodes: wrapped in the fallback, the registry no longer resolves nodes. *)
Theorem relay_hides_addresses :
  Discover 1 some_order n2 "example.ai" second = Ok (MkNodeInfo "n1" "host1:50051" "standalone") ∧
  Discover 1 some_order (relay_node "n2" "host2:50051") "example.ai" second =
    Ok (MkNodeInfo "n1" "host2:50051" "standalone").
Proof. vm_compute. split; reflexivity. Qed.

(** Registering a domain again as the default reports success and changes nothing. *)
Theorem default_flag_ignored :
  is_ok (RegisterDomain 1 n1 "example.ai" true claimed).1 = true ∧
  GetDomain "example.ai" (store (RegisterDomain 1 n1 "example.ai" true claimed).2) =
    Ok (MkDomain "example.ai" "n1" false).
Proof. vm_compute. split; reflexivity. Qed.

Definition demo_user : RegisterUserRequest := MkRegisterUser "bot@example.ai" "key" {["role" := "bot"]} "agent".

Lemma RegisterUser_GetUser_witness :
  GetUser n1 "bot@example.ai" (RegisterUser 5 n1 demo_user claimed).2 =
    Ok (MkProfile "bot@example.ai" "agent" "key" {["role" := "bot"]} "n1").
Proof.
  refine (proj1 (RegisterUser_GetUser 5 n1 demo_user claimed
    (MkResponse true (Text "user %q registered to node %s" [AStr "bot@example.ai"; AStr "n1"])) _ _ _ _)).
  - intros u. vm_compute. discriminate.
  - exact I.
  - vm_compute. reflexivity.
Defined.


Definition smtp_request : SMTPRequest := MkSMTPRequest 0 "" false 0 0 0 0 0%Q 0.
Definition running_smtp : Listeners Smtp.Config :=
  (StartSMTP defaultSMTPFactory (Ok ()) (Ok ()) (smtpConfigFromProto smtp_request) (MkListeners [] None [])).2.

Lemma start_smtp_running a l : start_smtp (Ok ()) (Ok ()) a = (Ok (), l) → Smtp.running l = true.
Proof. unfold start_smtp, Smtp.Start. simpl. case_match; by intros [= <-]. Qed.

Lemma one_listener_witness :
  (∃ e, StartSMTP defaultSMTPFactory (Ok ()) (Ok ()) (smtpConfigFromProto smtp_request) running_smtp = (Err e, running_smtp) ∧
        errors_Is e ErrSMTPAlreadyRunning = true) ∧
  GetSMTPStatus defaultSMTPFactory running_smtp = (true, 2525, "localhost").
Proof.
  split; [|vm_compute; reflexivity].
  refine (proj1 (proj2 (proj2 (one_listener (start_smtp (Ok ()) (Ok ())) ErrSMTPAlreadyRunning ErrSMTPNotRunning
    ErrNotRunning smtp_port start_smtp_running running_smtp _))) 0%nat
    (MkServer (smtpConfigFromProto smtp_request) (Smtp.MkListener true 1 false)) _ _ _).
  - apply rtc_once. eapply step_start. unfold running_smtp, StartSMTP. apply surjective_pairing.
  - vm_compute. reflexivity.
  - reflexivity.
Defined.

End ServerDemo.
