(* ===== verification/Controller.v ===== *)
(** * The controller

    Models the life of a [Controller]: [internal/server/options.go] and the
    parts of [internal/server/node.go] that put a node together from its options
    ([NewController]), keep it announced, route within it, and take it down
    ([Close]). What a start has acquired is recorded, so that a failed start
    shows what it leaves behind. The listeners are those of [Server.v]. *)
From Stdlib Require Import Ascii.
From S2P Require Import Prelude GoStrings Store MemStore Registry Forwarder RelayQueue Relay Nodekey Webhook Smtp Mailbox Server.
Local Open Scope Z_scope.

Module Node.
Import Server.Server Lifecycle Ports Mailbox.

(** [storeUserResolver{s}]: the resolver over the node's own store. *)
Inductive UserResolver : Set := storeUserResolver.

Section Node.
Context {Net : Relay.Network} {Dr : Drivers} {P : Type} {ML : MailboxLib P UserResolver}.

(** The configuration the options fill in. The logger is not part of the model. *)
Record options := MkOptions {
  opt_nodeID : string;
  opt_mode : NodeMode;
  opt_address : string;
  mailboxFactory : option (MailboxFactory (P := P) (U := UserResolver));
  smtpFactory : SMTPFactory;
  webhookEnabled : bool;
  webhookOpts : list Dispatcher.Option;
  use_redis : bool;
  mailboxPlugins : list P;
  relayNodeID : string;
  relayBackend : option Relay.Backend;
  relayQueueCfg : option RelayQueue.QueueConfig }.

Definition defaultAddress : string := "localhost:50051".

Definition default_options : options :=
  MkOptions "" ModeStandalone defaultAddress None defaultSMTPFactory false [] false [] "" None None.

(** The [With...] options. *)
Inductive Option_ : Type :=
| WithNodeID (id : string)
| WithMode (m : NodeMode)
| WithAddress (addr : string)
| WithLogger
| WithMailboxFactory (f : option (MailboxFactory (P := P) (U := UserResolver)))
| WithSMTPFactory (f : SMTPFactory)
| WithRedisClient (present : bool)
| WithWebhook (opts : list Dispatcher.Option)
| WithMailboxPlugins (plugins : list P)
| WithOutboundRelay (nodeID : string) (backend : Relay.Backend)
| WithOutboundRelayQueue (cfg : RelayQueue.QueueConfig).

Definition apply_option (o : options) (opt : Option_) : options :=
  let '(MkOptions id mo ad mf sf wh wo rd pl rn rb rq) := o in
  match opt with
  | WithNodeID id => MkOptions id mo ad mf sf wh wo rd pl rn rb rq
  | WithMode mo => MkOptions id mo ad mf sf wh wo rd pl rn rb rq
  | WithAddress ad => MkOptions id mo ad mf sf wh wo rd pl rn rb rq
  | WithLogger => o
  | WithMailboxFactory mf => MkOptions id mo ad mf sf wh wo rd pl rn rb rq
  | WithSMTPFactory sf => MkOptions id mo ad mf sf wh wo rd pl rn rb rq
  | WithRedisClient rd => MkOptions id mo ad mf sf wh wo rd pl rn rb rq
  | WithWebhook wo => MkOptions id mo ad mf sf true wo rd pl rn rb rq
  | WithMailboxPlugins ps => MkOptions id mo ad mf sf wh wo rd (pl ++ ps) rn rb rq
  | WithOutboundRelay rn backend => MkOptions id mo ad mf sf wh wo rd pl rn (Some backend) rq
  | WithOutboundRelayQueue cfg => MkOptions id mo ad mf sf wh wo rd pl rn rb (Some cfg)
  end.

(** What happens outside while a controller starts: the generated UUID, the
    outcomes of connecting the store, of generating a key pair, of the relay's
    [net.Listen] and of subscribing to the mailbox's events. *)
Record world := MkWorld {
  uuid : string; connect : result unit; generated : result (string * string);
  relay_listen : result string; subscribe : result unit }.

(** What a start has acquired and [Close] releases. *)
Inductive resource : Type :=
| StoreConnected
| MailboxConnected (svc : Service) (evs : list event)
| RelayListening (addr : string)
| HeartbeatRunning
| DispatcherRunning (workers : nat).

(** A controller: what its RPCs read, and the parts it owns. *)
Record node := MkNode {
  ctrl : Controller; privKey : string; mailboxService : Service; smtpFactory_ : SMTPFactory;
  fwd : option (Registry * NodeResolver); relaySrv : option Relay.RelayServer;
  heartbeater : option (string * string);
  dispatcher : option (Signer.Signer * Dispatcher.Config * Dispatcher.lifecycle) }.

Context {R S : Type} {SO : StoreOps S} {RO : RedisOps R}.

(** The registry and, in a cluster, its announcement in Redis. *)
Definition base_registry (now : Time) (cfg : options) (env : Env R S)
    : result (Registry * option NodeResolver) * Env R S :=
  if use_redis cfg then
    match Redis.Announce (opt_nodeID cfg) (opt_address cfg) now (redis env) with
    | (Err err, r') => (Err (EWrap (Text "controller: announce node to Redis: %w" []) err), MkEnv r' (store env))
    | (Ok _, r') => (Ok (RedisRegistry (opt_nodeID cfg) (opt_address cfg),
                         Some (RedisResolver (opt_nodeID cfg) (opt_address cfg))), MkEnv r' (store env))
    end
  else (Ok (LocalRegistry (opt_nodeID cfg), None), env).

(** The outbound relay in front of it. *)
Definition with_relay (now : Time) (cfg : options) (listen : result string)
    (reg : Registry) (resolver : option NodeResolver)
    : result (Registry * option NodeResolver * option Relay.RelayServer) :=
  match relayBackend cfg with
  | None => Ok (reg, resolver, None)
  | Some backend =>
      let '(r, srv) := Relay.Start "127.0.0.1:0" listen (Relay.New backend (relayQueueCfg cfg) now) in
      match r with
      | Err err => Err (EWrap (Text "controller: start relay: %w" []) err)
      | Ok _ => Ok (FallbackRegistry reg (relayNodeID cfg),
                    Some (StaticResolver {[relayNodeID cfg := Relay.Addr srv]} resolver), Some srv)
      end
  end.

(** The webhook dispatcher, with its signer. *)
Definition start_webhook (w : world) (cfg : options) (priv : string)
    : result (option (Signer.Signer * Dispatcher.Config * Dispatcher.lifecycle)) :=
  if webhookEnabled cfg then
    match Signer.NewSigner priv "v1" with
    | Err err => Err (EWrap (Text "controller: create webhook signer: %w" []) err)
    | Ok signer =>
        let d := Dispatcher.New (webhookOpts cfg) in
        match Dispatcher.Start d (subscribe w) Dispatcher.not_started with
        | (Err err, _) => Err (EWrap (Text "controller: start webhook dispatcher: %w" []) err)
        | (Ok _, l) => Ok (Some (signer, d, l))
        end
    end
  else Ok None.

(** The options with the node ID generated when there is none, and the factory
    that makes the mailbox service. *)
Definition with_nodeID (w : world) (cfg : options) : options :=
  if bool_decide (opt_nodeID cfg = "") then apply_option cfg (WithNodeID (uuid w)) else cfg.

Definition factory (cfg : options) : MailboxFactory (P := P) (U := UserResolver) :=
  match mailboxFactory cfg with Some f => f | None => newMailboxFactory (mailboxPlugins cfg) end.

Definition NewController (now : Time) (w : world) (opts : list Option_) (env : Env R S)
    : result node * list resource * Env R S :=
  let cfg := with_nodeID w (foldl apply_option default_options opts) in
  match connect w with
  | Err err => (Err (EWrap (Text "controller: connect store: %w" []) err), [], env)
  | Ok _ =>
  let held := [StoreConnected] in
  match Nodekey.EnsureKey (generated w) (Store.MkNode (opt_nodeID cfg) "" "") (store env) with
  | (Err err, s') => (Err (EWrap (Text "controller: ensure node key: %w" []) err), held, MkEnv (redis env) s')
  | (Ok n, s') =>
  let env := MkEnv (redis env) s' in
  match Nodekey.DecodePrivate (PrivateKeyB64 n) with
  | Err err => (Err (EWrap (Text "controller: decode node private key: %w" []) err), held, env)
  | Ok priv =>
  match factory cfg (Some storeUserResolver) with
  | (Err err, evs) => (Err (EWrap (Text "controller: create mailbox service: %w" []) err), held, env)
  | (Ok mbx, evs) =>
  let held := held ++ [MailboxConnected mbx evs] in
  match base_registry now cfg env with
  | (Err err, env) => (Err err, held, env)
  | (Ok (reg, resolver), env) =>
  match with_relay now cfg (relay_listen w) reg resolver with
  | Err err => (Err err, held, env)
  | Ok (reg, resolver, relaySrv) =>
  let held := held ++ match relaySrv with Some srv => [RelayListening (Relay.Addr srv)] | None => [] end in
  let fwd := match resolver with Some r => Some (reg, r) | None => None end in
  let c := MkController (opt_nodeID cfg) (opt_mode cfg) (opt_address cfg) reg (PublicKeyB64 n) in
  let hb := if use_redis cfg then Some (opt_nodeID cfg, opt_address cfg) else None in
  let held := held ++ if use_redis cfg then [HeartbeatRunning] else [] in
  match start_webhook w cfg priv with
  | Err err => (Err err, held, env)
  | Ok d =>
      (Ok (MkNode c priv mbx (smtpFactory cfg) fwd relaySrv hb d),
       held ++ match d with Some (_, _, l) => [DispatcherRunning (Dispatcher.running_workers l)] | None => [] end, env)
  end end end end end end end.

(** One tick of [runHeartbeat]. *)
Definition heartbeat (now : Time) (n : node) (env : Env R S) : Env R S :=
  match heartbeater n with
  | None => env
  | Some (id, addr) => MkEnv (Redis.Announce id addr now (redis env)).2 (store env)
  end.

(** [localRouter.Route] and [storeUserResolver.ResolveUser]: the user must be in
    the store. *)
Definition Route (userID : string) (env : Env R S) : result string :=
  match Store.GetUser userID (store env) with Ok _ => Ok userID | Err err => Err err end.

Definition ResolveUser (userID : string) (env : Env R S) : result User := Store.GetUser userID (store env).

(** The SMTP server of the default factory: the users are those of the store, no
    password is asked for, replies are threaded by the mailbox. *)
Definition smtp_server {MI : MessageIndex} (env : Env R S) (c : Smtp.Config) : Smtp.Server :=
  Smtp.New c (Some (λ email, is_ok (ResolveUser email env))) (Some buildThreadResolver).

(** Any password opens the account of a registered user. *)
Theorem any_password_accepted {MI : MessageIndex} {H : Type} {Hook : AuthFailureHook H} env c now user password s
    (hook : option H) :
  is_ok (Store.GetUser user (store env)) = true →
  match hook with Some h => IsLockedOut now (Smtp.remoteAddr s) h | None => false end = false →
  Smtp.Auth (smtp_server env c) now "PLAIN" "" user password s hook = (Ok (), Smtp.set_auth user s, hook).
Proof. intros Hu Hl. unfold Smtp.Auth. simpl. rewrite Hl. unfold ResolveUser. by rewrite Hu. Qed.

(** *** What a started controller has *)

Context {Ed : Ed25519} {SL : StoreLaws S} {RC : RouteCodec}.

Lemma base_registry_wired now cfg env reg resolver env' :
  base_registry now cfg env = (Ok (reg, resolver), env') →
  store env' = store env ∧
  (reg = LocalRegistry (opt_nodeID cfg) ∧ resolver = None ∧ use_redis cfg = false ∨
   reg = RedisRegistry (opt_nodeID cfg) (opt_address cfg) ∧
   resolver = Some (RedisResolver (opt_nodeID cfg) (opt_address cfg)) ∧ use_redis cfg = true).
Proof.
  unfold base_registry. destruct (use_redis cfg); [|intros [= <- <- <-]; auto].
  destruct (Redis.Announce _ _ _ _) as [[[]|] r']; [|done]. intros [= <- <- <-]. auto.
Qed.

(** With a relay: its address is the bound one, every target has a route, and the
    relay node resolves to the relay. *)
Definition relay_wired (listen : result string) (reg : Registry) (resolver : option NodeResolver)
    (srv : Relay.RelayServer) : Prop :=
  listen = Ok (Relay.Addr srv) ∧
  ∃ inner id base, reg = FallbackRegistry inner id ∧ resolver = Some (StaticResolver {[id := Relay.Addr srv]} base).

Lemma with_relay_wired now cfg listen reg resolver reg' resolver' srv :
  with_relay now cfg listen reg resolver = Ok (reg', resolver', srv) →
  base reg' = base reg ∧
  match srv with
  | None => reg' = reg ∧ resolver' = resolver
  | Some srv => relay_wired listen reg' resolver' srv ∧ ∃ id, reg' = FallbackRegistry reg id
  end.
Proof.
  unfold with_relay. destruct (relayBackend cfg) as [b|]; [|by intros [= <- <- <-]].
  destruct (Relay.Start _ _ _) as [[[]|] srv'] eqn:Hs; [|done]. intros [= <- <- <-]. split; [done|].
  unfold Relay.Start in Hs.
  replace (Relay.started (Relay.New b (relayQueueCfg cfg) now)) with false in Hs by (by destruct (relayQueueCfg cfg)).
  destruct listen as [a|]; [|done]. injection Hs as <-.
  split; [|by eexists]. split; [done|]. by eauto.
Qed.

Lemma start_webhook_key w cfg priv d s c l :
  start_webhook w cfg priv = Ok d → d = Some (s, c, l) →
  Signer.privKey s = priv ∧ c = Dispatcher.New (webhookOpts cfg) ∧
  l = Dispatcher.MkLifecycle true (Z.to_nat (Dispatcher.workers c)) 1 false.
Proof.
  unfold start_webhook, Signer.NewSigner, Dispatcher.Start. intros H ->. repeat case_match; simplify_eq; done.
Qed.

Lemma fallback_routes now o reg id target (env : Env R S) :
  match reg with FallbackRegistry _ _ => False | _ => True end →
  ∃ m, Lookup now o (FallbackRegistry reg id) target env = Ok m.
Proof.
  intros Hb. simpl. destruct (Lookup now o reg target env) as [m|e] eqn:Hl; [by eauto|].
  rewrite (Lookup_base_error _ _ _ _ _ _ Hb Hl). simpl. eauto.
Qed.

Lemma with_nodeID_ne w cfg : uuid w ≠ "" → opt_nodeID (with_nodeID w cfg) ≠ "".
Proof. intros Hid. unfold with_nodeID. case_bool_decide; [by destruct cfg|done]. Qed.

(** C17. A controller that starts is wired for its node: it has a node ID; its
    registry answers under its own ID and address; the key its service hands out
    is the public half of the pair it signs with, and the pair is in the store;
    its mailbox service is the one the configured factory made for the node's own
    user directory; webhooks are signed with the node's key by as many workers as
    configured; messages are forwarded exactly when there is a cluster or a
    relay; and with a relay every recipient has a route, the relay's node
    resolving to the address the relay listens on. *)
Theorem NewController_wiring now w opts (env : Env R S) n held env' :
  uuid w ≠ "" → (∀ pub priv, generated w = Ok (pub, priv) → keypair pub priv) →
  NewController now w opts env = (Ok n, held, env') →
  nodeID (ctrl n) ≠ "" ∧ wired (ctrl n) ∧
  (∃ pub record, Nodekey.DecodePublic (nodePubKeyB64 (ctrl n)) = Ok pub ∧ keypair pub (privKey n) ∧
     GetNode (nodeID (ctrl n)) (store env') = Ok record ∧ PublicKeyB64 record = nodePubKeyB64 (ctrl n) ∧
     Nodekey.DecodePrivate (PrivateKeyB64 record) = Ok (privKey n)) ∧
  (∃ evs, factory (foldl apply_option default_options opts) (Some storeUserResolver) = (Ok (mailboxService n), evs)) ∧
  (∀ s c l, dispatcher n = Some (s, c, l) → Signer.privKey s = privKey n ∧
     l = Dispatcher.MkLifecycle true (Z.to_nat (Dispatcher.workers c)) 1 false) ∧
  (fwd n = None ↔ heartbeater n = None ∧ relaySrv n = None) ∧
  (∀ srv, relaySrv n = Some srv → ∃ id resolver, fwd n = Some (registry (ctrl n), resolver) ∧
     ∀ now' (e : Env R S), ResolveNode now' resolver id e = Ok (Relay.Addr srv) ∧
     ∀ o target, ∃ m, Lookup now' o (registry (ctrl n)) target e = Ok m).
Proof.
  intros Hid Hgen. unfold NewController. set (cfg0 := foldl _ _ _). set (cfg := with_nodeID w cfg0).
  assert (opt_nodeID cfg ≠ "") as Hne by (by apply with_nodeID_ne).
  assert (factory cfg = factory cfg0) as Hfac by (unfold cfg, with_nodeID; case_bool_decide; by destruct cfg0).
  destruct (connect w); [|done]. destruct (generated w) as [[pub priv]|] eqn:Hg; [|done].
  specialize (Hgen pub priv eq_refl).
  destruct (Nodekey.EnsureKey _ _ _) as [[record|] s'] eqn:Hek; [|done].
  destruct (Nodekey.EnsureKey_generates pub priv (Store.MkNode (opt_nodeID cfg) "" "") _ _ _ Hgen eq_refl Hek) as [Hrec Hget].
  destruct (Nodekey.Decode_pair _ _ Hgen) as [Hdpriv Hdpub]. simpl in Hrec, Hget.
  assert (Nodekey.DecodePrivate (PrivateKeyB64 record) = Ok priv) as Hdp by (by rewrite Hrec). rewrite Hdp, Hfac.
  destruct (factory cfg0 _) as [[mbx|] evs] eqn:Hf; [|done].
  destruct (base_registry now cfg _) as [[[reg resolver]|] env1] eqn:Hb; [|done].
  apply base_registry_wired in Hb as [Hst Hb]. simpl in Hst.
  destruct (with_relay _ _ _ _ _) as [[[reg' resolver'] srv]|] eqn:Hrel; [|done].
  apply with_relay_wired in Hrel as [Hbase Hsrv].
  destruct (start_webhook w cfg priv) as [d|] eqn:Hd; [|done].
  intros [= <- _ <-]. simpl. split; [done|]. split; [|split; [|split; [by eauto|split; [|split]]]].
  - unfold wired. simpl. rewrite Hbase. destruct Hb as [(-> & _)|(-> & _)]; auto.
  - exists pub, record. rewrite Hst. by rewrite Hrec in *.
  - intros s c l Hs. by destruct (start_webhook_key _ _ _ _ _ _ _ Hd Hs) as (? & _ & ?).
  - destruct srv as [srv|].
    + destruct Hsrv as [(_ & inner & id & b & _ & ->) _]. split; [done|by intros []].
    + destruct Hsrv as [_ ->]. destruct Hb as [(_ & -> & ->)|(_ & -> & ->)]; [done|]. split; [done|by intros []].
  - intros srv' ->. destruct Hsrv as [(_ & inner & id & b & -> & ->) [id' [= -> ->]]].
    exists id', (StaticResolver {[id' := Relay.Addr srv']} b). split; [done|]. intros now' e. split.
    + simpl. by rewrite lookup_singleton_eq.
    + intros o target. apply fallback_routes. destruct Hb as [(-> & _)|(-> & _)]; done.
Qed.

(** What a start that failed had acquired by then; nothing of it is released. *)
Theorem failed_start_keeps_resources now w opts (env : Env R S) e env' held :
  subscribe w = Err e →
  let cfg := foldl apply_option default_options opts in
  webhookEnabled cfg = true → use_redis cfg = true → relayBackend cfg ≠ None →
  NewController now w opts env = (Err (EWrap (Text "controller: start webhook dispatcher: %w" [])
    (EWrap (Text "webhook dispatcher: subscribe: %w" []) e)), held, env') →
  ∃ svc evs addr, held = [StoreConnected; MailboxConnected svc evs; RelayListening addr; HeartbeatRunning].
Proof.
  intros Hsub cfg0 Hw Hr Hb. unfold NewController. fold cfg0. set (cfg := with_nodeID w cfg0).
  assert (webhookEnabled cfg = true ∧ use_redis cfg = true ∧ relayBackend cfg ≠ None) as (Hw' & Hr' & Hb').
  { unfold cfg, with_nodeID. clearbody cfg0. case_bool_decide; by destruct cfg0. }
  destruct (connect w); [|done]. destruct (Nodekey.EnsureKey _ _ _) as [[record|] s']; [|done].
  destruct (Nodekey.DecodePrivate _); [|done]. destruct (factory cfg _) as [[mbx|] evs]; [|done].
  unfold base_registry. rewrite Hr'. destruct (Redis.Announce _ _ _ _) as [[[]|] r']; [|done].
  unfold with_relay. destruct (relayBackend cfg) as [b|]; [|done].
  destruct (Relay.Start _ _ _) as [[[]|] srv]; [|done].
  destruct (start_webhook w cfg _) as [d|]; [done|]. intros [= _ <- _]. simpl. by eauto.
Qed.

(** *** A running controller

    [heartbeatCh] is [None] for a nil channel and else tells whether it is closed;
    [mailbox_closed] and [store_closed] tell that their [Close] was called. *)
Record running := MkRunning {
  rn : node; heartbeatCh : option bool; pool : Forwarder.Forwarder.State;
  relay_state : option Relay.RelayServer;
  smtp : Listeners Smtp.Config; lmtp : Listeners Lmtp.LMTPConfig;
  disp : option Dispatcher.lifecycle; mailbox_closed : bool; store_closed : bool }.

Definition boot (n : node) : running :=
  MkRunning n (match heartbeater n with Some _ => Some false | None => None end)
    (Forwarder.Forwarder.MkState ∅ []) (relaySrv n) (MkListeners [] None []) (MkListeners [] None [])
    (match dispatcher n with Some (_, _, l) => Some l | None => None end) false false.

Context {GU : GoUnicode}.

(** What goes on while the node runs: listeners are started, stopped and break,
    messages are forwarded and relayed. *)
Inductive operate (r : running) : running → Prop :=
| op_smtp tls listen l :
    step (fac_Start (smtpFactory_ (rn r)) tls listen) ErrSMTPAlreadyRunning ErrSMTPNotRunning ErrNotRunning
      (fac_Port (smtpFactory_ (rn r))) (smtp r) l →
    operate r (MkRunning (rn r) (heartbeatCh r) (pool r) (relay_state r) l (lmtp r) (disp r) (mailbox_closed r) (store_closed r))
| op_lmtp listen chmod l :
    step (start_lmtp listen chmod) ErrLMTPAlreadyRunning ErrLMTPNotRunning ErrLMTPServerNotRunning
      (λ c, Lmtp.Port (Lmtp.NewLMTP c)) (lmtp r) l →
    operate r (MkRunning (rn r) (heartbeatCh r) (pool r) (relay_state r) (smtp r) l (disp r) (mailbox_closed r) (store_closed r))
| op_forward st : fwd (rn r) ≠ None →
    operate r (MkRunning (rn r) (heartbeatCh r) st (relay_state r) (smtp r) (lmtp r) (disp r) (mailbox_closed r) (store_closed r))
| op_relay o done req srv res out srv' : relay_state r = Some srv →
    Relay.SendMessage o done req srv res out srv' →
    operate r (MkRunning (rn r) (heartbeatCh r) (pool r) (Some srv') (smtp r) (lmtp r) (disp r) (mailbox_closed r) (store_closed r))
| op_queue i srv q q' : relay_state r = Some srv → Relay.queue srv = Some q →
    RelayQueue.worker_step (Relay.queue_cfg srv) i q q' →
    operate r (MkRunning (rn r) (heartbeatCh r) (pool r) (Some (Relay.set_queue q' srv)) (smtp r) (lmtp r) (disp r)
      (mailbox_closed r) (store_closed r)).

(** The listener the controller holds is stopped when it runs; an error is only
    logged. *)
Definition close_listener {A} (not_running stop_not_running : sentinel) (closed : result unit) (l : Listeners A)
    : Listeners A :=
  if is_running (get l) then (Stop not_running stop_not_running closed l).2 else l.

(** The outcomes of closing the two listeners' sockets and the store. *)
Record closings := MkClosings { cl_smtp : result unit; cl_lmtp : result unit; cl_store : result unit }.

Section Close.
Variable net : list (Forwarder.Forwarder.Call * result unit) → Forwarder.Forwarder.Call → result unit.
(** [relaySrv.Stop(ctx)]; [None] is a panic. *)
Variable relay_stop : Relay.RelayServer → option Relay.RelayServer.

(** [Close]: the steps in their order. [None] is the panic of closing a channel
    twice. *)
Definition Close (o : MapOrder) (w : closings) (r : running) : option (result unit * running) :=
  let n := rn r in
  if bool_decide (heartbeatCh r = Some true) then None
  else
    let hb := match heartbeatCh r with Some _ => Some true | None => None end in
    let pool := match fwd n with Some _ => Forwarder.Forwarder.Close net o (pool r) | None => pool r end in
    match match relay_state r with
          | Some srv => match relay_stop srv with Some srv' => Some (Some srv') | None => None end
          | None => Some None
          end with
    | None => None
    | Some relay =>
        let smtp := close_listener ErrSMTPNotRunning ErrNotRunning (cl_smtp w) (smtp r) in
        let lmtp := close_listener ErrLMTPNotRunning ErrLMTPServerNotRunning (cl_lmtp w) (lmtp r) in
        match match disp r with
              | Some l => match Dispatcher.stop l with Some l' => Some (Some l') | None => None end
              | None => Some None
              end with
        | None => None
        | Some d => Some (cl_store w, MkRunning n hb pool relay smtp lmtp d true true)
        end
    end.

(** Stopping the relay is one outcome of [Relay.Stop]; it panics only when its
    queue is stopped already. *)
Hypothesis relay_stops : ∀ srv,
  match relay_stop srv with
  | Some srv' => Relay.Stop srv srv'
  | None => ∃ q, Relay.queue srv = Some q ∧ RelayQueue.stopCh q = true
  end.

Definition relay_open (r : running) : Prop :=
  ∀ srv q, relay_state r = Some srv → Relay.queue srv = Some q → RelayQueue.stopCh q = false.

(** A controller that has not been closed. *)
Record live (r : running) : Prop := {
  live_heartbeat : heartbeatCh r ≠ Some true;
  live_pool : fwd (rn r) = None → Forwarder.Forwarder.conns (pool r) = ∅;
  live_relay : relay_open r;
  live_smtp : one_running (smtp r);
  live_lmtp : one_running (lmtp r);
  live_disp : ∀ l, disp r = Some l → Dispatcher.stopped l = false }.

(** A controller at rest: no announcement, connection, listener, relay, worker or
    sweeper is left, and mailbox and store are closed. *)
Record at_rest (r : running) : Prop := {
  rest_heartbeat : heartbeatCh r ≠ Some false;
  rest_pool : Forwarder.Forwarder.conns (pool r) = ∅;
  rest_relay : ∀ srv, relay_state r = Some srv → Relay.grpcSrv srv = false ∧ ∃ srv0, Relay.Stop srv0 srv;
  rest_smtp : none_running (smtp r);
  rest_lmtp : none_running (lmtp r);
  rest_disp : ∀ l, disp r = Some l → Dispatcher.running_workers l = 0%nat ∧ Dispatcher.running_sweepers l = 0%nat;
  rest_closed : mailbox_closed r = true ∧ store_closed r = true }.

Lemma SendMessage_open o done req srv res out srv' q' :
  Relay.SendMessage o done req srv res out srv' → Relay.queue srv' = Some q' →
  (∀ q, Relay.queue srv = Some q → RelayQueue.stopCh q = false) → RelayQueue.stopCh q' = false.
Proof.
  intros Hs Hq Ho. destruct Hs as [| |m q q1 _ Hq0 He|m q q1 err _ Hq0 He| |]; auto;
    simpl in Hq; injection Hq as <-; apply Ho in Hq0; by inversion He; subst.
Qed.

Lemma worker_step_stopCh cfg i q q' : RelayQueue.worker_step cfg i q q' → RelayQueue.stopCh q' = RelayQueue.stopCh q.
Proof. by intros []. Qed.

Lemma operate_live r r' : operate r r' → live r → live r'.
Proof.
  intros Ho [H1 H2 H3 H4 H5 H6]. destruct Ho as [tls lis l Hs|lis ch l Hs|st Hf|o dn req srv res out srv' Hr Hs|i srv q q' Hr Hq Hs];
    split; simpl; try done.
  - by eapply one_running_step.
  - by eapply one_running_step.
  - intros srv0 q0 [= <-] Hq0. eapply SendMessage_open; [exact Hs|exact Hq0|]. intros q Hq. by eapply H3.
  - intros srv0 q0 [= <-] [= <-]. rewrite (worker_step_stopCh _ _ _ _ Hs). by eapply H3.
Qed.

Lemma close_listener_none {A} e1 e2 closed (l : Listeners A) :
  one_running l → none_running (close_listener e1 e2 closed l).
Proof.
  intros Hw. unfold close_listener. destruct (is_running (get l)) eqn:Hr; [by apply Stop_none_running|].
  intros i s Hi. destruct (Smtp.running (listener s)) eqn:Hs; [|done].
  pose proof (Hw i s Hi Hs) as Hc. unfold is_running, get, Smtp.IsRunning in Hr. rewrite Hc, Hi in Hr. congruence.
Qed.

Lemma relay_stop_outcome srv :
  match relay_stop srv with
  | Some srv' => Relay.Stop srv srv' ∧ (∀ q, Relay.queue srv = Some q → RelayQueue.stopCh q = false) ∧
      Relay.grpcSrv srv' = false ∧ (∀ q, Relay.queue srv' = Some q → RelayQueue.stopCh q = true)
  | None => ∃ q, Relay.queue srv = Some q ∧ RelayQueue.stopCh q = true
  end.
Proof.
  pose proof (relay_stops srv) as H. destruct (relay_stop srv) as [srv'|]; [|done]. split; [done|].
  destruct H as [Hn|q q' Hq Hs]; simpl.
  - split_and!; [intros q Hq; congruence|done|done].
  - apply RelayQueue.Stop_stopped in Hs as [Ho Hc]. split_and!; [intros q0 Hq0; congruence|done|by intros q0 [= <-]].
Qed.

(** What closing panics on: a channel that is closed already. *)
Definition closed_before (r : running) : Prop :=
  heartbeatCh r = Some true ∨ (∃ l, disp r = Some l ∧ Dispatcher.stopped l = true) ∨
  (∃ srv q, relay_state r = Some srv ∧ Relay.queue srv = Some q ∧ RelayQueue.stopCh q = true).

Lemma Close_outcome o w r : Close o w r = None ↔ closed_before r.
Proof.
  unfold Close, closed_before. case_bool_decide as Hh; [tauto|].
  assert ((match relay_state r with
           | Some srv => match relay_stop srv with Some srv' => Some (Some srv') | None => None end
           | None => Some None
           end = None) ↔
          (∃ srv q, relay_state r = Some srv ∧ Relay.queue srv = Some q ∧ RelayQueue.stopCh q = true)) as Hr.
  { destruct (relay_state r) as [srv|]; [|by split; [|intros (? & ? & ? & _)]].
    pose proof (relay_stop_outcome srv) as Ho. destruct (relay_stop srv) as [srv'|].
    - split; [done|]. intros (srv0 & q & [= <-] & Hq & Hc). destruct Ho as (_ & Hopen & _).
      rewrite (Hopen q Hq) in Hc. done.
    - split; [|done]. destruct Ho as (q & Hq & Hc). eauto. }
  destruct (match relay_state r with Some _ => _ | None => _ end) as [relay|].
  - destruct (disp r) as [l|]; [unfold Dispatcher.stop; destruct (Dispatcher.stopped l) eqn:Hl|];
      (split; [|intros [?|[(l0 & Heq & Hs)|H]]; [done| |by apply Hr in H]]); try done; [eauto|congruence].
  - split; [intros _; right; right; by apply Hr|done].
Qed.

(** What a first [Close] leaves. *)
Lemma Close_rest o w r res r' : live r → Close o w r = Some (res, r') →
  res = cl_store w ∧ at_rest r' ∧
  (closed_before r' ↔ heartbeatCh r ≠ None ∨ disp r ≠ None ∨ (∃ srv q, relay_state r = Some srv ∧ Relay.queue srv = Some q)).
Proof.
  intros [_ H2 H3 H4 H5 _]. unfold Close. case_bool_decide; [done|].
  set (pool' := match fwd _ with Some _ => _ | None => _ end).
  assert (Forwarder.Forwarder.conns pool' = ∅) as Hp.
  { unfold pool'. destruct (fwd (rn r)); [apply Forwarder.Forwarder.Close_conns|by apply H2]. }
  clearbody pool'. destruct (match relay_state r with Some _ => _ | None => _ end) as [relay|] eqn:Hr; [|done].
  destruct (match disp r with Some _ => _ | None => _ end) as [d|] eqn:Hd; [|done]. intros [= <- <-].
  assert (∀ srv, relay = Some srv → ∃ srv0, relay_state r = Some srv0 ∧ Relay.Stop srv0 srv ∧ Relay.grpcSrv srv = false) as Hrel.
  { intros srv ->. destruct (relay_state r) as [srv0|]; [|done]. pose proof (relay_stop_outcome srv0) as Ho.
    destruct (relay_stop srv0); [|done]. injection Hr as ->. exists srv0. by destruct Ho as (? & _ & ? & _). }
  assert (∀ l, d = Some l → l = Dispatcher.MkLifecycle (Dispatcher.subscribed l) 0 0 true ∧ disp r ≠ None) as Hdl.
  { intros l ->. destruct (disp r) as [l0|]; [|done]. unfold Dispatcher.stop in Hd.
    destruct (Dispatcher.stopped l0); [done|]. by injection Hd as <-. }
  split; [done|]. split.
  - split; simpl; auto using close_listener_none.
    + by destruct (heartbeatCh r).
    + intros srv Hs. destruct (Hrel srv Hs) as (srv0 & _ & ? & ?). eauto.
    + intros l Hl. by destruct (Hdl l Hl) as [-> _].
  - unfold closed_before. simpl. split.
    + intros [Hh|[(l & Hl & _)|(srv & q & Hs & Hq & _)]].
      * left. by destruct (heartbeatCh r).
      * right. left. by apply (Hdl l Hl).
      * right. right. destruct (Hrel srv Hs) as (srv0 & Hs0 & Hst & _). exists srv0.
        destruct Hst as [|q0 q1 Hq0 _]; [done|eauto].
    + intros [Hh|[Hh|(srv & q & Hs & Hq)]].
      * left. by destruct (heartbeatCh r).
      * right. left. destruct (disp r) as [l0|]; [|done]. destruct (Dispatcher.stop l0) as [l|]; [|done].
        injection Hd as <-. exists l. split; [done|]. by destruct (Hdl l eq_refl) as [-> _].
      * right. right. rewrite Hs in Hr. pose proof (relay_stop_outcome srv) as Ho.
        destruct (relay_stop srv) as [srv'|]; [|done]. injection Hr as <-. destruct Ho as (Hst & _ & _ & Hc).
        destruct Hst as [|q0 q1 Hq0 _]; [congruence|]. eauto 6.
Qed.

(** The parts that come straight from the options. *)
Lemma NewController_parts now w opts (env : Env R S) n held env' :
  NewController now w opts env = (Ok n, held, env') →
  let cfg := foldl apply_option default_options opts in
  smtpFactory_ n = smtpFactory cfg ∧ (fwd n = None ↔ use_redis cfg = false ∧ relayBackend cfg = None).
Proof.
  unfold NewController. set (cfg0 := foldl _ _ _). set (cfg := with_nodeID w cfg0).
  assert (smtpFactory cfg = smtpFactory cfg0 ∧ use_redis cfg = use_redis cfg0 ∧ relayBackend cfg = relayBackend cfg0) as (H1 & H2 & H3).
  { unfold cfg, with_nodeID. case_bool_decide; by destruct cfg0. }
  destruct (connect w); [|done]. destruct (Nodekey.EnsureKey _ _ _) as [[record|] s']; [|done].
  destruct (Nodekey.DecodePrivate _) as [priv|]; [|done]. destruct (factory cfg _) as [[mbx|] evs]; [|done].
  unfold base_registry, with_relay. rewrite <-H1, <-H2, <-H3. destruct (use_redis cfg).
  - destruct (Redis.Announce _ _ _ _) as [[[]|] r']; [|done]. destruct (relayBackend cfg) as [b|].
    + destruct (Relay.Start _ _ _) as [[[]|] srv]; [|done]. destruct (start_webhook w cfg priv); [|done].
      intros [= <- _ _]. split; [done|]. by split; [|intros []].
    + destruct (start_webhook w cfg priv); [|done]. intros [= <- _ _]. split; [done|]. by split; [|intros []].
  - destruct (relayBackend cfg) as [b|].
    + destruct (Relay.Start _ _ _) as [[[]|] srv]; [|done]. destruct (start_webhook w cfg priv); [|done].
      intros [= <- _ _]. split; [done|]. by split; [|intros []].
    + destruct (start_webhook w cfg priv); [|done]. intros [= <- _ _]. done.
Qed.

Lemma with_relay_open now cfg listen reg resolver reg' resolver' srv :
  with_relay now cfg listen reg resolver = Ok (reg', resolver', Some srv) →
  ∀ q, Relay.queue srv = Some q → RelayQueue.stopCh q = false.
Proof.
  unfold with_relay, Relay.New, Relay.Start. destruct (relayBackend cfg); [|done].
  destruct (relayQueueCfg cfg), listen; simpl; try done; intros [= _ _ <-]; simpl; [by intros ? [= <-]|done].
Qed.

Lemma boot_live n :
  (∀ s c l, dispatcher n = Some (s, c, l) → Dispatcher.stopped l = false) → relay_open (boot n) → live (boot n).
Proof.
  intros Hd Hq. split; [simpl; by destruct (heartbeater n)|done|exact Hq|by intros i s|by intros i s|simpl].
  intros l Hl. destruct (dispatcher n) as [[[s c] l']|] eqn:Hn; [|done]. injection Hl as <-. by eapply Hd.
Qed.

(** A controller that started has not been closed. *)
Lemma started_live now w opts (env : Env R S) n held env' :
  NewController now w opts env = (Ok n, held, env') → live (boot n).
Proof.
  unfold NewController. set (cfg := with_nodeID _ _). destruct (connect w); [|done].
  destruct (Nodekey.EnsureKey _ _ _) as [[record|] s']; [|done]. destruct (Nodekey.DecodePrivate _) as [priv|]; [|done].
  destruct (factory cfg _) as [[mbx|] evs]; [|done].
  destruct (base_registry now cfg _) as [[[reg resolver]|] env1]; [|done].
  destruct (with_relay _ _ _ _ _) as [[[reg' resolver'] srv]|] eqn:Hrel; [|done].
  destruct (start_webhook w cfg priv) as [d|] eqn:Hd; [|done]. intros [= <- _ _]. apply boot_live; simpl.
  - intros s c l Hs. by destruct (start_webhook_key _ _ _ _ _ _ _ Hd Hs) as (_ & _ & ->).
  - intros srv0 q Hs Hq. simpl in Hs. rewrite Hs in Hrel. by eapply with_relay_open.
Qed.

Lemma Close_live o w r : live r → ∃ r', Close o w r = Some (cl_store w, r') ∧ at_rest r' ∧
  (closed_before r' ↔ heartbeatCh r ≠ None ∨ disp r ≠ None ∨ (∃ srv q, relay_state r = Some srv ∧ Relay.queue srv = Some q)).
Proof.
  intros Hl. destruct (Close o w r) as [[res r']|] eqn:Hc.
  - destruct (Close_rest _ _ _ _ _ Hl Hc) as (-> & Hrest & Hagain). by exists r'.
  - exfalso. apply Close_outcome in Hc. destruct Hl as [H1 _ H3 _ _ H6].
    destruct Hc as [?|[(l & Hdl & Hs)|(srv & q & Hs & Hqs & Hc)]]; [done| |].
    + by rewrite (H6 l Hdl) in Hs.
    + by rewrite (H3 srv q Hs Hqs) in Hc.
Qed.


End Close.
End Node.
End Node.

(** ** Concrete controllers *)
Module ControllerDemo.
Import Server.Server Lifecycle Ports Node Server.ServerDemo Mailbox MailboxDemo.
#[local] Existing Instances MemStore.ops MemStore.laws RedisMem.ops RedisMem.laws RedisMem.codec.
#[local] Existing Instances Relay.demo_network Nodekey.demo_ed25519 ascii_only.

Definition demo_world : world :=
  MkWorld "u-u-i-d" (Ok ()) (Ok (Nodekey.demo_pub "a", Nodekey.demo_priv "b")) (Ok "127.0.0.1:7777") (Ok ()).
Definition demo_options : list (Option_ (P := string)) :=
  [WithAddress "host1:50051"; WithRedisClient true; WithWebhook []; WithMailboxPlugins ["p"];
   WithOutboundRelay "outbound" (Relay.SMTPBackend Relay.demo_smtp);
   WithOutboundRelayQueue (RelayQueue.MkQueueConfig 2 3 0 0)].
Definition demo_start := NewController 0 demo_world demo_options demo_env.

Lemma NewController_wiring_witness :
  match demo_start with
  | (Ok n, _, env') =>
      nodeID (ctrl n) ≠ "" ∧
      (∃ m, Lookup 9 some_order (registry (ctrl n)) "bob@else.org" env' = Ok m)
  | (Err _, _, _) => False
  end.
Proof.
  destruct demo_start as [[[n|e] held] env'] eqn:Hs; [|vm_compute in Hs; discriminate Hs].
  destruct (NewController_wiring 0 demo_world demo_options demo_env n held env') as (Hid & _ & _ & _ & _ & _ & Hrel).
  - discriminate.
  - intros pub priv [= <- <-]. split; reflexivity.
  - exact Hs.
  - split; [exact Hid|]. destruct (relaySrv n) as [srv|] eqn:Hsrv.
    + destruct (Hrel srv eq_refl) as (id & res & _ & Hall). exact (proj2 (Hall 9 env') some_order "bob@else.org").
    + exfalso. assert (relaySrv <$> (match demo_start.1.1 with Ok n => Some n | Err _ => None end) = Some None) as Hx.
      { rewrite Hs. simpl. by rewrite Hsrv. }
      vm_compute in Hx. discriminate Hx.
Defined.

(** A relay that is given no time: its queue is closed and its workers cancelled. *)
Definition stop_now (srv : Relay.RelayServer) : option Relay.RelayServer :=
  match Relay.queue srv with
  | None => Some (Relay.MkRelayServer (Relay.backend srv) None (Relay.queue_cfg srv) (Relay.started srv) (Relay.lis srv) false)
  | Some q =>
      if RelayQueue.stopCh q then None
      else Some (Relay.MkRelayServer (Relay.backend srv) (Some (RelayQueue.cancel (RelayQueue.close_stopCh q)))
                   (Relay.queue_cfg srv) (Relay.started srv) (Relay.lis srv) false)
  end.

Lemma stop_now_stops srv :
  match stop_now srv with
  | Some srv' => Relay.Stop srv srv'
  | None => ∃ q, Relay.queue srv = Some q ∧ RelayQueue.stopCh q = true
  end.
Proof.
  unfold stop_now. destruct (Relay.queue srv) as [q|] eqn:Hq; [|by apply Relay.stop_server].
  destruct (RelayQueue.stopCh q) eqn:Hs; [eauto|].
  eapply Relay.stop_server_queue; [exact Hq|]. by apply RelayQueue.stop_expired.
Qed.

(** The node above, with an SMTP listener. *)
Definition demo_boot : option (running (P := string)) := match demo_start with (Ok n, _, _) => Some (boot n) | _ => None end.

Definition with_smtp (r : running (P := string)) : running (P := string) :=
  MkRunning (rn r) (heartbeatCh r) (pool r) (relay_state r)
    (StartSMTP (smtpFactory_ (rn r)) (Ok ()) (Ok ()) (smtpConfigFromProto smtp_request) (smtp r)).2
    (lmtp r) (disp r) (mailbox_closed r) (store_closed r).

Definition all_ok : closings := MkClosings (Ok ()) (Ok ()) (Ok ()).
Definition no_calls (_ : list (Forwarder.Forwarder.Call * result unit)) (_ : Forwarder.Forwarder.Call) : result unit := Ok ().


End ControllerDemo.
