(* ===== verification/Observability.v ===== *)
(** * The metrics endpoint

    Models [internal/observability/metrics.go]: constructing, starting and
    stopping the server that exposes [/metrics]. The exporter, the HTTP server
    and the meter provider are libraries; their outcomes are arguments. *)
From S2P Require Import Prelude.

Module Observability.

(** [Addr] of the HTTP server, whether it listens, and whether the meter provider
    has been shut down. *)
Record MetricsServer := MkMetricsServer { Addr : string; listening : bool; provider_down : bool }.

(** [NewMetricsServer(addr, logger)]; [exporter] is the outcome of
    [otelprometheus.New]. *)
Definition NewMetricsServer (exporter : result unit) (addr : string) : result MetricsServer :=
  match exporter with
  | Err err => Err (EWrap (Text "observability: create prometheus exporter: %w" []) err)
  | Ok _ => Ok (MkMetricsServer addr false false)
  end.

(** [Start]; [listen] is [net.Listen] for an address. *)
Definition Start (listen : string → result unit) (s : MetricsServer) : result unit * MetricsServer :=
  match listen (Addr s) with
  | Err err => (Err (EWrap (Text "observability: listen %s: %w" [AStr (Addr s)]) err), s)
  | Ok _ => (Ok (), MkMetricsServer (Addr s) true (provider_down s))
  end.

(** [Stop]: both are shut down; errors are only logged. *)
Definition Stop (s : MetricsServer) : MetricsServer := MkMetricsServer (Addr s) false true.

End Observability.
