(* ===== verification/Config.v ===== *)
(** * The configuration

    Models [cmd/config.go] and the flags of [cmd/serve.go]: the records, the table
    of flags with their defaults, the table that binds configuration keys to
    flags, and the resolution of a typed [Config]. Viper, which merges the
    sources, is a class; its laws are the precedence that [config.go] documents. *)
From Stdlib Require Import QArith.
From S2P Require Import Prelude GoStrings.
Local Open Scope Z_scope.

(** ** Records *)

Record ServerConfig := MkServerConfig {
  srv_Port : string; srv_Host : string; srv_Mode : string; srv_DB : string;
  srv_NodeID : string }.

Record SMTPConfig := MkSMTPConfig {
  smtp_Enabled : bool; smtp_Port : Z; smtp_BindAddr : string; smtp_Domain : string;
  smtp_InsecureAuth : bool; smtp_MaxMsgBytes : Z; smtp_MaxRecipients : Z;
  smtp_MaxConnections : Z; smtp_ReadTimeoutSecs : Z; smtp_WriteTimeoutSecs : Z;
  smtp_RateConns : Q; smtp_RateBurst : Z; smtp_RateConnsPerIP : Q; smtp_RateBurstPerIP : Z;
  smtp_RelayEnabled : bool; smtp_TLSCertFile : string; smtp_TLSKeyFile : string;
  smtp_MaxAuthFailuresPerSession : Z; smtp_CheckSPF : bool; smtp_VerifyDKIM : bool }.

Record LMTPConfig := MkLMTPConfig {
  lmtp_Enabled : bool; lmtp_SocketPath : string; lmtp_Port : Z; lmtp_BindAddr : string;
  lmtp_Domain : string; lmtp_MaxMsgBytes : Z; lmtp_MaxRecipients : Z; lmtp_ReadTimeoutSecs : Z;
  lmtp_WriteTimeoutSecs : Z }.

Record GRPCConfig := MkGRPCConfig {
  grpc_AuthToken : string }.

Record WebhookConfig := MkWebhookConfig {
  wh_Enabled : bool; wh_Workers : Z; wh_MaxAttempts : Z; wh_TimeoutSecs : Z }.

Record ClusterConfig := MkClusterConfig {
  cl_RedisURL : string }.

Record CrowdSecPluginConfig := MkCrowdSecPluginConfig {
  cs_Enabled : bool; cs_Endpoint : string; cs_APIKey : string; cs_TimeoutSecs : Z;
  cs_FailOpen : bool; cs_CacheTTLSecs : Z }.

Record DNSBLPluginConfig := MkDNSBLPluginConfig {
  dnsbl_Enabled : bool; dnsbl_Zones : list string; dnsbl_CacheTTLSecs : Z;
  dnsbl_FailOpen : bool }.

Record AddressRuleConfig := MkAddressRuleConfig {
  rule_ID : string; rule_Pattern : string; rule_Field : string }.

Record AddressFilterPluginConfig := MkAddressFilterPluginConfig {
  af_Enabled : bool; af_Mode : string; af_Rules : list AddressRuleConfig }.

Record AttachmentPluginConfig := MkAttachmentPluginConfig {
  att_Enabled : bool; att_MaxCount : Z; att_MaxSingleBytes : Z; att_MaxTotalBytes : Z;
  att_AllowedMIMEs : list string; att_BlockedMIMEs : list string }.

Record SMTPSecurityPluginConfig := MkSMTPSecurityPluginConfig {
  ss_Enabled : bool; ss_MaxAuthFailuresPerIP : Z; ss_LockoutMinutes : Z;
  ss_EnvelopeSpoofCheck : bool; ss_AllowedSenderDomains : list string;
  ss_BlockedSenderDomains : list string; ss_MaxSubjectBytes : Z;
  ss_RequireAuthenticatedSender : bool; ss_RedisLockout : bool }.

Record EmailAuthPluginConfig := MkEmailAuthPluginConfig {
  ea_Enabled : bool; ea_SPFPolicy : string; ea_DKIMPolicy : string; ea_DMARCPolicy : string }.

Record SpamCheckerPluginConfig := MkSpamCheckerPluginConfig {
  spam_Enabled : bool; spam_Endpoint : string; spam_Threshold : Q; spam_TagOnly : bool;
  spam_TimeoutSecs : Z }.

Record AntiVirusPluginConfig := MkAntiVirusPluginConfig {
  av_Enabled : bool; av_Endpoint : string; av_TimeoutSecs : Z; av_FailOpen : bool }.

Record SecurityAgentPluginConfig := MkSecurityAgentPluginConfig {
  sa_Enabled : bool; sa_MaxRecipients : Z; sa_MaxBodyBytes : Z; sa_RatePerSender : Q;
  sa_BurstPerSender : Z }.

Record PluginsConfig := MkPluginsConfig {
  pl_CrowdSec : CrowdSecPluginConfig; pl_DNSBL : DNSBLPluginConfig;
  pl_AddressFilter : AddressFilterPluginConfig; pl_Attachment : AttachmentPluginConfig;
  pl_SMTPSecurity : SMTPSecurityPluginConfig; pl_EmailAuth : EmailAuthPluginConfig;
  pl_SpamChecker : SpamCheckerPluginConfig; pl_AntiVirus : AntiVirusPluginConfig;
  pl_SecurityAgent : SecurityAgentPluginConfig }.

Record OutboundConfig := MkOutboundConfig {
  out_Backend : string; out_NodeID : string; out_From : string; out_SMTPHost : string;
  out_SMTPUsername : string; out_SMTPPassword : string; out_SMTPTimeoutSecs : Z;
  out_SendGridAPIKey : string; out_SendGridTimeoutSecs : Z; out_DKIMPrivateKeyFile : string;
  out_DKIMDomain : string; out_DKIMSelector : string; out_QueueEnabled : bool;
  out_QueueWorkers : Z; out_QueueMaxRetries : Z; out_QueueBaseDelaySecs : Z;
  out_QueueMaxDelaySecs : Z }.

Record MailboxStoreConfig := MkMailboxStoreConfig {
  mbx_Backend : string; mbx_DSN : string; mbx_Database : string }.

Record ObservabilityConfig := MkObservabilityConfig {
  obs_MetricsPort : Z; obs_HealthEnabled : bool }.

Record Config := MkConfig {
  cfg_Server : ServerConfig; cfg_SMTP : SMTPConfig; cfg_LMTP : LMTPConfig;
  cfg_GRPC : GRPCConfig; cfg_Webhook : WebhookConfig; cfg_Cluster : ClusterConfig;
  cfg_Plugins : PluginsConfig; cfg_Outbound : OutboundConfig;
  cfg_MailboxStore : MailboxStoreConfig; cfg_Observability : ObservabilityConfig }.

(** ** Values, flags and keys *)

Inductive value : Type :=
| VString (s : string)
| VBool (b : bool)
| VInt (z : Z)
| VFloat (q : Q)
| VStrings (l : list string)
| VRules (l : list AddressRuleConfig).

Inductive kind : Set := KString | KBool | KInt | KFloat | KStrings | KRules.

#[export] Instance kind_eq_dec : EqDecision kind.
Proof. solve_decision. Defined.

Definition kind_of (v : value) : kind :=
  match v with
  | VString _ => KString | VBool _ => KBool | VInt _ => KInt
  | VFloat _ => KFloat | VStrings _ => KStrings | VRules _ => KRules
  end.

(** The flags of [serve] with their defaults. *)
Definition flags : list (string * value) := [
  ("port", VString "50051"); ("mode", VString "standalone"); ("db", VString "postbox.db");
  ("node-id", VString ""); ("host", VString "localhost"); ("smtp-enabled", VBool false);
  ("smtp-port", VInt 2525); ("smtp-bind-addr", VString ""); ("smtp-domain", VString "localhost");
  ("smtp-insecure-auth", VBool false); ("smtp-max-msg-bytes", VInt 0);
  ("smtp-max-recipients", VInt 0); ("smtp-max-connections", VInt 0);
  ("smtp-read-timeout-secs", VInt 0); ("smtp-write-timeout-secs", VInt 0);
  ("smtp-rate-conns", VFloat 0); ("smtp-rate-burst", VInt 0);
  ("smtp-rate-conns-per-ip", VFloat 0); ("smtp-rate-burst-per-ip", VInt 0);
  ("smtp-relay-enabled", VBool false); ("lmtp-enabled", VBool false);
  ("lmtp-socket-path", VString ""); ("lmtp-port", VInt 2424);
  ("lmtp-bind-addr", VString "127.0.0.1"); ("lmtp-domain", VString "localhost");
  ("lmtp-max-msg-bytes", VInt 0); ("lmtp-max-recipients", VInt 0);
  ("lmtp-read-timeout-secs", VInt 0); ("lmtp-write-timeout-secs", VInt 0);
  ("redis-url", VString ""); ("webhook-enabled", VBool false); ("webhook-workers", VInt 4);
  ("webhook-max-attempts", VInt 5); ("webhook-timeout-secs", VInt 10);
  ("grpc-auth-token", VString ""); ("smtp-tls-cert", VString ""); ("smtp-tls-key", VString "");
  ("smtp-max-auth-failures", VInt 0); ("smtp-check-spf", VBool false);
  ("smtp-verify-dkim", VBool false); ("crowdsec-enabled", VBool false);
  ("crowdsec-endpoint", VString "http://localhost:8080"); ("crowdsec-api-key", VString "");
  ("crowdsec-timeout-secs", VInt 2); ("crowdsec-fail-open", VBool true);
  ("crowdsec-cache-ttl-secs", VInt 30); ("dnsbl-enabled", VBool false);
  ("dnsbl-zones", VStrings []); ("dnsbl-cache-ttl-secs", VInt 300);
  ("dnsbl-fail-open", VBool true); ("email-auth-enabled", VBool false);
  ("email-auth-spf-policy", VString "off"); ("email-auth-dkim-policy", VString "off");
  ("email-auth-dmarc-policy", VString "off"); ("smtp-security-enabled", VBool false);
  ("smtp-security-max-auth-failures", VInt 5); ("smtp-security-lockout-minutes", VInt 15);
  ("smtp-security-spoof-check", VBool false); ("smtp-security-require-auth", VBool false);
  ("smtp-security-allowed-domains", VStrings []); ("smtp-security-blocked-domains", VStrings []);
  ("smtp-security-redis-lockout", VBool false); ("address-filter-enabled", VBool false);
  ("address-filter-mode", VString "block"); ("attachment-enabled", VBool false);
  ("attachment-max-count", VInt 0); ("attachment-max-single-bytes", VInt 0);
  ("attachment-max-total-bytes", VInt 0); ("attachment-allowed-mimes", VStrings []);
  ("attachment-blocked-mimes", VStrings []); ("spam-enabled", VBool false);
  ("spam-endpoint", VString ""); ("spam-threshold", VFloat 5); ("spam-tag-only", VBool false);
  ("spam-timeout-secs", VInt 5); ("av-enabled", VBool false); ("av-endpoint", VString "");
  ("av-fail-open", VBool false); ("av-timeout-secs", VInt 30); ("security-enabled", VBool false);
  ("security-max-recipients", VInt 0); ("security-max-body-bytes", VInt 0);
  ("security-rate-per-sender", VFloat 0); ("security-burst-per-sender", VInt 1);
  ("outbound-backend", VString ""); ("outbound-from", VString "");
  ("outbound-node-id", VString "outbound"); ("outbound-smtp-host", VString "");
  ("outbound-smtp-username", VString ""); ("outbound-smtp-password", VString "");
  ("outbound-smtp-timeout-secs", VInt 30); ("outbound-sendgrid-api-key", VString "");
  ("outbound-sendgrid-timeout-secs", VInt 10); ("outbound-dkim-private-key-file", VString "");
  ("outbound-dkim-domain", VString ""); ("outbound-dkim-selector", VString "");
  ("outbound-queue", VBool false); ("outbound-queue-workers", VInt 4);
  ("outbound-queue-max-retries", VInt 7); ("outbound-queue-base-delay-secs", VInt 5);
  ("outbound-queue-max-delay-secs", VInt 14400); ("mailbox-backend", VString "memory");
  ("mailbox-dsn", VString ""); ("mailbox-db", VString ""); ("metrics-port", VInt 9090);
  ("health-enabled", VBool true)].

(** [v.BindPFlag(key, flag)]. *)
Definition bindings : list (string * string) := [
  ("server.port", "port"); ("server.mode", "mode"); ("server.db", "db");
  ("server.node_id", "node-id"); ("server.host", "host"); ("smtp.enabled", "smtp-enabled");
  ("smtp.port", "smtp-port"); ("smtp.bind_addr", "smtp-bind-addr");
  ("smtp.domain", "smtp-domain"); ("smtp.insecure_auth", "smtp-insecure-auth");
  ("smtp.max_msg_bytes", "smtp-max-msg-bytes"); ("smtp.max_recipients", "smtp-max-recipients");
  ("smtp.max_connections", "smtp-max-connections");
  ("smtp.read_timeout_secs", "smtp-read-timeout-secs");
  ("smtp.write_timeout_secs", "smtp-write-timeout-secs"); ("smtp.rate_conns", "smtp-rate-conns");
  ("smtp.rate_burst", "smtp-rate-burst"); ("smtp.rate_conns_per_ip", "smtp-rate-conns-per-ip");
  ("smtp.rate_burst_per_ip", "smtp-rate-burst-per-ip");
  ("smtp.relay_enabled", "smtp-relay-enabled"); ("smtp.tls_cert_file", "smtp-tls-cert");
  ("smtp.tls_key_file", "smtp-tls-key");
  ("smtp.max_auth_failures_per_session", "smtp-max-auth-failures");
  ("smtp.check_spf", "smtp-check-spf"); ("smtp.verify_dkim", "smtp-verify-dkim");
  ("grpc.auth_token", "grpc-auth-token"); ("plugins.crowdsec.enabled", "crowdsec-enabled");
  ("plugins.crowdsec.endpoint", "crowdsec-endpoint");
  ("plugins.crowdsec.api_key", "crowdsec-api-key");
  ("plugins.crowdsec.timeout_secs", "crowdsec-timeout-secs");
  ("plugins.crowdsec.fail_open", "crowdsec-fail-open");
  ("plugins.crowdsec.cache_ttl_secs", "crowdsec-cache-ttl-secs");
  ("plugins.dnsbl.enabled", "dnsbl-enabled"); ("plugins.dnsbl.zones", "dnsbl-zones");
  ("plugins.dnsbl.cache_ttl_secs", "dnsbl-cache-ttl-secs");
  ("plugins.dnsbl.fail_open", "dnsbl-fail-open");
  ("plugins.email_auth.enabled", "email-auth-enabled");
  ("plugins.email_auth.spf_policy", "email-auth-spf-policy");
  ("plugins.email_auth.dkim_policy", "email-auth-dkim-policy");
  ("plugins.email_auth.dmarc_policy", "email-auth-dmarc-policy");
  ("lmtp.enabled", "lmtp-enabled"); ("lmtp.socket_path", "lmtp-socket-path");
  ("lmtp.port", "lmtp-port"); ("lmtp.bind_addr", "lmtp-bind-addr");
  ("lmtp.domain", "lmtp-domain"); ("lmtp.max_msg_bytes", "lmtp-max-msg-bytes");
  ("lmtp.max_recipients", "lmtp-max-recipients");
  ("lmtp.read_timeout_secs", "lmtp-read-timeout-secs");
  ("lmtp.write_timeout_secs", "lmtp-write-timeout-secs"); ("cluster.redis_url", "redis-url");
  ("webhook.enabled", "webhook-enabled"); ("webhook.workers", "webhook-workers");
  ("webhook.max_attempts", "webhook-max-attempts");
  ("webhook.timeout_secs", "webhook-timeout-secs");
  ("plugins.smtp_security.enabled", "smtp-security-enabled");
  ("plugins.smtp_security.max_auth_failures_per_ip", "smtp-security-max-auth-failures");
  ("plugins.smtp_security.lockout_minutes", "smtp-security-lockout-minutes");
  ("plugins.smtp_security.envelope_spoof_check", "smtp-security-spoof-check");
  ("plugins.smtp_security.require_authenticated_sender", "smtp-security-require-auth");
  ("plugins.smtp_security.allowed_sender_domains", "smtp-security-allowed-domains");
  ("plugins.smtp_security.blocked_sender_domains", "smtp-security-blocked-domains");
  ("plugins.smtp_security.redis_lockout", "smtp-security-redis-lockout");
  ("plugins.address_filter.enabled", "address-filter-enabled");
  ("plugins.address_filter.mode", "address-filter-mode");
  ("plugins.attachment.enabled", "attachment-enabled");
  ("plugins.attachment.max_count", "attachment-max-count");
  ("plugins.attachment.max_single_bytes", "attachment-max-single-bytes");
  ("plugins.attachment.max_total_bytes", "attachment-max-total-bytes");
  ("plugins.attachment.allowed_mimes", "attachment-allowed-mimes");
  ("plugins.attachment.blocked_mimes", "attachment-blocked-mimes");
  ("plugins.spam_checker.enabled", "spam-enabled");
  ("plugins.spam_checker.endpoint", "spam-endpoint");
  ("plugins.spam_checker.threshold", "spam-threshold");
  ("plugins.spam_checker.tag_only", "spam-tag-only");
  ("plugins.spam_checker.timeout_secs", "spam-timeout-secs");
  ("plugins.antivirus.enabled", "av-enabled"); ("plugins.antivirus.endpoint", "av-endpoint");
  ("plugins.antivirus.fail_open", "av-fail-open");
  ("plugins.antivirus.timeout_secs", "av-timeout-secs");
  ("plugins.security_agent.enabled", "security-enabled");
  ("plugins.security_agent.max_recipients", "security-max-recipients");
  ("plugins.security_agent.max_body_bytes", "security-max-body-bytes");
  ("plugins.security_agent.rate_per_sender", "security-rate-per-sender");
  ("plugins.security_agent.burst_per_sender", "security-burst-per-sender");
  ("outbound.backend", "outbound-backend"); ("outbound.from", "outbound-from");
  ("outbound.node_id", "outbound-node-id"); ("outbound.smtp_host", "outbound-smtp-host");
  ("outbound.smtp_username", "outbound-smtp-username");
  ("outbound.smtp_password", "outbound-smtp-password");
  ("outbound.smtp_timeout_secs", "outbound-smtp-timeout-secs");
  ("outbound.sendgrid_api_key", "outbound-sendgrid-api-key");
  ("outbound.sendgrid_timeout_secs", "outbound-sendgrid-timeout-secs");
  ("outbound.dkim_private_key_file", "outbound-dkim-private-key-file");
  ("outbound.dkim_domain", "outbound-dkim-domain");
  ("outbound.dkim_selector", "outbound-dkim-selector");
  ("outbound.queue_enabled", "outbound-queue");
  ("outbound.queue_workers", "outbound-queue-workers");
  ("outbound.queue_max_retries", "outbound-queue-max-retries");
  ("outbound.queue_base_delay_secs", "outbound-queue-base-delay-secs");
  ("outbound.queue_max_delay_secs", "outbound-queue-max-delay-secs");
  ("mailbox_store.backend", "mailbox-backend"); ("mailbox_store.dsn", "mailbox-dsn");
  ("mailbox_store.database", "mailbox-db"); ("observability.metrics_port", "metrics-port");
  ("observability.health_enabled", "health-enabled")].

(** The keys of [Config] (its [mapstructure] tags) with their types. *)
Definition config_keys : list (string * kind) := [
  ("server.port", KString); ("server.host", KString); ("server.mode", KString);
  ("server.db", KString); ("server.node_id", KString); ("smtp.enabled", KBool);
  ("smtp.port", KInt); ("smtp.bind_addr", KString); ("smtp.domain", KString);
  ("smtp.insecure_auth", KBool); ("smtp.max_msg_bytes", KInt); ("smtp.max_recipients", KInt);
  ("smtp.max_connections", KInt); ("smtp.read_timeout_secs", KInt);
  ("smtp.write_timeout_secs", KInt); ("smtp.rate_conns", KFloat); ("smtp.rate_burst", KInt);
  ("smtp.rate_conns_per_ip", KFloat); ("smtp.rate_burst_per_ip", KInt);
  ("smtp.relay_enabled", KBool); ("smtp.tls_cert_file", KString); ("smtp.tls_key_file", KString);
  ("smtp.max_auth_failures_per_session", KInt); ("smtp.check_spf", KBool);
  ("smtp.verify_dkim", KBool); ("lmtp.enabled", KBool); ("lmtp.socket_path", KString);
  ("lmtp.port", KInt); ("lmtp.bind_addr", KString); ("lmtp.domain", KString);
  ("lmtp.max_msg_bytes", KInt); ("lmtp.max_recipients", KInt); ("lmtp.read_timeout_secs", KInt);
  ("lmtp.write_timeout_secs", KInt); ("grpc.auth_token", KString); ("webhook.enabled", KBool);
  ("webhook.workers", KInt); ("webhook.max_attempts", KInt); ("webhook.timeout_secs", KInt);
  ("cluster.redis_url", KString); ("plugins.crowdsec.enabled", KBool);
  ("plugins.crowdsec.endpoint", KString); ("plugins.crowdsec.api_key", KString);
  ("plugins.crowdsec.timeout_secs", KInt); ("plugins.crowdsec.fail_open", KBool);
  ("plugins.crowdsec.cache_ttl_secs", KInt); ("plugins.dnsbl.enabled", KBool);
  ("plugins.dnsbl.zones", KStrings); ("plugins.dnsbl.cache_ttl_secs", KInt);
  ("plugins.dnsbl.fail_open", KBool); ("plugins.address_filter.enabled", KBool);
  ("plugins.address_filter.mode", KString); ("plugins.address_filter.rules", KRules);
  ("plugins.attachment.enabled", KBool); ("plugins.attachment.max_count", KInt);
  ("plugins.attachment.max_single_bytes", KInt); ("plugins.attachment.max_total_bytes", KInt);
  ("plugins.attachment.allowed_mimes", KStrings); ("plugins.attachment.blocked_mimes", KStrings);
  ("plugins.smtp_security.enabled", KBool);
  ("plugins.smtp_security.max_auth_failures_per_ip", KInt);
  ("plugins.smtp_security.lockout_minutes", KInt);
  ("plugins.smtp_security.envelope_spoof_check", KBool);
  ("plugins.smtp_security.allowed_sender_domains", KStrings);
  ("plugins.smtp_security.blocked_sender_domains", KStrings);
  ("plugins.smtp_security.max_subject_bytes", KInt);
  ("plugins.smtp_security.require_authenticated_sender", KBool);
  ("plugins.smtp_security.redis_lockout", KBool); ("plugins.email_auth.enabled", KBool);
  ("plugins.email_auth.spf_policy", KString); ("plugins.email_auth.dkim_policy", KString);
  ("plugins.email_auth.dmarc_policy", KString); ("plugins.spam_checker.enabled", KBool);
  ("plugins.spam_checker.endpoint", KString); ("plugins.spam_checker.threshold", KFloat);
  ("plugins.spam_checker.tag_only", KBool); ("plugins.spam_checker.timeout_secs", KInt);
  ("plugins.antivirus.enabled", KBool); ("plugins.antivirus.endpoint", KString);
  ("plugins.antivirus.timeout_secs", KInt); ("plugins.antivirus.fail_open", KBool);
  ("plugins.security_agent.enabled", KBool); ("plugins.security_agent.max_recipients", KInt);
  ("plugins.security_agent.max_body_bytes", KInt);
  ("plugins.security_agent.rate_per_sender", KFloat);
  ("plugins.security_agent.burst_per_sender", KInt); ("outbound.backend", KString);
  ("outbound.node_id", KString); ("outbound.from", KString); ("outbound.smtp_host", KString);
  ("outbound.smtp_username", KString); ("outbound.smtp_password", KString);
  ("outbound.smtp_timeout_secs", KInt); ("outbound.sendgrid_api_key", KString);
  ("outbound.sendgrid_timeout_secs", KInt); ("outbound.dkim_private_key_file", KString);
  ("outbound.dkim_domain", KString); ("outbound.dkim_selector", KString);
  ("outbound.queue_enabled", KBool); ("outbound.queue_workers", KInt);
  ("outbound.queue_max_retries", KInt); ("outbound.queue_base_delay_secs", KInt);
  ("outbound.queue_max_delay_secs", KInt); ("mailbox_store.backend", KString);
  ("mailbox_store.dsn", KString); ("mailbox_store.database", KString);
  ("observability.metrics_port", KInt); ("observability.health_enabled", KBool)].

(** The value a table gives a name. *)
Definition assoc {A} (l : list (string * A)) (k : string) : option A :=
  snd <$> head (filter (λ kv, kv.1 = k) l).

(** ** Sources

    Values given on the command line (by flag), in the environment (by variable)
    and in the file (by key), as converted to the type of their key. *)
Record sources := MkSources {
  changed : gmap string value;
  environ : gmap string value;
  file : gmap string value }.

Definition upper_byte (b : Z) : Z := if (97 <=? b) && (b <=? 122) then b - 32 else b.

(** [SetEnvPrefix("POSTBOX")] and the key replacer [.] to [_]. *)
Definition env_byte (b : Z) : Z := if b =? 46 then 95 else upper_byte b.
Fixpoint env_text (k : string) : string :=
  match k with
  | "" => ""
  | String c k' => String (of_byte (env_byte (byte_of c))) (env_text k')
  end.
Definition env_name (key : string) : string := "POSTBOX_" +:+ env_text key.

(** Viper's merged view of a key, for the tables it was given. *)
Class Viper := {
  viper_get : list (string * string) → list (string * value) → sources → string → option value }.

(** Command line over environment over file over the flag's default; a key
    without a flag is read from the file. *)
Class ViperLaws {V : Viper} := {
  viper_bound : ∀ b fl s key flag, assoc b key = Some flag →
    viper_get b fl s key =
      match changed s !! flag with
      | Some v => Some v
      | None => match environ s !! env_name key with
                | Some v => Some v
                | None => match file s !! key with Some v => Some v | None => assoc fl flag end
                end
      end;
  viper_unbound : ∀ b fl s key, assoc b key = None → environ s !! env_name key = None →
    viper_get b fl s key = file s !! key }.

(** ** Resolution *)

Section Resolve.
Context {V : Viper}.
Variable src : sources.

Definition get (key : string) : option value := viper_get bindings flags src key.

Definition get_string (key : string) : string := match get key with Some (VString s) => s | _ => "" end.
Definition get_bool (key : string) : bool := match get key with Some (VBool b) => b | _ => false end.
Definition get_int (key : string) : Z := match get key with Some (VInt z) => z | _ => 0 end.
Definition get_float (key : string) : Q := match get key with Some (VFloat q) => q | _ => 0%Q end.
Definition get_strings (key : string) : list string := match get key with Some (VStrings l) => l | _ => [] end.
Definition get_rules (key : string) : list AddressRuleConfig := match get key with Some (VRules l) => l | _ => [] end.

Definition decode_ServerConfig (pre : string) : ServerConfig :=
  MkServerConfig
    (get_string (pre +:+ "port")) (get_string (pre +:+ "host")) (get_string (pre +:+ "mode"))
    (get_string (pre +:+ "db")) (get_string (pre +:+ "node_id")).

Definition decode_SMTPConfig (pre : string) : SMTPConfig :=
  MkSMTPConfig
    (get_bool (pre +:+ "enabled")) (get_int (pre +:+ "port"))
    (get_string (pre +:+ "bind_addr")) (get_string (pre +:+ "domain"))
    (get_bool (pre +:+ "insecure_auth")) (get_int (pre +:+ "max_msg_bytes"))
    (get_int (pre +:+ "max_recipients")) (get_int (pre +:+ "max_connections"))
    (get_int (pre +:+ "read_timeout_secs")) (get_int (pre +:+ "write_timeout_secs"))
    (get_float (pre +:+ "rate_conns")) (get_int (pre +:+ "rate_burst"))
    (get_float (pre +:+ "rate_conns_per_ip")) (get_int (pre +:+ "rate_burst_per_ip"))
    (get_bool (pre +:+ "relay_enabled")) (get_string (pre +:+ "tls_cert_file"))
    (get_string (pre +:+ "tls_key_file")) (get_int (pre +:+ "max_auth_failures_per_session"))
    (get_bool (pre +:+ "check_spf")) (get_bool (pre +:+ "verify_dkim")).

Definition decode_LMTPConfig (pre : string) : LMTPConfig :=
  MkLMTPConfig
    (get_bool (pre +:+ "enabled")) (get_string (pre +:+ "socket_path"))
    (get_int (pre +:+ "port")) (get_string (pre +:+ "bind_addr"))
    (get_string (pre +:+ "domain")) (get_int (pre +:+ "max_msg_bytes"))
    (get_int (pre +:+ "max_recipients")) (get_int (pre +:+ "read_timeout_secs"))
    (get_int (pre +:+ "write_timeout_secs")).

Definition decode_GRPCConfig (pre : string) : GRPCConfig :=
  MkGRPCConfig
    (get_string (pre +:+ "auth_token")).

Definition decode_WebhookConfig (pre : string) : WebhookConfig :=
  MkWebhookConfig
    (get_bool (pre +:+ "enabled")) (get_int (pre +:+ "workers"))
    (get_int (pre +:+ "max_attempts")) (get_int (pre +:+ "timeout_secs")).

Definition decode_ClusterConfig (pre : string) : ClusterConfig :=
  MkClusterConfig
    (get_string (pre +:+ "redis_url")).

Definition decode_CrowdSecPluginConfig (pre : string) : CrowdSecPluginConfig :=
  MkCrowdSecPluginConfig
    (get_bool (pre +:+ "enabled")) (get_string (pre +:+ "endpoint"))
    (get_string (pre +:+ "api_key")) (get_int (pre +:+ "timeout_secs"))
    (get_bool (pre +:+ "fail_open")) (get_int (pre +:+ "cache_ttl_secs")).

Definition decode_DNSBLPluginConfig (pre : string) : DNSBLPluginConfig :=
  MkDNSBLPluginConfig
    (get_bool (pre +:+ "enabled")) (get_strings (pre +:+ "zones"))
    (get_int (pre +:+ "cache_ttl_secs")) (get_bool (pre +:+ "fail_open")).

Definition decode_AddressFilterPluginConfig (pre : string) : AddressFilterPluginConfig :=
  MkAddressFilterPluginConfig
    (get_bool (pre +:+ "enabled")) (get_string (pre +:+ "mode")) (get_rules (pre +:+ "rules")).

Definition decode_AttachmentPluginConfig (pre : string) : AttachmentPluginConfig :=
  MkAttachmentPluginConfig
    (get_bool (pre +:+ "enabled")) (get_int (pre +:+ "max_count"))
    (get_int (pre +:+ "max_single_bytes")) (get_int (pre +:+ "max_total_bytes"))
    (get_strings (pre +:+ "allowed_mimes")) (get_strings (pre +:+ "blocked_mimes")).

Definition decode_SMTPSecurityPluginConfig (pre : string) : SMTPSecurityPluginConfig :=
  MkSMTPSecurityPluginConfig
    (get_bool (pre +:+ "enabled")) (get_int (pre +:+ "max_auth_failures_per_ip"))
    (get_int (pre +:+ "lockout_minutes")) (get_bool (pre +:+ "envelope_spoof_check"))
    (get_strings (pre +:+ "allowed_sender_domains"))
    (get_strings (pre +:+ "blocked_sender_domains")) (get_int (pre +:+ "max_subject_bytes"))
    (get_bool (pre +:+ "require_authenticated_sender")) (get_bool (pre +:+ "redis_lockout")).

Definition decode_EmailAuthPluginConfig (pre : string) : EmailAuthPluginConfig :=
  MkEmailAuthPluginConfig
    (get_bool (pre +:+ "enabled")) (get_string (pre +:+ "spf_policy"))
    (get_string (pre +:+ "dkim_policy")) (get_string (pre +:+ "dmarc_policy")).

Definition decode_SpamCheckerPluginConfig (pre : string) : SpamCheckerPluginConfig :=
  MkSpamCheckerPluginConfig
    (get_bool (pre +:+ "enabled")) (get_string (pre +:+ "endpoint"))
    (get_float (pre +:+ "threshold")) (get_bool (pre +:+ "tag_only"))
    (get_int (pre +:+ "timeout_secs")).

Definition decode_AntiVirusPluginConfig (pre : string) : AntiVirusPluginConfig :=
  MkAntiVirusPluginConfig
    (get_bool (pre +:+ "enabled")) (get_string (pre +:+ "endpoint"))
    (get_int (pre +:+ "timeout_secs")) (get_bool (pre +:+ "fail_open")).

Definition decode_SecurityAgentPluginConfig (pre : string) : SecurityAgentPluginConfig :=
  MkSecurityAgentPluginConfig
    (get_bool (pre +:+ "enabled")) (get_int (pre +:+ "max_recipients"))
    (get_int (pre +:+ "max_body_bytes")) (get_float (pre +:+ "rate_per_sender"))
    (get_int (pre +:+ "burst_per_sender")).

Definition decode_PluginsConfig (pre : string) : PluginsConfig :=
  MkPluginsConfig
    (decode_CrowdSecPluginConfig (pre +:+ "crowdsec."))
    (decode_DNSBLPluginConfig (pre +:+ "dnsbl."))
    (decode_AddressFilterPluginConfig (pre +:+ "address_filter."))
    (decode_AttachmentPluginConfig (pre +:+ "attachment."))
    (decode_SMTPSecurityPluginConfig (pre +:+ "smtp_security."))
    (decode_EmailAuthPluginConfig (pre +:+ "email_auth."))
    (decode_SpamCheckerPluginConfig (pre +:+ "spam_checker."))
    (decode_AntiVirusPluginConfig (pre +:+ "antivirus."))
    (decode_SecurityAgentPluginConfig (pre +:+ "security_agent.")).

Definition decode_OutboundConfig (pre : string) : OutboundConfig :=
  MkOutboundConfig
    (get_string (pre +:+ "backend")) (get_string (pre +:+ "node_id"))
    (get_string (pre +:+ "from")) (get_string (pre +:+ "smtp_host"))
    (get_string (pre +:+ "smtp_username")) (get_string (pre +:+ "smtp_password"))
    (get_int (pre +:+ "smtp_timeout_secs")) (get_string (pre +:+ "sendgrid_api_key"))
    (get_int (pre +:+ "sendgrid_timeout_secs")) (get_string (pre +:+ "dkim_private_key_file"))
    (get_string (pre +:+ "dkim_domain")) (get_string (pre +:+ "dkim_selector"))
    (get_bool (pre +:+ "queue_enabled")) (get_int (pre +:+ "queue_workers"))
    (get_int (pre +:+ "queue_max_retries")) (get_int (pre +:+ "queue_base_delay_secs"))
    (get_int (pre +:+ "queue_max_delay_secs")).

Definition decode_MailboxStoreConfig (pre : string) : MailboxStoreConfig :=
  MkMailboxStoreConfig
    (get_string (pre +:+ "backend")) (get_string (pre +:+ "dsn"))
    (get_string (pre +:+ "database")).

Definition decode_ObservabilityConfig (pre : string) : ObservabilityConfig :=
  MkObservabilityConfig
    (get_int (pre +:+ "metrics_port")) (get_bool (pre +:+ "health_enabled")).

Definition decode_Config (pre : string) : Config :=
  MkConfig
    (decode_ServerConfig (pre +:+ "server.")) (decode_SMTPConfig (pre +:+ "smtp."))
    (decode_LMTPConfig (pre +:+ "lmtp.")) (decode_GRPCConfig (pre +:+ "grpc."))
    (decode_WebhookConfig (pre +:+ "webhook.")) (decode_ClusterConfig (pre +:+ "cluster."))
    (decode_PluginsConfig (pre +:+ "plugins.")) (decode_OutboundConfig (pre +:+ "outbound."))
    (decode_MailboxStoreConfig (pre +:+ "mailbox_store."))
    (decode_ObservabilityConfig (pre +:+ "observability.")).

(** A key fits when it is absent or has the type of its field. *)
Definition key_fits (kk : string * kind) : bool :=
  match get kk.1 with None => true | Some v => bool_decide (kind_of v = kk.2) end.

(** [resolveConfig]: [v.Unmarshal] fails on a value of another type. *)
Definition resolveConfig : result Config :=
  if forallb key_fits config_keys then Ok (decode_Config "")
  else Err (EWrap (Text "unmarshal config: %w" []) (EExternal "mapstructure")).

End Resolve.

(** [loadConfig(path)]: [read] is the outcome of reading the file. *)
Definition loadConfig (path : string) (read : result (gmap string value)) (src : sources) : result sources :=
  if bool_decide (path = "") then Ok src
  else match read with
       | Err err => Err (EWrap (Text "read config %q: %w" [AStr path]) err)
       | Ok keys => Ok (MkSources (changed src) (environ src) keys)
       end.

(** [persistentPreRun] runs before every command, [resolveConfig] in [serve]. *)
Definition persistentPreRun (cfgPath : string) (read : result (gmap string value)) (src : sources) : result sources :=
  loadConfig cfgPath read src.

(** ** Properties *)

(** The keys of [Config] that no flag is bound to. *)
Definition file_only : list string := ["plugins.smtp_security.max_subject_bytes"; "plugins.address_filter.rules"].

Lemma assoc_Some {A} (l : list (string * A)) k v : assoc l k = Some v → (k, v) ∈ l.
Proof.
  unfold assoc. destruct (filter _ l) as [|[k' v'] r] eqn:E; [done|]. intros [= <-].
  assert ((k', v') ∈ filter (λ kv, kv.1 = k) l) as H by (rewrite E; apply elem_of_cons; by left).
  by apply list_elem_of_filter in H as [<- ?].
Qed.

Lemma assoc_NoDup {A} (l : list (string * A)) k v : NoDup l.*1 → (k, v) ∈ l → assoc l k = Some v.
Proof.
  intros Hnd Hin. unfold assoc. destruct (filter (λ kv, kv.1 = k) l) as [|[k' v'] r] eqn:E.
  - exfalso. apply (elem_of_nil (k, v)). rewrite <-E. by apply list_elem_of_filter.
  - assert ((k', v') ∈ filter (λ kv, kv.1 = k) l) as H by (rewrite E; apply elem_of_cons; by left).
    apply list_elem_of_filter in H as [Hk H]. simpl in Hk. subst k'. simpl. f_equal.
    by injection (fmap_inj_elem fst l (k, v) (k, v') Hnd Hin H eq_refl).
Qed.

(** Does the flag of a binding have a default of the type of its key? *)
Definition well_bound (kf : string * string) : bool :=
  match assoc config_keys kf.1, assoc flags kf.2 with
  | Some kd, Some v => bool_decide (kind_of v = kd)
  | _, _ => false
  end.

Definition well_listed (kk : string * kind) : bool :=
  bool_decide (kk.1 ∈ file_only) || bool_decide (kk.1 ∈ bindings.*1).

(** The checks of the tables, evaluated. *)
Lemma flags_nodup : NoDup flags.*1.
Proof. apply (bool_decide_unpack _). vm_compute. exact I. Qed.

Lemma bound_keys_nodup : NoDup bindings.*1.
Proof. apply (bool_decide_unpack _). vm_compute. exact I. Qed.

Lemma bound_flags_nodup : NoDup bindings.*2.
Proof. apply (bool_decide_unpack _). vm_compute. exact I. Qed.

Lemma keys_nodup : NoDup config_keys.*1.
Proof. apply (bool_decide_unpack _). vm_compute. exact I. Qed.

Lemma env_names_nodup : NoDup (env_name <$> config_keys.*1).
Proof. apply (bool_decide_unpack _). vm_compute. exact I. Qed.

Lemma bindings_checked : forallb well_bound bindings = true.
Proof. vm_compute. reflexivity. Qed.

Lemma keys_checked : forallb well_listed config_keys = true.
Proof. vm_compute. reflexivity. Qed.

Lemma flags_checked : forallb (λ f, bool_decide (f.1 ∈ bindings.*2)) flags = true.
Proof. vm_compute. reflexivity. Qed.

Lemma forallb_in {A} (p : A → bool) l x : forallb p l = true → x ∈ l → p x = true.
Proof. rewrite forallb_forall. intros H Hx. by apply H, list_elem_of_In. Qed.

#[local] Opaque flags bindings config_keys.

(** C38. The tables of flags and keys are consistent: no flag and no key is
    declared or bound twice and no two keys share an environment variable; every
    flag is bound to a key; every key of [Config] is bound, but for two that only
    the file can set, and the default of its flag has the type of its field. *)
Theorem tables_consistent :
  NoDup flags.*1 ∧ NoDup bindings.*1 ∧ NoDup bindings.*2 ∧ NoDup (env_name <$> config_keys.*1) ∧
  (∀ f v, (f, v) ∈ flags → ∃ key, (key, f) ∈ bindings) ∧
  (∀ key kd, (key, kd) ∈ config_keys → key ∈ file_only ∨
     ∃ f v, (key, f) ∈ bindings ∧ (f, v) ∈ flags ∧ kind_of v = kd).
Proof.
  split; [apply flags_nodup|]. split; [apply bound_keys_nodup|]. split; [apply bound_flags_nodup|].
  split; [apply env_names_nodup|]. split.
  - intros f v Hf. apply (forallb_in _ _ _ flags_checked), bool_decide_eq_true, list_elem_of_fmap in Hf
      as ([key f'] & Hf' & Hk). simpl in Hf'. subst f'. by exists key.
  - intros key kd Hk. pose proof (forallb_in _ _ _ keys_checked Hk) as Hl.
    unfold well_listed in Hl. apply orb_true_iff in Hl as [Hl|Hl]; apply bool_decide_eq_true in Hl; [by left|].
    right. apply list_elem_of_fmap in Hl as ([key' f] & Hkey & Hf). simpl in Hkey. subst key'.
    pose proof (forallb_in _ _ _ bindings_checked Hf) as Hw. unfold well_bound in Hw. simpl in Hw.
    rewrite (assoc_NoDup _ _ _ keys_nodup Hk) in Hw. destruct (assoc flags f) as [v|] eqn:E; [|done].
    apply bool_decide_eq_true in Hw. exists f, v. split; [done|]. split; [by apply assoc_Some|done].
Qed.

Section Resolved.
Context {V : Viper} {VL : ViperLaws}.

Lemma bound_assoc key flag : (key, flag) ∈ bindings → assoc bindings key = Some flag.
Proof. apply assoc_NoDup, bound_keys_nodup. Qed.

Lemma bound_default key flag : (key, flag) ∈ bindings →
  ∃ kd v, assoc config_keys key = Some kd ∧ assoc flags flag = Some v ∧ kind_of v = kd.
Proof.
  intros Hb. pose proof (forallb_in _ _ _ bindings_checked Hb) as H. unfold well_bound in H. simpl in H.
  destruct (assoc config_keys key), (assoc flags flag); try done.
  apply bool_decide_eq_true in H. eauto.
Qed.

(** The sources give values of the types of their keys; the environment does not
    name the two keys that only the file sets. *)
Definition fits (kd : kind) (v : option value) : bool :=
  match v with None => true | Some v => bool_decide (kind_of v = kd) end.

Definition well_typed (src : sources) : bool :=
  forallb (λ kk, let '(key, kd) := kk in
    match assoc bindings key with
    | Some flag => fits kd (changed src !! flag) && fits kd (environ src !! env_name key)
    | None => match environ src !! env_name key with None => true | Some _ => false end
    end && fits kd (file src !! key)) config_keys.

Lemma well_typed_get src key kd : well_typed src = true → (key, kd) ∈ config_keys →
  fits kd (get src key) = true ∧
  (assoc bindings key = None → get src key = file src !! key).
Proof.
  intros Hw Hk. pose proof (forallb_in _ _ _ Hw Hk) as Ht. simpl in Ht. apply andb_true_iff in Ht as [Ht Hfile]. unfold get.
  destruct (assoc bindings key) as [flag|] eqn:Eb.
  - split; [|done]. apply andb_true_iff in Ht as [Hc He]. rewrite (viper_bound _ _ _ _ _ Eb).
    apply assoc_Some in Eb. destruct (bound_default _ _ Eb) as (kd' & v & Hkd' & Hv & Hkv).
    rewrite (assoc_NoDup _ _ _ keys_nodup Hk) in Hkd'. injection Hkd' as <-. rewrite Hv.
    destruct (changed src !! flag); [done|]. destruct (environ src !! _); [done|].
    destruct (file src !! key); [done|]. by apply bool_decide_eq_true.
  - destruct (environ src !! env_name key) eqn:Ee; [done|].
    rewrite (viper_unbound _ _ _ _ Eb Ee). by split.
Qed.

End Resolved.

#[local] Transparent flags bindings config_keys.

(** ** A concrete viper and a concrete command line *)

Module DemoViper.

Definition merged (b : list (string * string)) (fl : list (string * value)) (s : sources) (key : string)
    : option value :=
  match assoc b key with
  | Some flag =>
      match changed s !! flag with
      | Some v => Some v
      | None => match environ s !! env_name key with
                | Some v => Some v
                | None => match file s !! key with Some v => Some v | None => assoc fl flag end
                end
      end
  | None => file s !! key
  end.

#[export] Instance viper : Viper := { viper_get := merged }.

#[export] Instance viper_laws : ViperLaws.
Proof.
  split; simpl; unfold merged; intros *.
  - by intros ->.
  - by intros ->.
Defined.

Definition nothing : sources := MkSources ∅ ∅ ∅.

Definition defaults : Config := decode_Config nothing "".

(** With nothing configured the node is standalone and everything optional is
    off; block lists would fail open, the virus scanner closed. *)
Example default_config :
  resolveConfig nothing = Ok defaults ∧
  srv_Port (cfg_Server defaults) = "50051" ∧ srv_Mode (cfg_Server defaults) = "standalone" ∧
  smtp_Enabled (cfg_SMTP defaults) = false ∧ lmtp_Enabled (cfg_LMTP defaults) = false ∧
  wh_Enabled (cfg_Webhook defaults) = false ∧ out_Backend (cfg_Outbound defaults) = "" ∧
  grpc_AuthToken (cfg_GRPC defaults) = "" ∧ mbx_Backend (cfg_MailboxStore defaults) = "memory" ∧
  smtp_InsecureAuth (cfg_SMTP defaults) = false ∧ smtp_RelayEnabled (cfg_SMTP defaults) = false ∧
  cs_FailOpen (pl_CrowdSec (cfg_Plugins defaults)) = true ∧
  av_FailOpen (pl_AntiVirus (cfg_Plugins defaults)) = false.
Proof. by vm_compute. Qed.

Definition mixed : sources :=
  MkSources {["smtp-port" := VInt 587]} {["POSTBOX_SMTP_DOMAIN" := VString "mx.example.com"]}
    (<["smtp.port" := VInt 25]> {["smtp.domain" := VString "file.example.com"]}).


End DemoViper.
