(* ===== verification/Serve.v ===== *)
(** * The serve command

    Models [cmd/serve.go] behind its flags: the plugins built from the
    configuration and how the mailbox runs them, the outbound backend, the
    options a node is started with, and [runServe] itself, which starts
    everything in order and takes the node down again when a later step fails.
    The configuration is that of [Config.v]. *)
From Stdlib Require Import QArith.
From stdpp Require Import pretty.
From S2P Require Import Prelude GoStrings Store MemStore Registry RelayQueue Relay Nodekey Webhook Smtp Plugin Lockout Reputation.
From S2P Require Import Mailbox Server Controller Observability Config.
Local Open Scope Z_scope.

(** [time.Duration(n) * time.Second] and [time.Minute]. *)
Definition secs (n : Z) : Duration := wrap64 (n * Second).
Definition minutes (n : Z) : Duration := wrap64 (n * Minute).

(** ** The plugins *)
Module Plugins.
#[local] Existing Instances RedisLockout.redis_store AddressFilter.mem_rules.

Section Plugins.
Context {GU : GoUnicode} {NM : NetMail} {RE : AddressFilter.Regexp} {MM : AttachmentFilter.Mime}.
Context {PI : DNSBL.ParseIPv4} {DC : CrowdSec.Decisions} {DN : EmailAuth.Dns}.
Context {LM : Type} {RL : SecurityAgent.RateLimiter LM} {RD : Type} {RC : RedisLockout.RedisCounters RD}.

(** The plugin behind the pointer [ss]: it is also the SMTP server's
    [AuthFailureHook], so the list of plugins only refers to it. *)
Definition Security : Type := SMTPSecurity.SMTPSecurityPlugin (L := RedisLockout.RedisLockoutStore RD).

Inductive Plugin : Type :=
| CrowdSecP (p : CrowdSec.CrowdSecPlugin)
| DNSBLP (p : DNSBL.DNSBLPlugin)
| AddressFilterP (f : AddressFilter.Filter (R := AddressFilter.MemRuleStore))
| AttachmentFilterP (f : AttachmentFilter.Filter)
| SMTPSecurityP
| EmailAuthP (name : string) (cfg : EmailAuth.Config)
| SpamCheckerP (s : SpamChecker.Checker)
| AntiVirusP (av : AntiVirus.Scanner)
| SecurityAgentP (sa : SecurityAgent.Agent (L := LM)).

(** What [buildPlugins] returns: the plugins, the object [ss] when there is one,
    and whether the hook is that object or nil. *)
Record Built := MkBuilt { plugins : list Plugin; security : option Security; authHook : bool }.

Definition addressRulesFromConfig (rules : list AddressRuleConfig) : list AddressFilter.AddressRule :=
  (λ r, AddressFilter.MkRule (rule_ID r) (rule_Pattern r)
          (if bool_decide (rule_Field r = "sender") then AddressFilter.FieldSender
           else if bool_decide (rule_Field r = "recipients") then AddressFilter.FieldRecipients
           else AddressFilter.FieldAll)) <$> rules.

(** [if c { plugins = append(plugins, p) }] *)
Definition append_if (c : bool) (p : Plugin) (ps : list Plugin) : list Plugin := if c then ps ++ [p] else ps.

Definition new_security (c : SMTPSecurityPluginConfig) (redisClient : option RD) : Security :=
  let store := match redisClient with
               | Some client => if ss_RedisLockout c then Some (RedisLockout.NewRedisLockoutStore client "") else None
               | None => None
               end in
  SMTPSecurity.NewSMTPSecurityPlugin "smtp-security"
    (SMTPSecurity.MkConfig (ss_MaxAuthFailuresPerIP c) (minutes (ss_LockoutMinutes c)) 0
       (ss_EnvelopeSpoofCheck c) (ss_AllowedSenderDomains c) (ss_BlockedSenderDomains c)
       (ss_MaxSubjectBytes c) (ss_RequireAuthenticatedSender c)) store.

Definition buildPlugins (cfg : PluginsConfig) (redisClient : option RD) : Built :=
  let cs := pl_CrowdSec cfg in
  let ps := append_if (cs_Enabled cs)
    (CrowdSecP (CrowdSec.NewCrowdSec "crowdsec" (CrowdSec.MkConfig (cs_Endpoint cs) (cs_APIKey cs)
       (secs (cs_TimeoutSecs cs)) (cs_FailOpen cs) (secs (cs_CacheTTLSecs cs))))) [] in
  let bl := pl_DNSBL cfg in
  let ps := append_if (dnsbl_Enabled bl && (0 <? Z.of_nat (length (dnsbl_Zones bl))))
    (DNSBLP (DNSBL.NewDNSBL "dnsbl" (DNSBL.MkConfig (dnsbl_Zones bl) (secs (dnsbl_CacheTTLSecs bl))
       (dnsbl_FailOpen bl)))) ps in
  let af := pl_AddressFilter cfg in
  let mode := if bool_decide (af_Mode af = "allow") then AddressFilter.ModeAllow else AddressFilter.ModeBlock in
  let ps := append_if (af_Enabled af)
    (AddressFilterP (AddressFilter.NewAddressFilter "address-filter" mode
       (Some (AddressFilter.NewMemRuleStore (addressRulesFromConfig (af_Rules af)))))) ps in
  let att := pl_Attachment cfg in
  let ps := append_if (att_Enabled att)
    (AttachmentFilterP (AttachmentFilter.NewAttachmentFilter "attachment-filter"
       (AttachmentFilter.MkConfig (att_MaxCount att) (att_MaxTotalBytes att) (att_MaxSingleBytes att)
          (att_AllowedMIMEs att) (att_BlockedMIMEs att)))) ps in
  let ss := pl_SMTPSecurity cfg in
  let ps := append_if (ss_Enabled ss) SMTPSecurityP ps in
  let ea := pl_EmailAuth cfg in
  let ps := append_if (ea_Enabled ea)
    (EmailAuthP "email-auth" (EmailAuth.MkConfig (ea_SPFPolicy ea) (ea_DKIMPolicy ea) (ea_DMARCPolicy ea))) ps in
  let sp := pl_SpamChecker cfg in
  let ps := append_if (spam_Enabled sp && negb (bool_decide (spam_Endpoint sp = "")))
    (SpamCheckerP (SpamChecker.NewSpamChecker "spam-checker" (SpamChecker.MkConfig (spam_Endpoint sp)
       (spam_Threshold sp) (spam_TagOnly sp) (secs (spam_TimeoutSecs sp))))) ps in
  let av := pl_AntiVirus cfg in
  let ps := append_if (av_Enabled av && negb (bool_decide (av_Endpoint av = "")))
    (AntiVirusP (AntiVirus.NewAntiVirus "antivirus" (AntiVirus.MkConfig (av_Endpoint av) (secs (av_TimeoutSecs av))
       (av_FailOpen av)))) ps in
  let sa := pl_SecurityAgent cfg in
  let ps := append_if (sa_Enabled sa)
    (SecurityAgentP (SecurityAgent.NewSecurityAgent "security-agent"
       (SecurityAgent.MkConfig (sa_MaxRecipients sa) (sa_MaxBodyBytes sa) (sa_RatePerSender sa)
          (sa_BurstPerSender sa) 0 None))) ps in
  MkBuilt ps (if ss_Enabled ss then Some (new_security ss redisClient) else None) (ss_Enabled ss).

(** *** How the plugins answer *)

Inductive kind : Set := KCrowdSec | KDNSBL | KAddressFilter | KAttachmentFilter | KSMTPSecurity | KEmailAuth
  | KSpamChecker | KAntiVirus | KSecurityAgent.

Definition kind_of (p : Plugin) : kind :=
  match p with
  | CrowdSecP _ => KCrowdSec | DNSBLP _ => KDNSBL | AddressFilterP _ => KAddressFilter
  | AttachmentFilterP _ => KAttachmentFilter | SMTPSecurityP => KSMTPSecurity | EmailAuthP _ _ => KEmailAuth
  | SpamCheckerP _ => KSpamChecker | AntiVirusP _ => KAntiVirus | SecurityAgentP _ => KSecurityAgent
  end.

(** The services the plugins ask, and the clocks they read, during one send. *)
Record outside := MkOutside {
  lapi : Time → string → string → string → CrowdSec.reply; lapi_clock : CrowdSec.clock;
  LookupHost : Time → string → DNSBL.lookup_result; dns_clock : string → Time;
  format2 : Q → string; spam_post : string → SpamChecker.spamRequest → scan SpamChecker.spamResponse;
  av_post : string → AntiVirus.avRequest → scan AntiVirus.avResponse;
  range_order : MapOrder; now : Time }.

(** [p.BeforeSend(ctx, userID, draft)]; [ss] is the shared security plugin as it
    is when its hook runs. *)
Definition BeforeSend (w : outside) (ss : option Security) (p : Plugin) (draft : Draft)
    : result unit * Draft * Plugin :=
  match p with
  | CrowdSecP p => let '(r, p') := CrowdSec.BeforeSend (lapi w) (lapi_clock w) draft p in (r, draft, CrowdSecP p')
  | DNSBLP p => let '(r, p') := DNSBL.BeforeSend (LookupHost w) (dns_clock w) draft p in (r, draft, DNSBLP p')
  | AddressFilterP f => (AddressFilter.BeforeSend draft f, draft, p)
  | AttachmentFilterP f => (AttachmentFilter.BeforeSend draft f, draft, p)
  | SMTPSecurityP => (match ss with Some ss => SMTPSecurity.BeforeSend (now w) draft ss | None => Ok () end, draft, p)
  | EmailAuthP name cfg => (EmailAuth.BeforeSend name cfg draft, draft, p)
  | SpamCheckerP s =>
      let '(r, d) := SpamChecker.BeforeSend (format2 w) (spam_post w) (SpamChecker.checker_name s)
                       (SpamChecker.checker_cfg s) draft in (r, d, p)
  | AntiVirusP av => (AntiVirus.BeforeSend (av_post w) (AntiVirus.scanner_name av) (AntiVirus.scanner_cfg av) draft, draft, p)
  | SecurityAgentP sa => let '(r, sa') := SecurityAgent.BeforeSend (range_order w) (now w) draft sa in (r, draft, SecurityAgentP sa')
  end.

(** [p.Init(ctx)] of the plugins in the list, with the shared one. *)
Definition Init (o : MapOrder) (p : Plugin) (ss : option Security) : result unit * Plugin * option Security :=
  match p with
  | AddressFilterP f => let '(r, f') := AddressFilter.reload o f in (r, AddressFilterP f', ss)
  | SMTPSecurityP => (Ok (), p, SMTPSecurity.Init <$> ss)
  | _ => (Ok (), p, ss)
  end.

(** The mailbox runs the send hooks in the order given, on one draft, and sends
    the message only when every hook returned nil. *)
Inductive passes {Pl : Type} (hook : Pl → Draft → result unit * Draft * Pl) : list Pl → Draft → list Pl → Draft → Prop :=
| passes_nil d : passes hook [] d [] d
| passes_cons p ps d p' d1 ps' d' :
    hook p d = (Ok (), d1, p') → passes hook ps d1 ps' d' → passes hook (p :: ps) d (p' :: ps') d'.

Class SendHooks := {
  run_hooks : ∀ {Pl : Type}, (Pl → Draft → result unit * Draft * Pl) → list Pl → Draft → result Draft * list Pl;
  run_hooks_pass : ∀ (Pl : Type) (hook : Pl → Draft → result unit * Draft * Pl) ps d d' ps',
    run_hooks hook ps d = (Ok d', ps') → passes hook ps d ps' d' }.

(** *** Which plugins there are, and what the chain lets pass *)

(** What [serve] requires of the configuration for each plugin. *)
Definition configured (cfg : PluginsConfig) (k : kind) : bool :=
  match k with
  | KCrowdSec => cs_Enabled (pl_CrowdSec cfg)
  | KDNSBL => dnsbl_Enabled (pl_DNSBL cfg) && negb (bool_decide (dnsbl_Zones (pl_DNSBL cfg) = []))
  | KAddressFilter => af_Enabled (pl_AddressFilter cfg)
  | KAttachmentFilter => att_Enabled (pl_Attachment cfg)
  | KSMTPSecurity => ss_Enabled (pl_SMTPSecurity cfg)
  | KEmailAuth => ea_Enabled (pl_EmailAuth cfg)
  | KSpamChecker => spam_Enabled (pl_SpamChecker cfg) && negb (bool_decide (spam_Endpoint (pl_SpamChecker cfg) = ""))
  | KAntiVirus => av_Enabled (pl_AntiVirus cfg) && negb (bool_decide (av_Endpoint (pl_AntiVirus cfg) = ""))
  | KSecurityAgent => sa_Enabled (pl_SecurityAgent cfg)
  end.

(** The chain as the README draws it. *)
Definition chain : list kind :=
  [KCrowdSec; KDNSBL; KAddressFilter; KAttachmentFilter; KSMTPSecurity; KEmailAuth; KSpamChecker; KAntiVirus; KSecurityAgent].

Lemma kinds_append_if c p ps : kind_of <$> append_if c p ps = (kind_of <$> ps) ++ if c then [kind_of p] else [].
Proof. unfold append_if. destruct c; [by rewrite fmap_app|by rewrite app_nil_r]. Qed.

Lemma nonempty_len {A} `{EqDecision A} (l : list A) : (0 <? Z.of_nat (length l)) = negb (bool_decide (l = [])).
Proof. destruct l; [done|]. rewrite bool_decide_eq_false_2 by done. by apply Z.ltb_lt. Qed.

Lemma buildPlugins_kinds cfg rc :
  kind_of <$> plugins (buildPlugins cfg rc) = List.filter (configured cfg) chain.
Proof.
  unfold buildPlugins. cbn [plugins]. rewrite !kinds_append_if. cbn [kind_of fmap list_fmap app].
  rewrite nonempty_len. unfold chain. cbn [List.filter configured]. rewrite <-!app_assoc.
  repeat match goal with |- context [if ?c then _ else _] => destruct c end; reflexivity.
Qed.

(** The hooks change no header but [X-Spam-...], so the address the message came
    from is seen by every plugin as the SMTP server wrote it. *)
Lemma BeforeSend_keeps w ss p d r d' p' :
  BeforeSend w ss p d = (r, d', p') →
  kind_of p' = kind_of p ∧
  mget (GetHeaders d') "X-SMTP-Remote-Addr" = mget (GetHeaders d) "X-SMTP-Remote-Addr".
Proof.
  destruct p; simpl; try by (repeat case_match; intros [= _ <- <-]).
  destruct (SpamChecker.BeforeSend _ _ _ _ _) as [r0 d0] eqn:Hs. intros [= _ <- <-]. split; [done|].
  unfold SpamChecker.BeforeSend, SpamChecker.tag in Hs. repeat case_match; simplify_eq; try done;
    unfold mget; simpl; by rewrite !lookup_insert_ne by done.
Qed.

Lemma passes_rejecting w ss ps d ps' d' :
  passes (BeforeSend w ss) ps d ps' d' →
  ∀ (bad : kind) (addr : string),
  (∀ p d, kind_of p = bad → mget (GetHeaders d) "X-SMTP-Remote-Addr" = addr → is_ok (BeforeSend w ss p d).1.1 = false) →
  mget (GetHeaders d) "X-SMTP-Remote-Addr" = addr → bad ∉ (kind_of <$> ps).
Proof.
  induction 1 as [d|p ps d p' d1 ps' d' Hh Hp IH]; intros bad addr Hbad Ha; [apply not_elem_of_nil|].
  apply BeforeSend_keeps in Hh as Hk. destruct Hk as [_ Hk]. simpl. rewrite not_elem_of_cons. split.
  - intros Heq. specialize (Hbad p d (eq_sym Heq) Ha). by rewrite Hh in Hbad.
  - apply (IH bad addr Hbad). by rewrite Hk.
Qed.

Context {SH : SendHooks}.

Lemma locked_out_refused cfg rc w ss ps draft :
  kind_of <$> ps = kind_of <$> plugins (buildPlugins cfg rc) → ss_Enabled (pl_SMTPSecurity cfg) = true →
  mget (GetHeaders draft) "X-SMTP-Remote-Addr" ≠ "" →
  SMTPSecurity.IsLockedOut (now w) (mget (GetHeaders draft) "X-SMTP-Remote-Addr") ss = true →
  is_ok (run_hooks (BeforeSend w (Some ss)) ps draft).1 = false.
Proof.
  intros Hps Hen Hne Hout. destruct (run_hooks _ _ _) as [[d'|e] ps'] eqn:Hr; [|done]. exfalso.
  apply run_hooks_pass in Hr. eapply (passes_rejecting _ _ _ _ _ _ Hr KSMTPSecurity); [|reflexivity|].
  - intros p d Hk Ha. destruct p; try done. cbn [BeforeSend fst]. rewrite <-Ha in Hne, Hout.
    destruct (SMTPSecurity.BeforeSend_locked _ _ _ Hne Hout) as [reason ->]. done.
  - rewrite Hps, buildPlugins_kinds. apply list_elem_of_In, List.filter_In. split; [simpl; tauto|exact Hen].
Qed.

(** C7. The plugin chain is the one the configuration asks for, and a locked-out
    client cannot get mail past it. The plugins are those whose section enables
    them (and names zones or an endpoint), once each and in the documented order;
    the hook the SMTP server reports failed logins to is there exactly when the
    security plugin is, and is the same object. So once that object has locked an
    address out, no message that arrived over a connection from it is sent, with
    any other plugins, whatever the services they ask answer and in whatever
    state the plugins are by then; and with failure counters in memory that lasts
    for the whole lockout duration, whatever else happens to the plugin. *)
Theorem plugin_chain_enforces_lockout cfg rc :
  let b := buildPlugins cfg rc in
  (kind_of <$> plugins b = List.filter (configured cfg) chain) ∧
  (authHook b = ss_Enabled (pl_SMTPSecurity cfg) ∧ (is_Some (security b) ↔ authHook b = true)) ∧
  (∀ w ss ps draft, kind_of <$> ps = kind_of <$> plugins b → authHook b = true →
     mget (GetHeaders draft) "X-SMTP-Remote-Addr" ≠ "" →
     SMTPSecurity.IsLockedOut (now w) (mget (GetHeaders draft) "X-SMTP-Remote-Addr") ss = true →
     is_ok (run_hooks (BeforeSend w (Some ss)) ps draft).1 = false) ∧
  (∀ w t addr ss ss1 ss' ps draft, kind_of <$> ps = kind_of <$> plugins b → authHook b = true →
     SMTPSecurity.in_memory ss → SMTPSecurity.RecordAuthFailure t addr ss = (true, ss1) →
     rtc SMTPSecurity.step (t, ss1) (now w, ss') → now w < t + SMTPSecurity.LockoutDuration (SMTPSecurity.cfg ss) →
     mget (GetHeaders draft) "X-SMTP-Remote-Addr" ≠ "" →
     hostOnly (mget (GetHeaders draft) "X-SMTP-Remote-Addr") = hostOnly addr →
     is_ok (run_hooks (BeforeSend w (Some ss')) ps draft).1 = false).
Proof.
  cbn zeta. split; [apply buildPlugins_kinds|]. split; [|split].
  - split; [done|]. simpl. destruct (ss_Enabled _); [by split; [|eauto]|by split; [intros []|]].
  - intros w ss ps draft Hps Hen Hne Hout. by eapply locked_out_refused.
  - intros w t addr ss ss1 ss' ps draft Hps Hen Hm Hrec Hst Ht Hne Hh. eapply locked_out_refused; [done..|].
    by eapply SMTPSecurity.lockout_persists.
Qed.

(** Rules of the configuration file without an ID, or with the same one, replace
    each other: the rule store files them by ID. *)
Theorem rules_collapse r1 r2 :
  rule_ID r1 = rule_ID r2 →
  AddressFilter.NewMemRuleStore (addressRulesFromConfig [r1; r2]) =
  AddressFilter.NewMemRuleStore (addressRulesFromConfig [r2]).
Proof. intros H. unfold AddressFilter.NewMemRuleStore. cbn [addressRulesFromConfig fmap list_fmap foldl AddressFilter.RuleID]. rewrite H. apply insert_insert_eq. Qed.

End Plugins.
End Plugins.

(** ** The outbound backend *)
Module Outbound.

Section Outbound.
Context {Net : Relay.Network}.
(** [os.ReadFile] *)
Variable ReadFile : string → result string.

Definition base_backend (cfg : OutboundConfig) : option Relay.Backend :=
  if bool_decide (out_Backend cfg = "sendgrid") then
    Some (Relay.SendGridBackend (Relay.NewSendGrid
      (Relay.MkSendGridConfig (out_SendGridAPIKey cfg) (out_From cfg) (secs (out_SendGridTimeoutSecs cfg)))))
  else if bool_decide (out_Backend cfg = "smtp") then
    Some (Relay.SMTPBackend (Relay.NewSMTP
      (Relay.MkSMTPConfig (out_SMTPHost cfg) (out_SMTPUsername cfg) (out_SMTPPassword cfg) (out_From cfg)
         (secs (out_SMTPTimeoutSecs cfg)))))
  else None.

Definition wants_dkim (cfg : OutboundConfig) : bool :=
  negb (bool_decide (out_DKIMPrivateKeyFile cfg = "")) && negb (bool_decide (out_DKIMDomain cfg = ""))
  && negb (bool_decide (out_DKIMSelector cfg = "")).

Definition buildRelayBackend (cfg : OutboundConfig) : result Relay.Backend :=
  match base_backend cfg with
  | None => Err (EText (Text "unknown outbound backend %q; want smtp|sendgrid" [AStr (out_Backend cfg)]))
  | Some base =>
      if wants_dkim cfg then
        match ReadFile (out_DKIMPrivateKeyFile cfg) with
        | Err err => Err (EWrap (Text "read dkim private key %q: %w" [AStr (out_DKIMPrivateKeyFile cfg)]) err)
        | Ok pem =>
            match Relay.NewDKIMSigningBackend
                    (Relay.MkDKIMConfig pem (out_DKIMDomain cfg) (out_DKIMSelector cfg)) base with
            | Err err => Err (EWrap (Text "dkim signing backend: %w" []) err)
            | Ok b => Ok b
            end
        end
      else Ok base
  end.

(** The key file can be read and holds a key that can sign. *)
Definition usable_key (cfg : OutboundConfig) (s : Relay.signer) : Prop :=
  ∃ pem, ReadFile (out_DKIMPrivateKeyFile cfg) = Ok pem ∧ Relay.parsePrivateKey pem = Ok s.

Definition smtp_backend (cfg : OutboundConfig) : Relay.SMTPConfig :=
  Relay.NewSMTP (Relay.MkSMTPConfig (out_SMTPHost cfg) (out_SMTPUsername cfg) (out_SMTPPassword cfg) (out_From cfg)
    (secs (out_SMTPTimeoutSecs cfg))).

(** C26. Outbound mail is never silently left unsigned: where key file, domain and
    selector are all configured, a backend is built only for SMTP and only with a
    key that could be read and parsed, and it signs for that domain and selector;
    an unreadable or unparsable key, and SendGrid, which cannot sign, are errors.
    Without one of the three the backend is the plain one. An unknown backend is
    an error in every case. *)
Theorem buildRelayBackend_spec cfg :
  (∀ b, buildRelayBackend cfg = Ok b →
     out_Backend cfg = "smtp" ∨ (out_Backend cfg = "sendgrid" ∧ wants_dkim cfg = false)) ∧
  (out_Backend cfg = "smtp" → wants_dkim cfg = false → buildRelayBackend cfg = Ok (Relay.SMTPBackend (smtp_backend cfg))) ∧
  (out_Backend cfg = "smtp" → wants_dkim cfg = true → ∀ b, buildRelayBackend cfg = Ok b ↔
     ∃ s, usable_key cfg s ∧
       b = Relay.DKIMSigningBackend (smtp_backend cfg) (out_DKIMDomain cfg) (out_DKIMSelector cfg) s) ∧
  (out_Backend cfg = "sendgrid" → wants_dkim cfg = false → is_ok (buildRelayBackend cfg) = true).
Proof.
  unfold buildRelayBackend, base_backend, usable_key, Relay.NewDKIMSigningBackend, Relay.as_RawBackend, smtp_backend.
  split; [|split; [|split]].
  - intros b. case_bool_decide as H1; [|case_bool_decide as H2; [by left|done]].
    destruct (wants_dkim cfg) eqn:Hw; [|by right]. destruct (ReadFile _); simpl; done.
  - intros -> ->. done.
  - intros -> -> b. simpl. destruct (ReadFile _) as [pem|e].
    2:{ split; [done|]. intros (s & (pem & Hx & _) & _). discriminate Hx. }
    simpl. destruct (Relay.parsePrivateKey pem) as [s|e] eqn:Hp; simpl.
    + split; [intros [= <-]; by eauto 6|]. intros (s' & (pem' & Hpem & Hs) & ->). congruence.
    + split; [done|]. intros (s' & (pem' & Hpem & Hs) & _). congruence.
  - intros -> ->. done.
Qed.

End Outbound.

#[local] Existing Instance Relay.demo_network.

Definition demo_outbound (backend key : string) : OutboundConfig :=
  MkOutboundConfig backend "" "noreply@x" "mx:587" "" "" 0 "" 0 key "x.org" "sel" false 0 0 0 0.

End Outbound.

(** ** Starting a node *)
Module Run.
Import Plugins Outbound Server.Server Lifecycle Ports Node Mailbox.

(** *** The configurations of the listeners *)

Definition smtp_config (c : Config.SMTPConfig) : Smtp.Config :=
  Smtp.MkConfig (smtp_Port c) (smtp_BindAddr c) (smtp_Domain c) (smtp_InsecureAuth c) (smtp_MaxMsgBytes c)
    (smtp_MaxRecipients c) (smtp_MaxConnections c) (secs (smtp_ReadTimeoutSecs c)) (secs (smtp_WriteTimeoutSecs c))
    (smtp_RelayEnabled c) (smtp_TLSCertFile c) (smtp_TLSKeyFile c) (smtp_MaxAuthFailuresPerSession c)
    (smtp_CheckSPF c) (smtp_VerifyDKIM c) (smtp_RateConns c) (smtp_RateBurst c) (smtp_RateConnsPerIP c)
    (smtp_RateBurstPerIP c).

Definition lmtp_config (c : Config.LMTPConfig) : Lmtp.LMTPConfig :=
  Lmtp.MkLMTPConfig (lmtp_SocketPath c) (lmtp_Port c) (lmtp_BindAddr c) (lmtp_Domain c) (lmtp_MaxMsgBytes c)
    (lmtp_MaxRecipients c) (secs (lmtp_ReadTimeoutSecs c)) (secs (lmtp_WriteTimeoutSecs c)).

Definition queue_config (c : OutboundConfig) : RelayQueue.QueueConfig :=
  RelayQueue.MkQueueConfig (out_QueueWorkers c) (out_QueueMaxRetries c) (secs (out_QueueBaseDelaySecs c))
    (secs (out_QueueMaxDelaySecs c)).

Definition webhook_options (c : WebhookConfig) : list Dispatcher.Option :=
  [Dispatcher.WithLogger] ++ (if 0 <? wh_Workers c then [Dispatcher.WithWorkers (wh_Workers c)] else []) ++
  (if 0 <? wh_MaxAttempts c then [Dispatcher.WithMaxAttempts (wh_MaxAttempts c)] else []) ++
  (if 0 <? wh_TimeoutSecs c then [Dispatcher.WithHTTPClient] else []).

Inductive guard : Type := AllowAll | Bearer (token : string).
Inductive interceptor : Set := AuthInterceptor | LoggingInterceptor | RecoveryInterceptor | ForwardInterceptor.

(** The deferred calls of [runServe], the last one first. *)
Inductive deferred : Set := CancelContext | CloseRedis | CloseController | StopMetrics.

#[export] Instance deferred_eq_dec : EqDecision deferred.
Proof. solve_decision. Defined.

Section Run.
Context {GU : GoUnicode} {NM : NetMail} {RE : AddressFilter.Regexp} {MM : AttachmentFilter.Mime}.
Context {PI : DNSBL.ParseIPv4} {DC : CrowdSec.Decisions} {DN : EmailAuth.Dns}.
Context {LM : Type} {RL : SecurityAgent.RateLimiter LM} {RD : Type} {RC : RedisLockout.RedisCounters RD}.
Context {Net : Relay.Network} {Dr : Drivers} {ML : MailboxLib (Plugin (LM := LM)) UserResolver}.
Context {R S : Type} {SO : StoreOps S} {RO : RedisOps R}.
Abbreviation plugin := (Plugin (LM := LM)).

(** *** The options of the controller *)

Definition outbound_options (ReadFile : string → result string) (c : OutboundConfig) : result (list (Option_ (P := plugin))) :=
  if bool_decide (out_Backend c = "") then Ok []
  else match buildRelayBackend ReadFile c with
  | Err err => Err err
  | Ok outbound =>
      let nodeID := if bool_decide (out_NodeID c = "") then "outbound" else out_NodeID c in
      Ok (WithOutboundRelay nodeID outbound ::
          if out_QueueEnabled c then [WithOutboundRelayQueue (queue_config c)] else [])
  end.

Definition ctrlOpts (ReadFile : string → result string) (cfg : Config.Config) (redis : bool) (plugins : list plugin)
    : result (list (Option_ (P := plugin))) :=
  let srv := cfg_Server cfg in
  let m := cfg_MailboxStore cfg in
  match outbound_options ReadFile (cfg_Outbound cfg) with
  | Err err => Err err
  | Ok outbound => Ok (
      [WithNodeID (srv_NodeID srv); WithMode (node_mode (srv_Mode srv));
       WithAddress (srv_Host srv +:+ ":" +:+ srv_Port srv); WithLogger] ++
      (if redis then [WithRedisClient true] else []) ++
      match plugins with [] => [] | _ => [WithMailboxPlugins plugins] end ++
      (if negb (bool_decide (mbx_Backend m = "")) && negb (bool_decide (mbx_Backend m = "memory"))
       then [WithMailboxFactory (Some (NewMailboxFactory (Mailbox.MkConfig (mbx_Backend m) (mbx_DSN m) (mbx_Database m)) plugins))]
       else []) ++
      outbound ++
      (if wh_Enabled (cfg_Webhook cfg) then [WithWebhook (webhook_options (cfg_Webhook cfg))] else []))
  end.

(** What these options add up to. *)
Definition durable (c : MailboxStoreConfig) : bool :=
  negb (bool_decide (mbx_Backend c = "")) && negb (bool_decide (mbx_Backend c = "memory")).

Definition relay_node_id (c : OutboundConfig) : string :=
  if bool_decide (out_NodeID c = "") then "outbound" else out_NodeID c.

Definition cfg_options (cfg : Config.Config) (redis : bool) (plugins : list plugin) (outbound : option Relay.Backend)
    : options (P := plugin) :=
  let srv := cfg_Server cfg in let m := cfg_MailboxStore cfg in let out := cfg_Outbound cfg in
  MkOptions (srv_NodeID srv) (node_mode (srv_Mode srv)) (srv_Host srv +:+ ":" +:+ srv_Port srv)
    (if durable m then Some (NewMailboxFactory (Mailbox.MkConfig (mbx_Backend m) (mbx_DSN m) (mbx_Database m)) plugins) else None)
    defaultSMTPFactory (wh_Enabled (cfg_Webhook cfg))
    (if wh_Enabled (cfg_Webhook cfg) then webhook_options (cfg_Webhook cfg) else [])
    redis plugins
    (match outbound with Some _ => relay_node_id out | None => "" end) outbound
    (match outbound with Some _ => if out_QueueEnabled out then Some (queue_config out) else None | None => None end).

Lemma ctrlOpts_sum ReadFile cfg redis plugins opts :
  ctrlOpts ReadFile cfg redis plugins = Ok opts →
  ∃ outbound, foldl apply_option default_options opts = cfg_options cfg redis plugins outbound ∧
    match outbound with
    | Some b => out_Backend (cfg_Outbound cfg) ≠ "" ∧ buildRelayBackend ReadFile (cfg_Outbound cfg) = Ok b
    | None => out_Backend (cfg_Outbound cfg) = ""
    end.
Proof.
  unfold ctrlOpts, outbound_options. case_bool_decide as Hb.
  - intros [= <-]. exists None. split; [|done]. unfold cfg_options, durable.
    destruct redis, plugins, (negb _ && negb _), (wh_Enabled _); reflexivity.
  - destruct (buildRelayBackend _ _) as [b|]; [|done]. intros [= <-]. exists (Some b). split; [|done].
    unfold cfg_options, durable.
    destruct redis, plugins, (negb _ && negb _), (out_QueueEnabled _), (wh_Enabled _); reflexivity.
Qed.

(** *** The process *)

(** What serves when everything has started. *)
Record serving := MkServing {
  sv_ctrl : running (P := plugin); sv_guard : guard;
  sv_unary : list interceptor; sv_stream : list interceptor;
  sv_health : bool; sv_metrics : option Observability.MetricsServer; sv_hook : option (Security (RD := RD)) }.

(** What the outside answers: the configuration, parsing the Redis URL, the
    starting controller, the constructor of the mailbox service's gRPC server,
    the metrics exporter, [net.Listen], and the two mail listeners; [redis] is the
    client, [ReadFile] reads the DKIM key. *)
Record world := MkWorld {
  ParseURL : string → result RD; ReadFile : string → result string;
  ctrl_world : Node.world; mbxserver_New : Service → result unit;
  exporter : result unit; Listen : string → result unit;
  smtp_tls : result unit; smtp_listen : result unit; lmtp_listen : result unit; lmtp_chmod : result unit }.

(** [dbPath] *)
Definition db_path (c : ServerConfig) : string :=
  if bool_decide (node_mode (srv_Mode c) = ModeTemp) then ":memory:" else srv_DB c.

Definition open_redis (w : world) (c : ClusterConfig) : result (option RD) :=
  if bool_decide (cl_RedisURL c = "") then Ok None
  else match ParseURL w (cl_RedisURL c) with
  | Err err => Err (EWrap (Text "parse redis-url: %w" []) err)
  | Ok client => Ok (Some client)
  end.

Definition start_metrics (w : world) (c : ObservabilityConfig) : result (option Observability.MetricsServer) :=
  if 0 <? obs_MetricsPort c then
    match Observability.NewMetricsServer (exporter w) (":" +:+ pretty (obs_MetricsPort c)) with
    | Err err => Err (EWrap (Text "init metrics server: %w" []) err)
    | Ok srv =>
        match Observability.Start (Listen w) srv with
        | (Err err, _) => Err (EWrap (Text "start metrics server: %w" []) err)
        | (Ok _, srv) => Ok (Some srv)
        end
    end
  else Ok None.

Definition set_smtp (l : Listeners Smtp.Config) (r : running (P := plugin)) : running (P := plugin) :=
  MkRunning (rn r) (heartbeatCh r) (pool r) (relay_state r) l (lmtp r) (disp r) (mailbox_closed r) (store_closed r).
Definition set_lmtp (l : Listeners Lmtp.LMTPConfig) (r : running (P := plugin)) : running (P := plugin) :=
  MkRunning (rn r) (heartbeatCh r) (pool r) (relay_state r) (smtp r) l (disp r) (mailbox_closed r) (store_closed r).

(** [ctrl.StartSMTP(smtpCfg)] and [ctrl.StartLMTP] when enabled. *)
Definition start_smtp_if (w : world) (c : Config.SMTPConfig) (r : running (P := plugin))
    : result unit * running (P := plugin) :=
  if smtp_Enabled c then
    match StartSMTP (smtpFactory_ (rn r)) (smtp_tls w) (smtp_listen w) (smtp_config c) (smtp r) with
    | (Err err, l) => (Err (EWrap (Text "start smtp: %w" []) err), set_smtp l r)
    | (Ok _, l) => (Ok (), set_smtp l r)
    end
  else (Ok (), r).

Definition start_lmtp_if (w : world) (c : Config.LMTPConfig) (r : running (P := plugin))
    : result unit * running (P := plugin) :=
  if lmtp_Enabled c then
    match StartLMTP (lmtp_listen w) (lmtp_chmod w) (lmtp_config c) (lmtp r) with
    | (Err err, l) => (Err (EWrap (Text "start lmtp: %w" []) err), set_lmtp l r)
    | (Ok _, l) => (Ok (), set_lmtp l r)
    end
  else (Ok (), r).

(** The steps after the controller has started. *)
Definition start_servers (w : world) (cfg : Config.Config) (hook : option Security) (n : node (P := plugin))
    (defers : list deferred) : result serving * list deferred * running (P := plugin) :=
  let r := boot n in
  let g := if bool_decide (grpc_AuthToken (cfg_GRPC cfg) = "") then AllowAll else Bearer (grpc_AuthToken (cfg_GRPC cfg)) in
  match mbxserver_New w (mailboxService n) with
  | Err err => (Err (EWrap (Text "init mailbox server: %w" []) err), defers, r)
  | Ok _ =>
  let unary := [AuthInterceptor; LoggingInterceptor; RecoveryInterceptor] ++
               match fwd n with Some _ => [ForwardInterceptor] | None => [] end in
  match start_metrics w (cfg_Observability cfg) with
  | Err err => (Err err, defers, r)
  | Ok metrics =>
  let defers := match metrics with Some _ => StopMetrics :: defers | None => defers end in
  match Listen w (":" +:+ srv_Port (cfg_Server cfg)) with
  | Err err => (Err (EWrap (Text "listen :%s: %w" [AStr (srv_Port (cfg_Server cfg))]) err), defers, r)
  | Ok _ =>
  match start_smtp_if w (cfg_SMTP cfg) r with
  | (Err err, r) => (Err err, defers, r)
  | (Ok _, r) =>
  match start_lmtp_if w (cfg_LMTP cfg) r with
  | (Err err, r) => (Err err, defers, r)
  | (Ok _, r) =>
      (Ok (MkServing r g unary [AuthInterceptor; LoggingInterceptor; RecoveryInterceptor]
             (obs_HealthEnabled (cfg_Observability cfg)) metrics hook), defers, r)
  end end end end end.

(** [runServe] up to serving: the outcome, the deferred calls, and the controller
    with its environment if it was made. [sqlite_New] opens the node's store,
    [rd] is the Redis server of the cluster. *)
Definition start (now : Time) (w : world) (sqlite_New : string → S) (rd : R) (resolved : result Config.Config)
    : result serving * list deferred * option (running (P := plugin) * Env R S) :=
  match resolved with
  | Err err => (Err err, [], None)
  | Ok cfg =>
  let defers := [CancelContext] in
  let env := MkEnv rd (sqlite_New (db_path (cfg_Server cfg))) in
  match open_redis w (cfg_Cluster cfg) with
  | Err err => (Err err, defers, None)
  | Ok client =>
  let defers := match client with Some _ => CloseRedis :: defers | None => defers end in
  let b := buildPlugins (cfg_Plugins cfg) client in
  match ctrlOpts (ReadFile w) cfg (match client with Some _ => true | None => false end) (plugins b) with
  | Err err => (Err err, defers, None)
  | Ok opts =>
  match NewController now (ctrl_world w) opts env with
  | (Err err, _, env) => (Err (EWrap (Text "init controller: %w" []) err), defers, None)
  | (Ok n, _, env) =>
      let '(res, defers, r) := start_servers w cfg (if authHook b then security b else None) n (CloseController :: defers) in
      (res, defers, Some (r, env))
  end end end end.

(** *** What runServe leaves behind *)

(** A listener is running exactly when it was enabled. *)
Lemma start_smtp_if_running w c r r' :
  smtpFactory_ (rn r) = defaultSMTPFactory → is_running (get (smtp r)) = false →
  start_smtp_if w c r = (Ok (), r') →
  is_running (get (smtp r')) = smtp_Enabled c ∧ lmtp r' = lmtp r ∧ rn r' = rn r.
Proof.
  intros Hf Hn. unfold start_smtp_if. destruct (smtp_Enabled c); [|by intros [= <-]]. rewrite Hf.
  destruct (StartSMTP _ _ _ _ _) as [[[]|e] l] eqn:Hs; [|done]. intros [= <-]. split; [|done].
  apply Start_cases in Hs as [[_ [e He]]|(_ & _ & lis & Hst & ->)]; [done|]. simpl.
  unfold is_running, get. simpl. rewrite lookup_app_r, Nat.sub_diag by lia. simpl.
  unfold fac_Start, defaultSMTPFactory, start_smtp, Smtp.Start in Hst. simpl in Hst. repeat case_match; by simplify_eq.
Qed.

Lemma start_lmtp_if_running w c r r' :
  is_running (get (lmtp r)) = false → start_lmtp_if w c r = (Ok (), r') →
  is_running (get (lmtp r')) = lmtp_Enabled c ∧ smtp r' = smtp r ∧ rn r' = rn r.
Proof.
  intros Hn. unfold start_lmtp_if. destruct (lmtp_Enabled c); [|by intros [= <-]].
  destruct (StartLMTP _ _ _ _) as [[[]|e] l] eqn:Hs; [|done]. intros [= <-]. split; [|done].
  apply Start_cases in Hs as [[_ [e He]]|(_ & _ & lis & Hst & ->)]; [done|]. simpl.
  unfold is_running, get. simpl. rewrite lookup_app_r, Nat.sub_diag by lia. simpl.
  unfold start_lmtp, Lmtp.Start in Hst. simpl in Hst. repeat case_match; by simplify_eq.
Qed.

(** What [start_servers] leaves when it succeeds. *)
Lemma start_servers_serving w cfg hook n ds sv ds' r :
  smtpFactory_ n = defaultSMTPFactory → StopMetrics ∉ ds →
  start_servers w cfg hook n ds = (Ok sv, ds', r) →
  sv_ctrl sv = r ∧ rn r = n ∧ sv_hook sv = hook ∧
  is_running (get (smtp r)) = smtp_Enabled (cfg_SMTP cfg) ∧
  is_running (get (lmtp r)) = lmtp_Enabled (cfg_LMTP cfg) ∧
  (sv_guard sv = if bool_decide (grpc_AuthToken (cfg_GRPC cfg) = "") then AllowAll else Bearer (grpc_AuthToken (cfg_GRPC cfg))) ∧
  head (sv_unary sv) = Some AuthInterceptor ∧ head (sv_stream sv) = Some AuthInterceptor ∧
  (ForwardInterceptor ∈ sv_unary sv ↔ fwd n ≠ None) ∧
  (StopMetrics ∈ ds' ↔ 0 < obs_MetricsPort (cfg_Observability cfg)).
Proof.
  intros Hf Hds. unfold start_servers. destruct (mbxserver_New _ _); [|done].
  destruct (start_metrics _ _) as [m|] eqn:Hm; [|done]. destruct (Listen _ _); [|done].
  destruct (start_smtp_if _ _ _) as [[[]|e] r1] eqn:H1; [|done].
  destruct (start_lmtp_if _ _ _) as [[[]|e] r2] eqn:H2; [|done]. intros [= <- <- <-].
  apply start_smtp_if_running in H1 as (Hr1 & Hl1 & Hn1); [|done|done].
  apply start_lmtp_if_running in H2 as (Hr2 & Hl2 & Hn2); [|by rewrite Hl1].
  simpl. split_and!; try done; [by rewrite Hn2|by rewrite Hl2| |].
  - rewrite !elem_of_cons. destruct (fwd n); set_solver.
  - unfold start_metrics in Hm. destruct (Z.ltb_spec 0 (obs_MetricsPort (cfg_Observability cfg))).
    + unfold Observability.NewMetricsServer, Observability.Start in Hm. destruct (exporter w); [|done].
      destruct (Listen w _); simplify_eq. split; [done|]. intros _. by left.
    + injection Hm as <-. split; [by intros ?%Hds|lia].
Qed.


Section Shutdown.
Variable net : list (Forwarder.Forwarder.Call * result unit) → Forwarder.Forwarder.Call → result unit.
Variable relay_stop : Relay.RelayServer → option Relay.RelayServer.
Hypothesis relay_stops : ∀ srv,
  match relay_stop srv with
  | Some srv' => Relay.Stop srv srv'
  | None => ∃ q, Relay.queue srv = Some q ∧ RelayQueue.stopCh q = true
  end.

(** The whole command: [history] is what the controller goes through while it
    serves, [served] how serving ends. The deferred calls run on every return;
    closing the controller is a [result] of [Close] or its panic. *)
Definition runServe (now : Time) (w : world) (sqlite_New : string → S) (rd : R) (resolved : result Config.Config)
    (history : running (P := plugin) → running (P := plugin)) (served : result unit) (o : MapOrder) (cl : closings)
    : result unit * option (option (result unit * running (P := plugin))) :=
  let '(res, defers, ctl) := start now w sqlite_New rd resolved in
  let ctl := match res, ctl with Ok _, Some (r, _) => Some (history r) | _, Some (r, _) => Some r | _, None => None end in
  (match res with Err err => Err err | Ok _ => served end,
   match ctl with
   | Some r => if bool_decide (CloseController ∈ defers) then Some (Close net relay_stop o cl r) else None
   | None => None
   end).

Lemma StartSMTP_operates w c r : operate r (set_smtp (StartSMTP (smtpFactory_ (rn r)) (smtp_tls w) (smtp_listen w) c (smtp r)).2 r).
Proof. eapply op_smtp, step_start, surjective_pairing. Qed.

Lemma StartLMTP_operates w c r : operate r (set_lmtp (StartLMTP (lmtp_listen w) (lmtp_chmod w) c (lmtp r)).2 r).
Proof. eapply op_lmtp, step_start, surjective_pairing. Qed.

Lemma start_smtp_operates w c r : rtc operate r (start_smtp_if w c r).2.
Proof.
  unfold start_smtp_if. destruct (smtp_Enabled c); [|done].
  pose proof (StartSMTP_operates w (smtp_config c) r) as H. destruct (StartSMTP _ _ _ _ _) as [[[]|e] l]; by apply rtc_once.
Qed.

Lemma start_lmtp_operates w c r : rtc operate r (start_lmtp_if w c r).2.
Proof.
  unfold start_lmtp_if. destruct (lmtp_Enabled c); [|done].
  pose proof (StartLMTP_operates w (lmtp_config c) r) as H. destruct (StartLMTP _ _ _ _) as [[[]|e] l]; by apply rtc_once.
Qed.

(** Whatever the outcome of the later steps, the controller is one that started
    and then only had listeners started, and its closing is deferred. *)
Lemma start_servers_operates w cfg hook n ds res ds' r :
  start_servers w cfg hook n ds = (res, ds', r) →
  rtc operate (boot n) r ∧ (∀ d, d ∈ ds → d ∈ ds') ∧ (∀ sv, res = Ok sv → sv_ctrl sv = r).
Proof.
  unfold start_servers. destruct (mbxserver_New _ _); [|intros [= <- <- <-]; split_and!; done].
  destruct (start_metrics _ _) as [m|]; [|intros [= <- <- <-]; split_and!; done].
  assert (∀ d, d ∈ ds → d ∈ match m with Some _ => StopMetrics :: ds | None => ds end) as Hd by (intros d Hd; destruct m; set_solver).
  destruct (Listen _ _); [|by intros [= <- <- <-]].
  pose proof (start_smtp_operates w (cfg_SMTP cfg) (boot n)) as H1.
  destruct (start_smtp_if _ _ _) as [[[]|e] r1]; [|by intros [= <- <- <-]].
  pose proof (start_lmtp_operates w (cfg_LMTP cfg) r1) as H2. simpl in H1.
  destruct (start_lmtp_if _ _ _) as [[[]|e] r2]; intros [= <- <- <-]; (split_and!; [by etrans|done|]); [by intros sv [= <-]|done].
Qed.

Lemma start_operates now w db rd resolved res ds ctl :
  start now w db rd resolved = (res, ds, ctl) →
  match ctl with
  | None => ∃ e, res = Err e
  | Some (r, env) => CloseController ∈ ds ∧ (∀ sv, res = Ok sv → sv_ctrl sv = r) ∧
      ∃ opts env0 n held, NewController now (ctrl_world w) opts env0 = (Ok n, held, env) ∧ rtc operate (boot n) r
  end.
Proof.
  unfold start. destruct resolved as [cfg|]; [|intros [= <- _ <-]; eauto].
  destruct (open_redis _ _) as [client|]; [|intros [= <- _ <-]; eauto].
  set (ds0 := match client with Some _ => _ | None => _ end).
  destruct (ctrlOpts _ _ _ _) as [opts|]; [|intros [= <- _ <-]; eauto].
  destruct (NewController _ _ _ _) as [[[n|e] held] env] eqn:Hn; [|intros [= <- _ <-]; eauto].
  destruct (start_servers _ _ _ _ _) as [[res' ds'] r] eqn:Hs. intros [= <- <- <-].
  apply start_servers_operates in Hs as (Hr & Hd & Hsv). split; [apply Hd; set_solver|]. split; [done|]. eauto 10.
Qed.

(** C12. The serve command takes its node down on every way out: once the
    controller has been made, whichever later step fails (the mailbox server, the
    metrics, the port, SMTP, LMTP), and after whatever went on while it served,
    the deferred [Close] runs, does not panic and leaves the node at rest; the
    command's error is the first one, and what [Close] returns is only logged. A
    command that served had made a controller. *)
Theorem runServe_cleans_up now w db rd resolved history served o cl :
  (∀ r, rtc operate r (history r)) →
  let '(started, _, made) := start now w db rd resolved in
  let '(res, closed) := runServe now w db rd resolved history served o cl in
  res = match started with Err e => Err e | Ok _ => served end ∧
  (closed = None ↔ made = None) ∧ (is_ok started = true → made ≠ None) ∧
  (∀ c, closed = Some c → ∃ r', c = Some (cl_store cl, r') ∧ at_rest r').
Proof.
  intros Hh. unfold runServe. destruct (start _ _ _ _ _) as [[started ds] made] eqn:Hs.
  apply start_operates in Hs. destruct made as [[r env]|].
  - destruct Hs as (Hd & _ & opts & env0 & n & held & Hn%started_live & Hr).
    set (r1 := match started with Ok _ => history r | Err _ => r end).
    replace (match started with Ok _ => Some (history r) | Err _ => Some r end) with (Some r1) by (by destruct started).
    rewrite bool_decide_eq_true_2 by done. split; [done|]. split; [done|]. split; [done|].
    intros c [= <-]. assert (live r1) as Hl.
    { assert (rtc operate (boot n) r1) as Hr1 by (unfold r1; destruct started; [by etrans; [exact Hr|]|done]).
      clear -Hr1 Hn. induction Hr1; eauto using operate_live. }
    destruct (Close_live net relay_stop relay_stops o cl r1 Hl) as (r' & -> & Hrest & _). eauto.
  - destruct Hs as [e ->]. split_and!; done.
Qed.

End Shutdown.
End Run.
End Run.

(** ** A concrete node *)
Module ServeDemo.
Import Plugins Outbound Run Server.Server Lifecycle Ports Node Mailbox MailboxDemo ControllerDemo Server.ServerDemo DemoViper.
#[local] Existing Instances RedisLockout.redis_store AddressFilter.mem_rules.
#[local] Existing Instances ascii_only bare_addresses AttachmentFilter.plain_types SecurityAgent.unlimited.
#[local] Existing Instances ReputationDemo.demo_v4 ReputationDemo.demo_decisions LockoutDemo.table_redis.
#[local] Existing Instances Relay.demo_network MemStore.ops RedisMem.ops DemoViper.viper.

#[local] Instance any_address : AddressFilter.Regexp := { Compile _ := Some (λ _, true) }.
#[local] Instance no_dns : EmailAuth.Dns := { LookupTXT _ := None; EffectiveTLDPlusOne _ := None }.

(** Hooks run one after the other, up to the first that refuses. *)
Fixpoint run_all {Pl} (hook : Pl → Draft → result unit * Draft * Pl) (ps : list Pl) (d : Draft) : result Draft * list Pl :=
  match ps with
  | [] => (Ok d, [])
  | p :: ps =>
      match hook p d with
      | (Ok _, d1, p') => let '(r, ps') := run_all hook ps d1 in (r, p' :: ps')
      | (Err e, _, p') => (Err e, p' :: ps)
      end
  end.

#[local, refine] Instance in_order : SendHooks := { run_hooks := @run_all }.
Proof.
  intros Pl hook ps. induction ps as [|p ps IH]; intros d d' ps'; simpl; [intros [= <- <-]; apply passes_nil|].
  destruct (hook p d) as [[[[]|e] d1] p'] eqn:Hh; [|done]. destruct (run_all hook ps d1) as [r qs] eqn:Hr.
  intros [= -> <-]. eapply passes_cons; [exact Hh|]. by apply IH.
Defined.

(** A configuration from flags. *)
Definition demo_flags : sources := MkSources
  (list_to_map [("smtp-enabled", VBool true); ("smtp-security-enabled", VBool true);
     ("smtp-security-max-auth-failures", VInt 1); ("security-enabled", VBool true); ("spam-enabled", VBool true);
     ("grpc-auth-token", VString "s3cret"); ("outbound-backend", VString "smtp"); ("outbound-queue", VBool true)]) ∅ ∅.
Definition demo_config : Config.Config := decode_Config demo_flags "".

Definition demo_built : Built (LM := unit) (RD := LockoutDemo.table) := buildPlugins (cfg_Plugins demo_config) None.

Definition demo_draft : Draft :=
  MkDraft "a@x" ["b@x"] "hi" "text" {["X-SMTP-Remote-Addr" := "1.2.3.4:99"]} [].

Definition demo_outside : outside :=
  MkOutside ReputationDemo.demo_lapi (CrowdSec.MkClock 0 0 0) ReputationDemo.demo_dns (λ _, 0) (λ _, "") (λ _ _, Unreachable (EExternal ""))
    (λ _ _, Unreachable (EExternal "")) some_order Minute.

Definition demo_security : Security (RD := LockoutDemo.table) := new_security (pl_SMTPSecurity (cfg_Plugins demo_config)) None.
Definition demo_locked : Security (RD := LockoutDemo.table) := (SMTPSecurity.RecordAuthFailure 0 "1.2.3.4:25" demo_security).2.

Lemma plugin_chain_enforces_lockout_witness :
  (kind_of <$> plugins demo_built = [KSMTPSecurity; KSecurityAgent]) ∧
  is_ok (run_hooks (BeforeSend demo_outside (Some demo_locked)) (plugins demo_built) demo_draft).1 = false.
Proof.
  split; [vm_compute; reflexivity|].
  apply (proj2 (proj2 (proj2 (plugin_chain_enforces_lockout (cfg_Plugins demo_config) None)))
    demo_outside 0 "1.2.3.4:25" demo_security demo_locked demo_locked (plugins demo_built) demo_draft eq_refl).
  - vm_compute. reflexivity.
  - split; [reflexivity|]. vm_compute. discriminate.
  - vm_compute. reflexivity.
  - apply rtc_once. apply SMTPSecurity.step_tick. vm_compute. discriminate.
  - vm_compute. reflexivity.
  - vm_compute. discriminate.
  - vm_compute. reflexivity.
Defined.

Lemma buildRelayBackend_spec_witness :
  buildRelayBackend Ok (demo_outbound "smtp" "key.pem") =
    Ok (Relay.DKIMSigningBackend (Net := Relay.demo_network) (smtp_backend (demo_outbound "smtp" "key.pem")) "x.org" "sel" ()) ∧
  is_ok (buildRelayBackend (λ _, Err (EExternal "no such file")) (demo_outbound "smtp" "key.pem")) = false.
Proof.
  split; [|reflexivity].
  apply (proj1 (proj2 (proj2 (buildRelayBackend_spec Ok (demo_outbound "smtp" "key.pem")))) eq_refl eq_refl).
  exists ((() : unit) : Relay.signer (Network := Relay.demo_network)). split; [|reflexivity]. exists "key.pem". split; reflexivity.
Defined.

Definition demo_outer (lmtp_ok : result unit) : Run.world (RD := LockoutDemo.table) (LM := unit) :=
  Run.MkWorld (λ _, Ok (∅ : LockoutDemo.table)) Ok demo_world (λ _, Ok ()) (Ok ()) (λ _, Ok ())
    (Ok ()) (Ok ()) lmtp_ok (Ok ()).

Definition demo_run := Run.start 0 (demo_outer (Ok ())) (λ _, MemStore.New) (∅ : redis_server) (Ok demo_config).


(** LMTP is enabled too but its port is taken: the node that was up is closed. *)
Definition demo_config_lmtp : Config.Config :=
  decode_Config (MkSources (<["lmtp-enabled" := VBool true]> (changed demo_flags)) ∅ ∅) "".

Definition demo_failed := Run.runServe no_calls stop_now 0 (demo_outer (Err (EExternal "in use"))) (λ _, MemStore.New)
  (∅ : redis_server) (Ok demo_config_lmtp) (λ r, r) (Ok ()) some_order all_ok.

Lemma runServe_cleans_up_witness :
  is_ok demo_failed.1 = false ∧ ∃ r', demo_failed.2 = Some (Some (Ok (), r')) ∧ at_rest r'.
Proof.
  split; [vm_compute; reflexivity|].
  pose proof (runServe_cleans_up no_calls stop_now stop_now_stops 0 (demo_outer (Err (EExternal "in use"))) (λ _, MemStore.New)
    (∅ : redis_server) (Ok demo_config_lmtp) (λ r, r) (Ok ()) some_order all_ok (λ r, rtc_refl _ r)) as H.
  fold demo_failed in H. destruct (Run.start _ _ _ _ _) as [[started ds] made] eqn:Hs.
  assert (made ≠ None) as Hm.
  { intros ->. apply (f_equal snd) in Hs. vm_compute in Hs. discriminate Hs. }
  destruct demo_failed as [res closed]. destruct H as (_ & Hc & _ & Hall).
  destruct closed as [c|]; [|exfalso; apply Hm; apply Hc; reflexivity].
  destruct (Hall c eq_refl) as (r' & -> & Hrest). exists r'. split; [reflexivity|exact Hrest].
Defined.

End ServeDemo.
