(* ===== verification/Cli.v ===== *)
(** * The command line

    Models the client commands of [cmd/]: [user.go], [register.go],
    [domain.go], [smtp.go], [status.go] and [discover.go]. Each command dials
    the node, makes one call of the Postbox service and prints the answer; a
    command is run here against the service of [Server.v], behind the guard the
    node was started with ([Serve.v]). *)
From Stdlib Require Import Ascii QArith.
From S2P Require Import Prelude GoStrings Store MemStore Registry Relay Nodekey Smtp Server Controller Config Serve.
Local Open Scope Z_scope.

Module Cli.
Import Server.Server Lifecycle Ports Run.

(** ** Metadata flags *)

(** One round of [parseMetaFlags]: [key=value]; a key alone has the empty value, a
    pair without a key is dropped. *)
Definition add_pair (m : gmap string string) (p : string) : gmap string string :=
  let '(k, v) := match CutByte "=" p with Some kv => kv | None => (p, "") end in
  if bool_decide (k = "") then m else <[k := v]> m.

Definition parseMetaFlags (pairs : list string) : gmap string string := foldl add_pair ∅ pairs.

(** ** Printing a profile *)

(** The inner loop of the sort: [x] is [pairs[i]], which ends as the least of
    [x] and the rest. *)
Fixpoint exchange (x : string) (rest : list string) : string * list string :=
  match rest with
  | [] => (x, [])
  | y :: rest' =>
      if String.ltb y x then let '(m, l) := exchange y rest' in (m, x :: l)
      else let '(m, l) := exchange x rest' in (m, y :: l)
  end.

(** The outer loop; [fuel] is the length. *)
Fixpoint exchange_sort (fuel : nat) (l : list string) : list string :=
  match fuel, l with
  | S fuel', x :: rest => let '(m, l') := exchange x rest in m :: exchange_sort fuel' l'
  | _, _ => l
  end.

Definition render (kv : string * string) : string := kv.1 +:+ "=" +:+ kv.2.

Definition sorted_pairs (o : MapOrder) (m : gmap string string) : list string :=
  let pairs := render <$> range o m in exchange_sort (length pairs) pairs.

(** The lines [printUser] prints. *)
Definition printUser (o : MapOrder) (u : UserProfile) : list text :=
  [Text "email:    %s" [AStr (UP_Email u)]] ++
  (if bool_decide (UP_Type u = "") then [] else [Text "type:     %s" [AStr (UP_Type u)]]) ++
  (if bool_decide (UP_PublicKey u = "") then [] else [Text "pubkey:   %s" [AStr (UP_PublicKey u)]]) ++
  (if bool_decide (UP_Metadata u = ∅) then []
   else [Text "metadata: %s" [AStr (Relay.Join (sorted_pairs o (UP_Metadata u)) " ")]]) ++
  [Text "" []].

(** *** The sort *)

Lemma exchange_spec x rest m l : exchange x rest = (m, l) →
  m :: l ≡ₚ x :: rest ∧ (∀ z, z ∈ x :: rest → String.ltb z m = false) ∧ length l = length rest.
Proof.
  pose proof (string_less_weak id) as Hw.
  assert (∀ z, String.ltb z z = false) as Hirr.
  { intros z. destruct (String.ltb z z) eqn:E; [|done]. pose proof (less_asym (StrictWeak := Hw) _ _ E). simpl in *. congruence. }
  revert x m l. induction rest as [|y rest IH]; intros x m l; simpl.
  - intros [= <- <-]. split; [done|]. split; [|done]. by intros z ->%list_elem_of_singleton.
  - destruct (String.ltb y x) eqn:Hyx.
    + destruct (exchange y rest) as [m' l'] eqn:He. intros [= <- <-]. destruct (IH _ _ _ He) as (Hp & Hm & Hlen).
      split; [|split; [|simpl; congruence]].
      * by rewrite Permutation_swap, Hp.
      * intros z [Hz|Hz]%elem_of_cons; [rewrite Hz|by apply Hm].
        apply (less_negtrans (StrictWeak := Hw) m' y x); simpl; [apply Hm; by left|]. by apply (less_asym (StrictWeak := Hw)).
    + destruct (exchange x rest) as [m' l'] eqn:He. intros [= <- <-]. destruct (IH _ _ _ He) as (Hp & Hm & Hlen).
      split; [|split; [|simpl; congruence]].
      * rewrite Permutation_swap, Hp. apply Permutation_swap.
      * intros z. rewrite !elem_of_cons. intros [->|[->|Hz]]; [apply Hm; by left| |apply Hm; by right].
        apply (less_negtrans (StrictWeak := Hw) m' x y); simpl; [apply Hm; by left|done].
Qed.

Lemma exchange_sort_spec n l : (length l <= n)%nat →
  exchange_sort n l ≡ₚ l ∧ sorted_by String.ltb (exchange_sort n l).
Proof.
  revert l. induction n as [|n IH]; intros l Hl.
  - destruct l; simpl in *; [|lia]. split; [done|constructor].
  - destruct l as [|x rest]; simpl in *; [split; [done|constructor]|].
    destruct (exchange x rest) as [m l'] eqn:He. apply exchange_spec in He as (Hp & Hm & Hlen).
    destruct (IH l') as [Hp' Hs]; [lia|]. split; [by rewrite Hp'|].
    constructor; [done|]. rewrite list.Forall_forall. intros z Hz. rewrite Hp' in Hz. apply Hm.
    rewrite <-Hp. by right.
Qed.

(** The sort of [printUser] is the one order of its pairs. *)
Lemma exchange_sort_correct l : exchange_sort (length l) l = sortSlice String.ltb l.
Proof.
  destruct (exchange_sort_spec (length l) l) as [Hp Hs]; [done|].
  pose proof (string_less_weak (λ x : string, x)) as Hw.
  transitivity (sortSlice String.ltb (exchange_sort (length l) l)).
  - eapply (StronglySorted_unique_strong (λ a b, String.ltb b a = false)).
    + intros x y _ _ H1 H2. unfold String.ltb in *. rewrite String.compare_antisym in H2.
      destruct (String.compare y x) eqn:E; try done. symmetry. by apply String.compare_eq_iff in E.
    + exact Hs.
    + apply (sortSlice_sorted String.ltb).
    + by rewrite sortSlice_perm.
  - by apply (sortSlice_unique (λ x, x)).
Qed.

Lemma elem_of_sorted_pairs o m p : p ∈ sorted_pairs o m ↔ ∃ k v, m !! k = Some v ∧ p = render (k, v).
Proof.
  unfold sorted_pairs. rewrite exchange_sort_correct, elem_of_sortSlice, list_elem_of_fmap. split.
  - intros ([k v] & -> & Hkv). apply elem_of_range in Hkv. eauto.
  - intros (k & v & Hm & ->). exists (k, v). split; [done|]. by apply elem_of_range.
Qed.

Lemma sorted_pairs_order o o' m : sorted_pairs o m = sorted_pairs o' m.
Proof.
  unfold sorted_pairs. rewrite !exchange_sort_correct. apply (sortSlice_unique (λ x, x)); [|done].
  apply fmap_Permutation. by rewrite !range_perm.
Qed.

(** *** Reading the printed pairs back *)

Definition plain_key (k : string) : Prop := k ≠ "" ∧ CutByte "=" k = None.

Lemma add_rendered m k v : plain_key k → add_pair m (render (k, v)) = <[k := v]> m.
Proof.
  intros [Hne Hk]. unfold add_pair. change (render (k, v)) with (k +:+ String "=" v). rewrite (CutByte_app _ _ _ Hk). by rewrite bool_decide_eq_false_2.
Qed.

(** Pairs of a map add up to what they name, in any order. *)
Lemma add_pairs m ps acc :
  (∀ p, p ∈ ps → ∃ k v, m !! k = Some v ∧ plain_key k ∧ p = render (k, v)) → acc ⊆ m →
  foldl add_pair acc ps ⊆ m ∧ acc ⊆ foldl add_pair acc ps ∧
  (∀ k v, m !! k = Some v → plain_key k → render (k, v) ∈ ps → foldl add_pair acc ps !! k = Some v).
Proof.
  revert acc. induction ps as [|p ps IH]; intros acc Hps Hacc; simpl.
  - split_and!; [done|done|]. by intros k v _ _ ?%elem_of_nil.
  - destruct (Hps p) as (k & v & Hm & Hk & ->); [by left|]. rewrite add_rendered by done.
    destruct (IH (<[k := v]> acc)) as (H1 & H2 & H3).
    + intros q Hq. apply Hps. by right.
    + by apply insert_subseteq_l.
    + split; [done|]. split.
      * etrans; [|exact H2]. apply map_subseteq_spec. intros k' v' Hk'. destruct (decide (k = k')) as [<-|Hne].
        -- rewrite lookup_insert_eq. pose proof (lookup_weaken _ _ _ _ Hk' Hacc). congruence.
        -- by rewrite lookup_insert_ne.
      * intros k' v' Hm' Hk' [Heq|Hin]%elem_of_cons; [|by apply H3].
        assert (add_pair ∅ (render (k', v')) = add_pair ∅ (render (k, v))) as He by (by rewrite Heq).
        rewrite !add_rendered in He by done. eapply lookup_weaken; [|exact H2].
        destruct (decide (k = k')) as [<-|Hne]; [rewrite lookup_insert_eq; congruence|].
        apply (f_equal (lookup k')) in He. rewrite lookup_insert_eq, lookup_insert_ne in He by done. done.
Qed.

(** C39. The metadata a profile is printed with can be given back: the pairs
    [printUser] prints, passed as [--meta] flags, parse to the same metadata,
    when its keys are not empty and contain no equals sign; they are printed in
    ascending order, each once, and the same for every order in which Go iterates
    over the map. *)
Theorem printed_metadata_parses o m :
  (∀ k v, m !! k = Some v → plain_key k) →
  parseMetaFlags (sorted_pairs o m) = m ∧
  sorted_by String.ltb (sorted_pairs o m) ∧ length (sorted_pairs o m) = size m ∧
  ∀ o', sorted_pairs o' m = sorted_pairs o m.
Proof.
  intros Hk. split; [|split; [|split]].
  - destruct (add_pairs m (sorted_pairs o m) ∅) as (H1 & _ & H3).
    + intros p (k & v & Hm & ->)%elem_of_sorted_pairs. exists k, v. by split_and!; [|apply (Hk k v)|].
    + apply map_empty_subseteq.
    + apply (anti_symm (⊆)); [exact H1|]. apply map_subseteq_spec. intros k v Hm. apply H3; [done|by apply (Hk k v)|].
      apply elem_of_sorted_pairs. eauto.
  - unfold sorted_pairs. rewrite exchange_sort_correct. pose proof (string_less_weak (λ x : string, x)) as Hw.
    apply (sortSlice_sorted String.ltb).
  - unfold sorted_pairs. by rewrite exchange_sort_correct, length_sortSlice, length_fmap, range_perm, length_map_to_list.
  - intros o'. apply sorted_pairs_order.
Qed.

(** ** The commands

    What the authentication interceptor of the mailbox library does with a call's
    metadata: it refuses what the guard refuses. The clients send the metadata of
    the transport, which has no [authorization]. *)
Class Interceptors := {
  admits : guard → gmap string (list string) → result unit;
  admits_all : ∀ md, admits AllowAll md = Ok ();
  admits_bearer : ∀ token md, admits (Bearer token) md = Guard.Authenticate token (Some md);
  transport_md : gmap string (list string);
  transport_md_plain : transport_md !! "authorization" = None }.

(** What comes back from a call: it runs only when the guard admits it. *)
Definition guarded {IC : Interceptors} {N A} (g : guard) (rpc : N → result A * N) (n : N) : result A * N :=
  match admits g transport_md with
  | Err err => (Err err, n)
  | Ok _ => rpc n
  end.

(** A call with the metadata of the transport alone is refused by a bearer guard. *)
Theorem plain_call_refused {IC : Interceptors} token :
  admits (Bearer token) transport_md =
    Err (EStatus Unauthenticated (Text "authorization header required" [])).
Proof. rewrite admits_bearer. unfold Guard.Authenticate. by rewrite transport_md_plain. Qed.

Lemma guarded_refused {IC : Interceptors} {N A} token (rpc : N → result A * N) n :
  guarded (Bearer token) rpc n = (Err (EStatus Unauthenticated (Text "authorization header required" [])), n).
Proof. unfold guarded. by rewrite plain_call_refused. Qed.

Lemma guarded_all {IC : Interceptors} {N A} (rpc : N → result A * N) n : guarded AllowAll rpc n = rpc n.
Proof. unfold guarded. by rewrite admits_all. Qed.

Section Commands.
Context {IC : Interceptors}.
Context {R S : Type} {SO : StoreOps S} {RO : RedisOps R} {RC : RouteCodec}.

(** The node a command talks to: its controller, guard and SMTP factory, and what
    the calls change. *)
Record Node := MkNode {
  controller : Controller; node_guard : guard; factory : SMTPFactory;
  environment : Env R S; listeners : Listeners Smtp.Config; mailbox_connected : bool }.

Definition set_env (env : Env R S) (n : Node) : Node :=
  MkNode (controller n) (node_guard n) (factory n) env (listeners n) (mailbox_connected n).
Definition set_listeners (l : Listeners Smtp.Config) (n : Node) : Node :=
  MkNode (controller n) (node_guard n) (factory n) (environment n) l (mailbox_connected n).

(** The commands with their flags and arguments. *)
Inductive command : Type :=
| UserRegister (email type public_key : string) (meta : list string)
| UserList
| UserSearch (meta : list string)
| UserGet (email : string)
| RegisterCmd (domain : string) (is_default : bool) (user : string) (meta : list string)
| DomainList
| DomainRemap (domain node : string)
| SMTPStart (port : Z) (domain : string) (insecure_auth : bool) (max_msg_bytes max_recipients : Z)
    (rate_conns : Q) (rate_burst : Z)
| SMTPStop
| SMTPStatus
| Status
| DiscoverCmd (target : string).

(** What the node answers to calls meanwhile: clock, map order, and the outcomes
    of loading the certificate, binding and closing a listener. *)
Record moment := MkMoment {
  clock : Time; order : MapOrder; tls : result unit; listen : result unit; closed : result unit }.

(** One call through the interceptor, with the error of the command. *)
Definition call {A} (failed : string) (rpc : Node → result A * Node) (print : A → list text) (n : Node)
    : result (list text) * Node :=
  match guarded (node_guard n) rpc n with
  | (Err err, n') => (Err (EWrap (Text failed []) err), n')
  | (Ok a, n') => (Ok (print a), n')
  end.

Definition reads {A} (f : Node → result A) (n : Node) : result A * Node := (f n, n).
Definition writes {A} (f : Node → result A * Env R S) (n : Node) : result A * Node :=
  let '(r, env) := f n in (r, set_env env n).
Definition serves {A} (f : Node → result A * Listeners Smtp.Config) (n : Node) : result A * Node :=
  let '(r, l) := f n in (r, set_listeners l n).

Definition message (r : Response) : list text := [Message_ r].

Definition print_users (o : MapOrder) (none : string) (us : list UserProfile) : list text :=
  match us with [] => [Text none []] | _ => us ≫= printUser o end.

Definition print_domain (d : DomainInfo) : text :=
  Text "%-40s  node: %s%s" [AStr (DI_Name d); AStr (DI_NodeId d); AStr (if DI_IsDefault d then " (default)" else "")].

Definition runUserRegister (m : moment) (email type public_key : string) (meta : list string) : Node → result (list text) * Node :=
  call "register user: %w" (writes (λ n, RegisterUser (clock m) (controller n)
    (MkRegisterUser email public_key (parseMetaFlags meta) type) (environment n))) message.

Definition runUserList (m : moment) : Node → result (list text) * Node :=
  call "list users: %w" (reads (λ n, ListUsers (order m) (controller n) (environment n)))
    (print_users (order m) "no users registered").

Definition runUserSearch (m : moment) (meta : list string) : Node → result (list text) * Node :=
  call "search users: %w" (reads (λ n, SearchUsers (order m) (controller n) (parseMetaFlags meta) (environment n)))
    (print_users (order m) "no matching users").

Definition runUserGet (m : moment) (email : string) : Node → result (list text) * Node :=
  call "get user: %w" (reads (λ n, GetUser (controller n) email (environment n))) (printUser (order m)).

(** [postbox register]: a domain goes first; needing one or the other is checked
    before dialing. *)
Definition runRegister (m : moment) (domain : string) (is_default : bool) (user : string) (meta : list string)
    : Node → result (list text) * Node :=
  if negb (bool_decide (domain = "")) then
    call "register domain: %w" (writes (λ n, RegisterDomain (clock m) (controller n) domain is_default (environment n))) message
  else
    call "register user: %w" (writes (λ n, RegisterUser (clock m) (controller n)
      (MkRegisterUser user "" (parseMetaFlags meta) "") (environment n))) message.

Definition runDomainList (m : moment) : Node → result (list text) * Node :=
  call "list domains: %w" (reads (λ n, ListDomains (order m) (environment n)))
    (λ ds, match ds with [] => [Text "no domains registered" []] | _ => print_domain <$> ds end).

Definition runDomainRemap (domain node : string) : Node → result (list text) * Node :=
  call "remap domain: %w" (writes (λ n, RemapDomain (controller n) domain node (environment n))) message.

Definition runSMTPStart (m : moment) (port : Z) (domain : string) (insecure_auth : bool) (max_msg_bytes max_recipients : Z)
    (rate_conns : Q) (rate_burst : Z) : Node → result (list text) * Node :=
  call "start smtp: %w" (serves (λ n, rpc_StartSMTP (factory n) (tls m) (listen m)
    (MkSMTPRequest (wrap32 port) domain insecure_auth max_msg_bytes (wrap32 max_recipients) 0 0 rate_conns (wrap32 rate_burst))
    (listeners n))) message.

Definition runSMTPStop (m : moment) : Node → result (list text) * Node :=
  call "stop smtp: %w" (serves (λ n, rpc_StopSMTP (closed m) (listeners n))) message.

Definition runSMTPStatus : Node → result (list text) * Node :=
  call "get smtp status: %w" (reads (λ n, Ok (GetSMTPStatus (factory n) (listeners n))))
    (λ '(running, port, domain),
       [Text "smtp: %s  port: %d  domain: %s" [AStr (if running : bool then "running" else "stopped"); AInt port; AStr domain]]).

Definition runStatus : Node → result (list text) * Node :=
  call "get status: %w" (reads (λ n, GetStatus (controller n) (mailbox_connected n) (environment n)))
    (λ r, [Text "node_id:  %s" [AStr (SR_NodeId r)]; Text "mode:     %s" [AStr (SR_Mode r)];
           Text "domains:  %d" [AInt (SR_DomainCount r)]; Text "users:    %d" [AInt (SR_UserCount r)];
           Text "mailbox:  %s" [AStr (if SR_MailboxConnected r then "connected" else "disconnected")]]).

Definition runDiscover (m : moment) (target : string) : Node → result (list text) * Node :=
  call "discover: %w" (reads (λ n, Discover (clock m) (order m) (controller n) target (environment n)))
    (λ i, [Text "node_id: %s" [AStr (NI_NodeId i)]; Text "address: %s" [AStr (NI_Address i)];
           Text "mode:    %s" [AStr (NI_Mode i)]]).

(** A command against the node at [addr]; [NewClient] is [grpc.NewClient]. *)
Definition run (NewClient : string → result unit) (addr : string) (m : moment) (c : command) (n : Node)
    : result (list text) * Node :=
  let refused := match c with
                 | RegisterCmd domain _ user _ => bool_decide (domain = "") && bool_decide (user = "")
                 | _ => false
                 end in
  if refused then (Err (EText (Text "provide --domain or --user" [])), n)
  else match NewClient addr with
  | Err err => (Err (EWrap (Text "connect %s: %w" [AStr addr]) err), n)
  | Ok _ =>
      match c with
      | UserRegister email type public_key meta => runUserRegister m email type public_key meta n
      | UserList => runUserList m n
      | UserSearch meta => runUserSearch m meta n
      | UserGet email => runUserGet m email n
      | RegisterCmd domain is_default user meta => runRegister m domain is_default user meta n
      | DomainList => runDomainList m n
      | DomainRemap domain node => runDomainRemap domain node n
      | SMTPStart port domain insecure bytes rcpts rate burst => runSMTPStart m port domain insecure bytes rcpts rate burst n
      | SMTPStop => runSMTPStop m n
      | SMTPStatus => runSMTPStatus n
      | Status => runStatus n
      | DiscoverCmd target => runDiscover m target n
      end
  end.

(** *** Behind a token *)

Lemma call_refused {A} failed (rpc : Node → result A * Node) print n token :
  node_guard n = Bearer token →
  call failed rpc print n =
    (Err (EWrap (Text failed []) (EStatus Unauthenticated (Text "authorization header required" []))), n).
Proof. intros Hg. unfold call. by rewrite Hg, guarded_refused. Qed.

(** The commands do not send a token, so with one configured a node refuses every
    one of them, and nothing changes. *)
Theorem commands_refused_with_token NewClient addr m c n token :
  node_guard n = Bearer token →
  is_ok (run NewClient addr m c n).1 = false ∧ (run NewClient addr m c n).2 = n.
Proof.
  intros Hg. unfold run. destruct (match c with RegisterCmd _ _ _ _ => _ | _ => _ end); [done|].
  destruct (NewClient addr); [|done].
  destruct c as [| | | |d| | | | | | |];
    unfold runUserRegister, runUserList, runUserSearch, runUserGet, runDomainList, runDomainRemap, runSMTPStart,
      runSMTPStop, runSMTPStatus, runStatus, runDiscover, runRegister;
    try (destruct (negb (bool_decide (d = "")))); by rewrite !(call_refused _ _ _ _ _ Hg).
Qed.

(** *** Registering and looking up *)

Context {SL : StoreLaws S}.

(** C21. What [postbox user register] stores, [postbox user get] prints: after a
    registration that succeeds on a node open to all callers, for an address new
    or known, looking the user up prints the address, the type, the key and the
    metadata of the flags, each line only when there is something to print, and
    the metadata as the sorted pairs; nothing else changes on the node. *)
Theorem register_then_get NewClient addr m m' n n' email type key meta out :
  node_guard n = AllowAll → NewClient addr = Ok () →
  filed email (store (environment n)) → storable (parseMetaFlags meta) →
  run NewClient addr m (UserRegister email type key meta) n = (Ok out, n') →
  run NewClient addr m' (UserGet email) n' =
    (Ok (printUser (order m') (MkProfile email type key (parseMetaFlags meta) (nodeID (controller n)))), n') ∧
  listeners n' = listeners n ∧ redis (environment n') = redis (environment n) ∧
  (∀ e, e ≠ email → Store.GetUser e (store (environment n')) = Store.GetUser e (store (environment n))) ∧
  (∀ d, GetDomain d (store (environment n')) = GetDomain d (store (environment n))).
Proof.
  intros Hg Hc Hf Hs. unfold run. simpl. rewrite Hc. unfold runUserRegister, runUserGet, call, writes, reads.
  rewrite Hg, guarded_all. destruct (RegisterUser _ _ _ _) as [[resp|e] env'] eqn:Hr; [|done]. intros [= _ <-]. simpl.
  destruct (registered_profile (clock m) (controller n)
    (MkRegisterUser email key (parseMetaFlags meta) type) (environment n) resp env' Hf Hs Hr) as (Hp & Hu & Hd & Hred).
  simpl in Hp. rewrite Hg, guarded_all. simpl. by rewrite Hp.
Qed.

End Commands.

(** ** A session *)
Module CliDemo.
Import ServerDemo.
#[local] Existing Instances MemStore.ops MemStore.laws RedisMem.ops RedisMem.codec.

#[local, refine] Instance plain_interceptors : Interceptors := {
  admits g md := match g with AllowAll => Ok () | Bearer t => Guard.Authenticate t (Some md) end;
  transport_md := {["user-agent" := ["grpc-go"]]} }.
Proof. all: reflexivity. Defined.

Definition demo_node (g : guard) : Node :=
  MkNode local_node g defaultSMTPFactory (demo_env : Env redis_server MemStore.Store) (MkListeners [] None []) true.
Definition demo_moment : moment := MkMoment 5 some_order (Ok ()) (Ok ()) (Ok ()).
Definition dial (_ : string) : result unit := Ok ().
Definition demo_meta : list string := ["skills=web,img"; "endpoint=https://a"; "flag"; "=lost"].

Definition demo_register := run dial "localhost:50051" demo_moment (UserRegister "bot@x.ai" "agent" "" demo_meta) (demo_node AllowAll).

Lemma register_then_get_witness :
  (run dial "localhost:50051" demo_moment (UserGet "bot@x.ai") demo_register.2).1 =
    Ok [Text "email:    %s" [AStr "bot@x.ai"]; Text "type:     %s" [AStr "agent"];
        Text "metadata: %s" [AStr "endpoint=https://a flag= skills=web,img"]; Text "" []].
Proof.
  destruct demo_register as [[out|e] n'] eqn:Hr; [|vm_compute in Hr; discriminate Hr].
  destruct (register_then_get dial "localhost:50051" demo_moment demo_moment (demo_node AllowAll) n' "bot@x.ai" "agent" ""
    demo_meta out) as [Hg _]; [reflexivity|reflexivity| |exact I|exact Hr|].
  - intros u. vm_compute. discriminate.
  - simpl. rewrite Hg. vm_compute. reflexivity.
Defined.

Lemma printed_metadata_parses_witness :
  parseMetaFlags (sorted_pairs some_order {["b" := "2"; "a" := "1=x"]}) = {["b" := "2"; "a" := "1=x"]} ∧
  sorted_pairs some_order {["b" := "2"; "a" := "1=x"]} = ["a=1=x"; "b=2"].
Proof.
  split; [|vm_compute; reflexivity]. apply (printed_metadata_parses some_order {["b" := "2"; "a" := "1=x"]}).
  intros k v Hk. apply lookup_insert_Some in Hk as [[<- _]|[_ Hk]]; [split; [discriminate|reflexivity]|].
  apply lookup_singleton_Some in Hk as [<- _]. split; [discriminate|reflexivity].
Defined.

End CliDemo.
End Cli.
