(* ===== verification/Mail.v ===== *)
(** * The mail commands

    Models [cmd/mail/]: each command dials the node and calls the mailbox
    service, whose calls are the class [MailboxService] over its state, behind
    the same guard as the Postbox service ([Cli.v]). A command gives the lines it
    printed beside its error, since [mail tag] can print and fail. *)
From stdpp Require Import pretty.
From S2P Require Import Prelude GoStrings Relay Nodekey Config Serve Cli.
Local Open Scope Z_scope.

(** ** Dates as the commands print them *)
Module Date.

Definition Day : Duration := 24 * Hour.

(** Year, month and day of a number of days since 1 January of year 1, counted
    in years that start in March. *)
Definition civil (days : Z) : Z * Z * Z :=
  let z := days + 306 in
  let doe := z mod 146097 in
  let yoe := (doe - doe / 1460 + doe / 36524 - doe / 146096) / 365 in
  let doy := doe - (365 * yoe + yoe / 4 - yoe / 100) in
  let mp := (5 * doy + 2) / 153 in
  let m := if mp <? 10 then mp + 3 else mp - 9 in
  (yoe + 400 * (z / 146097) + (if m <=? 2 then 1 else 0), m, doy - (153 * mp + 2) / 5 + 1).

Definition pad (width : nat) (z : Z) : string :=
  let s := pretty z in String.concat "" (repeat "0" (width - String.length s)) +:+ s.

(** [Format] with the two layouts in use, of a time in UTC and in the years 1 to
    9999 that protobuf timestamps have. *)
Definition minute (t : Time) : string :=
  let '(y, m, d) := civil (t / Day) in
  let s := t mod Day / Second in
  pad 4 y +:+ "-" +:+ pad 2 m +:+ "-" +:+ pad 2 d +:+ " " +:+ pad 2 (s / 3600) +:+ ":" +:+ pad 2 (s / 60 mod 60).

Definition second_zone (t : Time) : string :=
  minute t +:+ ":" +:+ pad 2 (t / Second mod 60) +:+ " UTC".

(** [GetCreatedAt().AsTime()]: without a timestamp, the Unix epoch. *)
Definition AsTime (t : option Time) : Time := default (unixToInternal * Second) t.

Example date_epoch : second_zone (AsTime None) = "1970-01-01 00:00:00 UTC".
Proof. vm_compute. reflexivity. Qed.

Example date_leap_day : minute ((unixToInternal + 1709251199) * Second) = "2024-02-29 23:59".
Proof. vm_compute. reflexivity. Qed.

Example date_century : minute ((unixToInternal + 4107542400) * Second) = "2100-03-01 00:00".
Proof. vm_compute. reflexivity. Qed.

End Date.

Module MailCli.
Import Run Cli.

(** ** The mailbox service *)

Record Message := MkMessage {
  Id : string; SenderId : string; RecipientIds : list string; Subject : string; Body : string;
  CreatedAt : option Time; IsRead : bool; FolderId : string; Tags : list string; MsgStatus : string }.
Record Page := MkPage { Messages : list Message; Total : Z; HasMore : bool }.
Record Folder := MkFolder { FolderName : string; MessageCount : Z; UnreadCount : Z; IsSystem : bool }.
Record MailboxStats := MkStats {
  TotalMessages : Z; StatsUnread : Z; DraftCount : Z; FolderStats : gmap string (Z * Z) }.

Record SendMessageRequest := MkSend {
  sm_UserId : string; sm_RecipientIds : list string; sm_Subject : string; sm_Body : string;
  sm_ReplyToId : string; sm_ThreadId : string }.

(** The calls the commands make; users, messages, folders and tags are named by
    their identifiers. *)
Class MailboxService (M : Type) := {
  ListMessages : string → string → Z → Z → M → result Page * M;
  GetMessage : string → string → M → result Message * M;
  SendMessage : SendMessageRequest → M → result Message * M;
  DeleteMessage : string → string → M → result unit * M;
  RestoreMessage : string → string → M → result unit * M;
  PermanentlyDeleteMessage : string → string → M → result unit * M;
  MoveMessage : string → string → string → M → result unit * M;
  AddTag : string → string → string → M → result unit * M;
  RemoveTag : string → string → string → M → result unit * M;
  ListFolders : string → M → result (list Folder) * M;
  GetStats : string → M → result MailboxStats * M }.

(** ** The commands *)

Inductive command : Type :=
| ListCmd (user folder : string) (limit offset : Z)
| ReadCmd (user id : string)
| SendCmd (from : string) (to : list string) (subject body reply_to thread : string)
| TrashCmd (user id : string)
| RestoreCmd (user id : string)
| DeleteCmd (user id : string)
| MoveCmd (user id folder : string)
| TagCmd (user id add remove : string)
| FoldersCmd (user : string)
| StatsCmd (user : string).

Definition bool_text (b : bool) : arg := AStr (if b then "true" else "false").

(** What a page is printed as; [i] counts from 0. *)
Definition message_line : string := "     from=%-30s  id=%s".
Definition print_message (i : nat) (msg : Message) : list text :=
  [Text "%3d. %s [%s] %s" [AInt (Z.of_nat i + 1); AStr (if IsRead msg then "[x]" else "[ ]");
     AStr (Date.minute (Date.AsTime (CreatedAt msg))); AStr (Subject msg)];
   Text message_line [AStr (SenderId msg); AStr (Id msg)]].

Definition hint_line : string := "(more results — use --offset %d)".
Definition print_page (user folder : string) (offset : Z) (p : Page) : list text :=
  [Text "Folder: %s  User: %s  (total %d, hasMore: %v)"
     [AStr folder; AStr user; AInt (Total p); bool_text (HasMore p)]; Text "" []] ++
  concat (imap print_message (Messages p)) ++
  (if HasMore p then [Text "" []; Text hint_line [AInt (wrap64 (offset + Z.of_nat (length (Messages p))))]] else []).

Definition print_read (msg : Message) : list text :=
  [Text "ID:        %s" [AStr (Id msg)]; Text "From:      %s" [AStr (SenderId msg)];
   Text "To:        %s" [AStr (Relay.Join (RecipientIds msg) ", ")]; Text "Subject:   %s" [AStr (Subject msg)];
   Text "Date:      %s" [AStr (Date.second_zone (Date.AsTime (CreatedAt msg)))];
   Text "Read:      %v" [bool_text (IsRead msg)]; Text "Folder:    %s" [AStr (FolderId msg)]] ++
  (match Tags msg with [] => [] | tags => [Text "Tags:      %s" [AStr (Relay.Join tags ", ")]] end) ++
  [Text "" []; Text "%s" [AStr (Body msg)]].

Definition print_folders (user : string) (fs : list Folder) : list text :=
  [Text "Folders for %s:" [AStr user]; Text "" [];
   Text "%-20s %-8s %-8s %s" [AStr "ID"; AStr "Total"; AStr "Unread"; AStr "System"];
   Text "%-20s %-8s %-8s %s" [AStr "--------------------"; AStr "--------"; AStr "--------"; AStr "------"]] ++
  ((λ f, Text "%-20s %-8d %-8d %s" [AStr (FolderName f); AInt (MessageCount f); AInt (UnreadCount f);
           AStr (if IsSystem f then "yes" else "")]) <$> fs).

Definition print_stats (o : MapOrder) (user : string) (s : MailboxStats) : list text :=
  [Text "Stats for %s:" [AStr user]; Text "  total:  %d" [AInt (TotalMessages s)];
   Text "  unread: %d" [AInt (StatsUnread s)]; Text "  drafts: %d" [AInt (DraftCount s)]] ++
  (if bool_decide (FolderStats s = ∅) then []
   else [Text "" []; Text "Per-folder breakdown:" []] ++
        ((λ '(id, (total, unread)), Text "  %-20s  total=%-6d unread=%d" [AStr id; AInt total; AInt unread])
         <$> range o (FolderStats s))).

Section Commands.
Context {IC : Interceptors} {M : Type} {MS : MailboxService M}.
Variable g : guard.

(** The printed lines and the error. *)
Abbreviation output := (list text * result unit)%type.

Definition call {A} (failed : string) (rpc : M → result A * M) (print : A → list text) (m : M) : output * M :=
  match guarded g rpc m with
  | (Err err, m') => (([], Err (EWrap (Text failed []) err)), m')
  | (Ok a, m') => ((print a, Ok ()), m')
  end.

Definition runList (user folder : string) (limit offset : Z) : M → output * M :=
  call "list: %w" (ListMessages user folder limit offset) (print_page user folder offset).

Definition runRead (user id : string) : M → output * M := call "get message: %w" (GetMessage user id) print_read.

Definition runSend (from : string) (to : list string) (subject body reply_to thread : string) : M → output * M :=
  call "send: %w" (SendMessage (MkSend from to subject body reply_to thread))
    (λ msg, [Text "sent: id=%s status=%s" [AStr (Id msg); AStr (MsgStatus msg)]]).

Definition runTrash (user id : string) : M → output * M :=
  call "trash: %w" (DeleteMessage user id) (λ _, [Text "message %s moved to trash" [AStr id]]).
Definition runRestore (user id : string) : M → output * M :=
  call "restore: %w" (RestoreMessage user id) (λ _, [Text "message %s restored" [AStr id]]).
Definition runDelete (user id : string) : M → output * M :=
  call "delete: %w" (PermanentlyDeleteMessage user id) (λ _, [Text "message %s permanently deleted" [AStr id]]).

Definition runMove (user id folder : string) : M → output * M :=
  call "move: %w" (MoveMessage user id folder) (λ _, [Text "message %s moved to %s" [AStr id; AStr folder]]).

(** Adding comes first; removing is not tried when adding failed. *)
Definition runTag (user id add remove : string) (m : M) : output * M :=
  let '((out, res), m) :=
    if bool_decide (add = "") then (([], Ok ()), m)
    else call "add tag: %w" (AddTag user id add) (λ _, [Text "tag %q added to message %s" [AStr add; AStr id]]) m in
  match res with
  | Err err => ((out, Err err), m)
  | Ok _ =>
      if bool_decide (remove = "") then ((out, Ok ()), m)
      else
        let '((out', res), m) := call "remove tag: %w" (RemoveTag user id remove)
          (λ _, [Text "tag %q removed from message %s" [AStr remove; AStr id]]) m in
        ((out ++ out', res), m)
  end.

Definition runFolders (user : string) : M → output * M := call "list folders: %w" (ListFolders user) (print_folders user).

Definition runStats (o : MapOrder) (user : string) : M → output * M :=
  call "get stats: %w" (GetStats user) (print_stats o user).

(** A command against the node at [addr]; [NewClient] is [grpc.NewClient]. *)
Definition run (NewClient : string → result unit) (addr : string) (o : MapOrder) (c : command) (m : M) : output * M :=
  let refused := match c with
                 | TagCmd _ _ add remove => bool_decide (add = "") && bool_decide (remove = "")
                 | _ => false
                 end in
  if refused then (([], Err (EText (Text "provide --add or --remove" []))), m)
  else match NewClient addr with
  | Err err => (([], Err (EWrap (Text "connect %s: %w" [AStr addr]) err)), m)
  | Ok _ =>
      match c with
      | ListCmd user folder limit offset => runList user folder limit offset m
      | ReadCmd user id => runRead user id m
      | SendCmd from to subject body reply_to thread => runSend from to subject body reply_to thread m
      | TrashCmd user id => runTrash user id m
      | RestoreCmd user id => runRestore user id m
      | DeleteCmd user id => runDelete user id m
      | MoveCmd user id folder => runMove user id folder m
      | TagCmd user id add remove => runTag user id add remove m
      | FoldersCmd user => runFolders user m
      | StatsCmd user => runStats o user m
      end
  end.

(** *** Tagging *)

(** [mail tag] with both flags is the two calls in order, each with its line: a
    failure to add leaves the removal untried, a failure to remove leaves the tag
    added and says so before it fails. *)
Theorem tag_both user id add remove m :
  g = AllowAll → add ≠ "" → remove ≠ "" →
  let added := [Text "tag %q added to message %s" [AStr add; AStr id]] in
  let removed := [Text "tag %q removed from message %s" [AStr remove; AStr id]] in
  runTag user id add remove m =
    match AddTag user id add m with
    | (Err err, m1) => (([], Err (EWrap (Text "add tag: %w" []) err)), m1)
    | (Ok _, m1) =>
        match RemoveTag user id remove m1 with
        | (Err err, m2) => ((added, Err (EWrap (Text "remove tag: %w" []) err)), m2)
        | (Ok _, m2) => ((added ++ removed, Ok ()), m2)
        end
    end.
Proof.
  intros Hg Ha Hr. unfold runTag, call. rewrite Hg, !bool_decide_eq_false_2 by done. rewrite guarded_all.
  destruct (AddTag _ _ _ _) as [[[]|e] m1]; [|done]. rewrite guarded_all.
  by destruct (RemoveTag _ _ _ _) as [[[]|e] m2].
Qed.

(** *** Behind a token *)

(** The mail commands send no token either. *)
Theorem mail_refused_with_token NewClient addr o c m token :
  g = Bearer token →
  (∃ err, (run NewClient addr o c m).1 = ([], Err err)) ∧ (run NewClient addr o c m).2 = m.
Proof.
  intros Hg. unfold run. destruct (match c with TagCmd _ _ _ _ => _ | _ => _ end) eqn:Ht; [by split; [eexists|]|].
  destruct (NewClient addr); [|by split; [eexists|]].
  destruct c as [| | | | | | |user id add remove| |];
    unfold runList, runRead, runSend, runTrash, runRestore, runDelete, runMove, runTag, runFolders, runStats, call;
    rewrite Hg, ?guarded_refused; try (split; [by eexists|done]).
  destruct (bool_decide (add = "")); simpl in Ht; [rewrite Ht|]; rewrite ?guarded_refused; (split; [by eexists|done]).
Qed.

(** *** Paging through a folder *)

(** The identifiers a page printed, and the offset it says to go on at. *)
Definition printed_id (t : text) : option string :=
  match t with
  | Text f [AStr _; AStr id] => if bool_decide (f = message_line) then Some id else None
  | _ => None
  end.

Definition hint (out : list text) : option Z :=
  match list.last out with
  | Some (Text f [AInt z]) => if bool_decide (f = hint_line) then Some z else None
  | _ => None
  end.

(** Calling [mail list] again at the offset printed, as long as one is; the flag
    takes an [int32]. *)
Fixpoint follow (NewClient : string → result unit) (addr : string) (o : MapOrder) (user folder : string)
    (limit : Z) (fuel : nat) (offset : Z) (m : M) : option (list string * M) :=
  match fuel with
  | O => None
  | S fuel' =>
      if negb (offset <? 2 ^ 31) then None
      else match run NewClient addr o (ListCmd user folder limit offset) m with
      | ((out, Err _), _) => None
      | ((out, Ok _), m') =>
          match hint out with
          | None => Some (omap printed_id out, m')
          | Some next =>
              match follow NewClient addr o user folder limit fuel' next m' with
              | Some (ids, m'') => Some (omap printed_id out ++ ids, m'')
              | None => None
              end
          end
      end
  end.

Lemma printed_messages i msgs : omap printed_id (concat (imap (λ n, print_message (i + n)) msgs)) = Id <$> msgs.
Proof.
  revert i. induction msgs as [|msg msgs IH]; intros i; [done|]. simpl.
  rewrite (imap_ext _ (λ n, print_message (S i + n))) by (intros; simpl; f_equal; lia). by rewrite IH.
Qed.

Lemma printed_page user folder offset p : omap printed_id (print_page user folder offset p) = Id <$> Messages p.
Proof.
  unfold print_page. rewrite !omap_app. rewrite (printed_messages 0). simpl. by destruct (HasMore p); rewrite app_nil_r.
Qed.

Lemma last_messages i msgs : msgs ≠ [] → ∃ s id, list.last (concat (imap (λ n, print_message (i + n)) msgs)) = Some (Text message_line [AStr s; AStr id]).
Proof.
  revert i. induction msgs as [|msg msgs IH]; intros i Hne; [done|]. simpl.
  rewrite (imap_ext _ (λ n, print_message (S i + n))) by (intros; simpl; f_equal; lia).
  destruct msgs as [|msg' msgs]; [by eexists _, _|]. destruct (IH (S i)) as (s & id & Hl); [done|].
  exists s, id. rewrite <-Hl. by destruct (concat _).
Qed.

Lemma hint_page user folder offset p : hint (print_page user folder offset p) =
  if HasMore p then Some (wrap64 (offset + Z.of_nat (length (Messages p)))) else None.
Proof.
  unfold hint, print_page. destruct (HasMore p).
  - by rewrite !last_app.
  - rewrite app_nil_r, last_app. destruct (Messages p) as [|msg msgs] eqn:Hm; [done|].
    destruct (last_messages 0 (msg :: msgs)) as (s & id & Hl); [done|]. change (λ n, print_message (0 + n)) with print_message in Hl.
    by rewrite Hl.
Qed.

End Commands.

(** What a service documents of its listing: pages in the order of the folder's
    messages, at least one message while there are some and a page is asked for
    (a service may have a limit of its own), and whether more follow. *)
Class PagedListing (M : Type) {MS : MailboxService M} := {
  contents : string → string → M → list Message;
  page_size : Z → nat;
  page_size_pos : ∀ limit, 0 < limit → (0 < page_size limit)%nat;
  ListMessages_page : ∀ user folder limit offset m, 0 < limit → 0 <= offset →
    let all := contents user folder m in
    ListMessages user folder limit offset m =
      (Ok (MkPage (take (page_size limit) (drop (Z.to_nat offset) all)) (Z.of_nat (length all))
             (bool_decide (offset + Z.of_nat (page_size limit) < Z.of_nat (length all)))), m) }.

Lemma follow_pages {IC : Interceptors} {M : Type} {MS : MailboxService M} {PL : PagedListing M}
    NewClient addr o user folder limit fuel offset m :
  NewClient addr = Ok () → 0 < limit → Z.of_nat (length (contents user folder m)) < 2 ^ 31 →
  0 <= offset < 2 ^ 31 → (length (drop (Z.to_nat offset) (contents user folder m)) <= fuel)%nat → (0 < fuel)%nat →
  follow AllowAll NewClient addr o user folder limit fuel offset m =
    Some (Id <$> drop (Z.to_nat offset) (contents user folder m), m).
Proof.
  intros Hc Hl Hlen. pose proof (page_size_pos limit Hl) as Hp.
  revert offset. induction fuel as [|fuel IH]; intros offset [H0 Ho] Hfuel Hpos; [lia|].
  cbn [follow]. replace (offset <? 2 ^ 31) with true by (symmetry; by apply Z.ltb_lt). cbn [negb].
  unfold run. rewrite Hc. unfold runList, call. rewrite guarded_all, ListMessages_page by done.
  rewrite hint_page, printed_page. cbn [HasMore Messages].
  set (rest := drop (Z.to_nat offset) (contents user folder m)) in *.
  assert (length rest = length (contents user folder m) - Z.to_nat offset)%nat as Hr by apply length_drop.
  destruct (bool_decide _) eqn:Hmore; [apply bool_decide_eq_true in Hmore|apply bool_decide_eq_false in Hmore].
  - rewrite length_take, wrap64_id by (unfold int64_range; lia).
    rewrite Nat.min_l by lia. rewrite IH; [|lia|rewrite length_drop; lia|lia].
    f_equal. f_equal. rewrite <-fmap_app. f_equal. unfold rest.
    replace (Z.to_nat (offset + Z.of_nat (page_size limit))) with (Z.to_nat offset + page_size limit)%nat by lia.
    by rewrite <-drop_drop, take_drop.
  - by rewrite take_ge by lia.
Qed.

(** C40. Following the hints of [mail list] reads the whole folder: from any offset,
    calling the command again with the offset it prints ends after at most one
    call per message that is left, and the messages printed on the way are
    exactly those of the folder from there on, in its order, each once; nothing
    changes in the mailbox. This holds for any page size the service chooses, as
    long as the folder holds fewer messages than the [int32] flag can count. *)
Theorem mail_list_pages {IC : Interceptors} {M : Type} {MS : MailboxService M} {PL : PagedListing M}
    NewClient addr o user folder limit offset m :
  NewClient addr = Ok () → 0 < limit → 0 <= offset →
  offset < 2 ^ 31 → Z.of_nat (length (contents user folder m)) < 2 ^ 31 →
  let rest := drop (Z.to_nat offset) (contents user folder m) in
  follow AllowAll NewClient addr o user folder limit (Nat.max 1 (length rest)) offset m = Some (Id <$> rest, m).
Proof. intros Hc Hl H0 Ho Hlen rest. apply follow_pages; (done || fold rest; lia). Qed.

(** ** A mailbox *)
Module MailDemo.
#[local] Existing Instance CliDemo.plain_interceptors.

(** One user's messages in memory. *)
Definition Box : Type := list Message.

Definition with_message (id : string) (f : Message → option Message) (b : Box) : result unit * Box :=
  if existsb (λ msg, bool_decide (Id msg = id)) b then
    (Ok (), omap (λ msg, if bool_decide (Id msg = id) then f msg else Some msg) b)
  else (Err (EStatus NotFound (Text "message not found" [])), b).

Definition in_folder (folder : string) (msg : Message) : Message :=
  MkMessage (Id msg) (SenderId msg) (RecipientIds msg) (Subject msg) (Body msg) (CreatedAt msg) (IsRead msg)
    folder (Tags msg) (MsgStatus msg).
Definition with_tags (tags : list string) (msg : Message) : Message :=
  MkMessage (Id msg) (SenderId msg) (RecipientIds msg) (Subject msg) (Body msg) (CreatedAt msg) (IsRead msg)
    (FolderId msg) tags (MsgStatus msg).

Definition box_folder (folder : string) (b : Box) : list Message :=
  List.filter (λ msg, bool_decide (FolderId msg = folder)) b.

(** At most two messages a page. *)
Definition box_page (limit : Z) : nat := Nat.min 2 (Z.to_nat limit).

Definition unread (b : Box) : Z := Z.of_nat (length (List.filter (λ msg, negb (IsRead msg)) b)).

#[local] Instance box_service : MailboxService Box := {
  ListMessages user folder limit offset b :=
    let all := box_folder folder b in
    (Ok (MkPage (take (box_page limit) (drop (Z.to_nat offset) all)) (Z.of_nat (length all))
           (bool_decide (offset + Z.of_nat (box_page limit) < Z.of_nat (length all)))), b);
  GetMessage user id b :=
    (match List.find (λ msg, bool_decide (Id msg = id)) b with
     | Some msg => Ok msg
     | None => Err (EStatus NotFound (Text "message not found" []))
     end, b);
  SendMessage r b :=
    let msg := MkMessage (pretty (length b)) (sm_UserId r) (sm_RecipientIds r) (sm_Subject r) (sm_Body r) None false
                 "__sent" [] "sent" in
    (Ok msg, b ++ [msg]);
  DeleteMessage user id := with_message id (λ msg, Some (in_folder "__trash" msg));
  RestoreMessage user id := with_message id (λ msg, Some (in_folder "__inbox" msg));
  PermanentlyDeleteMessage user id := with_message id (λ _, None);
  MoveMessage user id folder := with_message id (λ msg, Some (in_folder folder msg));
  AddTag user id tag := with_message id (λ msg, Some (with_tags (Tags msg ++ [tag]) msg));
  RemoveTag user id tag := with_message id (λ msg, Some (with_tags (List.filter (λ t, negb (String.eqb t tag)) (Tags msg)) msg));
  ListFolders user b := (Ok [MkFolder "__inbox" (Z.of_nat (length (box_folder "__inbox" b))) (unread (box_folder "__inbox" b)) true], b);
  GetStats user b := (Ok (MkStats (Z.of_nat (length b)) (unread b) 0 ∅), b) }.

#[local, refine] Instance box_listing : PagedListing Box := {
  contents _ folder b := box_folder folder b; page_size := box_page }.
Proof.
  - intros limit H. unfold box_page. lia.
  - reflexivity.
Defined.

Definition note (id from : string) : Message := MkMessage id from ["bob@x"] "hi" "text" None false "__inbox" [] "delivered".
Definition demo_box : Box := [note "m1" "a@x"; note "m2" "b@x"; note "m3" "c@x"; note "m4" "d@x"; note "m5" "e@x"].

(** The second page of five messages, and the third by its hint. *)
Example demo_second_page :
  (run AllowAll CliDemo.dial "" some_order (ListCmd "bob@x" "__inbox" 20 2) demo_box).1 =
  ([Text "Folder: %s  User: %s  (total %d, hasMore: %v)" [AStr "__inbox"; AStr "bob@x"; AInt 5; AStr "true"]; Text "" [];
    Text "%3d. %s [%s] %s" [AInt 1; AStr "[ ]"; AStr "1970-01-01 00:00"; AStr "hi"]; Text message_line [AStr "c@x"; AStr "m3"];
    Text "%3d. %s [%s] %s" [AInt 2; AStr "[ ]"; AStr "1970-01-01 00:00"; AStr "hi"]; Text message_line [AStr "d@x"; AStr "m4"];
    Text "" []; Text hint_line [AInt 4]], Ok ()).
Proof. vm_compute. reflexivity. Qed.

(** Tagging, and the refusal of a command without a tag. *)
Example demo_tag :
  let moved := (run AllowAll CliDemo.dial "" some_order (TagCmd "bob@x" "m1" "todo" "") demo_box).2 in
  Tags <$> head moved = Some ["todo"] ∧
  run AllowAll CliDemo.dial "" some_order (TagCmd "bob@x" "m1" "" "") demo_box =
    (([], Err (EText (Text "provide --add or --remove" []))), demo_box).
Proof. vm_compute. split; reflexivity. Qed.

Lemma mail_list_pages_witness :
  ∃ calls, follow AllowAll CliDemo.dial "" some_order "bob@x" "__inbox" 20 calls 0 demo_box =
    Some (["m1"; "m2"; "m3"; "m4"; "m5"], demo_box).
Proof.
  eexists. etrans.
  - apply (mail_list_pages CliDemo.dial "" some_order "bob@x" "__inbox" 20 0 demo_box);
      [reflexivity|lia|lia|lia|vm_compute; reflexivity].
  - vm_compute. reflexivity.
Defined.

End MailDemo.

End MailCli.
